(** * Formation Docs: documentation model, resolver, renderers and navigation

    A shallow embedding of the docs module of formation-docs, as it stands
    in [src/__tests__/docs.test.ts] with the types of [src/docsTypes.ts]:
    the normalizer, the type reference resolver, the content tree builder,
    [getDocs], the HTML walker and the navigation assembler of
    [renderHtmlDocs], together with the properties its specification states
    about them.

    Conventions of the embedding:
    - a JavaScript string is a [string] of 8-bit code units; the character
      classes of the regular expressions ([\w], [\s], [.]) are written out
      as boolean functions on [ascii];
    - an optional property ([dir?: string]) is an [option]; a truthiness
      test [if (x)] on an optional string is [truthy x];
    - [Map<string, _>] is a [gmap string _], [Set<string>] a [gset string];
      maps whose iteration order is observed are association lists;
    - [async] functions are sequential here (every call is awaited at once),
      so a promise is its outcome: a value, a rejection, or, for the
      recursive resolver, exhaustion of the recursion budget of the model;
    - module-level mutable state ([renderType]) is passed explicitly. *)

From Stdlib Require Import String Ascii List ZArith Bool Lia.
From stdpp Require Import base option list gmap strings pretty sorting.

Import ListNotations.
#[local] Set Warnings "-register-all,-clear-no-such-hyp".
Local Open Scope string_scope.
Local Open Scope list_scope.

(** ** Characters and strings *)

Definition code (c : ascii) : nat := nat_of_ascii c.

Definition inRange (lo hi n : nat) : bool := (lo <=? n)%nat && (n <=? hi)%nat.

Definition isDigit (c : ascii) : bool := inRange 48 57 (code c).
Definition isUpper (c : ascii) : bool := inRange 65 90 (code c).
Definition isLower (c : ascii) : bool := inRange 97 122 (code c).
Definition isLetter (c : ascii) : bool := isUpper c || isLower c.

(** [\w]: [A-Za-z0-9_]. *)
Definition isWord (c : ascii) : bool :=
  isLetter c || isDigit c || (code c =? 95)%nat.

(** [\s] on 8-bit code units: TAB, LF, VT, FF, CR, space and NBSP. *)
Definition isSpace (c : ascii) : bool :=
  inRange 9 13 (code c) || (code c =? 32)%nat || (code c =? 160)%nat.

(** Line terminators, the characters [.] does not match: LF and CR. *)
Definition isLineTerminator (c : ascii) : bool :=
  (code c =? 10)%nat || (code c =? 13)%nat.

Definition toLowerChar (c : ascii) : ascii :=
  if isUpper c then ascii_of_nat (code c + 32) else c.

Fixpoint mapString (f : ascii -> ascii) (s : string) : string :=
  match s with
  | EmptyString => EmptyString
  | String c r => String (f c) (mapString f r)
  end.

Fixpoint filterString (p : ascii -> bool) (s : string) : string :=
  match s with
  | EmptyString => EmptyString
  | String c r => if p c then String c (filterString p r) else filterString p r
  end.

Fixpoint allString (p : ascii -> bool) (s : string) : bool :=
  match s with
  | EmptyString => true
  | String c r => p c && allString p r
  end.

Definition toLowerCase (s : string) : string := mapString toLowerChar s.

Fixpoint trimStart (s : string) : string :=
  match s with
  | String c r => if isSpace c then trimStart r else s
  | EmptyString => EmptyString
  end.

(** Drops the trailing white space: a character stays when it is not white
    space or when something that stays follows it. *)
Fixpoint trimEnd (s : string) : string :=
  match s with
  | EmptyString => EmptyString
  | String c r =>
      match trimEnd r with
      | EmptyString => if isSpace c then EmptyString else String c EmptyString
      | r' => String c r'
      end
  end.

Definition trim (s : string) : string := trimEnd (trimStart s).

(** [s.startsWith(p)]. *)
Fixpoint startsWith (s p : string) {struct p} : bool :=
  match p with
  | EmptyString => true
  | String b p' =>
      match s with
      | EmptyString => false
      | String a s' => Ascii.eqb a b && startsWith s' p'
      end
  end.

Fixpoint dropString (n : nat) (s : string) : string :=
  match n, s with
  | O, _ => s
  | S m, String _ r => dropString m r
  | S _, EmptyString => EmptyString
  end.

(** [Array.prototype.join]. *)
Fixpoint join (sep : string) (l : list string) : string :=
  match l with
  | [] => ""
  | [x] => x
  | x :: r => x ++ sep ++ join sep r
  end.

(** Truthiness of an optional string: defined and not empty. *)
Definition truthy (o : option string) : bool :=
  match o with
  | Some s => negb (String.eqb s "")
  | None => false
  end.

(** [o === s] for an optional string [o]. *)
Definition isString (o : option string) (s : string) : bool :=
  match o with
  | Some x => String.eqb x s
  | None => false
  end.

(** Truthiness of an optional flag. *)
Definition isTrue (o : option bool) : bool :=
  match o with
  | Some b => b
  | None => false
  end.

(** A value interpolated in a template literal: [undefined] prints itself. *)
Definition interpolate (o : option string) : string :=
  match o with
  | Some s => s
  | None => "undefined"
  end.

(** [a || b] on optional strings. *)
Definition orElse (a b : option string) : option string :=
  if truthy a then a else b.

(** *** [escape] *)

Definition quoteChar : ascii := ascii_of_nat 34.

(** The one-character string holding a double quote. *)
Definition quote : string := String quoteChar EmptyString.

Definition entity (c : ascii) : string :=
  if Ascii.eqb c quoteChar then "&quot;"
  else
    match c with
    | "&"%char => "&amp;"
    | "<"%char => "&lt;"
    | ">"%char => "&gt;"
    | "'"%char => "&#39;"
    | "*"%char => "&ast;"
    | _ => String c EmptyString
    end.

Fixpoint escape (value : string) : string :=
  match value with
  | EmptyString => EmptyString
  | String c r => entity c ++ escape r
  end.

(** *** [getId]

    [name.trim().replace(/[^\w\s]|_/g, '').replace(/\s+/g, '-').toLowerCase()] *)

(** A character survives [/[^\w\s]|_/g] when it is a word character or white
    space, and not the underscore. *)
Definition keptInId (c : ascii) : bool :=
  (isWord c || isSpace c) && negb (code c =? 95)%nat.

(** [/\s+/g] to ['-']: every maximal run of white space becomes one hyphen;
    [inRun] tells that the previous character was white space. *)
Fixpoint hyphenateFrom (inRun : bool) (s : string) : string :=
  match s with
  | EmptyString => EmptyString
  | String c r =>
      if isSpace c then
        if inRun then hyphenateFrom true r
        else String "-"%char (hyphenateFrom true r)
      else String c (hyphenateFrom false r)
  end.

Definition hyphenate (s : string) : string := hyphenateFrom false s.

Definition getId (name : string) : string :=
  toLowerCase (hyphenate (filterString keptInId (trim name))).

(** *** [normalizeTypes]

    [name.replace(/Array\.<(.+)>/, '$1[]').replace(/.</g, '<')] *)

(** [.*>] with the greedy star: the longest run of characters that are not
    line terminators, given back until a ['>'] follows. Returns what the
    star matched and what follows the ['>']. *)
Fixpoint dotStarGt (s : string) : option (string * string) :=
  match s with
  | EmptyString => None
  | String c r =>
      if isLineTerminator c then None
      else
        match dotStarGt r with
        | Some (g, rest) => Some (String c g, rest)
        | None => if Ascii.eqb c ">" then Some (EmptyString, r) else None
        end
  end.

(** [(.+)>]: one character that is not a line terminator, then [.*>]. *)
Definition dotPlusGt (s : string) : option (string * string) :=
  match s with
  | EmptyString => None
  | String c r =>
      if isLineTerminator c then None
      else
        match dotStarGt r with
        | Some (g, rest) => Some (String c g, rest)
        | None => None
        end
  end.

(** The first (leftmost) match of [/Array\.<(.+)>/] is replaced by the
    group followed by ["[]"]; the regular expression has no [g] flag. *)
Fixpoint replaceArray (s : string) : string :=
  match s with
  | EmptyString => EmptyString
  | String c r =>
      match (if startsWith s "Array.<" then dotPlusGt (dropString 7 s) else None) with
      | Some (g, rest) => g ++ "[]" ++ rest
      | None => String c (replaceArray r)
      end
  end.

(** [/.</g] to ['<']: wherever a character that is not a line terminator
    stands before a ['<'], the pair becomes ['<']; matches do not overlap. *)
Fixpoint replaceDotLt (s : string) : string :=
  match s with
  | EmptyString => EmptyString
  | String c r =>
      match r with
      | String d r' =>
          if negb (isLineTerminator c) && Ascii.eqb d "<"
          then String "<"%char (replaceDotLt r')
          else String c (replaceDotLt r)
      | EmptyString => String c EmptyString
      end
  end.

Definition normalizeType (name : string) : string :=
  replaceDotLt (replaceArray name).

Definition normalizeTypes (types : list string) : list string :=
  map normalizeType types.

(** ** Raw Record Normalizer *)

(** A number value. A finite number that is not zero is given by its
    shortest decimal form, the one [Number::toString] reads: the integer
    [digits], which has [k] decimal digits and ends in no zero, and the
    exponent [n]; the value is [digits] times ten to the power [n - k],
    negated when [negative] is set. So [1e21] is [digits = 1, n = 22] and
    [0.5] is [digits = 5, n = 0]. *)
Inductive JsNumber : Type :=
  | NaN
  | Infinity (negative : bool)
  | Zero (negative : bool)
  | Finite (negative : bool) (digits : positive) (n : Z).

(** The values the parser gives a raw [defaultvalue: unknown]: it casts
    the text of a default to [undefined], [null], a boolean or a number
    where it reads as one, and leaves it a string otherwise. [JUndefined]
    is also the absent property. *)
Inductive JsValue : Type :=
  | JUndefined
  | JNull
  | JBoolean (b : bool)
  | JNumber (x : JsNumber)
  | JString (s : string).

(** [n] times the character ['0']. *)
Fixpoint zeros (n : nat) : string :=
  match n with
  | O => ""
  | S m => String "0" (zeros m)
  end.

(** The first [n] characters of [s]. *)
Fixpoint takeString (n : nat) (s : string) : string :=
  match n, s with
  | S m, String c r => String c (takeString m r)
  | _, _ => ""
  end.

(** [Number::toString(x)] in radix 10: the digits with the zeros or the
    decimal point the exponent asks for while [n] is between -5 and 21,
    the exponential notation outside. *)
Definition numberToString (x : JsNumber) : string :=
  match x with
  | NaN => "NaN"
  | Zero _ => "0"
  | Infinity negative => (if negative then "-" else "") +:+ "Infinity"
  | Finite negative digits n =>
      let s := pretty (N.pos digits) in
      let k := Z.of_nat (String.length s) in
      (if negative then "-" else "") +:+
      (if ((-5 <=? n) && (n <=? 21))%Z then
         if (k <=? n)%Z then s +:+ zeros (Z.to_nat (n - k))
         else if (0 <? n)%Z
              then takeString (Z.to_nat n) s +:+ "." +:+ dropString (Z.to_nat n) s
              else "0." +:+ zeros (Z.to_nat (- n)) +:+ s
       else
         let e := (n - 1)%Z in
         let exponent := (if (e <? 0)%Z then "-" else "+") +:+ pretty (Z.abs e) in
         if (k =? 1)%Z then s +:+ "e" +:+ exponent
         else takeString 1 s +:+ "." +:+ dropString 1 s +:+ "e" +:+ exponent)
  end.

(** [String(value)]. *)
Definition jsString (v : JsValue) : string :=
  match v with
  | JUndefined => "undefined"
  | JNull => "null"
  | JBoolean true => "true"
  | JBoolean false => "false"
  | JNumber x => numberToString x
  | JString s => s
  end.

(** [value !== undefined]. *)
Definition isDefined (v : JsValue) : bool :=
  match v with
  | JUndefined => false
  | _ => true
  end.

(** [DocsJsDocType]: a raw parameter, property or return record, with the
    two properties the interface requires, [name] and [type], and the three
    it leaves optional; [jd_type] is [type.names]. *)
Record DocsJsDocType : Type := {
  jd_name : string;
  jd_type : list string;
  jd_description : option string;
  jd_optional : option bool;
  jd_defaultvalue : JsValue
}.

(** [DocsType] as [normalizeParams] builds it for a parameter or property:
    only these five properties are ever set on it, and read from it. *)
Record DocsParam : Type := {
  p_name : string;
  p_type : list string;
  p_description : option string;
  p_optional : option bool;
  p_defaults : option string
}.

Record DocsReturn : Type := {
  r_type : list string;
  r_description : option string
}.

(** [if (x) o.x = x] for an optional string. *)
Definition whenTruthy (o : option string) : option string :=
  if truthy o then o else None.

Definition normalizeParam (param : DocsJsDocType) : DocsParam :=
  {| p_name := jd_name param;
     p_type := normalizeTypes (jd_type param);
     p_description := whenTruthy (jd_description param);
     p_optional := if isTrue (jd_optional param) then jd_optional param else None;
     p_defaults :=
       if isDefined (jd_defaultvalue param)
       then Some (jsString (jd_defaultvalue param))
       else None |}.

Definition normalizeParams (params : list DocsJsDocType) : list DocsParam :=
  map normalizeParam params.

Definition normalizeReturn (item : DocsJsDocType) : DocsReturn :=
  {| r_type := normalizeTypes (jd_type item);
     r_description := whenTruthy (jd_description item) |}.

(** ** Content nodes *)

(** [DocsContent]: [{ content: string | DocsContent[], tag?, link? }]. *)
Inductive DocsContent : Type :=
  | StrNode (content : string) (tag link : option string)
  | ArrNode (content : list DocsContent) (tag link : option string).

Definition nodeTag (data : DocsContent) : option string :=
  match data with
  | StrNode _ t _ | ArrNode _ t _ => t
  end.

Definition nodeLink (data : DocsContent) : option string :=
  match data with
  | StrNode _ _ l | ArrNode _ _ l => l
  end.

(** [headingInfo]: heading tags and levels. *)
Definition headingInfo (tag : string) : option nat :=
  if String.eqb tag "h1" then Some 1
  else if String.eqb tag "h2" then Some 2
  else if String.eqb tag "h3" then Some 3
  else if String.eqb tag "h4" then Some 4
  else if String.eqb tag "h5" then Some 5
  else if String.eqb tag "h6" then Some 6
  else None.

(** [`h${n}`]. *)
Definition hTag (n : nat) : string := "h" +:+ pretty n.

(** ** [markdownToHtml] *)

(** [(.*?)] up to the closing delimiter: the shortest run of characters
    that are not line terminators after which [close] stands. *)
Fixpoint lazyUntil (close : string) (s : string) : option (string * string) :=
  if startsWith s close then Some (EmptyString, dropString (String.length close) s)
  else
    match s with
    | EmptyString => None
    | String c r =>
        if isLineTerminator c then None
        else
          match lazyUntil close r with
          | Some (g, rest) => Some (String c g, rest)
          | None => None
          end
    end.

(** [([^x]+)x]: one or more characters other than [x], then [x]. *)
Fixpoint untilChar (x : ascii) (s : string) : option (string * string) :=
  match s with
  | EmptyString => None
  | String c r =>
      if Ascii.eqb c x then None
      else
        match r with
        | String d r' =>
            if Ascii.eqb d x then Some (String c EmptyString, r')
            else
              match untilChar x r with
              | Some (g, rest) => Some (String c g, rest)
              | None => None
              end
        | EmptyString => None
        end
  end.

(** A global [replace]: at every position, left to right, [pat] is tried on
    the text from there; a match gives the replacement and the text that
    follows it, and scanning resumes after the match ([skip] counts the
    characters of the current match still to pass). *)
Fixpoint replaceAll (pat : string -> option (string * string)) (skip : nat) (s : string) : string :=
  match s with
  | EmptyString => EmptyString
  | String c r =>
      match skip with
      | S k => replaceAll pat k r
      | O =>
          match pat s with
          | Some (repl, rest) =>
              repl +:+ replaceAll pat (String.length s - String.length rest - 1) r
          | None => String c (replaceAll pat 0 r)
          end
      end
  end.

Definition delimited (open close : string) (s : string) : option (string * string) :=
  if startsWith s open then lazyUntil close (dropString (String.length open) s) else None.

(** [/\*\*(.*?)\*\*/] to [<strong>$1</strong>]. *)
Definition boldPat (s : string) : option (string * string) :=
  match delimited "**" "**" s with
  | Some (g, rest) => Some ("<strong>" +:+ g +:+ "</strong>", rest)
  | None => None
  end.

(** [/\*(.*?)\*/] to [<em>$1</em>]. *)
Definition italicPat (s : string) : option (string * string) :=
  match delimited "*" "*" s with
  | Some (g, rest) => Some ("<em>" +:+ g +:+ "</em>", rest)
  | None => None
  end.

(** [/`([^`]+)`/] to [<code>$1</code>]. *)
Definition codePat (s : string) : option (string * string) :=
  match s with
  | String "`" r =>
      match untilChar "`" r with
      | Some (g, rest) => Some ("<code>" +:+ g +:+ "</code>", rest)
      | None => None
      end
  | _ => None
  end.

(** [/\[([^\]]+)\]\(([^)]+)\)/] to an anchor on [$2] holding [$1]. *)
Definition linkPat (s : string) : option (string * string) :=
  match s with
  | String "[" r =>
      match untilChar "]" r with
      | Some (text, String "(" r') =>
          match untilChar ")" r' with
          | Some (url, rest) =>
              Some ("<a href=" +:+ quote +:+ url +:+ quote +:+ ">" +:+ text +:+ "</a>", rest)
          | None => None
          end
      | _ => None
      end
  | _ => None
  end.

Definition markdownToHtml (value : string) : string :=
  replaceAll linkPat 0
    (replaceAll codePat 0
      (replaceAll italicPat 0
        (replaceAll boldPat 0 value))).

(** ** HTML walker *)

(** [DocsHeading]: an entry of the heading index. *)
Inductive DocsHeading : Type :=
  | Heading (id tag title : string) (children : option (list DocsHeading)).

Definition headingId (h : DocsHeading) : string :=
  match h with Heading i _ _ _ => i end.

Definition headingChildren (h : DocsHeading) : list DocsHeading :=
  match h with Heading _ _ _ c => default [] c end.

(** [headingInfo.has(tag)]. *)
Definition isHeadingTag (tag : string) : bool :=
  match headingInfo tag with Some _ => true | None => false end.

(** [tag === 'a']. *)
Definition isAnchor (tag : option string) : bool :=
  match tag with
  | Some t => String.eqb t "a"
  | None => false
  end.

(** The attribute record, in the order its keys were set ([Object.entries]). *)
Definition Attr : Type := list (string * string).

Definition attrGet (key : string) (attr : Attr) : option string :=
  snd <$> List.find (fun kv => String.eqb (fst kv) key) attr.

(** [for (const [key, value] of Object.entries(attr)) attrs += ` ${key}="${value}"`] *)
Definition renderAttrs (attr : Attr) : string :=
  fold_left (fun attrs kv => attrs +:+ " " +:+ fst kv +:+ "=" +:+ quote +:+ snd kv +:+ quote) attr "".

(** The first free id: the [while (_ids.has(newId)) suffix += 1] loop. A
    round that finds [`${id}-${suffix}`] taken tries the next suffix; the
    set holds [size _ids] ids, hence after that many taken suffixes the next
    one is free and the loop has stopped: [rounds] is given that value. *)
Definition suffixed (id : string) (suffix : nat) : string :=
  id +:+ "-" +:+ pretty suffix.

Fixpoint freeSuffix (_ids : gset string) (id : string) (rounds suffix : nat) : nat :=
  match rounds with
  | O => suffix
  | S n =>
      if decide (suffixed id suffix ∈ _ids)
      then freeSuffix _ids id n (S suffix)
      else suffix
  end.

(** The id of a heading with text [content], given the ids taken so far. *)
Definition uniqueId (_ids : gset string) (content : string) : string :=
  let id := getId content in
  if decide (id ∈ _ids)
  then suffixed id (freeSuffix _ids id (size _ids) 1)
  else id.

(** [f] applied to the last element of a list. *)
Definition mapLast {A : Type} (f : A -> A) : list A -> list A :=
  fix go (l : list A) : list A :=
    match l with
    | [] => []
    | [x] => [f x]
    | x :: r => x :: go r
    end.

(** The walk down the last-seen chain of the index, from [parent]:
    [while (parentLevel < targetLevel && parent.children?.length)] moves to
    the last child; where it stops, [headingData] is pushed. *)
Fixpoint attachHeading (targetLevel : nat) (headingData : DocsHeading)
    (parent : DocsHeading) {struct parent} : DocsHeading :=
  match parent with
  | Heading i t ti children =>
      let pushed := Heading i t ti (Some (default [] children ++ [headingData])) in
      match headingInfo t, children with
      | Some parentLevel, Some (c :: cs) =>
          if (parentLevel <? targetLevel)%nat
          then Heading i t ti (Some (mapLast (attachHeading targetLevel headingData) (c :: cs)))
          else pushed
      | _, _ => pushed
      end
  end.

(** The same on [headings.ref], whose last entry is the first parent. *)
Definition attachToLast (targetLevel : nat) (headingData : DocsHeading)
    (headings : list DocsHeading) : list DocsHeading :=
  mapLast (attachHeading targetLevel headingData) headings.

Section Walker.

(** The caller's attribute filter. It is a JavaScript closure, free to keep
    state of its own: [Hook] is that state. *)
Context {Hook : Type}.
Variable filterAttr : Attr -> DocsContent -> string -> Hook -> Attr * Hook.

(** What a walk reads and writes: [title.ref], [headings.ref],
    [_output.ref], [_ids] and the filter's state. *)
Record HtmlState : Type := {
  title : string;
  headings : list DocsHeading;
  output : string;
  ids : gset string;
  hook : Hook
}.

Definition emit (s : string) (st : HtmlState) : HtmlState :=
  {| title := title st; headings := headings st;
     output := output st +:+ s; ids := ids st; hook := hook st |}.

(** The heading branch for a tag other than [h1]: the id is recorded and
    the entry goes to the index. *)
Definition registerHeading (id content tag : string) (headingLevel : nat)
    (st : HtmlState) : HtmlState :=
  let headingsLen := length (headings st) in
  let headingData := Heading id tag content None in
  let pushed :=
    if (headingLevel =? 2)%nat then headings st ++ [headingData] else headings st in
  let attached :=
    if (2 <? headingLevel)%nat && negb (headingsLen =? 0)%nat
    then attachToLast (headingLevel - 1) headingData pushed
    else pushed in
  {| title := title st; headings := attached; output := output st;
     ids := {[ id ]} ∪ ids st; hook := hook st |}.

(** The opening and closing tags of a node, after the filter ran. *)
Definition tagsOf (tag link : option string) (attr : Attr) : string * string :=
  let attrs := renderAttrs attr in
  if truthy link && isAnchor tag
  then ("<a" +:+ attrs +:+ ">", "</a>")
  else if truthy tag
  then ("<" +:+ interpolate tag +:+ attrs +:+ ">", "</" +:+ interpolate tag +:+ ">")
  else ("", "").

(** [getHtml] on a node whose content is a string. [permalink] stands for
    the nested call that a heading makes on its permalink node. *)
Definition getHtmlStr
    (permalink : DocsContent -> string -> HtmlState -> HtmlState)
    (content : string) (tag link : option string) (outerTag : string)
    (st : HtmlState) : HtmlState :=
  let data := StrNode content tag link in
  let isHeading := match tag with Some t => isHeadingTag t | None => false end in
  let isLink := truthy link && isAnchor tag in
  let isHeadingLink := isLink && isHeadingTag outerTag in
  if String.eqb content "" then st
  else
    let id := if isHeading then uniqueId (ids st) content else "" in
    let attr0 : Attr := if isHeading then [("id", id)] else [] in
    let st1 :=
      match tag with
      | Some t =>
          match headingInfo t with
          | Some 1 =>
              {| title := content; headings := headings st; output := output st;
                 ids := ids st; hook := hook st |}
          | Some headingLevel => registerHeading id content t headingLevel st
          | None => st
          end
      | None => st
      end in
    let attr1 := if isLink then attr0 ++ [("href", interpolate link)] else attr0 in
    let attr2 := if isHeadingLink then attr1 ++ [("aria-label", content)] else attr1 in
    let '(attr, h) := filterAttr attr2 data outerTag (hook st1) in
    let st2 := {| title := title st1; headings := headings st1; output := output st1;
                  ids := ids st1; hook := h |} in
    let '(opening, closing) := tagsOf tag link attr in
    let st3 := emit opening st2 in
    let st4 := emit (if isHeadingLink then "#" else markdownToHtml content) st3 in
    let st5 :=
      if isHeading
      then permalink (StrNode ("Permalink: " +:+ content) (Some "a") (Some ("#" +:+ id)))
                     (interpolate tag) st4
      else st4 in
    emit closing st5.

(** The permalink node has the tag [a], which is no heading: the call on
    it makes no further call. *)
Definition getHtmlPermalink (data : DocsContent) (outerTag : string)
    (st : HtmlState) : HtmlState :=
  match data with
  | StrNode content tag link => getHtmlStr (fun _ _ s => s) content tag link outerTag st
  | ArrNode _ _ _ => st
  end.

Fixpoint getHtml (data : DocsContent) (outerTag : string) (st : HtmlState)
    {struct data} : HtmlState :=
  match data with
  | StrNode content tag link => getHtmlStr getHtmlPermalink content tag link outerTag st
  | ArrNode content tag link =>
      match content with
      | [] => st
      | _ =>
          let isLink := truthy link && isAnchor tag in
          let attr1 : Attr := if isLink then [("href", interpolate link)] else [] in
          let '(attr, h) := filterAttr attr1 data outerTag (hook st) in
          let st2 := {| title := title st; headings := headings st; output := output st;
                        ids := ids st; hook := h |} in
          let '(opening, closing) := tagsOf tag link attr in
          let st3 := emit opening st2 in
          let st4 := fold_left (fun s item => getHtml item outerTag s) content st3 in
          emit closing st4
      end
  end.

(** A walk with the default [title], [headings], [_output] and [_ids]. *)
Definition initialHtml (h : Hook) : HtmlState :=
  {| title := ""; headings := []; output := ""; ids := ∅; hook := h |}.

End Walker.

Arguments HtmlState : clear implicits.

(** [filterAttr = (attr) => attr], the default of [renderHtmlDocs]. *)
Definition defaultFilterAttr (attr : Attr) (_ : DocsContent) (_ : string) (h : unit) : Attr * unit :=
  (attr, h).

(** ** Navigation assembler (the end of [renderHtmlDocs]) *)

(** [DocsNavigationItem]. [children] holds what [navigationMap.get] gave,
    which is [undefined] for a slug no longer in the map. *)
Inductive DocsNavigationItem : Type :=
  | NavItem (id title link : string)
            (children : option (list (option DocsNavigationItem))).

Definition navLink (item : DocsNavigationItem) : string :=
  match item with NavItem _ _ l _ => l end.

Definition navChildren (item : DocsNavigationItem) : list (option DocsNavigationItem) :=
  match item with NavItem _ _ _ c => default [] c end.

(** [navigationSlugs.sort()]: strings in the order of their code units. *)
Fixpoint insertSorted (s : string) (l : list string) : list string :=
  match l with
  | [] => [s]
  | x :: r => if String.leb s x then s :: l else x :: insertSorted s r
  end.

Definition sortSlugs (l : list string) : list string :=
  fold_right insertSorted [] l.

(** The inner [navigationSlugs.forEach]: every other slug that starts with
    [slug] gives its map entry to [children] and leaves the map. *)
Definition collectChildren (slug : string) (navigationSlugs : list string)
    (navigationMap : gmap string DocsNavigationItem)
    : list (option DocsNavigationItem) * gmap string DocsNavigationItem :=
  fold_left
    (fun acc s =>
       if startsWith s slug && negb (String.eqb s slug)
       then (fst acc ++ [snd acc !! s], delete s (snd acc))
       else acc)
    navigationSlugs ([], navigationMap).

Definition withChildren (item : DocsNavigationItem)
    (children : list (option DocsNavigationItem)) : DocsNavigationItem :=
  match children, item with
  | [], _ => item
  | _, NavItem i t l _ => NavItem i t l (Some children)
  end.

(** [for (const slug of navigationSlugs)], on the slugs still to visit. *)
Fixpoint assemble (navigationSlugs todo : list string)
    (navigationMap : gmap string DocsNavigationItem)
    (navigation : list DocsNavigationItem) : list DocsNavigationItem :=
  match todo with
  | [] => navigation
  | slug :: rest =>
      let item := navigationMap !! slug in
      let '(children, navigationMap') :=
        collectChildren slug navigationSlugs navigationMap in
      match item with
      | None => assemble navigationSlugs rest navigationMap' navigation
      | Some it =>
          assemble navigationSlugs rest navigationMap'
                   (navigation ++ [withChildren it children])
      end
  end.

(** A rendered page as the navigation sees it. *)
Record NavPage : Type := { np_slug : string; np_id : string; np_title : string }.

Definition pageItem (p : NavPage) : DocsNavigationItem :=
  NavItem (np_id p) (np_title p) (np_slug p) None.

(** [navigationSlugs.push(slug)] and [navigationMap.set(slug, ...)] for every
    page, then the sort and the fold. *)
Definition buildNavigation (pages : list NavPage) : list DocsNavigationItem :=
  let navigationSlugs := sortSlugs (map np_slug pages) in
  let navigationMap : gmap string DocsNavigationItem :=
    fold_left (fun m p => <[np_slug p := pageItem p]> m) pages ∅ in
  assemble navigationSlugs navigationSlugs navigationMap [].

(** ** Outcomes of the asynchronous functions *)

(** Why a promise is rejected. *)
Inductive Failure : Type :=
  | ReadFailure (dir path : string)   (* [readFile] rejected *)
  | TypeFailure.                      (* a method call on [undefined] *)

(** A settled promise; [Exhausted] is the recursion budget of the model
    running out, which no theorem below leaves possible. *)
Inductive Outcome (A : Type) : Type :=
  | Done (a : A)
  | Rejected (e : Failure)
  | Exhausted.

Arguments Done {A} a.
Arguments Rejected {A} e.
Arguments Exhausted {A}.

Definition bind {A B : Type} (m : Outcome A) (k : A -> Outcome B) : Outcome B :=
  match m with
  | Done a => k a
  | Rejected e => Rejected e
  | Exhausted => Exhausted
  end.

#[global] Instance Outcome_bind : MBind Outcome := fun A B k m => bind m k.
#[global] Instance Outcome_ret : MRet Outcome := fun A a => Done a.

(** [renderType.ref], the module-level render type. *)
Inductive RenderType : Type := Markdown | Html.

Definition isHtmlType (r : RenderType) : bool :=
  match r with Html => true | Markdown => false end.

(** ** [normalizeExamples] *)

Definition newline : string := String (ascii_of_nat 10) EmptyString.

(** [tagToSymbol]. *)
Definition tagToSymbol (tag : string) : option string :=
  if String.eqb tag "h1" then Some "# "
  else if String.eqb tag "h2" then Some (newline +:+ newline +:+ "## ")
  else if String.eqb tag "h3" then Some (newline +:+ newline +:+ "### ")
  else if String.eqb tag "h4" then Some (newline +:+ newline +:+ "#### ")
  else if String.eqb tag "h5" then Some (newline +:+ newline +:+ "##### ")
  else if String.eqb tag "h6" then Some (newline +:+ newline +:+ "###### ")
  else if String.eqb tag "strong" then Some "**"
  else if String.eqb tag "code" then Some "`"
  else if String.eqb tag "li" then Some ("  " +:+ newline +:+ "- ")
  else if String.eqb tag "hr" then Some (newline +:+ "***")
  else if String.eqb tag "p" then Some ("  " +:+ newline)
  else None.

(** [s.replace('\n', '')]: the first line feed goes. *)
Fixpoint dropFirstNewline (s : string) : string :=
  match s with
  | EmptyString => EmptyString
  | String c r => if (code c =? 10)%nat then r else String c (dropFirstNewline r)
  end.

(** The rest of [(.+?)\n] once a character is in the group: up to the next
    line feed, which no other line terminator may precede. *)
Fixpoint lineRest (s : string) : option (string * string) :=
  match s with
  | EmptyString => None
  | String c r =>
      if (code c =? 10)%nat then Some (EmptyString, r)
      else if isLineTerminator c then None
      else
        match lineRest r with
        | Some (g, rest) => Some (String c g, rest)
        | None => None
        end
  end.

(** [(.+?)\n]. *)
Definition lineGroup (s : string) : option (string * string) :=
  match s with
  | EmptyString => None
  | String c r =>
      if isLineTerminator c then None
      else
        match lineRest r with
        | Some (g, rest) => Some (String c g, rest)
        | None => None
        end
  end.

(** [\s*(.+?)\n] with the greedy [\s*]: all the white space first, one
    character given back at a time while the group has no match. *)
Fixpoint spacesThenLine (s : string) : option (string * string) :=
  match s with
  | String c r =>
      if isSpace c then
        match spacesThenLine r with
        | Some m => Some m
        | None => lineGroup s
        end
      else lineGroup s
  | EmptyString => None
  end.

(** [(?:label\s*(.+?)\n)?]: the group and the text after it, or no group. *)
Definition labelled (label : string) (s : string) : option string * string :=
  match (if startsWith s label then spacesThenLine (dropString (String.length label) s) else None) with
  | Some (g, rest) => (Some g, rest)
  | None => (None, s)
  end.

(** The optional language group: one of [shell|json|javascript|typescript|js|ts]
    (the alternatives in their order), a colon, then all the white space. *)
Fixpoint languageOf (langs : list string) (s : string) : option string * string :=
  match langs with
  | [] => (None, s)
  | lang :: more =>
      if startsWith s (lang +:+ ":")
      then (Some lang, trimStart (dropString (S (String.length lang)) s))
      else languageOf more s
  end.

Definition languages : list string :=
  ["shell"; "json"; "javascript"; "typescript"; "js"; "ts"].

(** The four groups of the example pattern: title, description, language
    and the remaining text, the code. *)
Definition parseExample (example : string)
    : option string * option string * option string * string :=
  let '(title, s1) := labelled "title:" example in
  let '(desc, s2) := labelled "desc:" s1 in
  let '(lang, codeText) := languageOf languages s2 in
  (title, desc, lang, codeText).

(** What [normalizeExamples] returns: a string for Markdown, content nodes
    for HTML. *)
Inductive ExamplesContent : Type :=
  | ExamplesText (s : string)
  | ExamplesNodes (l : list DocsContent).

Section Examples.

(** [readFile(resolve(dir, path), 'utf8')]: the text, or a rejection. *)
Variable readFile : string -> string -> option string.
(** [codeToHtml(code, { lang, ... })] of the highlighter. *)
Variable codeToHtml : string -> string -> string.

(** One round of [for (const example of examples)] on the two
    accumulators [newExamples] and [newContent]. *)
Definition normalizeExample (renderType : RenderType) (dir tag : string)
    (example : string) (acc : list string * list DocsContent)
    : Outcome (list string * list DocsContent) :=
  let '(newExamples, newContent) := acc in
  let '(title, desc, lang, code0) := parseExample example in
  code ←
    (if startsWith code0 "."
     then match readFile dir code0 with
          | Some text => Done text
          | None => Rejected (ReadFailure dir code0)
          end
     else Done code0);
  '(e1, c1) ←
    (match title with
     | Some t =>
         match tagToSymbol tag with
         | Some symbol =>
             Done (dropFirstNewline symbol +:+ t +:+ newline,
                   newContent ++ [StrNode t (Some tag) None])
         | None => Rejected TypeFailure
         end
     | None => Done ("", newContent)
     end);
  let '(e2, c2) :=
    match desc with
    | Some d => (e1 +:+ newline +:+ d +:+ newline, c1 ++ [StrNode d (Some "p") None])
    | None => (e1, c1)
    end in
  let '(e3, c3) :=
    match lang with
    | Some l =>
        if negb (String.eqb code "") then
          (e2 +:+ newline +:+ "```" +:+ l +:+ newline +:+ code +:+ newline +:+ "```",
           if isHtmlType renderType
           then c2 ++ [StrNode (codeToHtml code l) None None]
           else c2)
        else (e2, c2)
    | None => (e2, c2)
    end in
  if String.eqb e3 "" then Done (newExamples, c3)
  else Done (newExamples ++ [e3], c3).

Fixpoint normalizeLoop (renderType : RenderType) (dir tag : string)
    (examples : list string) (acc : list string * list DocsContent)
    : Outcome (list string * list DocsContent) :=
  match examples with
  | [] => Done acc
  | example :: rest =>
      acc' ← normalizeExample renderType dir tag example acc;
      normalizeLoop renderType dir tag rest acc'
  end.

Definition normalizeExamples (renderType : RenderType) (examples : list string)
    (dir tag : string) : Outcome ExamplesContent :=
  '(newExamples, newContent) ← normalizeLoop renderType dir tag examples ([], []);
  if isHtmlType renderType then
    Done (match newContent with
          | [] => ExamplesText ""
          | _ => ExamplesNodes newContent
          end)
  else
    Done (ExamplesText
            (match newExamples with
             | [] => ""
             | _ => newline +:+ join newline newExamples
             end)).

End Examples.

(** ** Canonical entities *)

(** The [type] property: [string[]] on a type or a class; on a function
    declared through a type alias a [string], or [undefined] when the alias
    has no name; absent on any other function. *)
Inductive TypeField : Type :=
  | TypeNames (names : list string)
  | TypeAlias (name : string)
  | TypeUndefined
  | TypeAbsent.

(** [DocsAllPartial], the shape [getTypeContent] reads: the properties of
    [DocsType], [DocsFunction] and [DocsClass] together. [oid] is the
    identity of the object, what [===] compares. *)
Inductive DocsAll : Type := {
  oid : nat;
  e_name : string;
  e_type : TypeField;
  e_dir : option string;
  e_outDir : option string;
  e_id : option string;
  e_description : option string;
  e_desc : option string;
  e_props : option (list DocsParam);
  e_params : option (list DocsParam);
  e_augments : option (list string);
  e_returns : option DocsReturn;
  e_yields : option DocsReturn;
  e_members : option (list DocsAll);
  e_examples : option (list string)
}.

(** [DocsKind], the three kinds [getTypeContent] is called with. *)
Inductive DocsKind : Type := KFunction | KTypedef | KClass.

Definition orField {A : Type} (own inherited : option A) : option A :=
  match own with
  | Some _ => own
  | None => inherited
  end.

(** [{ ...funcType, ...newInfo }]: the own properties of [newInfo] win. The
    alias form of a function, [{ name, description, examples, type }], owns
    its four properties even where their value is [undefined]; every other
    object owns the optional properties that were set on it. *)
Definition spread (funcType newInfo : DocsAll) : DocsAll :=
  let alias :=
    match e_type newInfo with TypeAlias _ | TypeUndefined => true | _ => false end in
  {| oid := oid newInfo;
     e_name := e_name newInfo;
     e_type := match e_type newInfo with TypeAbsent => e_type funcType | t => t end;
     e_dir := orField (e_dir newInfo) (e_dir funcType);
     e_outDir := orField (e_outDir newInfo) (e_outDir funcType);
     e_id := orField (e_id newInfo) (e_id funcType);
     e_description :=
       if alias then e_description newInfo
       else orField (e_description newInfo) (e_description funcType);
     e_desc := orField (e_desc newInfo) (e_desc funcType);
     e_props := orField (e_props newInfo) (e_props funcType);
     e_params := orField (e_params newInfo) (e_params funcType);
     e_augments := orField (e_augments newInfo) (e_augments funcType);
     e_returns := orField (e_returns newInfo) (e_returns funcType);
     e_yields := orField (e_yields newInfo) (e_yields funcType);
     e_members := orField (e_members newInfo) (e_members funcType);
     e_examples :=
       if alias then e_examples newInfo
       else orField (e_examples newInfo) (e_examples funcType) |}.

(** ** Tokens of a type expression *)

(** The names the reference pattern refuses at the start of a word. *)
Definition builtins : list string :=
  ["Promise"; "Object"; "Array"; "Map"; "Set"; "Function"; "function";
   "string"; "number"; "boolean"; "void"; "null"; "undefined"].

Definition flush (cur : string) (acc : list string) : list string :=
  if String.eqb cur "" then acc else acc ++ [cur].

(** The maximal runs of word characters, left to right. *)
Fixpoint wordRuns (cur : string) (s : string) : list string :=
  match s with
  | EmptyString => flush cur []
  | String c r =>
      if isWord c then wordRuns (cur +:+ String c EmptyString) r
      else flush cur [] ++ wordRuns EmptyString r
  end.

(** [typeName.match(/\b(?!(?:Promise|...|undefined))\w+\b/g)]: a match
    starts where a word starts and takes the whole word; the look-ahead
    refuses a word that begins with one of the built-in names. *)
Definition typeMatchesOf (typeName : string) : list string :=
  List.filter (fun w => forallb (fun b => negb (startsWith w b)) builtins)
         (wordRuns EmptyString typeName).

(** [typeName.match(/(\W)|([A-Za-z]|\d)\w*/g)]: a character that is no word
    character is a token of its own; a letter or a digit starts a token that
    takes the word characters after it; an underscore where no token is open
    starts none and is passed. [cur] is the open token, if any. *)
Fixpoint allMatchesFrom (cur : option string) (s : string) : list string :=
  match s with
  | EmptyString => match cur with Some w => [w] | None => [] end
  | String c r =>
      let one := String c EmptyString in
      match cur with
      | Some w =>
          if isWord c then allMatchesFrom (Some (w +:+ one)) r
          else w :: one :: allMatchesFrom None r
      | None =>
          if negb (isWord c) then one :: allMatchesFrom None r
          else if isLetter c || isDigit c then allMatchesFrom (Some one) r
          else allMatchesFrom None r
      end
  end.

Definition allMatchesOf (typeName : string) : list string :=
  allMatchesFrom None typeName.

Definition includes (l : list string) (x : string) : bool :=
  existsb (String.eqb x) l.

(** What [for (const typeName of type)] goes through: the entries of an
    array, the characters of a string. *)
Fixpoint characters (s : string) : list string :=
  match s with
  | EmptyString => []
  | String c r => String c EmptyString :: characters r
  end.

(** ** Type reference resolver and content tree builder *)

(** The two accumulators of an output unit that the resolver writes:
    [types], the content of the trailing Types section, and [usedTypes]. *)
Record Unit : Type := {
  types : list DocsContent;
  usedTypes : gset string
}.

(** A computation on the accumulators of the unit: it settles to a value
    and the accumulators as it left them, or to no value. *)
Definition Build (A : Type) : Type := Unit -> Outcome (A * Unit).

Definition buildRet {A : Type} (a : A) : Build A := fun u => Done (a, u).

Definition buildBind {A B : Type} (m : Build A) (k : A -> Build B) : Build B :=
  fun u =>
    match m u with
    | Done (a, u') => k a u'
    | Rejected e => Rejected e
    | Exhausted => Exhausted
    end.

#[global] Instance Build_ret : MRet Build := @buildRet.
#[global] Instance Build_bind : MBind Build := fun A B k m => buildBind m k.

(** An outcome that does not touch the accumulators. *)
Definition lift {A : Type} (o : Outcome A) : Build A :=
  fun u =>
    match o with
    | Done a => Done (a, u)
    | Rejected e => Rejected e
    | Exhausted => Exhausted
    end.

(** [usedTypes.has(name)]. *)
Definition usedHas (name : string) : Build bool :=
  fun u => Done (bool_decide (name ∈ usedTypes u), u).

(** [usedTypes.add(name)]. *)
Definition useType (name : string) : Build unit :=
  fun u => Done (tt, {| types := types u; usedTypes := {[ name ]} ∪ usedTypes u |}).

(** [types.push(...content)]. *)
Definition pushTypes (content : list DocsContent) : Build unit :=
  fun u => Done (tt, {| types := types u ++ content; usedTypes := usedTypes u |}).

(** A loop whose rounds are awaited one after the other; [acc] is what
    the rounds build up. *)
Fixpoint forEachB {A S : Type} (body : A -> S -> Build S) (l : list A) (acc : S)
    : Build S :=
  match l with
  | [] => mret acc
  | x :: r => acc' ← body x acc; forEachB body r acc'
  end.

Definition text (s : string) : DocsContent := StrNode s None None.
Definition tagged (tag : string) (s : string) : DocsContent := StrNode s (Some tag) None.
Definition group (tag : string) (l : list DocsContent) : DocsContent := ArrNode l (Some tag) None.

(** [if (_content.length) _content.push({ content: ' | ' })]. *)
Definition separate (_content : list DocsContent) : list DocsContent :=
  match _content with
  | [] => []
  | _ => _content ++ [text " | "]
  end.

Section Resolver.

Variable readFile : string -> string -> option string.
Variable codeToHtml : string -> string -> string.
(** [renderType.ref] while the unit is built. *)
Variable renderType : RenderType.
(** The arguments every call hands on unchanged. *)
Variable docTypes : gmap string DocsAll.
Variable dir : string.
Variable url : string.

(** The target of the link to [docType]. *)
Definition linkTo (docType : DocsAll) : string :=
  if truthy (e_dir docType) && negb (isString (e_dir docType) dir)
  then url +:+ "/" +:+ interpolate (orElse (e_outDir docType) (e_dir docType)) +:+ "/"
         +:+ (match renderType with Markdown => "README.md" | Html => "" end)
         +:+ "#" +:+ interpolate (e_id docType)
  else "#" +:+ interpolate (e_id docType).

(** One round of [for (const match of allMatches)] on [content];
    [expand] is the call of [getTypeContent] on a type met for the first
    time. *)
Definition resolveMatch (expand : DocsAll -> Build (list DocsContent))
    (typeMatches : list string) (currentDocType : DocsAll)
    (match_ : string) (content : list DocsContent) : Build (list DocsContent) :=
  if negb (includes typeMatches match_) then mret (content ++ [text (escape match_)])
  else
    match docTypes !! match_ with
    | None => mret (content ++ [text (escape match_)])
    | Some docType =>
        let content' :=
          content ++ [StrNode (e_name docType) (Some "a") (Some (linkTo docType))] in
        if (oid docType =? oid currentDocType)%nat then mret content'
        else
          used ← usedHas (e_name docType);
          if (used : bool) then mret content'
          else
            _ ← useType (e_name docType);
            expanded ← expand docType;
            _ ← pushTypes expanded;
            mret content'
    end.

(** One round of [for (const typeName of type)] on [_content]. *)
Definition resolveTypeName (expand : DocsAll -> Build (list DocsContent))
    (currentDocType : DocsAll)
    (typeName : string) (_content : list DocsContent) : Build (list DocsContent) :=
  match typeMatchesOf typeName with
  | [] => mret (separate _content ++ [text (escape typeName)])
  | typeMatches =>
      match allMatchesOf typeName with
      | [] => lift (Rejected TypeFailure)   (* [for (... of undefined)] *)
      | allMatches =>
          content ← forEachB (resolveMatch expand typeMatches currentDocType)
                             allMatches [];
          mret (separate _content ++ [ArrNode content None None])
      end
  end.

(** The term of a property or parameter: name, resolved type, flag. *)
Definition termOf (p : DocsParam) (typeCodes : list DocsContent) : list DocsContent :=
  [ group "strong" [tagged "code" (p_name p)];
    text " ";
    group "code" typeCodes;
    text " ";
    text (if isTrue (p_optional p) then "optional" else "required") ].

(** Its details: description and default value. *)
Definition detailsOf (p : DocsParam) : list DocsContent :=
  (if truthy (p_description p) then [tagged "p" (interpolate (p_description p))] else [])
  ++ (if truthy (p_defaults p)
      then [group "p" [text "Default: "; tagged "code" (interpolate (p_defaults p))]]
      else []).

Definition entryOf (p : DocsParam) (typeCodes : list DocsContent) : DocsContent :=
  if isHtmlType renderType
  then group "div" [group "dt" (termOf p typeCodes); group "dd" (detailsOf p)]
  else group "li" (termOf p typeCodes ++ detailsOf p).

(** [`${paramName}${paramOpt ? '?' : ''}: ${paramType.join(' | ')}`]. *)
Definition signatureOf (p : DocsParam) : string :=
  p_name p +:+ (if isTrue (p_optional p) then "?" else "") +:+ ": "
    +:+ join " | " (p_type p).

(** The signature line of a function or class. *)
Definition signatureLine (isClass : bool) (name : string)
    (params : option (list DocsParam)) (returns : option DocsReturn) : DocsContent :=
  let paramsList := map signatureOf (default [] params) in
  let returnsList := match returns with Some r => r_type r | None => [] end in
  group "p" [group "strong" [group "code"
    [text ((if isClass then "new " else "") +:+ name +:+ "("
           +:+ escape (join ", " paramsList) +:+ "): "
           +:+ (if isClass then name else escape (join " | " returnsList)))]]].

(** The names [for (const typeName of type)] goes through. *)
Definition typeItems (t : TypeField) : Outcome (list string) :=
  match t with
  | TypeNames names => Done names
  | TypeAlias name => Done (characters name)
  | TypeUndefined | TypeAbsent => Rejected TypeFailure
  end.

(** [newInfo]: a function takes over what the type alias it names
    declares, [docTypes.get(newInfo.type || '')]; an array is no key of
    the map. *)
Definition mergeAlias (info : DocsAll) (kind : DocsKind) : DocsAll :=
  match kind with
  | KFunction =>
      match docTypes !! (match e_type info with TypeAlias a => a | _ => "" end),
            e_type info with
      | Some funcType, (TypeAlias _ | TypeUndefined | TypeAbsent) => spread funcType info
      | _, _ => info
      end
  | _ => info
  end.

Section TypeContent.

(** [getContent] with the empty [_content], and [getTypeContent] on a
    member. *)
Variable resolve : list string -> DocsAll -> Build (list DocsContent).
Variable recur : DocsAll -> DocsKind -> nat -> Build (list DocsContent).

Variable info : DocsAll.
Variable kind : DocsKind.
Variable depth : nat.

Definition isType : bool := match kind with KTypedef => true | _ => false end.
Definition isFunction : bool := match kind with KFunction => true | _ => false end.
Definition isClass : bool := match kind with KClass => true | _ => false end.

(** The head of the section: heading, class description, signature
    line, description. *)
Definition headOf (newInfo : DocsAll) : list DocsContent :=
  [tagged (hTag (depth + 1)) (e_name newInfo)]
  ++ (if isClass then
        (if truthy (e_description newInfo)
         then [tagged "p" (interpolate (e_description newInfo))] else [])
        ++ [tagged (hTag (depth + 2)) "Constructor"]
      else [])
  ++ (if isFunction || isClass
      then [signatureLine isClass (e_name newInfo) (e_params newInfo) (e_returns newInfo)]
      else [])
  ++ (if isClass && truthy (e_desc newInfo)
      then [tagged "p" (interpolate (e_desc newInfo))] else [])
  ++ (if negb isClass && truthy (e_description newInfo)
      then [tagged "p" (interpolate (e_description newInfo))] else []).

(** The ["Type:"] line of a type. *)
Definition typeLine (newInfo : DocsAll) (_content : list DocsContent)
    : Build (list DocsContent) :=
  if isType then
    names ← lift (typeItems (e_type newInfo));
    typeCodes ← resolve names info;
    mret (_content ++
            [group "p" [tagged "strong" "Type:"; text " "; group "code" typeCodes]])
  else mret _content.

(** The ["Augments:"] line. *)
Definition augmentsLine (newInfo : DocsAll) (_content : list DocsContent)
    : Build (list DocsContent) :=
  match e_augments newInfo with
  | Some augments =>
      codes ← resolve augments info;
      mret (_content ++
              [group "p" [tagged "strong" "Augments:"; text " "; group "code" codes]])
  | None => mret _content
  end.

(** The entries of a Properties or Parameters list. *)
Definition entriesOf (l : list DocsParam) : Build (list DocsContent) :=
  forEachB (fun p list =>
              codes ← resolve (p_type p) info;
              mret (list ++ [entryOf p codes]))
           l [].

(** A Properties or Parameters section, for a list that is not empty. *)
Definition listSection (title : string) (level : nat) (l : option (list DocsParam))
    (_content : list DocsContent) : Build (list DocsContent) :=
  match l with
  | Some (p :: ps) =>
      list ← entriesOf (p :: ps);
      mret (_content ++
              [tagged (hTag level) title;
               group (if isHtmlType renderType then "dl" else "ul") list])
  | _ => mret _content
  end.

(** A Returns or Yields section. *)
Definition returnSection (title : string) (r : option DocsReturn)
    (_content : list DocsContent) : Build (list DocsContent) :=
  match r with
  | Some ret =>
      codes ← resolve (r_type ret) info;
      mret (_content ++
              [tagged (hTag (depth + 2)) title;
               group "p" (group "code" codes ::
                          if truthy (r_description ret)
                          then [text " "; text (interpolate (r_description ret))]
                          else [])])
  | None => mret _content
  end.

(** One round of [for (const member of members)] on [_content] and
    the two flags [hasPropsTitle] and [hasMethodsTitle]. *)
Definition memberRound (member : DocsAll) (acc : list DocsContent * bool * bool)
    : Build (list DocsContent * bool * bool) :=
  let '(_content, hasPropsTitle, hasMethodsTitle) := acc in
  let memberIsFunction :=
    match e_params member with Some _ => true | None => false end in
  let c1 :=
    if negb hasPropsTitle && negb memberIsFunction
    then _content ++ [tagged (hTag (depth + 2)) "Properties"] else _content in
  let c2 :=
    if negb hasMethodsTitle && memberIsFunction
    then c1 ++ [tagged (hTag (depth + 2)) "Methods"] else c1 in
  memberContent ←
    recur member (if memberIsFunction then KFunction else KTypedef) (depth + 2);
  mret (c2 ++ memberContent,
        hasPropsTitle || negb memberIsFunction,
        hasMethodsTitle || memberIsFunction).

Definition membersSection (newInfo : DocsAll) (_content : list DocsContent)
    : Build (list DocsContent) :=
  match e_members newInfo with
  | Some members =>
      if isClass then
        acc ← forEachB memberRound members (_content, false, false);
        mret (fst (fst acc))
      else mret _content
  | None => mret _content
  end.

Definition examplesSection (newInfo : DocsAll) (_content : list DocsContent)
    : Build (list DocsContent) :=
  match e_examples newInfo with
  | Some examples =>
      examplesContent ←
        lift (normalizeExamples readFile codeToHtml renderType examples dir
                                (hTag (depth + 3)));
      match examplesContent with
      | ExamplesText "" => mret _content
      | ExamplesText s =>
          mret (_content ++ [tagged (hTag (depth + 2)) "Examples"; text s])
      | ExamplesNodes l =>
          mret (_content ++ [tagged (hTag (depth + 2)) "Examples"; ArrNode l None None])
      end
  | None => mret _content
  end.

(** The body of [getTypeContent]. *)
Definition typeContent : Build (list DocsContent) :=
  let newInfo := mergeAlias info kind in
  if isType && negb (isString (e_dir newInfo) dir) then mret []
  else
    c ← typeLine newInfo (headOf newInfo);
    c ← augmentsLine newInfo c;
    c ← listSection "Properties" (depth + 2) (e_props newInfo) c;
    c ← listSection "Parameters" (depth + (if isClass then 3 else 2)) (e_params newInfo) c;
    c ← returnSection "Returns" (e_returns newInfo) c;
    c ← returnSection "Yields" (e_yields newInfo) c;
    c ← membersSection newInfo c;
    examplesSection newInfo c.

End TypeContent.

(** [getContent] and [getTypeContent]. [budget] bounds the depth of the
    calls one makes of the other; a call that would go deeper is
    [Exhausted]. *)
Fixpoint getContent (budget : nat) (type : list string) (currentDocType : DocsAll)
    (_content : list DocsContent) {struct budget} : Build (list DocsContent) :=
  match budget with
  | O => lift Exhausted
  | S n =>
      forEachB
        (resolveTypeName (fun docType => getTypeContent n docType KTypedef 2)
                         currentDocType)
        type _content
  end
with getTypeContent (budget : nat) (info : DocsAll) (kind : DocsKind) (depth : nat)
    {struct budget} : Build (list DocsContent) :=
  match budget with
  | O => lift Exhausted
  | S n =>
      typeContent (fun type current => getContent n type current [])
                  (getTypeContent n) info kind depth
  end.

End Resolver.

(** ** Vocabulary of the statements *)



(** A raw parameter with nothing but a name, a type and a default value. *)
Definition rawParam (name type : string) (value : JsValue) : DocsJsDocType :=
  {| jd_name := name; jd_type := [type]; jd_description := None;
     jd_optional := None; jd_defaultvalue := value |}.

(** The ids of a heading index, parents before children. *)
Fixpoint indexIds (h : DocsHeading) : list string :=
  match h with
  | Heading i _ _ children =>
      i :: match children with
           | Some l => concat (map indexIds l)
           | None => []
           end
  end.

Definition allIndexIds (headings : list DocsHeading) : list string :=
  concat (map indexIds headings).

(** An attribute filter that changes nothing and keeps, in document order,
    the tag and the [id] attribute of every node it is given with one. *)
Definition recordIds (attr : Attr) (data : DocsContent) (_ : string)
    (seen : list (string * string)) : Attr * list (string * string) :=
  match attrGet "id" attr with
  | Some i => (attr, seen ++ [(interpolate (nodeTag data), i)])
  | None => (attr, seen)
  end.

(** The ids recorded for headings other than [h1]. *)
Definition sectionIds (seen : list (string * string)) : list string :=
  map snd (List.filter (fun ti => negb (String.eqb (fst ti) "h1")) seen).

Section WalkerVocabulary.

Context {Hook : Type}.

(** From [st] to [st'] the taken ids only grow, and an id taken in [st]
    that the index of [st] lacks is not in the index of [st'] either. *)
Definition grows (st st' : HtmlState Hook) : Prop :=
  ids st ⊆ ids st' /\
  forall i, i ∈ ids st -> i ∈ allIndexIds (headings st') -> i ∈ allIndexIds (headings st).

End WalkerVocabulary.

(** A page whose title and first section carry the same text: the unit of a
    directory [button] that documents a function [Button] among others. *)
Definition buttonPage : DocsContent :=
  ArrNode [StrNode "Button" (Some "h1") None;
           StrNode "Button" (Some "h2") None;
           StrNode "Parameters" (Some "h3") None] None None.

(** [t] is a proper prefix of [s]: the test of the inner loop of the
    navigation, [s.startsWith(t) && s !== t]. *)
Definition properPrefix (t s : string) : bool :=
  startsWith s t && negb (String.eqb s t).

(** A slug that no other slug of [slugs] is a proper prefix of. *)
Definition isRoot (slugs : list string) (s : string) : bool :=
  forallb (fun t => negb (properPrefix t s)) slugs.

(** The slugs of [slugs] that [r] is a proper prefix of, in their order. *)
Definition below (slugs : list string) (r : string) : list string :=
  List.filter (properPrefix r) slugs.

(** The navigation item of the page with slug [s]. *)
Definition slugItem (pages : list NavPage) (s : string) : option DocsNavigationItem :=
  pageItem <$> List.find (fun p => String.eqb (np_slug p) s) pages.

(** The links of a navigation, every item followed by its children. *)
Definition itemLinks (item : DocsNavigationItem) : list string :=
  navLink item :: omap (fmap navLink) (navChildren item).

Definition navLinks (navigation : list DocsNavigationItem) : list string :=
  navigation ≫= itemLinks.

(** Three pages, each directory inside the one before. *)
Definition nestedPages : list NavPage :=
  [ {| np_slug := "/a/b/c/"; np_id := "a-b-c"; np_title := "C" |};
    {| np_slug := "/a/"; np_id := "a"; np_title := "A" |};
    {| np_slug := "/a/b/"; np_id := "a-b"; np_title := "B" |} ].

(** One of [done] is a proper prefix of [s]. *)
Definition covered (done : list string) (s : string) : bool :=
  existsb (fun d => properPrefix d s) done.

(** The entry of the navigation for the slug [r], given the items [items]
    of the slugs: none unless [r] is a root; a root carries, as children,
    the items of all the slugs below it. *)
Definition navEntry (items : string -> option DocsNavigationItem)
    (slugs : list string) (r : string) : option DocsNavigationItem :=
  if isRoot slugs r
  then (fun item => withChildren item (map items (below slugs r))) <$> items r
  else None.

(** The code of an example, the last group of its pattern. *)
Definition exampleCode (example : string) : string := snd (parseExample example).

(** A file system in which no file can be read. *)
Definition noFile (dir path : string) : option string := None.

(** A highlighter that leaves the code as it is. *)
Definition plainCode (code lang : string) : string := code.

(** A function documented with a description and one example, whose code
    is read from a file that is missing. *)
Definition withMissingExample : DocsAll :=
  {| oid := 0; e_name := "getDocs"; e_type := TypeAbsent;
     e_dir := None; e_outDir := None; e_id := None;
     e_description := Some "Rich text objects."; e_desc := None;
     e_props := None; e_params := Some []; e_augments := None;
     e_returns := None; e_yields := None; e_members := None;
     e_examples := Some ["ts: ./getDocs.txt"] |}.

Definition emptyUnit : Unit := {| types := []; usedTypes := ∅ |}.

(** *** Computations on the unit *)

(** Every settled run of [m] relates the accumulators before and after. *)
Definition framedBy {A : Type} (R : Unit -> Unit -> Prop) (m : Build A) : Prop :=
  forall u a u', m u = Done (a, u') -> R u u'.

(** From accumulators in [U], [m] does not run out of budget. *)
Definition liveOn {A : Type} (U : Unit -> Prop) (m : Build A) : Prop :=
  forall u, U u -> m u <> Exhausted.

(** [m] returns no value. *)
Definition fails {A : Type} (m : Build A) : Prop :=
  forall u r, m u <> Done r.

(** The used set only grows. *)
Definition extends (u u' : Unit) : Prop := usedTypes u ⊆ usedTypes u'.

(** *** Vocabulary of the resolver *)

(** The names of the registered types. *)
Definition typeNames (docTypes : gmap string DocsAll) : gset string :=
  list_to_set (map (fun kv => e_name (snd kv)) (map_to_list docTypes)).

(** The registered names the unit has not used yet. *)
Definition unusedNames (docTypes : gmap string DocsAll) (u : Unit) : nat :=
  size (typeNames docTypes ∖ usedTypes u).

(** The heading of the section of the type [name] in the Types section:
    [{ tag: 'h3', content: name }]. *)
Definition isSection (name : string) (node : DocsContent) : bool :=
  match node with
  | StrNode content (Some tag) None => String.eqb tag "h3" && String.eqb content name
  | _ => false
  end.

(** How many times the section of [name] stands in [content]. *)
Definition sectionCount (name : string) (content : list DocsContent) : nat :=
  length (List.filter (isSection name) content).

(** The registered type [name] is owned by the directory of the unit. *)
Definition ownedHere (docTypes : gmap string DocsAll) (dir : string) (name : string) : bool :=
  match docTypes !! name with
  | Some docType => isString (e_dir docType) dir
  | None => false
  end.

(** The registry as [getDocs] builds it: every type under its own name. *)
Definition wellKeyed (docTypes : gmap string DocsAll) : Prop :=
  map_Forall (fun key docType => e_name docType = key) docTypes.

(** [name] was not used in [u] and is used in [u']. *)
Definition newlyUsed (u u' : Unit) (name : string) : bool :=
  bool_decide (name ∈ usedTypes u') && negb (bool_decide (name ∈ usedTypes u)).

(** From [u] to [u'] the used set grew, and the Types section gained one
    section for every newly used name that the directory owns, and nothing
    else that counts as a section. *)
Definition counted (docTypes : gmap string DocsAll) (dir : string) (u u' : Unit) : Prop :=
  usedTypes u ⊆ usedTypes u' /\
  forall name,
    sectionCount name (types u')
    = sectionCount name (types u)
      + (if newlyUsed u u' name && ownedHere docTypes dir name then 1 else 0).

(** No section stands twice in the Types section, and the name of every
    section that stands there is used. *)
Definition consistent (u : Unit) : Prop :=
  forall name,
    sectionCount name (types u) <= 1 /\
    (1 <= sectionCount name (types u) -> name ∈ usedTypes u).

(** [word] begins with one of the built-in names, [Promise], [Object],
    [Array], [Map], [Set] and the others: [Settings] does, as [Set] begins
    it. *)
Definition beginsWithBuiltin (word : string) : bool :=
  existsb (fun builtin => startsWith word builtin) builtins.

(** The type expression [typeName] references [name]: [name] is a whole
    word of the expression, it does not begin with a built-in name, which
    is what the reference pattern asks, and the token pattern gives it as a
    token, which a word does unless underscores begin it. *)
Definition referenced (name typeName : string) : Prop :=
  In name (wordRuns EmptyString typeName) /\
  beginsWithBuiltin name = false /\
  In name (allMatchesOf typeName).

(** Every run of [m] that settles to a value gives one in [P]. *)
Definition returnsP {A : Type} (P : A -> Prop) (m : Build A) : Prop :=
  forall u a u', m u = Done (a, u') -> P a.

(** Every run of [m] that settles to a value leaves accumulators in [Q]. *)
Definition ensures {A : Type} (Q : Unit -> Prop) (m : Build A) : Prop :=
  forall u a u', m u = Done (a, u') -> Q u'.

(** The type expressions [getTypeContent] resolves on behalf of a type:
    its own, what it augments, those of its properties and parameters, what
    it returns and what it yields. *)
Definition typeLists (info : DocsAll) : list (list string) :=
  (match e_type info with
   | TypeNames names => [names]
   | TypeAlias name => [characters name]
   | TypeUndefined | TypeAbsent => []
   end)
  ++ (match e_augments info with Some augments => [augments] | None => [] end)
  ++ map p_type (default [] (e_props info))
  ++ map p_type (default [] (e_params info))
  ++ (match e_returns info with Some r => [r_type r] | None => [] end)
  ++ (match e_yields info with Some r => [r_type r] | None => [] end).

(** The type [info] references the name [name]. *)
Definition refersTo (info : DocsAll) (name : string) : Prop :=
  exists l typeName, In l (typeLists info) /\ In typeName l /\ referenced name typeName.

(** Once [a] is used, [b] is. *)
Definition follows (a b : string) (u : Unit) : Prop :=
  a ∈ usedTypes u -> b ∈ usedTypes u.

(** A node with the tag of a section heading of the Types section. *)
Definition isHeading3 (node : DocsContent) : bool :=
  match node with
  | StrNode _ (Some tag) None => String.eqb tag "h3"
  | _ => false
  end.

(** *** Registries to run the resolver on *)

(** A property with a name and a type, and nothing else. *)
Definition propOf (name : string) (type : list string) : DocsParam :=
  {| p_name := name; p_type := type; p_description := None;
     p_optional := None; p_defaults := None |}.

(** A type as [getInfo] builds it from a typedef without description,
    found in the directory [d]. *)
Definition typedefOf (n : nat) (name : string) (type : list string) (d : string)
    (props : option (list DocsParam)) : DocsAll :=
  {| oid := n; e_name := name; e_type := TypeNames type;
     e_dir := Some d; e_outDir := None; e_id := Some (getId name);
     e_description := None; e_desc := None;
     e_props := props; e_params := None; e_augments := None;
     e_returns := None; e_yields := None; e_members := None;
     e_examples := None |}.

(** A function as [getInfo] builds it, with parameters only. *)
Definition functionOf (n : nat) (name : string) (params : list DocsParam) : DocsAll :=
  {| oid := n; e_name := name; e_type := TypeAbsent;
     e_dir := None; e_outDir := None; e_id := None;
     e_description := None; e_desc := None;
     e_props := None; e_params := Some params; e_augments := None;
     e_returns := None; e_yields := None; e_members := None;
     e_examples := None |}.

(** The type [Theme], declared in the directory [d]. *)
Definition themeIn (d : string) : gmap string DocsAll :=
  {[ "Theme" := typedefOf 1 "Theme" ["Object"] d (Some [propOf "color" ["string"]]) ]}.

(** A function whose two parameters both reference [Theme]. *)
Definition setTheme : DocsAll :=
  functionOf 0 "setTheme" [propOf "theme" ["Theme"]; propOf "themes" ["Theme[]"]].

(** Two types that reference each other, both declared in [d]. *)
Definition nodeAndEdge (d : string) : gmap string DocsAll :=
  {[ "Node" := typedefOf 1 "Node" ["Object"] d (Some [propOf "edges" ["Edge[]"]]);
     "Edge" := typedefOf 2 "Edge" ["Object"] d (Some [propOf "from" ["Node"];
                                                        propOf "to" ["Node"]]) ]}.

(** A function with a parameter of the type [Node]. *)
Definition visit : DocsAll := functionOf 0 "visit" [propOf "node" ["Node"]].

(** *** Vocabulary of the proofs *)

(** The recorded ids of the section headings are distinct and taken. *)
Definition recorded (st : HtmlState (list (string * string))) : Prop :=
  NoDup (sectionIds (hook st)) /\
  forall i, i ∈ sectionIds (hook st) -> i ∈ ids st.

(** In a sorted list without repetition nothing stands before one of its
    proper prefixes. *)
Definition prefixOrdered (l : list string) : Prop :=
  StronglySorted (fun x y => properPrefix y x = false) l.

(** At most [k] registered names are unused. *)
Definition atMost (docTypes : gmap string DocsAll) (k : nat) (u : Unit) : Prop :=
  unusedNames docTypes u <= k.

(** The content [c] holds the sections [f] counts, name by name. *)
Definition holds (f : string -> nat) (c : list DocsContent) : Prop :=
  forall name, sectionCount name c = f name.

(** The name [name] is used. *)
Definition isUsed (name : string) (u : Unit) : Prop := name ∈ usedTypes u.

(** The used set grew, and [b] follows [a] afterwards if it did before. *)
Definition keeps (a b : string) (u u' : Unit) : Prop :=
  extends u u' /\ (follows a b u -> follows a b u').

(** Wherever [m] does not run out of budget, [m'] does what [m] does. *)
Definition refines {A : Type} (m m' : Build A) : Prop :=
  forall u, m u <> Exhausted -> m' u = m u.

(** ** [getDocs] *)

(** *** Paths and titles *)

(** [s.includes(p)]. *)
Fixpoint isSubstring (p s : string) : bool :=
  startsWith s p ||
  match s with
  | EmptyString => false
  | String _ r => isSubstring p r
  end.

(** [s.replace(p, '')] for a string [p]: the first occurrence goes. *)
Fixpoint removeFirst (p s : string) : string :=
  if startsWith s p then dropString (String.length p) s
  else
    match s with
    | EmptyString => EmptyString
    | String c r => String c (removeFirst p r)
    end.

(** [s.split('/')]; [cur] is the open segment. *)
Fixpoint splitSlash (cur : string) (s : string) : list string :=
  match s with
  | EmptyString => [cur]
  | String c r =>
      if (code c =? 47)%nat then cur :: splitSlash EmptyString r
      else splitSlash (cur +:+ String c EmptyString) r
  end.

(** [basename] of [node:path]: the last segment that is not empty. *)
Definition basename (path : string) : string :=
  List.last (List.filter (fun segment => negb (String.eqb segment "")) (splitSlash "" path)) "".

(** [value.replace(/([a-z])([A-Z])/g, '$1 $2')]. *)
Fixpoint spaceWords (s : string) : string :=
  match s with
  | EmptyString => EmptyString
  | String a r =>
      match r with
      | String b _ =>
          if isLower a && isUpper b then String a (String " " (spaceWords r))
          else String a (spaceWords r)
      | EmptyString => s
      end
  end.

(** [titleCase]. [toUpperCase] is [String.prototype.toUpperCase], which
    the replace of [/^./] calls on the first character where it is no line
    terminator; what it returns may be longer than one character. *)
Definition titleCase (toUpperCase : string -> string) (value : string) : string :=
  match spaceWords value with
  | String c r =>
      if isLineTerminator c then String c r
      else toUpperCase (String c EmptyString) +:+ r
  | EmptyString => EmptyString
  end.

(** *** Raw items *)

(** [DocsJsDocItem] as [getDocs] reads it: of [meta] the three properties
    [filename], [filenameOut] and [code.name]; of [returns] and [yields]
    their one element; of [tags] the titles; [access] is private or absent. *)
Record DocsJsDocItem : Type := {
  i_name : string;
  i_kind : string;
  i_filename : option string;
  i_filenameOut : option string;
  i_code : option string;
  i_description : option string;
  i_classdesc : option string;
  i_params : option (list DocsJsDocType);
  i_returns : option DocsJsDocType;
  i_properties : option (list DocsJsDocType);
  i_yields : option DocsJsDocType;
  i_type : option (list string);
  i_augments : option (list string);
  i_memberof : option string;
  i_undocumented : bool;
  i_private : bool;
  i_tags : option (list string);
  i_examples : option (list string)
}.

(** [access === 'private' || undocumented]. *)
Definition skipped (item : DocsJsDocItem) : bool := i_private item || i_undocumented item.

(** [getInfo]; [n] is the identity of the object it creates. *)
Definition getInfo (n : nat) (item : DocsJsDocItem) (kind : DocsKind) : DocsAll :=
  match kind, i_type item with
  | KFunction, Some names =>
      {| oid := n; e_name := i_name item;
         e_type := match normalizeTypes names with
                   | first :: _ => TypeAlias first
                   | [] => TypeUndefined
                   end;
         e_dir := None; e_outDir := None; e_id := None;
         e_description := i_description item; e_desc := None;
         e_props := None; e_params := None; e_augments := None;
         e_returns := None; e_yields := None; e_members := None;
         e_examples := i_examples item |}
  | KFunction, None =>
      {| oid := n; e_name := i_name item; e_type := TypeAbsent;
         e_dir := None; e_outDir := None; e_id := None;
         e_description := whenTruthy (i_description item); e_desc := None;
         e_props := None;
         e_params := Some (normalizeParams (default [] (i_params item)));
         e_augments := None;
         e_returns := normalizeReturn <$> i_returns item;
         e_yields := normalizeReturn <$> i_yields item;
         e_members := None;
         e_examples := i_examples item |}
  | KTypedef, Some names =>
      {| oid := n; e_name := i_name item; e_type := TypeNames (normalizeTypes names);
         e_dir := i_filename item; e_outDir := whenTruthy (i_filenameOut item);
         e_id := Some (getId (i_name item));
         e_description := whenTruthy (i_description item); e_desc := None;
         e_props := normalizeParams <$> i_properties item;
         e_params := normalizeParams <$> i_params item;
         e_augments := i_augments item;
         e_returns := normalizeReturn <$> i_returns item;
         e_yields := None; e_members := None;
         e_examples := i_examples item |}
  | _, _ =>
      {| oid := n; e_name := i_name item;
         e_type := TypeNames (default [] (i_augments item));
         e_dir := i_filename item; e_outDir := whenTruthy (i_filenameOut item);
         e_id := Some (getId (i_name item));
         e_description := whenTruthy (i_classdesc item);
         e_desc := whenTruthy (i_description item);
         e_props := None;
         e_params := normalizeParams <$> i_params item;
         e_augments := i_augments item;
         e_returns := None; e_yields := None; e_members := Some [];
         e_examples := i_examples item |}
  end.

(** *** The registries *)

(** The four maps of normalized entities; [g_next] is the identity the
    next object gets. *)
Record Registry : Type := {
  g_next : nat;
  g_types : gmap string DocsAll;
  g_vars : gmap string DocsAll;
  g_functions : gmap string DocsAll;
  g_classes : gmap string DocsAll
}.

Definition emptyRegistry : Registry :=
  {| g_next := 0; g_types := ∅; g_vars := ∅; g_functions := ∅; g_classes := ∅ |}.

(** [{ name: memberof, type: [], members: [] }]. *)
Definition classStub (n : nat) (memberof : string) : DocsAll :=
  {| oid := n; e_name := memberof; e_type := TypeNames [];
     e_dir := None; e_outDir := None; e_id := None;
     e_description := None; e_desc := None;
     e_props := None; e_params := None; e_augments := None;
     e_returns := None; e_yields := None; e_members := Some [];
     e_examples := None |}.

(** [newInfo = { ...classInfo, ...jsDocClass }; newInfo.type = classInfo.type],
    a new object. *)
Definition mergeClass (n : nat) (classInfo : DocsAll) (jsDocClass : option DocsAll)
    : DocsAll :=
  let merged :=
    match jsDocClass with
    | Some known => spread classInfo known
    | None => classInfo
    end in
  {| oid := n; e_name := e_name merged; e_type := e_type classInfo;
     e_dir := e_dir merged; e_outDir := e_outDir merged; e_id := e_id merged;
     e_description := e_description merged; e_desc := e_desc merged;
     e_props := e_props merged; e_params := e_params merged;
     e_augments := e_augments merged; e_returns := e_returns merged;
     e_yields := e_yields merged; e_members := e_members merged;
     e_examples := e_examples merged |}.

(** [members.push(info)] on the object [cls]. *)
Definition pushed (cls info : DocsAll) : DocsAll :=
  {| oid := oid cls; e_name := e_name cls; e_type := e_type cls;
     e_dir := e_dir cls; e_outDir := e_outDir cls; e_id := e_id cls;
     e_description := e_description cls; e_desc := e_desc cls;
     e_props := e_props cls; e_params := e_params cls;
     e_augments := e_augments cls; e_returns := e_returns cls;
     e_yields := e_yields cls;
     e_members := (fun members => members ++ [info]) <$> e_members cls;
     e_examples := e_examples cls |}.

(** [docClasses.get(memberof)?.members?.push(info)]: the class of
    [docClasses] is the object [docTypes] holds too, so both see the push. *)
Definition pushMember (memberof : string) (info : DocsAll) (g : Registry) : Registry :=
  match g_classes g !! memberof with
  | Some cls =>
      let update := fun entry : DocsAll =>
        if (oid entry =? oid cls)%nat then pushed cls info else entry in
      {| g_next := g_next g;
         g_types := update <$> g_types g;
         g_vars := g_vars g;
         g_functions := g_functions g;
         g_classes := update <$> g_classes g |}
  | None => g
  end.

(** One round of [jsdocItems.forEach]. *)
Definition register (g : Registry) (item : DocsJsDocItem) : Registry :=
  if skipped item then g
  else
    let name := i_name item in
    let kind := i_kind item in
    let isClassMember := truthy (i_memberof item) in
    let memberof := interpolate (i_memberof item) in
    let n := g_next g in
    let g1 :=
      if isClassMember && negb (bool_decide (is_Some (g_classes g !! memberof)))
      then {| g_next := S n; g_types := g_types g; g_vars := g_vars g;
              g_functions := g_functions g;
              g_classes := <[memberof := classStub n memberof]> (g_classes g) |}
      else g in
    let n := g_next g1 in
    if String.eqb kind "typedef" then
      match i_type item with
      | Some _ =>
          {| g_next := S n; g_types := <[name := getInfo n item KTypedef]> (g_types g1);
             g_vars := g_vars g1; g_functions := g_functions g1;
             g_classes := g_classes g1 |}
      | None => g1
      end
    else if String.eqb kind "class" then
      let classInfo := getInfo n item KClass in
      let newInfo := mergeClass (S n) classInfo (g_classes g1 !! name) in
      {| g_next := S (S n); g_types := <[name := newInfo]> (g_types g1);
         g_vars := g_vars g1; g_functions := g_functions g1;
         g_classes := <[name := newInfo]> (g_classes g1) |}
    else if String.eqb kind "constant" then
      {| g_next := S n; g_types := g_types g1;
         g_vars := <[name := getInfo n item KTypedef]> (g_vars g1);
         g_functions := g_functions g1; g_classes := g_classes g1 |}
    else if String.eqb kind "member" then
      let typeInfo := getInfo n item KTypedef in
      let g2 := {| g_next := S n; g_types := g_types g1; g_vars := g_vars g1;
                   g_functions := g_functions g1; g_classes := g_classes g1 |} in
      if isClassMember then pushMember memberof typeInfo g2
      else {| g_next := S n; g_types := g_types g1;
              g_vars := <[name := typeInfo]> (g_vars g1);
              g_functions := g_functions g1; g_classes := g_classes g1 |}
    else if String.eqb kind "function" then
      let functionInfo := getInfo n item KFunction in
      let g2 := {| g_next := S n; g_types := g_types g1; g_vars := g_vars g1;
                   g_functions := g_functions g1; g_classes := g_classes g1 |} in
      if isClassMember then pushMember memberof functionInfo g2
      else {| g_next := S n; g_types := g_types g1; g_vars := g_vars g1;
              g_functions := <[name := functionInfo]> (g_functions g1);
              g_classes := g_classes g1 |}
    else g1.

(** *** Source files *)

(** A [.ts] or [.js] file of [sourceFiles]: its directory, whether it is
    one of [resultFiles], and what [jsdoc.explain] gives for its output. *)
Record SourceFile : Type := {
  f_dir : string;
  f_isResFile : bool;
  f_items : list DocsJsDocItem
}.

(** [DocsArgs], the globs left out: they select the source files. *)
Record DocsArgs : Type := {
  a_url : option string;
  a_srcDir : option string;
  a_outDir : option string;
  a_index : option string;
  a_filterTitle : option (string -> string -> string)
}.

(** [docItem.meta = { ...docItem.meta, filename: dir }], and [filenameOut]
    when [outDir] is set. *)
Definition stamp (dir srcDir : string) (outDir : option string) (item : DocsJsDocItem)
    : DocsJsDocItem :=
  {| i_name := i_name item; i_kind := i_kind item;
     i_filename := Some dir;
     i_filenameOut :=
       if truthy outDir then Some (removeFirst (srcDir +:+ "/") dir)
       else i_filenameOut item;
     i_code := i_code item;
     i_description := i_description item; i_classdesc := i_classdesc item;
     i_params := i_params item; i_returns := i_returns item;
     i_properties := i_properties item; i_yields := i_yields item;
     i_type := i_type item; i_augments := i_augments item;
     i_memberof := i_memberof item; i_undocumented := i_undocumented item;
     i_private := i_private item; i_tags := i_tags item;
     i_examples := i_examples item |}.

(** [sources.get(dir)]. *)
Fixpoint sourceOf (dir : string) (sources : list (string * list DocsJsDocItem))
    : option (list DocsJsDocItem) :=
  match sources with
  | [] => None
  | (d, items) :: r => if String.eqb d dir then Some items else sourceOf dir r
  end.

(** [sources.set(dir, items)]: a known key keeps its place. *)
Fixpoint setSource (dir : string) (items : list DocsJsDocItem)
    (sources : list (string * list DocsJsDocItem)) : list (string * list DocsJsDocItem) :=
  match sources with
  | [] => [(dir, items)]
  | (d, old) :: r =>
      if String.eqb d dir then (d, items) :: r else (d, old) :: setSource dir items r
  end.

(** [item.meta?.code?.name?.includes('export')]. *)
Definition isExport (item : DocsJsDocItem) : bool :=
  match i_code item with
  | Some name => isSubstring "export" name
  | None => false
  end.

(** What the loop on the source files builds. *)
Record Sources : Type := {
  jsdocItems : list DocsJsDocItem;
  sources : list (string * list DocsJsDocItem);
  exports : gmap string nat
}.

(** One round of [for (const file of sourceFiles)]. *)
Definition readSource (srcDir : string) (outDir : option string) (s : Sources)
    (file : SourceFile) : Sources :=
  let dir := f_dir file in
  let newDocItems := map (stamp dir srcDir outDir) (f_items file) in
  if f_isResFile file then
    let allDocItems := default [] (sourceOf dir (sources s)) ++ newDocItems in
    {| jsdocItems := jsdocItems s ++ newDocItems;
       sources := setSource dir allDocItems (sources s);
       exports := <[dir := length (List.filter isExport allDocItems)]> (exports s) |}
  else
    {| jsdocItems := jsdocItems s ++ newDocItems;
       sources := sources s;
       exports := exports s |}.

(** *** The unit of a directory *)

(** What the loop on the items of a directory builds besides [types] and
    [usedTypes]. *)
Record Entries : Type := {
  u_vars : list DocsContent;
  u_classes : list DocsContent;
  u_functions : list DocsContent;
  u_usedVars : gset string;
  u_usedClasses : gset string;
  u_usedFunctions : gset string;
  u_title : option string;
  u_desc : option string;
  u_guide : ExamplesContent;
  u_hasIndex : bool
}.

Definition noEntries : Entries :=
  {| u_vars := []; u_classes := []; u_functions := [];
     u_usedVars := ∅; u_usedClasses := ∅; u_usedFunctions := ∅;
     u_title := None; u_desc := None; u_guide := ExamplesText ""; u_hasIndex := false |}.

Definition withIndex (e : Entries) : Entries :=
  {| u_vars := u_vars e; u_classes := u_classes e; u_functions := u_functions e;
     u_usedVars := u_usedVars e; u_usedClasses := u_usedClasses e;
     u_usedFunctions := u_usedFunctions e;
     u_title := u_title e; u_desc := u_desc e; u_guide := u_guide e; u_hasIndex := true |}.

Definition withFile (title desc : option string) (guide : ExamplesContent) (e : Entries)
    : Entries :=
  {| u_vars := u_vars e; u_classes := u_classes e; u_functions := u_functions e;
     u_usedVars := u_usedVars e; u_usedClasses := u_usedClasses e;
     u_usedFunctions := u_usedFunctions e;
     u_title := title; u_desc := desc; u_guide := guide; u_hasIndex := u_hasIndex e |}.

Definition withVar (name : string) (content : list DocsContent) (e : Entries) : Entries :=
  {| u_vars := u_vars e ++ content; u_classes := u_classes e; u_functions := u_functions e;
     u_usedVars := {[ name ]} ∪ u_usedVars e; u_usedClasses := u_usedClasses e;
     u_usedFunctions := u_usedFunctions e;
     u_title := u_title e; u_desc := u_desc e; u_guide := u_guide e;
     u_hasIndex := u_hasIndex e |}.

Definition withFunction (name : string) (content : list DocsContent) (e : Entries)
    : Entries :=
  {| u_vars := u_vars e; u_classes := u_classes e; u_functions := u_functions e ++ content;
     u_usedVars := u_usedVars e; u_usedClasses := u_usedClasses e;
     u_usedFunctions := {[ name ]} ∪ u_usedFunctions e;
     u_title := u_title e; u_desc := u_desc e; u_guide := u_guide e;
     u_hasIndex := u_hasIndex e |}.

Definition withClass (name : string) (content : list DocsContent) (e : Entries) : Entries :=
  {| u_vars := u_vars e; u_classes := u_classes e ++ content; u_functions := u_functions e;
     u_usedVars := u_usedVars e; u_usedClasses := {[ name ]} ∪ u_usedClasses e;
     u_usedFunctions := u_usedFunctions e;
     u_title := u_title e; u_desc := u_desc e; u_guide := u_guide e;
     u_hasIndex := u_hasIndex e |}.

(** [DocsIndexItem]. *)
Record DocsIndexItem : Type := {
  x_title : string;
  x_link : string
}.

(** [DocsResult]: the directories in the order they were set. *)
Definition DocsResult : Type := list (string * list DocsContent).

Section Docs.

Variable readFile : string -> string -> option string.
Variable codeToHtml : string -> string -> string.
(** [jsdoc.explain({ source })] on the index comments. *)
Variable explain : string -> list DocsJsDocItem.
(** [a.localeCompare(b)]. *)
Variable localeCompare : string -> string -> Z.
(** [s.toUpperCase()]. *)
Variable toUpperCase : string -> string.
(** [renderType.ref] when [getDocs] runs: the module sets it, no argument
    carries it. *)
Variable renderType : RenderType.

Section Directory.

Variable g : Registry.
Variable budget : nat.
Variable dir url : string.
Variable single isIndex : bool.

Definition entityDepth : nat := if single then 0 else 1.

(** [if (kind === 'file')]. *)
Definition fileItem (item : DocsJsDocItem) (e : Entries) : Build Entries :=
  match i_description item with
  | None => lift (Rejected TypeFailure)   (* [match[1]] of [undefined] *)
  | Some description =>
      let '(title, desc) := labelled "title:" description in
      match i_examples item with
      | Some examples =>
          guide ← lift (normalizeExamples readFile codeToHtml renderType examples dir "h2");
          mret (withFile title (Some desc) guide e)
      | None => mret (withFile title (Some desc) (u_guide e) e)
      end
  end.

(** [if (kind === 'typedef')]. *)
Definition typedefItem (name : string) : Build unit :=
  match g_types g !! name with
  | Some info =>
      used ← usedHas name;
      if (used : bool) then mret tt
      else
        _ ← useType name;
        content ← getTypeContent readFile codeToHtml renderType (g_types g) dir url
                                 budget info KTypedef 2;
        pushTypes content
  | None => mret tt
  end.

(** The three other kinds: the entity of [registry], if it is not in
    [used], is rendered and kept by [keep]. *)
Definition entityItem (registry : gmap string DocsAll) (used : gset string)
    (kind : DocsKind) (keep : string -> list DocsContent -> Entries -> Entries)
    (name : string) (e : Entries) : Build Entries :=
  match registry !! name with
  | Some info =>
      if bool_decide (name ∈ used) then mret e
      else
        content ← getTypeContent readFile codeToHtml renderType (g_types g) dir url
                                 budget info kind entityDepth;
        mret (keep name content e)
  | None => mret e
  end.

(** One round of [for (const item of dirDocItems)]. *)
Definition itemRound (item : DocsJsDocItem) (e : Entries) : Build Entries :=
  if skipped item then mret e
  else
    let name := i_name item in
    let kind := i_kind item in
    let e :=
      if isIndex && match i_tags item with
                    | Some (tag :: _) => String.eqb tag "index"
                    | _ => false
                    end
      then withIndex e else e in
    e ← (if String.eqb kind "file" then fileItem item e else mret e);
    _ ← (if String.eqb kind "typedef" then typedefItem name else mret tt);
    e ← (if String.eqb kind "member" || String.eqb kind "constant"
         then entityItem (g_vars g) (u_usedVars e) KTypedef withVar name e
         else mret e);
    e ← (if String.eqb kind "function"
         then entityItem (g_functions g) (u_usedFunctions e) KFunction withFunction name e
         else mret e);
    if String.eqb kind "class"
    then entityItem (g_classes g) (u_usedClasses e) KClass withClass name e
    else mret e.

End Directory.

(** [values.sort((a, b) => a.title.localeCompare(b.title))]. *)
Fixpoint insertIndexItem (item : DocsIndexItem) (l : list DocsIndexItem)
    : list DocsIndexItem :=
  match l with
  | [] => [item]
  | x :: r =>
      if (localeCompare (x_title item) (x_title x) <=? 0)%Z then item :: l
      else x :: insertIndexItem item r
  end.

Definition sortIndexItems (l : list DocsIndexItem) : list DocsIndexItem :=
  fold_right insertIndexItem [] l.

(** The [details] node of one key of the index. *)
Definition indexDetails (key : string) (values : list DocsIndexItem) : DocsContent :=
  group "details"
    [tagged "summary" (titleCase toUpperCase key);
     group "ul" (map (fun value => group "li" [StrNode (x_title value) (Some "a")
                                                       (Some (x_link value))])
                     values)].

(** What the loop on the directories builds. *)
Record Pages : Type := {
  indexMap : gmap string (list DocsIndexItem);
  result : DocsResult
}.

Section Pages.

Variable args : DocsArgs.
Variable g : Registry.
Variable exportCounts : gmap string nat.

Definition url : string := default "" (a_url args).
Definition srcDir : string := default "src" (a_srcDir args).

(** The calls [getContent] and [getTypeContent] make of each other go no
    deeper than this. *)
Definition depthBound : nat := 2 * size (typeNames (g_types g)) + 3.

(** One round of [for (const [dir, dirDocItems] of sources)]. *)
Definition page (pages : Pages) (source : string * list DocsJsDocItem)
    : Outcome Pages :=
  let '(dir, dirDocItems) := source in
  let single := bool_decide (exportCounts !! dir = Some 1) in
  let isIndex := String.eqb dir srcDir && truthy (a_index args) in
  '(e, u) ← forEachB (itemRound g depthBound dir url single isIndex)
                     dirDocItems noEntries emptyUnit;
  let hasTypes := negb (bool_decide (types u = [])) in
  if bool_decide (u_vars e = []) && negb hasTypes && bool_decide (u_classes e = [])
     && bool_decide (u_functions e = []) && negb isIndex
  then Done pages
  else
    let types := if hasTypes then tagged "h2" "Types" :: types u else types u in
    let dirBase := basename (removeFirst srcDir dir) in
    let dirTitleCase := titleCase toUpperCase dirBase in
    let dirTitle :=
      match a_filterTitle args with
      | Some filterTitle =>
          if negb single || negb isIndex then filterTitle dirTitleCase dirBase
          else dirTitleCase
      | None => dirTitleCase
      end in
    let guides :=
      if single then []
      else
        [tagged "h1" (if truthy (u_title e) then interpolate (u_title e) else dirTitle)]
        ++ (if truthy (u_desc e) then [tagged "p" (interpolate (u_desc e))] else [])
        ++ [match u_guide e with
            | ExamplesText s => text s
            | ExamplesNodes l => ArrNode l None None
            end] in
    let withIndexList := isIndex && u_hasIndex e && negb (bool_decide (indexMap pages = ∅)) in
    let sorted := if withIndexList then sortIndexItems <$> indexMap pages else indexMap pages in
    let guides :=
      if withIndexList
      then guides ++ [tagged "h2" "Index"]
             ++ map (fun key => indexDetails key (default [] (sorted !! key)))
                    (sortSlugs (map fst (map_to_list sorted)))
      else guides in
    let indexMap' :=
      if isIndex then sorted
      else
        let sectionDir := hd "" (splitSlash "" (removeFirst (srcDir +:+ "/") dir)) in
        <[sectionDir :=
            default [] (sorted !! sectionDir)
            ++ [{| x_title := dirTitle;
                   x_link := url +:+ "/"
                             +:+ (if truthy (a_outDir args)
                                  then removeFirst (srcDir +:+ "/") dir else dir)
                             +:+ "/"
                             +:+ (match renderType with
                                  | Markdown => "README.md"
                                  | Html => ""
                                  end) |}]]> sorted in
    Done {| indexMap := indexMap';
            result := result pages
                      ++ [(dir, guides ++ u_vars e ++ u_classes e ++ u_functions e
                                  ++ types)] |}.

End Pages.

(** The loop on the directories, stopped by the first rejection. *)
Fixpoint forEachPage (args : DocsArgs) (g : Registry) (exportCounts : gmap string nat)
    (l : list (string * list DocsJsDocItem)) (pages : Pages) : Outcome Pages :=
  match l with
  | [] => Done pages
  | source :: r =>
      pages' ← page args g exportCounts pages source;
      forEachPage args g exportCounts r pages'
  end.

(** [getDocs] on the source files the globs selected. *)
Definition getDocs (args : DocsArgs) (sourceFiles : list SourceFile) : Outcome DocsResult :=
  let read :=
    fold_left (readSource (srcDir args) (a_outDir args)) sourceFiles
              {| jsdocItems := []; sources := []; exports := ∅ |} in
  let allSources :=
    match a_index args with
    | Some index =>
        if String.eqb index "" then sources read
        else setSource (srcDir args) (explain index) (sources read)
    | None => sources read
    end in
  let g := fold_left register (jsdocItems read) emptyRegistry in
  pages ← forEachPage args g (exports read) allSources {| indexMap := ∅; result := [] |};
  Done (result pages).

End Docs.

(** *** The module *)

(** The module state: [renderType.ref]. *)
Record Module : Type := {
  ref : RenderType
}.

(** [const renderType = { ref: 'html' }]. *)
Definition initialModule : Module := {| ref := Html |}.

(** The effect of [renderMarkdownDocs] on the module: it sets
    [renderType.ref] and goes on from the docs [getDocs] gives, which it
    writes to files. *)
Definition renderMarkdownDocs (m : Module) : Module := {| ref := Markdown |}.

(** The effect of [renderHtmlDocs] on the module, in the same way. *)
Definition renderHtmlDocs (m : Module) : Module := {| ref := Html |}.

(** *** Sources to run [getDocs] on *)

(** An item with a name and a kind, documented and public. *)
Definition itemOf (name kind : string) (type : option (list string))
    (params : option (list DocsJsDocType)) (examples : option (list string))
    : DocsJsDocItem :=
  {| i_name := name; i_kind := kind;
     i_filename := None; i_filenameOut := None; i_code := None;
     i_description := None; i_classdesc := None;
     i_params := params; i_returns := None; i_properties := None; i_yields := None;
     i_type := type; i_augments := None; i_memberof := None;
     i_undocumented := false; i_private := false; i_tags := None;
     i_examples := examples |}.

(** [src/theme] declares the type [Theme]; [src/button] a function that
    takes a [Theme] and carries an example. *)
Definition themeAndButton : list SourceFile :=
  [ {| f_dir := "src/theme"; f_isResFile := true;
       f_items := [itemOf "Theme" "typedef" (Some ["Object"]) None None] |};
    {| f_dir := "src/button"; f_isResFile := true;
       f_items := [itemOf "setTheme" "function" None
                          (Some [{| jd_name := "theme"; jd_type := ["Theme"];
                                    jd_description := None; jd_optional := None;
                                    jd_defaultvalue := JUndefined |}])
                          (Some ["ts: setTheme(dark)"])] |} ].

Definition plainArgs : DocsArgs :=
  {| a_url := None; a_srcDir := None; a_outDir := None; a_index := None;
     a_filterTitle := None |}.

(** No index comments are explained. *)
Definition noIndex (source : string) : list DocsJsDocItem := [].

(** An uppercasing to run [getDocs] with: it is [toUpperCase] on the
    letters [a] to [z] and leaves every other character as it is, which is
    what [toUpperCase] does on a text of ASCII characters. *)
Definition asciiUpperChar (c : ascii) : ascii :=
  if isLower c then ascii_of_nat (code c - 32) else c.

Definition asciiUpper (s : string) : string := mapString asciiUpperChar s.

(** Strings compared by their code units. *)
Definition byCodeUnits (a b : string) : Z :=
  if String.eqb a b then 0%Z else if String.leb a b then (-1)%Z else 1%Z.

(** *** Reading a result *)

(** The targets of the links of a content tree, left to right. *)
Fixpoint linksOf (node : DocsContent) : list string :=
  match node with
  | StrNode _ _ link => option_list link
  | ArrNode content _ link => option_list link ++ flat_map linksOf content
  end.

(** The content of the page of [dir]. *)
Definition pageOf (dir : string) (docs : DocsResult) : list DocsContent :=
  default [] (snd <$> List.find (fun entry => String.eqb (fst entry) dir) docs).

(** The content set under the heading [title] of a page: the node after it. *)
Fixpoint under (title : string) (content : list DocsContent) : option DocsContent :=
  match content with
  | [] => None
  | node :: r =>
      match node, r with
      | StrNode s (Some _) None, next :: _ =>
          if String.eqb s title then Some next else under title r
      | _, _ => under title r
      end
  end.

(** *** The registries [getDocs] builds *)

(** What holds of the maps after every round: a type and a class stand
    under their names, their identities were given out, and two entries
    with one identity stand under one key. *)
Definition sound (g : Registry) : Prop :=
  map_Forall (fun key t => e_name t = key /\ oid t < g_next g) (g_types g) /\
  map_Forall (fun key c => e_name c = key /\ oid c < g_next g) (g_classes g) /\
  (forall k k' t c,
      g_types g !! k = Some t -> g_classes g !! k' = Some c -> oid t = oid c -> k = k') /\
  (forall k k' c c',
      g_classes g !! k = Some c -> g_classes g !! k' = Some c' -> oid c = oid c' -> k = k').

(** ** Vocabulary of the further properties *)

(** No character of [s] is one of [chars]. *)
Definition avoids (chars : list ascii) (s : string) : bool :=
  allString (fun c => negb (existsb (Ascii.eqb c) chars)) s.

(** The characters [escape] replaces, the ampersand left out: none of them
    may stand in an HTML text or attribute value. *)
Definition markup : list ascii := ["<"; ">"; quoteChar; "'"; "*"]%char.

(** The six characters [escape] replaces. *)
Definition escaped : list ascii := "&"%char :: markup.

(** The characters a pattern of [markdownToHtml] starts with. *)
Definition markdownOpeners : list ascii := ["*"; "`"; "["]%char.

(** The characters that open, close or separate the inline markup
    [markdownToHtml] reads. *)
Definition markdownChars : list ascii := ["*"; "`"; "["; "]"; "("; ")"]%char.

(** A character of a slug: a lowercase letter, a digit or a hyphen. *)
Definition isSlugChar (c : ascii) : bool :=
  isLower c || isDigit c || Ascii.eqb c "-".

(** No lowercase letter of [s] stands before an uppercase one. *)
Fixpoint noCamel (s : string) : bool :=
  match s with
  | EmptyString => true
  | String a r =>
      match r with
      | String b _ => negb (isLower a && isUpper b) && noCamel r
      | EmptyString => true
      end
  end.

(** What [titleCase] needs of [toUpperCase] on one character: it returns
    a text that is not empty and holds no lowercase letter [a] to [z], and
    it leaves the first character of that text as it is. *)
Definition uppercases (toUpperCase : string -> string) : Prop :=
  forall c, exists d rest,
    toUpperCase (String c EmptyString) = String d rest /\
    allString (fun x => negb (isLower x)) (String d rest) = true /\
    toUpperCase (String d EmptyString) = String d EmptyString.

(** A text that can stand inside inline markup: not empty, on one line,
    and free of the characters the markup is written with. *)
Definition inlineText (t : string) : bool :=
  negb (String.eqb t "") && avoids markdownChars t
  && allString (fun c => negb (isLineTerminator c)) t.

(** *** Vocabulary of the HTML walker *)

(** The state [st] with [pre] before its output. *)
Definition prepend {Hook : Type} (pre : string) (st : HtmlState Hook) : HtmlState Hook :=
  {| title := title st; headings := headings st; output := pre +:+ output st;
     ids := ids st; hook := hook st |}.

(** The state [st] with nothing written yet. *)
Definition unwritten {Hook : Type} (st : HtmlState Hook) : HtmlState Hook :=
  {| title := title st; headings := headings st; output := "";
     ids := ids st; hook := hook st |}.

(** What was recorded from the first [h2] on. *)
Fixpoint fromFirstH2 (seen : list (string * string)) : list (string * string) :=
  match seen with
  | [] => []
  | (tag, id) :: r => if String.eqb tag "h2" then seen else fromFirstH2 r
  end.

(** The ids recorded for the headings other than [h1], from the first
    [h2] on. *)
Definition indexedIds (seen : list (string * string)) : list string :=
  sectionIds (fromFirstH2 seen).

(** The index holds, parents before children, what was recorded for the
    headings other than [h1] from the first [h2] on. *)
Definition indexed (st : HtmlState (list (string * string))) : Prop :=
  allIndexIds (headings st) = indexedIds (hook st).

(** ** [getMarkdown] *)

(** [symbol] and [endSymbol] of a node with the tag [tag] and the link
    [link]; [isArr] tells that its content is an array. *)
Definition markdownSymbols (tag link : option string) (isArr : bool) : string * string :=
  let itemTag := if truthy tag then interpolate tag else "" in
  let isSummary := isString tag "summary" in
  let isDetails := isString tag "details" in
  let isCode := isString tag "code" in
  let symbol := default "" (tagToSymbol itemTag) in
  let endSymbol := if isCode || isString tag "strong" then symbol else "" in
  let '(symbol, endSymbol) :=
    if truthy link && isAnchor tag
    then ("<a href=" +:+ quote +:+ interpolate link +:+ quote +:+ ">", "</a>")
    else (symbol, endSymbol) in
  let '(symbol, endSymbol) :=
    if isDetails || isSummary
    then (newline +:+ "<" +:+ interpolate tag +:+ ">",
          (if isDetails then newline +:+ newline else "")
            +:+ "</" +:+ interpolate tag +:+ ">"
            +:+ (if isSummary then newline else ""))
    else (symbol, endSymbol) in
  if isArr && isCode then ("<code>", "</code>") else (symbol, endSymbol).

(** What a node writes before its content: its symbol, and a line feed
    for a paragraph outside a list item. *)
Definition markdownOpening (tag link : option string) (isArr : bool) (outerTag : string)
    : string :=
  fst (markdownSymbols tag link isArr)
  +:+ (if isString tag "p" && negb (String.eqb outerTag "li") then newline else "").

(** [getMarkdown]; [_output] is [_output.ref]. *)
Fixpoint getMarkdown (data : DocsContent) (outerTag : string) (_output : string)
    {struct data} : string :=
  match data with
  | StrNode content tag link =>
      _output +:+ markdownOpening tag link false outerTag +:+ content
        +:+ snd (markdownSymbols tag link false)
  | ArrNode content tag link =>
      let itemTag := if truthy tag then interpolate tag else "" in
      fold_left (fun out item => getMarkdown item itemTag out) content
                (_output +:+ markdownOpening tag link true outerTag)
        +:+ snd (markdownSymbols tag link true)
  end.

(** The strings of [l], one after the other. *)
Definition joined (l : list string) : string := fold_right String.append "" l.

(** *** Vocabulary of the resolver *)

(** From [u] to [u'] the Types section was only added to, at its end, and
    the used set only grew. *)
Definition appended (u u' : Unit) : Prop :=
  (exists added, types u' = types u ++ added) /\ usedTypes u ⊆ usedTypes u'.

(** The node of one token of a type expression: a link to the type the
    token names when it is among [typeMatches], what the reference pattern
    found in the expression; the escaped token where it is not, or names
    no type. *)
Definition tokenNode (renderType : RenderType) (docTypes : gmap string DocsAll)
    (dir url : string) (typeMatches : list string) (token : string) : DocsContent :=
  if includes typeMatches token then
    match docTypes !! token with
    | Some docType =>
        StrNode (e_name docType) (Some "a")
                (Some (linkTo renderType dir url docType))
    | None => text (escape token)
    end
  else text (escape token).

(** The node of a type expression: the escaped expression where no token
    may name a type, the nodes of its tokens otherwise. *)
Definition nameContent (renderType : RenderType) (docTypes : gmap string DocsAll)
    (dir url : string) (typeName : string) : DocsContent :=
  match typeMatchesOf typeName with
  | [] => text (escape typeName)
  | typeMatches =>
      ArrNode (map (tokenNode renderType docTypes dir url typeMatches)
                   (allMatchesOf typeName)) None None
  end.

(** The nodes of [names] after [_content], a separator before each but
    the first of the content. *)
Definition linkedContent (renderType : RenderType) (docTypes : gmap string DocsAll)
    (dir url : string) (names : list string) (_content : list DocsContent)
    : list DocsContent :=
  fold_left (fun c typeName =>
               separate c ++ [nameContent renderType docTypes dir url typeName])
            names _content.

(** What the expression needs to be read without a new section and without
    an error: it has a token where it may name a type, and every
    registered type it names is [current] itself or used in [u]. *)
Definition settled (docTypes : gmap string DocsAll) (current : DocsAll) (u : Unit)
    (typeName : string) : Prop :=
  (typeMatchesOf typeName = [] \/ allMatchesOf typeName <> []) /\
  forall name docType,
    In name (typeMatchesOf typeName) ->
    docTypes !! name = Some docType ->
    oid docType = oid current \/ e_name docType ∈ usedTypes u.

(** A name made of underscores only. *)
Definition underscores (typeName : string) : bool :=
  negb (String.eqb typeName "") && allString (Ascii.eqb "_") typeName.

(** A section starts with the content it was given. *)
Definition keepsContent (m : list DocsContent -> Build (list DocsContent)) : Prop :=
  forall c, returnsP (fun c' => c `prefix_of` c') (m c).

(** The text of a node: its string, or the texts of its items. *)
Fixpoint textOf (data : DocsContent) : string :=
  match data with
  | StrNode content _ _ => content
  | ArrNode content _ _ =>
      (fix texts (l : list DocsContent) : string :=
         match l with
         | [] => ""
         | item :: r => textOf item +:+ texts r
         end) content
  end.

(** The text of a list of nodes. *)
Definition textsOf (l : list DocsContent) : string := joined (map textOf l).

(** Every token of the expression is part of its spelling: no underscore
    stands where no token is open. *)
Definition spelledOut (typeName : string) : bool :=
  String.eqb (joined (allMatchesOf typeName)) typeName.

(** *** Vocabulary of the examples *)

(** A text that fills the line of a title or a description: not empty, on
    one line, no white space at its start. *)
Definition lineText (t : string) : bool :=
  match t with
  | EmptyString => false
  | String c _ => negb (isSpace c) && allString (fun c => negb (isLineTerminator c)) t
  end.

(** No white space at the start. *)
Definition startsClean (s : string) : bool :=
  match s with
  | EmptyString => true
  | String c _ => negb (isSpace c)
  end.

(** The line of a label, where the example has it. *)
Definition labelledLine (label : string) (t : option string) : string :=
  match t with
  | Some t => label +:+ " " +:+ t +:+ newline
  | None => ""
  end.

(** An example as the doc comments write it: the title and the
    description, each on a line of its own, then the language and the
    code. *)
Definition writtenExample (title desc : option string) (lang code : string) : string :=
  labelledLine "title:" title +:+ labelledLine "desc:" desc +:+ lang +:+ ": " +:+ code.

(** No example names a file. *)
Definition inlineExamples (examples : list string) : bool :=
  forallb (fun example => negb (startsWith (exampleCode example) ".")) examples.

(** *** Sources and registries to run [getDocs] on *)

(** An item that is not documented. *)
Definition undocumentedItem (name kind : string) : DocsJsDocItem :=
  {| i_name := name; i_kind := kind;
     i_filename := None; i_filenameOut := None; i_code := None;
     i_description := None; i_classdesc := None;
     i_params := None; i_returns := None; i_properties := None; i_yields := None;
     i_type := None; i_augments := None; i_memberof := None;
     i_undocumented := true; i_private := false; i_tags := None;
     i_examples := None |}.

(** A directory whose one function is not documented. *)
Definition helpersOnly : list SourceFile :=
  [ {| f_dir := "src/helpers"; f_isResFile := true;
       f_items := [undocumentedItem "clamp" "function"] |} ].

(** [dir] is the directory of a result file among [sourceFiles]. *)
Definition resultDir (sourceFiles : list SourceFile) (dir : string) : Prop :=
  exists file, In file sourceFiles /\ f_isResFile file = true /\ f_dir file = dir.

(** What holds of the ids after every round: a type carries the slug of
    the name it stands under, a class carries it or no id yet, and a type
    and a class with one identity carry one id. *)
Definition anchored (g : Registry) : Prop :=
  map_Forall (fun key t => e_id t = Some (getId key)) (g_types g) /\
  map_Forall (fun key c => e_id c = None \/ e_id c = Some (getId key)) (g_classes g) /\
  (forall k k' t c,
      g_types g !! k = Some t -> g_classes g !! k' = Some c -> oid t = oid c ->
      e_id t = e_id c).

(** ** Vocabulary of the claims on the resolver and on [getDocs] *)

(** The link node of a reference to [docType]. *)
Definition linkNode (docType : DocsAll) (target : string) : DocsContent :=
  StrNode (e_name docType) (Some "a") (Some target).

Section Sections.

Variable readFile : string -> string -> option string.
Variable codeToHtml : string -> string -> string.
Variable renderType : RenderType.
Variable docTypes : gmap string DocsAll.
Variable dir url : string.

(** [section] is the full section of the type [docType] in a unit of
    [dir]: all that [getTypeContent] returned for it, called as the first
    reference to a type calls it, on a typedef at depth 2. *)
Definition sectionOf (docType : DocsAll) (section : list DocsContent) : Prop :=
  exists budget u0 u1,
    getTypeContent readFile codeToHtml renderType docTypes dir url
                   budget docType KTypedef 2 u0 = Done (section, u1).

(** From [u] to [u'] the Types section gained the sections [blocks], one
    after the other and nothing else, each the full section of a
    registered type that was not used in [u]; the used set gained the
    names of these types and nothing else; no type has two of them. *)
Definition addsSections (blocks : list (DocsAll * list DocsContent)) (u u' : Unit)
    : Prop :=
  types u' = types u ++ concat (map snd blocks) /\
  usedTypes u' = usedTypes u ∪ list_to_set (map (fun block => e_name (fst block)) blocks) /\
  NoDup (map (fun block => e_name (fst block)) blocks) /\
  Forall (fun block =>
            (e_name (fst block) ∉ usedTypes u) /\
            (exists key, docTypes !! key = Some (fst block)) /\
            sectionOf (fst block) (snd block))
         blocks.

Definition bySections (u u' : Unit) : Prop := exists blocks, addsSections blocks u u'.

End Sections.


(** *** What [getDocs] builds before it goes through the directories *)

(** What the loop on the source files has built. *)
Definition readOf (args : DocsArgs) (sourceFiles : list SourceFile) : Sources :=
  fold_left (readSource (srcDir args) (a_outDir args)) sourceFiles
            {| jsdocItems := []; sources := []; exports := ∅ |}.

(** [sources], once the index comments are set under the source
    directory. *)
Definition sourcesOf (explain : string -> list DocsJsDocItem) (args : DocsArgs)
    (sourceFiles : list SourceFile) : list (string * list DocsJsDocItem) :=
  match a_index args with
  | Some index =>
      if String.eqb index "" then sources (readOf args sourceFiles)
      else setSource (srcDir args) (explain index) (sources (readOf args sourceFiles))
  | None => sources (readOf args sourceFiles)
  end.

(** The four maps, once [jsdocItems.forEach] is over. *)
Definition registryOf (args : DocsArgs) (sourceFiles : list SourceFile) : Registry :=
  fold_left register (jsdocItems (readOf args sourceFiles)) emptyRegistry.

(** The entity the loop on the items of a directory renders for [item],
    and the kind it renders it as: the function, the class or the variable
    that the maps hold under the name of the item. *)
Definition entityOf (g : Registry) (item : DocsJsDocItem) : option (DocsKind * DocsAll) :=
  if String.eqb (i_kind item) "function"
  then (fun info => (KFunction, info)) <$> (g_functions g !! i_name item)
  else if String.eqb (i_kind item) "class"
  then (fun info => (KClass, info)) <$> (g_classes g !! i_name item)
  else if String.eqb (i_kind item) "member" || String.eqb (i_kind item) "constant"
  then (fun info => (KTypedef, info)) <$> (g_vars g !! i_name item)
  else None.

(** The map and the used set the loop on the items keeps for the
    entities it renders as [kind]: functions, classes, and the variables,
    which it renders as types. *)
Definition registryFor (g : Registry) (kind : DocsKind) : gmap string DocsAll :=
  match kind with
  | KFunction => g_functions g
  | KClass => g_classes g
  | KTypedef => g_vars g
  end.

Definition usedOf (kind : DocsKind) (e : Entries) : gset string :=
  match kind with
  | KFunction => u_usedFunctions e
  | KClass => u_usedClasses e
  | KTypedef => u_usedVars e
  end.

(** One of [examples] names a file that cannot be read from [dir]. *)
Definition unreadable (readFile : string -> string -> option string) (dir : string)
    (examples : list string) : Prop :=
  exists example, example ∈ examples /\
                  startsWith (exampleCode example) "." = true /\
                  readFile dir (exampleCode example) = None.

(** The files [renderMarkdownDocs] writes, each as the directory it is
    written for and its text: the function sets [renderType.ref], awaits
    [getDocs], and only then writes, for each directory of the docs, the
    Markdown of its page. *)
Definition markdownFiles (readFile : string -> string -> option string)
    (codeToHtml : string -> string -> string) (explain : string -> list DocsJsDocItem)
    (localeCompare : string -> string -> Z) (toUpperCase : string -> string)
    (args : DocsArgs) (sourceFiles : list SourceFile) : Outcome (list (string * string)) :=
  docs ← getDocs readFile codeToHtml explain localeCompare toUpperCase Markdown args sourceFiles;
  Done (map (fun entry => (fst entry, getMarkdown (ArrNode (snd entry) None None) "" ""))
            docs).

(** A function whose example names a file, and a directory that holds
    it. *)
Definition renderItem : DocsJsDocItem :=
  itemOf "render" "function" None (Some []) (Some ["ts: ./render.example.ts"]).

Definition withFileExample : list SourceFile :=
  [ {| f_dir := "src/button"; f_isResFile := true; f_items := [renderItem] |} ].

(** * Properties *)

(** ** Strings *)

Lemma append_cons (c : ascii) (a b : string) :
  String c a +:+ b = String c (a +:+ b).
Proof. reflexivity. Qed.

Lemma append_nil_l (s : string) : "" +:+ s = s.
Proof. reflexivity. Qed.

Lemma append_nil_r (s : string) : s +:+ "" = s.
Proof.
  induction s as [|c s IH]; [reflexivity|].
  rewrite append_cons. f_equal. exact IH.
Qed.

Lemma append_assoc (a b c : string) : (a +:+ b) +:+ c = a +:+ (b +:+ c).
Proof.
  induction a as [|x a IH]; [reflexivity|].
  rewrite !append_cons. f_equal. exact IH.
Qed.

Lemma allString_app (p : ascii -> bool) (a b : string) :
  allString p (a +:+ b) = allString p a && allString p b.
Proof.
  induction a as [|c a IH]; [reflexivity|].
  rewrite append_cons. simpl. rewrite IH. now rewrite andb_assoc.
Qed.

(** ** Normalizer: type names *)


Lemma allString_impl (p q : ascii -> bool) (s : string) :
  (forall c, p c = true -> q c = true) -> allString p s = true -> allString q s = true.
Proof.
  intros Hpq. induction s as [|c s IH]; simpl; [reflexivity|].
  intros [Hc Hs]%andb_prop. rewrite (Hpq c Hc). now apply IH.
Qed.

Lemma replaceDotLt_step (c d : ascii) (r : string) :
  replaceDotLt (String c (String d r))
  = if negb (isLineTerminator c) && Ascii.eqb d "<"
    then String "<" (replaceDotLt r)
    else String c (replaceDotLt (String d r)).
Proof. reflexivity. Qed.




(** *** The first replacement *)


Lemma replaceArray_step (c : ascii) (r : string) :
  replaceArray (String c r)
  = match (if startsWith (String c r) "Array.<"
           then dotPlusGt (dropString 7 (String c r)) else None) with
    | Some (g, rest) => g +:+ "[]" +:+ rest
    | None => String c (replaceArray r)
    end.
Proof. reflexivity. Qed.







(** ** Normalizer: default values *)

Lemma normalizeParam_defaults (raw : DocsJsDocType) :
  (p_defaults (normalizeParam raw) = None <-> jd_defaultvalue raw = JUndefined) /\
  (jd_defaultvalue raw <> JUndefined ->
   p_defaults (normalizeParam raw) = Some (jsString (jd_defaultvalue raw))).
Proof.
  unfold normalizeParam. simpl. destruct (jd_defaultvalue raw); simpl;
    (split; [split|]); congruence.
Qed.

(** ** Claims on the normalizer *)




(** An item with generic notation of its own: the first replace takes
    all of it, up to the last ['>'], and the second removes the character
    before each ['<'] that is left. *)
Lemma normalizeTypes_nested_notation :
  normalizeTypes ["Array.<Array.<string>>"] = ["Array<string>[]"] /\
  normalizeTypes ["Object.<string, Array.<number>>"] = ["Object<string, number>[]"].
Proof. split; reflexivity. Qed.


(** [String] on numbers: integers, fractions, the exponential notation
    from [1e21] on and below [1e-6], and the values that are no finite
    number. *)
Lemma numberToString_forms :
  numberToString (Finite false 42 2) = "42" /\
  numberToString (Finite true 15 1) = "-1.5" /\
  numberToString (Finite false 1 3) = "100" /\
  numberToString (Finite false 5 0) = "0.5" /\
  numberToString (Finite false 1 (-5)) = "0.000001" /\
  numberToString (Finite false 1 (-6)) = "1e-7" /\
  numberToString (Finite false 1 21) = "100000000000000000000" /\
  numberToString (Finite false 1 22) = "1e+21" /\
  numberToString (Finite false 12345 22) = "1.2345e+21" /\
  numberToString (Zero true) = "0" /\
  numberToString NaN = "NaN" /\
  numberToString (Infinity true) = "-Infinity".
Proof. repeat split; vm_compute; reflexivity. Qed.

(** C7. A default value is recorded, as the string form of the raw value,
    exactly when the raw [defaultvalue] is not [undefined]; the falsy
    defaults [0], [false] and the empty string are recorded, and so are
    [-0], [NaN] and [null]. The string form of a number is the one
    [String] gives it, whatever the number. *)
Theorem normalizeParams_records_defined_defaults (params : list DocsJsDocType) :
  Forall2
    (fun raw p =>
       (p_defaults p = None <-> jd_defaultvalue raw = JUndefined) /\
       (jd_defaultvalue raw <> JUndefined ->
        p_defaults p = Some (jsString (jd_defaultvalue raw))))
    params (normalizeParams params) /\
  map p_defaults
      (normalizeParams [rawParam "a" "number" (JNumber (Zero false));
                        rawParam "b" "boolean" (JBoolean false);
                        rawParam "c" "string" (JString "");
                        rawParam "d" "string" JUndefined;
                        rawParam "e" "number" (JNumber (Zero true));
                        rawParam "f" "number" (JNumber NaN);
                        rawParam "g" "null" JNull;
                        rawParam "h" "number" (JNumber (Finite false 1 22))])
  = [Some "0"; Some "false"; Some ""; None; Some "0"; Some "NaN"; Some "null";
     Some "1e+21"].
Proof.
  split; [|reflexivity].
  induction params as [|raw params IH]; constructor.
  - apply normalizeParam_defaults.
  - exact IH.
Qed.

(** ** HTML walker: heading ids *)

Lemma suffixed_inj (id : string) : Inj (=) (=) (suffixed id).
Proof.
  intros j k H. unfold suffixed in H.
  apply (inj (String.app id)) in H. apply (inj (String.app "-")) in H.
  now apply (inj pretty) in H.
Qed.

(** What the loop has seen when it stops: every suffix before the result
    is taken, and the result is free unless the rounds ran out. *)
Lemma freeSuffix_range (_ids : gset string) (id : string) (rounds suffix : nat) :
  let k := freeSuffix _ids id rounds suffix in
  ((suffix <= k <= suffix + rounds) /\
   (forall j, (suffix <= j < k) -> suffixed id j ∈ _ids) /\
   (k < suffix + rounds -> suffixed id k ∉ _ids)).
Proof.
  revert suffix. induction rounds as [|n IH]; intros suffix; cbn [freeSuffix].
  - repeat split; intros; lia.
  - destruct (decide (suffixed id suffix ∈ _ids)) as [Hin|Hout].
    + destruct (IH (S suffix)) as (Hr & Hbefore & Hfree).
      repeat split; try lia.
      * intros j Hj. destruct (decide (j = suffix)) as [->|Hne]; [exact Hin|].
        apply Hbefore. lia.
      * intros Hk. apply Hfree. lia.
    + repeat split; intros; try lia. exact Hout.
Qed.

(** With as many rounds as the set has ids, the result is the first free
    suffix: were all the suffixes 1, ..., [size _ids] + 1 taken, the set
    would hold more ids than its size. *)
Lemma freeSuffix_first_free (_ids : gset string) (id : string) :
  let k := freeSuffix _ids id (size _ids) 1 in
  (1 <= k /\
   (suffixed id k ∉ _ids) /\
   (forall j, (1 <= j < k) -> suffixed id j ∈ _ids)).
Proof.
  intros k. destruct (freeSuffix_range _ids id (size _ids) 1) as (Hr & Hbefore & Hfree).
  fold k in Hr, Hbefore, Hfree. repeat split; [lia | | exact Hbefore].
  destruct (decide (k < 1 + size _ids)) as [Hlt|Hge]; [now apply Hfree|].
  assert (Hk : k = S (size _ids)) by lia. intros Hin.
  set (taken := map (suffixed id) (seq 1 (S (size _ids)))).
  assert (Hsub : (list_to_set taken : gset string) ⊆ _ids).
  { intros x Hx. apply elem_of_list_to_set in Hx.
    apply list_elem_of_fmap in Hx as (j & -> & Hj). apply elem_of_seq in Hj.
    destruct (decide (j = k)) as [->|Hne]; [exact Hin|]. apply Hbefore. lia. }
  apply subseteq_size in Hsub. rewrite size_list_to_set in Hsub.
  - unfold taken in Hsub. rewrite length_map, length_seq in Hsub. lia.
  - unfold taken. apply (NoDup_fmap_2 _). apply NoDup_seq.
Qed.

(** The id of a heading is the slug of its text when that is free, and the
    slug with the first free suffix otherwise; it is never a taken id. *)
Lemma uniqueId_spec (_ids : gset string) (content : string) :
  let slug := getId content in
  ((slug ∉ _ids -> uniqueId _ids content = slug) /\
   (slug ∈ _ids ->
    exists k, 1 <= k /\ uniqueId _ids content = suffixed slug k /\
              (suffixed slug k ∉ _ids) /\
              forall j, (1 <= j < k) -> suffixed slug j ∈ _ids)).
Proof.
  intros slug. unfold uniqueId. fold slug. split; intros H.
  - now rewrite decide_False.
  - rewrite decide_True by exact H.
    destruct (freeSuffix_first_free _ids slug) as (H1 & Hfree & Hbefore).
    eexists. repeat split; eauto.
Qed.

Lemma uniqueId_fresh (_ids : gset string) (content : string) :
  uniqueId _ids content ∉ _ids.
Proof.
  destruct (uniqueId_spec _ids content) as [Hfree Htaken].
  destruct (decide (getId content ∈ _ids)) as [Hin|Hout].
  - destruct (Htaken Hin) as (k & _ & -> & Hk & _). exact Hk.
  - now rewrite (Hfree Hout).
Qed.

(** ** HTML walker: induction on content and on the index *)

Lemma DocsContent_induction (P : DocsContent -> Prop) :
  (forall content tag link, P (StrNode content tag link)) ->
  (forall content tag link, Forall P content -> P (ArrNode content tag link)) ->
  forall data, P data.
Proof.
  intros Hstr Harr. fix IH 1. intros [content tag link | content tag link].
  - apply Hstr.
  - apply Harr.
    refine ((fix all (l : list DocsContent) : Forall P l :=
               match l with
               | [] => @List.Forall_nil _ P
               | x :: r => @List.Forall_cons _ P x r (IH x) (all r)
               end) content).
Qed.

Lemma DocsHeading_induction (P : DocsHeading -> Prop) :
  (forall i t ti, P (Heading i t ti None)) ->
  (forall i t ti l, Forall P l -> P (Heading i t ti (Some l))) ->
  forall h, P h.
Proof.
  intros Hnone Hsome. fix IH 1. intros [i t ti [l|]].
  - apply Hsome.
    refine ((fix all (l : list DocsHeading) : Forall P l :=
               match l with
               | [] => @List.Forall_nil _ P
               | x :: r => @List.Forall_cons _ P x r (IH x) (all r)
               end) l).
  - apply Hnone.
Qed.

Lemma indexIds_some (i t ti : string) (l : list DocsHeading) :
  indexIds (Heading i t ti (Some l)) = i :: allIndexIds l.
Proof. reflexivity. Qed.

Lemma allIndexIds_app (a b : list DocsHeading) :
  allIndexIds (a ++ b) = allIndexIds a ++ allIndexIds b.
Proof. unfold allIndexIds. now rewrite map_app, concat_app. Qed.

Lemma attachHeading_unfold (targetLevel : nat) (hd : DocsHeading)
    (i t ti : string) (children : option (list DocsHeading)) :
  attachHeading targetLevel hd (Heading i t ti children)
  = let pushed := Heading i t ti (Some (default [] children ++ [hd])) in
    match headingInfo t, children with
    | Some parentLevel, Some (c :: cs) =>
        if (parentLevel <? targetLevel)%nat
        then Heading i t ti (Some (attachToLast targetLevel hd (c :: cs)))
        else pushed
    | _, _ => pushed
    end.
Proof. reflexivity. Qed.

Lemma mapLast_cons2 {A : Type} (f : A -> A) (x y : A) (r : list A) :
  mapLast f (x :: y :: r) = x :: mapLast f (y :: r).
Proof. reflexivity. Qed.

(** Attaching an entry adds its ids to those of the index, and no other. *)
Lemma attachToLast_ids_from (targetLevel : nat) (hd : DocsHeading)
    (headings : list DocsHeading) :
  Forall (fun parent => forall x,
            x ∈ indexIds (attachHeading targetLevel hd parent) ->
            x ∈ indexIds parent \/ x ∈ indexIds hd) headings ->
  forall x, x ∈ allIndexIds (attachToLast targetLevel hd headings) ->
            x ∈ allIndexIds headings \/ x ∈ indexIds hd.
Proof.
  intros Hall x. induction headings as [|y r IH]; [intros Hx; now apply elem_of_nil in Hx|].
  apply Forall_cons in Hall as [Hy Hr]. destruct r as [|z r'].
  - unfold allIndexIds, attachToLast. cbn [mapLast map concat]. rewrite !app_nil_r. apply Hy.
  - unfold attachToLast in *. rewrite mapLast_cons2.
    unfold allIndexIds in *. cbn [map concat] in *. intros Hx.
    apply elem_of_app in Hx as [Hx|Hx]; [set_solver|].
    destruct (IH Hr Hx); set_solver.
Qed.

Lemma attachHeading_ids (targetLevel : nat) (hd parent : DocsHeading) (x : string) :
  x ∈ indexIds (attachHeading targetLevel hd parent) ->
  x ∈ indexIds parent \/ x ∈ indexIds hd.
Proof.
  revert x. induction parent as [i t ti | i t ti l IH] using DocsHeading_induction;
    intros x; rewrite attachHeading_unfold; cbv zeta.
  - destruct (headingInfo t); cbn [default app]; rewrite indexIds_some;
      unfold allIndexIds; cbn [map concat]; rewrite app_nil_r; cbn [indexIds];
      set_solver.
  - assert (Hpush : x ∈ indexIds (Heading i t ti (Some (l ++ [hd]))) ->
                    x ∈ indexIds (Heading i t ti (Some l)) \/ x ∈ indexIds hd).
    { rewrite !indexIds_some, allIndexIds_app. unfold allIndexIds at 2.
      cbn [map concat]. rewrite app_nil_r. set_solver. }
    cbn [default]. destruct (headingInfo t) as [parentLevel|]; [|exact Hpush].
    destruct l as [|c cs]; [exact Hpush|].
    destruct (parentLevel <? targetLevel)%nat; [|exact Hpush].
    rewrite !indexIds_some. intros Hx. apply elem_of_cons in Hx as [->|Hx]; [set_solver|].
    destruct (attachToLast_ids_from targetLevel hd (c :: cs) IH x Hx); set_solver.
Qed.

Lemma attachToLast_ids (targetLevel : nat) (hd : DocsHeading)
    (headings : list DocsHeading) (x : string) :
  x ∈ allIndexIds (attachToLast targetLevel hd headings) ->
  x ∈ allIndexIds headings \/ x ∈ indexIds hd.
Proof.
  apply attachToLast_ids_from. apply Forall_forall. intros parent _ y.
  apply attachHeading_ids.
Qed.

(** ** HTML walker: what a walk does to the taken ids and the index *)

Lemma headingInfo_cases (tag : string) (level : nat) :
  headingInfo tag = Some level ->
  (tag, level) ∈ [("h1", 1); ("h2", 2); ("h3", 3); ("h4", 4); ("h5", 5); ("h6", 6)].
Proof.
  unfold headingInfo. intros H.
  repeat (match type of H with
          | context [String.eqb tag ?t] =>
              destruct (String.eqb_spec tag t) as [->|_];
              [injection H as <-; set_solver|]
          end).
  discriminate H.
Qed.

Section WalkerFacts.

Context {Hook : Type}.
Variable filterAttr : Attr -> DocsContent -> string -> Hook -> Attr * Hook.

Implicit Types st : HtmlState Hook.

Lemma grows_refl st : grows st st.
Proof. split; [set_solver | auto]. Qed.

Lemma grows_trans st1 st2 st3 : grows st1 st2 -> grows st2 st3 -> grows st1 st3.
Proof.
  intros [Hs12 Hi12] [Hs23 Hi23]. split; [set_solver|].
  intros i Hi Hin. apply Hi12; [exact Hi|]. apply Hi23; [set_solver | exact Hin].
Qed.

(** Two states with the same taken ids and index. *)
Lemma grows_same st st' :
  ids st' = ids st -> headings st' = headings st -> grows st st'.
Proof. intros Hi Hh. unfold grows. rewrite Hi, Hh. split; [set_solver | auto]. Qed.

Lemma registerHeading_grows (id content tag : string) (level : nat) st :
  id ∉ ids st -> grows st (registerHeading id content tag level st).
Proof.
  intros Hfresh. split; [cbn; set_solver|]. intros i Hi. cbn [registerHeading headings].
  assert (Hpush : i ∈ allIndexIds (headings st ++ [Heading id tag content None]) ->
                  i ∈ allIndexIds (headings st)).
  { rewrite allIndexIds_app. unfold allIndexIds at 2. cbn. set_solver. }
  destruct (level =? 2)%nat;
    destruct ((2 <? level)%nat && negb (length (headings st) =? 0)%nat);
    try exact Hpush; try tauto.
  - intros Hin. apply attachToLast_ids in Hin as [Hin|Hin]; [now apply Hpush|].
    cbn in Hin. set_solver.
  - intros Hin. apply attachToLast_ids in Hin as [Hin|Hin]; [exact Hin|].
    cbn in Hin. set_solver.
Qed.

Lemma getHtmlStr_grows
    (permalink : DocsContent -> string -> HtmlState Hook -> HtmlState Hook)
    (content : string) (tag link : option string) (outerTag : string) st :
  (forall d o s, grows s (permalink d o s)) ->
  grows st (getHtmlStr filterAttr permalink content tag link outerTag st).
Proof.
  intros Hp. unfold getHtmlStr.
  destruct (String.eqb content ""); [apply grows_refl|].
  match goal with |- context [filterAttr ?a ?d ?o ?h] =>
    destruct (filterAttr a d o h) as [attr h'] end.
  destruct (tagsOf tag link attr) as [opening closing].
  match goal with |- grows st (emit closing ?s5) => set (st5 := s5) end.
  apply grows_trans with st5; [|apply grows_same; reflexivity].
  subst st5.
  match goal with |- grows st (if ?b then permalink ?d ?o ?s else ?s) =>
    apply grows_trans with s; [|destruct b; [apply Hp | apply grows_refl]] end.
  match goal with |- grows st (emit _ (emit _ ?s2)) =>
    apply grows_trans with s2; [|apply grows_same; reflexivity] end.
  match goal with |- grows st {| title := title ?s1; headings := _; output := _;
                                 ids := _; hook := _ |} =>
    apply grows_trans with s1; [|apply grows_same; reflexivity] end.
  destruct tag as [t|]; [|apply grows_refl].
  destruct (headingInfo t) as [[|[|level]]|] eqn:Hinfo;
    [| apply grows_same; reflexivity | | apply grows_refl];
    unfold isHeadingTag; rewrite Hinfo; apply registerHeading_grows, uniqueId_fresh.
Qed.

Lemma getHtml_grows (data : DocsContent) (outerTag : string) st :
  grows st (getHtml filterAttr data outerTag st).
Proof.
  revert outerTag st.
  induction data as [content tag link | content tag link IH] using DocsContent_induction;
    intros outerTag st; cbn [getHtml].
  - apply getHtmlStr_grows. intros [c t l | c t l] o s; cbn [getHtmlPermalink].
    + apply getHtmlStr_grows. intros; apply grows_refl.
    + apply grows_refl.
  - destruct content as [|x r]; [apply grows_refl|].
    match goal with |- context [filterAttr ?a ?d ?o ?h] =>
      destruct (filterAttr a d o h) as [attr h'] end.
    destruct (tagsOf tag link attr) as [opening closing].
    match goal with |- grows st (emit closing (fold_left _ _ ?s3)) =>
      apply grows_trans with s3; [apply grows_same; reflexivity|];
      apply grows_trans with (fold_left (fun s item => getHtml filterAttr item outerTag s) (x :: r) s3);
      [|apply grows_same; reflexivity];
      generalize s3 end.
    induction IH as [|y l Hy Hl IHl]; intros s; cbn [fold_left]; [apply grows_refl|].
    eapply grows_trans; [apply Hy | apply IHl].
Qed.

End WalkerFacts.

Lemma eqb_cons_empty (c : ascii) (s : string) : String.eqb (String c s) "" = false.
Proof. reflexivity. Qed.

Lemma eqb_empty_false (s : string) : s <> "" -> String.eqb s "" = false.
Proof. destruct s; [congruence | reflexivity]. Qed.

Section HeadingStep.

Context {Hook : Type}.
Variable filterAttr : Attr -> DocsContent -> string -> Hook -> Attr * Hook.

Implicit Types st : HtmlState Hook.

(** A node with the tag [a] leaves title, index and taken ids alone. *)
Lemma getHtmlStr_anchor
    (permalink : DocsContent -> string -> HtmlState Hook -> HtmlState Hook)
    (content : string) (link : option string) (outerTag : string) st :
  let st' := getHtmlStr filterAttr permalink content (Some "a") link outerTag st in
  ids st' = ids st /\ headings st' = headings st /\ title st' = title st.
Proof.
  unfold getHtmlStr. destruct (String.eqb content ""); [auto|].
  match goal with |- context [filterAttr ?a ?d ?o ?h] =>
    destruct (filterAttr a d o h) as [attr h'] end.
  destruct (tagsOf (Some "a") link attr) as [opening closing]. cbn. auto.
Qed.

(** What a heading node does to the state: an [h1] sets the title; any
    other heading takes its id and goes to the index. *)
Lemma getHtml_heading (content tag : string) (link : option string)
    (outerTag : string) (level : nat) st :
  headingInfo tag = Some level ->
  content <> "" ->
  let st' := getHtml filterAttr (StrNode content (Some tag) link) outerTag st in
  let id := uniqueId (ids st) content in
  if (level =? 1)%nat
  then ids st' = ids st /\ headings st' = headings st /\ title st' = content
  else ids st' = {[ id ]} ∪ ids st /\
       headings st' = headings (registerHeading id content tag level st) /\
       title st' = title st.
Proof.
  intros Hinfo Hne. cbn [getHtml]. unfold getHtmlStr.
  rewrite (eqb_empty_false _ Hne). unfold isHeadingTag. rewrite Hinfo.
  match goal with |- context [filterAttr ?a ?d ?o ?h] =>
    destruct (filterAttr a d o h) as [attr h'] eqn:Hf end.
  destruct (tagsOf (Some tag) link attr) as [opening closing].
  cbn [getHtmlPermalink].
  match goal with |- context [getHtmlStr filterAttr ?p ?c (Some "a") ?l ?o ?s] =>
    destruct (getHtmlStr_anchor p c l o s) as (Hi & Hh & Ht);
    set (st5 := getHtmlStr filterAttr p c (Some "a") l o s) in * end.
  cbv zeta. cbn [emit ids headings title].
  rewrite Hi, Hh, Ht. cbn [emit ids headings title].
  destruct level as [|[|level]]; cbn; auto.
Qed.

End HeadingStep.

(** With the default filter, a heading is written with its id, its text
    and its permalink. *)
Lemma getHtml_heading_output (content tag : string) (link : option string)
    (outerTag : string) (level : nat) (st : HtmlState unit) :
  headingInfo tag = Some level ->
  content <> "" ->
  let id := uniqueId (ids st) content in
  output (getHtml defaultFilterAttr (StrNode content (Some tag) link) outerTag st)
  = output st +:+ "<" +:+ tag +:+ " id=" +:+ quote +:+ id +:+ quote +:+ ">"
      +:+ markdownToHtml content
      +:+ "<a href=" +:+ quote +:+ "#" +:+ id +:+ quote
      +:+ " aria-label=" +:+ quote +:+ "Permalink: " +:+ content +:+ quote +:+ ">"
      +:+ "#" +:+ "</a>" +:+ "</" +:+ tag +:+ ">".
Proof.
  intros Hinfo Hne id. subst id.
  apply headingInfo_cases in Hinfo. set_unfold.
  destruct Hinfo as [H|[H|[H|[H|[H|[H|[]]]]]]]; injection H as -> ->;
    cbn [getHtml]; unfold getHtmlStr; rewrite (eqb_empty_false _ Hne);
    cbn -[uniqueId markdownToHtml String.append]; rewrite !andb_false_r;
    cbn -[uniqueId markdownToHtml String.append];
    unfold tagsOf; cbn -[uniqueId markdownToHtml String.append]; rewrite !andb_false_r;
    rewrite !append_cons, !append_nil_l;
    cbn -[uniqueId markdownToHtml String.append];
    unfold renderAttrs; cbn -[uniqueId markdownToHtml String.append];
    repeat (rewrite ?append_assoc, ?append_cons, ?append_nil_l); reflexivity.
Qed.

(** ** HTML walker: the ids of the headings below [h1] are distinct *)

Lemma sectionIds_snoc (seen : list (string * string)) (tag id : string) :
  sectionIds (seen ++ [(tag, id)])
  = sectionIds seen ++ (if String.eqb tag "h1" then [] else [id]).
Proof.
  unfold sectionIds. rewrite List.filter_app, map_app. cbn.
  now destruct (String.eqb tag "h1").
Qed.

Lemma recorded_same (st st' : HtmlState (list (string * string))) :
  hook st' = hook st -> ids st' = ids st -> recorded st -> recorded st'.
Proof. unfold recorded. now intros -> ->. Qed.

Lemma getHtmlStr_recorded
    (permalink : DocsContent -> string -> HtmlState (list (string * string))
                 -> HtmlState (list (string * string)))
    (content : string) (tag link : option string) (outerTag : string)
    (st : HtmlState (list (string * string))) :
  (forall d o s, recorded s -> recorded (permalink d o s)) ->
  recorded st ->
  recorded (getHtmlStr recordIds permalink content tag link outerTag st).
Proof.
  intros Hp Hst. unfold getHtmlStr.
  destruct (String.eqb content ""); [exact Hst|].
  match goal with |- context [recordIds ?a ?d ?o ?h] =>
    destruct (recordIds a d o h) as [attr h'] eqn:Hrec end.
  destruct (tagsOf tag link attr) as [opening closing].
  match goal with |- recorded (emit closing ?s5) =>
    apply (recorded_same s5); [reflexivity | reflexivity |] end.
  match goal with |- recorded (if ?b then permalink ?d ?o ?s else ?s) =>
    enough (recorded s) by (destruct b; [now apply Hp | assumption]) end.
  match goal with |- recorded (emit _ (emit _ ?s2)) =>
    apply (recorded_same s2); [reflexivity | reflexivity |] end.
  destruct tag as [t|]; cbn [isAnchor] in *.
  - destruct (headingInfo t) as [level|] eqn:Hinfo.
    + assert (Hanchor : String.eqb t "a" = false).
      { destruct (String.eqb_spec t "a") as [->|]; [discriminate Hinfo | reflexivity]. }
      unfold isHeadingTag in *. rewrite Hinfo in *. rewrite Hanchor, andb_false_r in Hrec.
      cbn [andb] in Hrec. unfold recordIds in Hrec.
      pose proof (uniqueId_fresh (ids st) content) as Hfresh.
      destruct Hst as [Hnd Hin]. unfold recorded.
      destruct level as [|[|level]]; cbn in Hrec;
        apply pair_equal_spec in Hrec as [<- <-]; cbn [hook ids registerHeading];
        rewrite sectionIds_snoc.
      * apply headingInfo_cases in Hinfo. set_unfold. intuition congruence.
      * apply headingInfo_cases in Hinfo.
        assert (t = "h1") as -> by (set_unfold; intuition congruence).
        cbn. rewrite app_nil_r. split; assumption.
      * assert (String.eqb t "h1" = false) as ->.
        { destruct (String.eqb_spec t "h1") as [->|]; [discriminate Hinfo | reflexivity]. }
        split.
        -- apply NoDup_app. repeat split; [exact Hnd | | apply NoDup_singleton].
           intros i Hi Hi'. apply list_elem_of_singleton in Hi' as ->. auto.
        -- intros i Hi. apply elem_of_app in Hi as [Hi|Hi]; [set_solver|].
           apply list_elem_of_singleton in Hi as ->. set_solver.
    + unfold isHeadingTag in *. rewrite Hinfo in *.
      unfold recordIds in Hrec.
      destruct (truthy link && String.eqb t "a"); destruct (headingInfo outerTag);
        cbn in Hrec; apply pair_equal_spec in Hrec as [<- <-]; exact Hst.
  - rewrite andb_false_r in Hrec. cbn in Hrec.
    apply pair_equal_spec in Hrec as [<- <-]. exact Hst.
Qed.

Lemma getHtml_recorded (data : DocsContent) (outerTag : string)
    (st : HtmlState (list (string * string))) :
  recorded st -> recorded (getHtml recordIds data outerTag st).
Proof.
  revert outerTag st.
  induction data as [content tag link | content tag link IH] using DocsContent_induction;
    intros outerTag st Hst; cbn [getHtml].
  - apply getHtmlStr_recorded; [|exact Hst].
    intros [c t l | c t l] o s Hs; cbn [getHtmlPermalink]; [|exact Hs].
    apply getHtmlStr_recorded; [intros ? ? ? H; exact H | exact Hs].
  - destruct content as [|x r]; [exact Hst|].
    match goal with |- context [recordIds ?a ?d ?o ?h] =>
      destruct (recordIds a d o h) as [attr h'] eqn:Hrec end.
    assert (h' = hook st) as ->.
    { unfold recordIds in Hrec. destruct (truthy link && isAnchor tag);
        cbn in Hrec; now apply pair_equal_spec in Hrec as [<- <-]. }
    destruct (tagsOf tag link attr) as [opening closing].
    match goal with |- recorded (emit closing (fold_left _ _ ?s)) => set (s3 := s) end.
    assert (Hs3 : recorded s3)
      by (apply (recorded_same st); [reflexivity | reflexivity | exact Hst]).
    apply (recorded_same (fold_left (fun s item => getHtml recordIds item outerTag s) (x :: r) s3));
      [reflexivity | reflexivity |].
    clearbody s3. clear Hrec. revert s3 Hs3.
    induction IH as [|y l Hy Hl IHl]; intros s Hs; cbn [fold_left]; [exact Hs|].
    apply IHl, Hy, Hs.
Qed.

(** Every page: the ids given to the headings of levels 2 to 6 are distinct. *)
Lemma section_heading_ids_distinct (data : DocsContent) :
  NoDup (sectionIds (hook (getHtml recordIds data "" (initialHtml [])))).
Proof.
  apply (getHtml_recorded data "" (initialHtml [])). split.
  - apply NoDup_nil_2.
  - intros i Hi. now apply elem_of_nil in Hi.
Qed.

(** ** Claims on the HTML walker *)

(** C3 (code defect). On [buttonPage] the [h1] and the [h2] both receive
    the id ["button"]: the id of an [h1] is compared with the taken ids but
    never added to them, so the ids written on one page are not all
    distinct. The ids of the headings below [h1] are distinct on every
    page ([section_heading_ids_distinct]), each the slug or the slug with
    its first free suffix ([uniqueId_spec]). *)
Theorem heading_id_repeats_h1_id :
  hook (getHtml recordIds buttonPage "" (initialHtml []))
  = [("h1", "button"); ("h2", "button"); ("h3", "parameters")] /\
  ~ NoDup (map snd (hook (getHtml recordIds buttonPage "" (initialHtml [])))).
Proof.
  assert (H : hook (getHtml recordIds buttonPage "" (initialHtml []))
              = [("h1", "button"); ("h2", "button"); ("h3", "parameters")])
    by (vm_compute; reflexivity).
  split; [exact H|]. rewrite H. cbn. intros Hnd.
  apply NoDup_cons in Hnd as [Hnot _]. apply Hnot. set_solver.
Qed.

(** C10. A heading of level 3 to 6 met while the index is still empty (no
    level-2 heading was registered) is written with its id, and its id is
    taken, yet the index stays empty, and whatever is walked after it never
    brings that id into the index. *)
Theorem orphan_heading_left_out_of_index {Hook : Type}
    (filterAttr : Attr -> DocsContent -> string -> Hook -> Attr * Hook)
    (content tag : string) (link : option string) (outerTag : string) (level : nat)
    (st : HtmlState Hook) (later : DocsContent) (laterOuterTag : string)
    (st0 : HtmlState unit) :
  headingInfo tag = Some level ->
  3 <= level ->
  content <> "" ->
  headings st = [] ->
  let node := StrNode content (Some tag) link in
  let st' := getHtml filterAttr node outerTag st in
  let id := uniqueId (ids st) content in
  let id0 := uniqueId (ids st0) content in
  headings st' = [] /\
  id ∈ ids st' /\
  (id ∉ allIndexIds (headings (getHtml filterAttr later laterOuterTag st'))) /\
  output (getHtml defaultFilterAttr node outerTag st0)
  = output st0 +:+ "<" +:+ tag +:+ " id=" +:+ quote +:+ id0 +:+ quote +:+ ">"
      +:+ markdownToHtml content
      +:+ "<a href=" +:+ quote +:+ "#" +:+ id0 +:+ quote
      +:+ " aria-label=" +:+ quote +:+ "Permalink: " +:+ content +:+ quote +:+ ">"
      +:+ "#" +:+ "</a>" +:+ "</" +:+ tag +:+ ">".
Proof.
  intros Hinfo Hlevel Hne Hempty node st' id id0.
  pose proof (getHtml_heading filterAttr content tag link outerTag level st Hinfo Hne) as Hstep.
  cbv zeta in Hstep. fold node st' id in Hstep.
  destruct level as [|[|[|level]]]; try lia. cbn [Nat.eqb] in Hstep.
  destruct Hstep as (Hids & Hheadings & _).
  assert (Hindex : headings st' = []).
  { rewrite Hheadings. cbn [registerHeading headings]. rewrite Hempty. reflexivity. }
  assert (Htaken : id ∈ ids st') by (rewrite Hids; set_solver).
  repeat split; [exact Hindex | exact Htaken | | ].
  - intros Hin. destruct (getHtml_grows filterAttr later laterOuterTag st') as [_ Hkeep].
    specialize (Hkeep id Htaken Hin). rewrite Hindex in Hkeep.
    now apply elem_of_nil in Hkeep.
  - now apply (getHtml_heading_output content tag link outerTag (S (S (S level)))).
Qed.

Lemma orphan_heading_left_out_of_index_witness :
  let st := initialHtml tt in
  let node := StrNode "Details" (Some "h3") None in
  let st' := getHtml defaultFilterAttr node "" st in
  let id := uniqueId (ids st) "Details" in
  headings st' = [] /\
  id ∈ ids st' /\
  (id ∉ allIndexIds (headings (getHtml defaultFilterAttr
                                           (StrNode "Types" (Some "h2") None) "" st'))) /\
  output (getHtml defaultFilterAttr node "" st)
  = output st +:+ "<" +:+ "h3" +:+ " id=" +:+ quote +:+ id +:+ quote +:+ ">"
      +:+ markdownToHtml "Details"
      +:+ "<a href=" +:+ quote +:+ "#" +:+ id +:+ quote
      +:+ " aria-label=" +:+ quote +:+ "Permalink: " +:+ "Details" +:+ quote +:+ ">"
      +:+ "#" +:+ "</a>" +:+ "</" +:+ "h3" +:+ ">".
Proof.
  apply (orphan_heading_left_out_of_index defaultFilterAttr "Details" "h3" None "" 3
           (initialHtml tt) (StrNode "Types" (Some "h2") None) "" (initialHtml tt));
    [reflexivity | lia | discriminate | reflexivity].
Defined.

(** ** Navigation assembler *)

(** *** Prefixes and the order of strings *)

Lemma startsWith_refl (s : string) : startsWith s s = true.
Proof. induction s as [|c s IH]; [reflexivity|]. cbn. now rewrite Ascii.eqb_refl. Qed.

Lemma startsWith_trans (a b c : string) :
  startsWith a b = true -> startsWith b c = true -> startsWith a c = true.
Proof.
  revert a b. induction c as [|x c IH]; intros a b Hab Hbc; [reflexivity|].
  destruct b as [|y b]; [discriminate Hbc|]. destruct a as [|z a]; [discriminate Hab|].
  cbn in *. apply andb_prop in Hab as [Hzy Hab]. apply andb_prop in Hbc as [Hyx Hbc].
  apply Ascii.eqb_eq in Hzy as ->. rewrite Hyx. cbn. eapply IH; eauto.
Qed.

Lemma startsWith_antisym (a b : string) :
  startsWith a b = true -> startsWith b a = true -> a = b.
Proof.
  revert b. induction a as [|x a IH]; intros [|y b] Hab Hba; try discriminate; [reflexivity|].
  cbn in *. apply andb_prop in Hab as [Hxy Hab]. apply andb_prop in Hba as [_ Hba].
  apply Ascii.eqb_eq in Hxy as ->. f_equal. now apply IH.
Qed.

(** Two prefixes of one string: one is a prefix of the other. *)
Lemma startsWith_comparable (s a b : string) :
  startsWith s a = true -> startsWith s b = true ->
  startsWith a b = true \/ startsWith b a = true.
Proof.
  revert a b. induction s as [|x s IH]; intros [|y a] [|z b] Ha Hb; cbn in *;
    try discriminate; auto.
  apply andb_prop in Ha as [Hxy Ha]. apply andb_prop in Hb as [Hxz Hb].
  apply Ascii.eqb_eq in Hxy as <-. apply Ascii.eqb_eq in Hxz as <-.
  rewrite Ascii.eqb_refl. cbn. now apply IH.
Qed.

Lemma startsWith_leb (s t : string) : startsWith s t = true -> String.leb t s = true.
Proof.
  unfold String.leb. revert s. induction t as [|b t IH]; intros [|a s] H; cbn in *;
    try discriminate; try reflexivity.
  apply andb_prop in H as [Hab H]. apply Ascii.eqb_eq in Hab as ->.
  unfold Ascii.compare. rewrite N.compare_refl. now apply IH.
Qed.

Lemma properPrefix_spec (t s : string) :
  properPrefix t s = true <-> startsWith s t = true /\ s <> t.
Proof.
  unfold properPrefix. rewrite andb_true_iff, negb_true_iff, String.eqb_neq. tauto.
Qed.

Lemma properPrefix_irrefl (s : string) : properPrefix s s = false.
Proof. unfold properPrefix. now rewrite String.eqb_refl, andb_false_r. Qed.

Lemma properPrefix_trans (a b c : string) :
  properPrefix a b = true -> properPrefix b c = true -> properPrefix a c = true.
Proof.
  rewrite !properPrefix_spec. intros [Hba Hne1] [Hcb Hne2]. split.
  - eapply startsWith_trans; eauto.
  - intros ->. apply Hne1. now apply startsWith_antisym.
Qed.

(** *** The sort *)

Lemma insertSorted_perm (s : string) (l : list string) : insertSorted s l ≡ₚ s :: l.
Proof.
  induction l as [|x r IH]; [reflexivity|]. cbn.
  destruct (String.leb s x); [reflexivity|]. rewrite IH. apply Permutation_swap.
Qed.

Lemma sortSlugs_perm (l : list string) : sortSlugs l ≡ₚ l.
Proof.
  induction l as [|x r IH]; [reflexivity|]. cbn. rewrite insertSorted_perm. now f_equiv.
Qed.

Lemma leb_le (a b : string) : String.leb a b = true <-> String.le a b.
Proof. unfold String.le. now rewrite Is_true_true. Qed.

Lemma insertSorted_sorted (s : string) (l : list string) :
  StronglySorted String.le l -> StronglySorted String.le (insertSorted s l).
Proof.
  induction 1 as [|x r Hr IH Hx]; cbn; [repeat constructor|].
  destruct (String.leb s x) eqn:Hsx.
  - apply leb_le in Hsx. constructor; [now constructor|]. constructor; [exact Hsx|].
    eapply Forall_impl; [exact Hx|]. intros y Hy. cbn in Hy. now transitivity x.
  - constructor; [exact IH|]. rewrite insertSorted_perm. constructor; [|exact Hx].
    destruct (total String.le s x) as [H|H]; [|exact H].
    apply leb_le in H. congruence.
Qed.

Lemma sortSlugs_sorted (l : list string) : StronglySorted String.le (sortSlugs l).
Proof.
  induction l as [|x r IH]; cbn; [constructor | now apply insertSorted_sorted].
Qed.

Lemma sorted_prefixOrdered (l : list string) :
  NoDup l -> StronglySorted String.le l -> prefixOrdered l.
Proof.
  intros Hnd Hs. induction Hs as [|x r Hr IH Hx]; [constructor|].
  apply NoDup_cons in Hnd as [Hnot Hnd]. constructor; [now apply IH|].
  apply Forall_forall. intros y Hy.
  destruct (properPrefix y x) eqn:Hp; [|reflexivity]. exfalso.
  apply properPrefix_spec in Hp as [Hpre Hne]. apply startsWith_leb, leb_le in Hpre.
  rewrite Forall_forall in Hx. specialize (Hx y Hy). cbn in Hx.
  apply Hne. now apply (anti_symm String.le).
Qed.

Lemma StronglySorted_middle {A : Type} (R : A -> A -> Prop) (l1 l2 : list A) (x : A) :
  StronglySorted R (l1 ++ x :: l2) ->
  Forall (fun d => R d x) l1 /\ Forall (fun y => R x y) l2.
Proof.
  induction l1 as [|a l1 IH]; cbn; intros H.
  - apply StronglySorted_inv in H as [_ H]. auto.
  - apply StronglySorted_inv in H as [Hs Ha]. destruct (IH Hs) as [H1 H2].
    split; [|exact H2]. constructor; [|exact H1].
    rewrite Forall_forall in Ha. apply Ha. set_solver.
Qed.

(** *** The loops *)

Lemma collectChildren_from (slug : string) (l : list string)
    (children : list (option DocsNavigationItem))
    (m : gmap string DocsNavigationItem) :
  NoDup l ->
  let r := fold_left
             (fun acc s =>
                if startsWith s slug && negb (String.eqb s slug)
                then (fst acc ++ [snd acc !! s], delete s (snd acc))
                else acc) l (children, m) in
  fst r = children ++ map (fun s => m !! s) (below l slug) /\
  forall s, snd r !! s
            = if bool_decide (s ∈ l) && properPrefix slug s then None else m !! s.
Proof.
  revert children m. induction l as [|x l IH]; intros children m Hnd; cbn zeta.
  - cbn. rewrite app_nil_r. split; [reflexivity|]. intros s.
    rewrite bool_decide_eq_false_2; [reflexivity | set_solver].
  - apply NoDup_cons in Hnd as [Hx Hnd]. cbn [fold_left]. cbv beta. cbn [fst snd].
    change (startsWith x slug && negb (String.eqb x slug)) with (properPrefix slug x).
    unfold below. cbn [List.filter]. fold (below l slug).
    destruct (properPrefix slug x) eqn:Hp.
    + destruct (IH (children ++ [m !! x]) (delete x m) Hnd) as [Hfst Hsnd].
      split.
      * rewrite Hfst, <- app_assoc. cbn. do 2 f_equal. apply map_ext_in.
        intros s Hs. apply filter_In in Hs as [Hs _]. apply lookup_delete_ne.
        intros ->. apply Hx. now apply list_elem_of_In.
      * intros s. rewrite Hsnd. destruct (decide (s = x)) as [->|Hne].
        -- rewrite (bool_decide_eq_false_2 (x ∈ l)) by exact Hx.
           rewrite bool_decide_eq_true_2 by set_solver. rewrite Hp. cbn.
           apply lookup_delete_eq.
        -- rewrite lookup_delete_ne by congruence.
           replace (bool_decide (s ∈ x :: l)) with (bool_decide (s ∈ l)); [reflexivity|].
           apply bool_decide_ext. set_solver.
    + destruct (IH children m Hnd) as [Hfst Hsnd]. split; [exact Hfst|].
      intros s. rewrite Hsnd. destruct (decide (s = x)) as [->|Hne].
      * rewrite (bool_decide_eq_false_2 (x ∈ l)) by exact Hx. rewrite Hp, !andb_false_r.
        reflexivity.
      * replace (bool_decide (s ∈ x :: l)) with (bool_decide (s ∈ l)); [reflexivity|].
        apply bool_decide_ext. set_solver.
Qed.

Lemma covered_app (a b : list string) (s : string) :
  covered (a ++ b) s = covered a s || covered b s.
Proof. unfold covered. apply existsb_app. Qed.

Lemma covered_cons (x : string) (l : list string) (s : string) :
  covered (x :: l) s = properPrefix x s || covered l s.
Proof. reflexivity. Qed.

Lemma covered_false (done : list string) (s : string) :
  covered done s = false <-> forall d, d ∈ done -> properPrefix d s = false.
Proof.
  unfold covered. rewrite <- not_true_iff_false, existsb_exists. split.
  - intros H d Hd. destruct (properPrefix d s) eqn:Hp; [|reflexivity].
    exfalso. apply H. exists d. split; [now apply list_elem_of_In | exact Hp].
  - intros H (d & Hd & Hp). apply list_elem_of_In in Hd. rewrite (H d Hd) in Hp.
    discriminate Hp.
Qed.

Lemma isRoot_covered (slugs : list string) (s : string) :
  isRoot slugs s = negb (covered slugs s).
Proof.
  unfold isRoot, covered. induction slugs as [|x r IH]; [reflexivity|].
  cbn. rewrite IH. now rewrite negb_orb.
Qed.

Section Assemble.

Variable items : gmap string DocsNavigationItem.
Variable slugs : list string.
Hypothesis slugs_distinct : NoDup slugs.
Hypothesis slugs_ordered : prefixOrdered slugs.
Hypothesis items_of_slugs : forall s, s ∉ slugs -> items !! s = None.

Lemma assemble_from (todo done : list string)
    (m : gmap string DocsNavigationItem) (navigation : list DocsNavigationItem) :
  slugs = done ++ todo ->
  (forall s, m !! s = if covered done s then None else items !! s) ->
  assemble slugs todo m navigation
  = navigation ++ omap (navEntry (fun s => items !! s) slugs) todo.
Proof.
  revert done m navigation.
  induction todo as [|slug rest IH]; intros done m navigation Hsplit Hm.
  - cbn. now rewrite app_nil_r.
  - cbn [assemble omap list_omap].
    pose proof (collectChildren_from slug slugs [] m slugs_distinct) as Hc.
    cbv zeta in Hc. fold (collectChildren slug slugs m) in Hc.
    destruct (collectChildren slug slugs m) as [children m'] eqn:Hcc.
    cbn [fst snd app] in Hc. destruct Hc as [Hchildren Hm'].
    assert (Hnext : forall s, m' !! s = if covered (done ++ [slug]) s then None else items !! s).
    { intros s. rewrite Hm', Hm, covered_app, covered_cons. cbn [covered existsb].
      rewrite orb_false_r.
      destruct (decide (s ∈ slugs)) as [Hin|Hout].
      - rewrite bool_decide_eq_true_2 by exact Hin. cbn.
        destruct (properPrefix slug s), (covered done s); reflexivity.
      - rewrite (items_of_slugs s Hout).
        destruct (bool_decide (s ∈ slugs) && properPrefix slug s),
                 (covered done s), (properPrefix slug s); reflexivity. }
    assert (Hsplit' : slugs = (done ++ [slug]) ++ rest) by now rewrite <- app_assoc.
    pose proof slugs_ordered as Hord. unfold prefixOrdered in Hord.
    rewrite Hsplit in Hord. apply StronglySorted_middle in Hord as [Hbefore Hafter].
    assert (Hroot : isRoot slugs slug = negb (covered done slug)).
    { rewrite isRoot_covered, Hsplit, covered_app. f_equal.
      rewrite covered_cons, properPrefix_irrefl. cbn [orb].
      enough (covered rest slug = false) as -> by apply orb_false_r.
      apply covered_false. intros d Hd. rewrite Forall_forall in Hafter. now apply Hafter. }
    unfold navEntry at 1. rewrite Hroot, Hm.
    destruct (covered done slug) eqn:Hcov; cbn [negb].
    + now apply (IH (done ++ [slug])).
    + destruct (items !! slug) as [item|] eqn:Hitem; cbn [fmap option_fmap option_map].
      * rewrite (IH (done ++ [slug]) m' _ Hsplit' Hnext), <- app_assoc. cbn.
        do 3 f_equal. rewrite Hchildren. apply map_ext_in. intros s Hs.
        apply filter_In in Hs as [_ Hs]. rewrite Hm.
        enough (covered done s = false) as -> by reflexivity.
        apply covered_false. intros d Hd.
        destruct (properPrefix d s) eqn:Hds; [|reflexivity]. exfalso.
        apply properPrefix_spec in Hds as [Hsd Hne1].
        pose proof Hs as Hs'. apply properPrefix_spec in Hs' as [Hss Hne2].
        assert (Hdiff : d <> slug).
        { intros ->. rewrite Hsplit in slugs_distinct.
          apply NoDup_app in slugs_distinct as (_ & Hdisj & _).
          apply (Hdisj slug Hd). set_solver. }
        destruct (startsWith_comparable s d slug Hsd Hss) as [H|H].
        -- rewrite Forall_forall in Hbefore. specialize (Hbefore d Hd). cbn in Hbefore.
           assert (properPrefix slug d = true) by (apply properPrefix_spec; auto).
           congruence.
        -- apply covered_false with (d := d) in Hcov; [|exact Hd].
           assert (properPrefix d slug = true) by (apply properPrefix_spec; auto).
           congruence.
      * now apply (IH (done ++ [slug])).
Qed.

End Assemble.

(** *** The map of the pages *)

Lemma navigationMap_lookup (pages : list NavPage) (m : gmap string DocsNavigationItem)
    (s : string) :
  NoDup (map np_slug pages) ->
  fold_left (fun m p => <[np_slug p := pageItem p]> m) pages m !! s
  = match List.find (fun p => String.eqb (np_slug p) s) pages with
    | Some p => Some (pageItem p)
    | None => m !! s
    end.
Proof.
  revert m. induction pages as [|p ps IH]; intros m Hnd; [reflexivity|].
  cbn [map] in Hnd. apply NoDup_cons in Hnd as [Hp Hnd].
  cbn [fold_left List.find]. rewrite (IH _ Hnd).
  destruct (String.eqb_spec (np_slug p) s) as [<-|Hne].
  - destruct (List.find _ ps) as [q|] eqn:Hq.
    + apply find_some in Hq as [Hin Heq]. apply String.eqb_eq in Heq.
      exfalso. apply Hp. rewrite <- Heq. apply list_elem_of_In, in_map, Hin.
    + apply lookup_insert_eq.
  - destruct (List.find _ ps); [reflexivity|]. now apply lookup_insert_ne.
Qed.

Lemma slugItem_of_page (pages : list NavPage) (s : string) :
  s ∈ map np_slug pages ->
  exists p, p ∈ pages /\ np_slug p = s /\ slugItem pages s = Some (pageItem p).
Proof.
  intros Hs. unfold slugItem. destruct (List.find _ pages) as [p|] eqn:Hf.
  - apply find_some in Hf as [Hin Heq]. apply String.eqb_eq in Heq.
    exists p. repeat split; [now apply list_elem_of_In | exact Heq].
  - exfalso. apply list_elem_of_In, in_map_iff in Hs as (p & Hp & Hin).
    apply (find_none _ _ Hf) in Hin. rewrite Hp, String.eqb_refl in Hin. discriminate Hin.
Qed.

Lemma slugItem_none (pages : list NavPage) (s : string) :
  s ∉ map np_slug pages -> slugItem pages s = None.
Proof.
  intros Hs. unfold slugItem. destruct (List.find _ pages) as [p|] eqn:Hf; [|reflexivity].
  apply find_some in Hf as [Hin Heq]. apply String.eqb_eq in Heq.
  exfalso. apply Hs. rewrite <- Heq. apply list_elem_of_In, in_map, Hin.
Qed.

Lemma navEntry_ext (f g : string -> option DocsNavigationItem) (slugs : list string)
    (r : string) :
  (forall s, f s = g s) -> navEntry f slugs r = navEntry g slugs r.
Proof.
  intros H. unfold navEntry. rewrite H. destruct (isRoot slugs r); [|reflexivity].
  rewrite (map_ext f g H). reflexivity.
Qed.

Lemma buildNavigation_entries (pages : list NavPage) :
  NoDup (map np_slug pages) ->
  buildNavigation pages
  = omap (navEntry (slugItem pages) (sortSlugs (map np_slug pages)))
         (sortSlugs (map np_slug pages)).
Proof.
  intros Hnd. unfold buildNavigation. cbv zeta.
  set (slugs := sortSlugs (map np_slug pages)).
  set (items := fold_left (fun m p => <[np_slug p := pageItem p]> m) pages ∅).
  assert (Hitems : forall s, items !! s = slugItem pages s).
  { intros s. unfold items. rewrite (navigationMap_lookup pages ∅ s Hnd).
    unfold slugItem. destruct (List.find _ pages); [reflexivity | apply lookup_empty]. }
  assert (Hperm : slugs ≡ₚ map np_slug pages) by apply sortSlugs_perm.
  assert (Hnd' : NoDup slugs) by now rewrite Hperm.
  rewrite (assemble_from items slugs Hnd') with (done := []); try reflexivity.
  - cbn [app]. apply list_omap_ext. apply Forall2_same_length_lookup_2; [reflexivity|].
    intros i x y Hx Hy. assert (x = y) as -> by congruence.
    apply navEntry_ext. intros s. apply Hitems.
  - apply sorted_prefixOrdered; [exact Hnd' | apply sortSlugs_sorted].
  - intros s Hs. rewrite Hitems. apply slugItem_none. now rewrite <- Hperm.
Qed.

(** *** Every slug once *)

Lemma startsWith_length (s t : string) :
  startsWith s t = true ->
  String.length t <= String.length s /\ (String.length t = String.length s -> s = t).
Proof.
  revert s. induction t as [|b t IH]; intros [|a s] H; cbn in *; try discriminate.
  - auto.
  - split; [lia | discriminate].
  - apply andb_prop in H as [Hab H]. apply Ascii.eqb_eq in Hab as ->.
    destruct (IH s H) as [Hle Heq]. split; [lia|]. intros Hlen. f_equal. apply Heq. lia.
Qed.

Lemma properPrefix_shorter (t s : string) :
  properPrefix t s = true -> String.length t < String.length s.
Proof.
  intros [Hpre Hne]%properPrefix_spec. destruct (startsWith_length s t Hpre) as [Hle Heq].
  destruct (decide (String.length t = String.length s)) as [Hlen|Hlen]; [|lia].
  now apply Heq in Hlen.
Qed.

Lemma not_root_has_prefix (slugs : list string) (x : string) :
  isRoot slugs x = false -> exists t, t ∈ slugs /\ properPrefix t x = true.
Proof.
  rewrite isRoot_covered, negb_false_iff. unfold covered. rewrite existsb_exists.
  intros (t & Ht & Hp). exists t. split; [now apply list_elem_of_In | exact Hp].
Qed.

Lemma root_is_top (slugs : list string) (r t : string) :
  isRoot slugs r = true -> t ∈ slugs -> properPrefix t r = false.
Proof.
  rewrite isRoot_covered, negb_true_iff, covered_false. auto.
Qed.

(** Every slug is a root or lies below one. *)
Lemma root_above (slugs : list string) (x : string) :
  x ∈ slugs -> isRoot slugs x = false ->
  exists r, r ∈ slugs /\ isRoot slugs r = true /\ properPrefix r x = true.
Proof.
  remember (String.length x) as n eqn:Hn. revert x Hn.
  induction n as [n IH] using lt_wf_ind. intros x -> Hx Hroot.
  destruct (not_root_has_prefix slugs x Hroot) as (t & Ht & Hp).
  destruct (isRoot slugs t) eqn:Hrt; [now exists t|].
  destruct (IH (String.length t) (properPrefix_shorter t x Hp) t eq_refl Ht Hrt)
    as (r & Hr & Hrr & Hrt').
  exists r. repeat split; [exact Hr | exact Hrr |]. eapply properPrefix_trans; eauto.
Qed.

Lemma withChildren_link (item : DocsNavigationItem)
    (children : list (option DocsNavigationItem)) :
  navLink (withChildren item children) = navLink item.
Proof. destruct item, children; reflexivity. Qed.

Lemma withChildren_children (item : DocsNavigationItem)
    (children : list (option DocsNavigationItem)) :
  navChildren item = [] -> navChildren (withChildren item children) = children.
Proof. destruct item, children; cbn; auto. Qed.

Section Links.

Variable pages : list NavPage.
Variable slugs : list string.
Hypothesis slugs_of_pages : forall s, s ∈ slugs <-> s ∈ map np_slug pages.
Hypothesis slugs_distinct : NoDup slugs.

Lemma child_links (l : list string) :
  (forall s, s ∈ l -> s ∈ slugs) ->
  omap (fmap navLink) (map (slugItem pages) l) = l.
Proof.
  induction l as [|s l IH]; intros Hl; [reflexivity|].
  destruct (slugItem_of_page pages s) as (p & _ & Hs & Hitem).
  { apply slugs_of_pages, Hl. set_solver. }
  cbn [map omap list_omap]. rewrite Hitem. cbn. rewrite Hs. f_equal.
  apply IH. intros x Hx. apply Hl. set_solver.
Qed.

Lemma below_in (r s : string) :
  s ∈ below slugs r <-> s ∈ slugs /\ properPrefix r s = true.
Proof. unfold below. rewrite list_elem_of_In, filter_In, <- list_elem_of_In. tauto. Qed.

Lemma entry_links (r : string) :
  r ∈ slugs -> isRoot slugs r = true ->
  exists e, navEntry (slugItem pages) slugs r = Some e /\
            itemLinks e = r :: below slugs r /\
            navChildren e = map (slugItem pages) (below slugs r).
Proof.
  intros Hr Hroot. unfold navEntry. rewrite Hroot.
  destruct (slugItem_of_page pages r) as (p & _ & Hs & Hitem); [now apply slugs_of_pages|].
  rewrite Hitem. cbn. eexists. split; [reflexivity|].
  assert (Hc : navChildren (withChildren (pageItem p) (map (slugItem pages) (below slugs r)))
               = map (slugItem pages) (below slugs r))
    by now apply withChildren_children.
  split; [|exact Hc]. unfold itemLinks. rewrite withChildren_link, Hc. cbn. rewrite Hs.
  f_equal. apply child_links. intros s Hs'. now apply below_in in Hs'.
Qed.

Lemma entries_links (l : list string) :
  (forall s, s ∈ l -> s ∈ slugs) ->
  navLinks (omap (navEntry (slugItem pages) slugs) l)
  = List.filter (isRoot slugs) l ≫= (fun r => r :: below slugs r).
Proof.
  induction l as [|r l IH]; intros Hl; [reflexivity|].
  assert (Hl' : forall s, s ∈ l -> s ∈ slugs) by (intros s Hs; apply Hl; set_solver).
  cbn [omap list_omap List.filter]. destruct (isRoot slugs r) eqn:Hroot.
  - destruct (entry_links r) as (e & -> & He & _); [apply Hl; set_solver | exact Hroot |].
    unfold navLinks in *. rewrite !bind_cons, He. f_equal. now apply IH.
  - unfold navEntry at 1. rewrite Hroot. now apply IH.
Qed.

Lemma roots_cover :
  List.filter (isRoot slugs) slugs ≫= (fun r => r :: below slugs r) ≡ₚ slugs.
Proof.
  apply NoDup_Permutation; [|exact slugs_distinct|].
  - apply NoDup_bind.
    + intros r1 r2 y Hr1 Hr2 Hy1 Hy2.
      apply list_elem_of_In, filter_In in Hr1 as [Hr1 Hroot1].
      apply list_elem_of_In, filter_In in Hr2 as [Hr2 Hroot2].
      apply list_elem_of_In in Hr1, Hr2.
      assert (Htop1 := root_is_top slugs r1 r2 Hroot1 Hr2).
      assert (Htop2 := root_is_top slugs r2 r1 Hroot2 Hr1).
      apply elem_of_cons in Hy1 as [->|Hy1]; apply elem_of_cons in Hy2 as [Hy2|Hy2];
        try (apply below_in in Hy1 as [_ Hy1]); try (apply below_in in Hy2 as [_ Hy2]);
        try congruence.
      destruct (decide (r1 = r2)) as [|Hne]; [assumption|]. exfalso.
      apply properPrefix_spec in Hy1 as [Hy1 _]. apply properPrefix_spec in Hy2 as [Hy2 _].
      destruct (startsWith_comparable y r1 r2 Hy1 Hy2) as [H|H].
      * assert (properPrefix r2 r1 = true) by (apply properPrefix_spec; auto). congruence.
      * assert (properPrefix r1 r2 = true) by (apply properPrefix_spec; auto). congruence.
    + intros r _. apply NoDup_cons. split.
      * intros [_ H]%below_in. rewrite properPrefix_irrefl in H. discriminate H.
      * unfold below. apply NoDup_ListNoDup, List.NoDup_filter, NoDup_ListNoDup, slugs_distinct.
    + apply NoDup_ListNoDup, List.NoDup_filter, NoDup_ListNoDup, slugs_distinct.
  - intros x. rewrite list_elem_of_bind. split.
    + intros (r & Hx & Hr). apply list_elem_of_In, filter_In in Hr as [Hr _].
      apply list_elem_of_In in Hr. apply elem_of_cons in Hx as [->|Hx]; [exact Hr|].
      now apply below_in in Hx.
    + intros Hx. destruct (isRoot slugs x) eqn:Hroot.
      * exists x. split; [set_solver|]. apply list_elem_of_In, filter_In.
        split; [now apply list_elem_of_In | exact Hroot].
      * destruct (root_above slugs x Hx Hroot) as (r & Hr & Hrr & Hp).
        exists r. split.
        -- apply elem_of_cons. right. now apply below_in.
        -- apply list_elem_of_In, filter_In. split; [now apply list_elem_of_In | exact Hrr].
Qed.

End Links.

(** *** Claim on the navigation *)

(** C8 (as amended). The slugs are sorted; the top-level items are, in
    that order, the slugs that no other slug is a proper prefix of; every
    other slug is nested exactly one level deep, below the top-level slug
    that is a prefix of it (its shortest prefix ancestor, not its nearest),
    the children in sorted order and without children of their own; and for
    distinct slugs every slug appears exactly once. *)
Theorem navigation_nests_under_top_ancestor (pages : list NavPage) :
  NoDup (map np_slug pages) ->
  let slugs := sortSlugs (map np_slug pages) in
  StronglySorted String.le slugs /\
  buildNavigation pages = omap (navEntry (slugItem pages) slugs) slugs /\
  navLinks (buildNavigation pages) ≡ₚ map np_slug pages /\
  Forall (fun item =>
            Forall (fun child => exists p, p ∈ pages /\ child = Some (pageItem p))
                   (navChildren item))
         (buildNavigation pages).
Proof.
  intros Hnd slugs.
  assert (Hperm : slugs ≡ₚ map np_slug pages) by apply sortSlugs_perm.
  assert (Hin : forall s, s ∈ slugs <-> s ∈ map np_slug pages) by (intros s; now rewrite Hperm).
  assert (Hnd' : NoDup slugs) by now rewrite Hperm.
  pose proof (buildNavigation_entries pages Hnd) as Hnav. fold slugs in Hnav.
  split; [apply sortSlugs_sorted|]. split; [exact Hnav|]. split.
  - rewrite Hnav, (entries_links pages slugs) by auto.
    rewrite roots_cover by auto. exact Hperm.
  - rewrite Hnav. apply Forall_forall. intros item Hitem.
    apply list_elem_of_omap in Hitem as (r & Hr & Hentry).
    unfold navEntry in Hentry. destruct (isRoot slugs r) eqn:Hroot; [|discriminate Hentry].
    destruct (entry_links pages slugs) with (r := r) as (e & He & _ & Hchildren); auto.
    unfold navEntry in He. rewrite Hroot in He. rewrite He in Hentry.
    injection Hentry as <-. rewrite Hchildren. apply Forall_forall. intros child Hchild.
    apply list_elem_of_fmap in Hchild as (s & -> & Hs).
    apply below_in in Hs as [Hs _].
    destruct (slugItem_of_page pages s) as (p & Hp & _ & Hitem'); [now apply Hin|].
    exists p. split; [exact Hp | exact Hitem'].
Qed.

Lemma navigation_nests_under_top_ancestor_witness :
  let slugs := sortSlugs (map np_slug nestedPages) in
  StronglySorted String.le slugs /\
  buildNavigation nestedPages = omap (navEntry (slugItem nestedPages) slugs) slugs /\
  navLinks (buildNavigation nestedPages) ≡ₚ map np_slug nestedPages /\
  Forall (fun item =>
            Forall (fun child => exists p, p ∈ nestedPages /\ child = Some (pageItem p))
                   (navChildren item))
         (buildNavigation nestedPages).
Proof.
  apply (navigation_nests_under_top_ancestor nestedPages).
  apply (bool_decide_unpack _). vm_compute. exact I.
Defined.

(** C8 as stated fails on [nestedPages]: ["/a/b/c/"] is nested below
    ["/a/"], not below its nearest prefix ancestor ["/a/b/"], which gets no
    children. *)
Lemma navigation_skips_nearest_ancestor :
  buildNavigation nestedPages
  = [NavItem "a" "A" "/a/"
       (Some [Some (NavItem "a-b" "B" "/a/b/" None);
              Some (NavItem "a-b-c" "C" "/a/b/c/" None)])] /\
  properPrefix "/a/b/" "/a/b/c/" = true /\
  properPrefix "/a/" "/a/b/" = true.
Proof. repeat split; vm_compute; reflexivity. Qed.

(** ** Examples *)

Section ExampleFacts.

Variable readFile : string -> string -> option string.
Variable codeToHtml : string -> string -> string.
Variable renderType : RenderType.

(** A round of the loop is settled: done or rejected. *)
Lemma normalizeExample_settled (dir tag example : string)
    (acc : list string * list DocsContent) :
  (exists acc', normalizeExample readFile codeToHtml renderType dir tag example acc = Done acc')
  \/ (exists e, normalizeExample readFile codeToHtml renderType dir tag example acc = Rejected e).
Proof.
  unfold normalizeExample. destruct acc as [newExamples newContent].
  destruct (parseExample example) as [[[title desc] lang] code0].
  destruct (startsWith code0 "."); [destruct (readFile dir code0)|]; cbn;
    [| right; eauto |];
    (destruct title as [t|]; [destruct (tagToSymbol tag)|]; cbn; [| right; eauto |]);
    destruct desc, lang; cbn;
    repeat match goal with
           | |- context [if ?b then _ else _] => destruct b; cbn
           end; left; eauto.
Qed.

(** The round of an example whose file cannot be read is rejected. *)
Lemma normalizeExample_unreadable (dir tag example : string)
    (acc : list string * list DocsContent) :
  startsWith (exampleCode example) "." = true ->
  readFile dir (exampleCode example) = None ->
  normalizeExample readFile codeToHtml renderType dir tag example acc
  = Rejected (ReadFailure dir (exampleCode example)).
Proof.
  unfold exampleCode, normalizeExample. destruct acc as [newExamples newContent].
  destruct (parseExample example) as [[[title desc] lang] code0]. cbn [snd].
  intros -> ->. reflexivity.
Qed.

Lemma normalizeLoop_unreadable (dir tag : string) (examples : list string)
    (acc : list string * list DocsContent) :
  (exists example, example ∈ examples /\
                   startsWith (exampleCode example) "." = true /\
                   readFile dir (exampleCode example) = None) ->
  exists e, normalizeLoop readFile codeToHtml renderType dir tag examples acc = Rejected e.
Proof.
  revert acc. induction examples as [|x rest IH]; intros acc (example & Hin & Hdot & Hread).
  - now apply elem_of_nil in Hin.
  - cbn [normalizeLoop].
    destruct (normalizeExample_settled dir tag x acc) as [[acc' Hx]|[e Hx]]; rewrite Hx; cbn.
    + apply elem_of_cons in Hin as [<-|Hin].
      * rewrite (normalizeExample_unreadable dir tag example acc Hdot Hread) in Hx.
        discriminate Hx.
      * apply IH. eauto.
    + eauto.
Qed.

Lemma normalizeExamples_unreadable (dir tag : string) (examples : list string) :
  (exists example, example ∈ examples /\
                   startsWith (exampleCode example) "." = true /\
                   readFile dir (exampleCode example) = None) ->
  exists e, normalizeExamples readFile codeToHtml renderType examples dir tag = Rejected e.
Proof.
  intros H. unfold normalizeExamples.
  destruct (normalizeLoop_unreadable dir tag examples ([], []) H) as [e ->]. eauto.
Qed.

End ExampleFacts.

Lemma normalizeExamples_settled
    (readFile : string -> string -> option string)
    (codeToHtml : string -> string -> string) (renderType : RenderType)
    (examples : list string) (dir tag : string) :
  normalizeExamples readFile codeToHtml renderType examples dir tag <> Exhausted.
Proof.
  unfold normalizeExamples.
  assert (H : forall acc, normalizeLoop readFile codeToHtml renderType dir tag examples acc
                          <> Exhausted).
  { induction examples as [|x rest IH]; intros acc; cbn [normalizeLoop]; [discriminate|].
    destruct (normalizeExample_settled readFile codeToHtml renderType dir tag x acc)
      as [[acc' Hx]|[e Hx]]; rewrite Hx; cbn; [apply IH | discriminate]. }
  specialize (H ([], [])).
  destruct (normalizeLoop readFile codeToHtml renderType dir tag examples ([], []))
    as [[newExamples newContent]| |]; cbn; try discriminate; [|congruence].
  destruct (isHtmlType renderType); discriminate.
Qed.

(** ** Computations on the unit: composition *)

Lemma build_bind_unfold {A B : Type} (m : Build A) (k : A -> Build B) (u : Unit) :
  (m ≫= k) u = match m u with
               | Done (a, u') => k a u'
               | Rejected e => Rejected e
               | Exhausted => Exhausted
               end.
Proof. reflexivity. Qed.

Lemma build_ret_unfold {A : Type} (a : A) (u : Unit) : (mret a : Build A) u = Done (a, u).
Proof. reflexivity. Qed.

Section Composition.

Context {A B : Type}.
Variable R : Unit -> Unit -> Prop.
Context `{!PreOrder R}.

Lemma framedBy_ret (a : A) : framedBy R (mret a : Build A).
Proof. intros u x u' [= _ <-]. reflexivity. Qed.

Lemma framedBy_lift (o : Outcome A) : framedBy R (lift o).
Proof. intros u x u' H. destruct o; cbn in H; try discriminate. injection H as _ <-. reflexivity. Qed.

Lemma framedBy_bind (m : Build A) (k : A -> Build B) :
  framedBy R m -> (forall a, framedBy R (k a)) -> framedBy R (m ≫= k).
Proof.
  intros Hm Hk u b u' H. rewrite build_bind_unfold in H.
  destruct (m u) as [[a u1]| |] eqn:Hmu; try discriminate.
  transitivity u1; [eapply Hm | eapply Hk]; eauto.
Qed.

Lemma fails_bind_l (m : Build A) (k : A -> Build B) : fails m -> fails (m ≫= k).
Proof.
  intros Hm u r. rewrite build_bind_unfold.
  destruct (m u) as [[a u1]| |] eqn:Hmu; try discriminate. now destruct (Hm u (a, u1)).
Qed.

Lemma fails_bind_r (m : Build A) (k : A -> Build B) :
  (forall a, fails (k a)) -> fails (m ≫= k).
Proof.
  intros Hk u r. rewrite build_bind_unfold.
  destruct (m u) as [[a u1]| |]; try discriminate. apply Hk.
Qed.

Variable U : Unit -> Prop.
Hypothesis U_closed : forall u u', U u -> R u u' -> U u'.

Lemma liveOn_ret (a : A) : liveOn U (mret a : Build A).
Proof. intros u _. discriminate. Qed.

Lemma liveOn_bind (m : Build A) (k : A -> Build B) :
  liveOn U m -> framedBy R m -> (forall a, liveOn U (k a)) -> liveOn U (m ≫= k).
Proof.
  intros Hm Hf Hk u Hu. rewrite build_bind_unfold.
  destruct (m u) as [[a u1]| |] eqn:Hmu.
  - apply Hk. eapply U_closed; [exact Hu | eapply Hf, Hmu].
  - discriminate.
  - now destruct (Hm u Hu).
Qed.

End Composition.

Section Loops.

Context {A S : Type}.
Variable R : Unit -> Unit -> Prop.
Context `{!PreOrder R}.
Variable body : A -> S -> Build S.

Lemma framedBy_forEachB (l : list A) (acc : S) :
  (forall x s, x ∈ l -> framedBy R (body x s)) -> framedBy R (forEachB body l acc).
Proof.
  revert acc. induction l as [|x r IH]; intros acc Hbody; cbn [forEachB].
  - apply framedBy_ret; assumption.
  - apply framedBy_bind; [assumption | apply Hbody; set_solver |].
    intros acc'. apply IH. intros y s Hy. apply Hbody. set_solver.
Qed.

Variable U : Unit -> Prop.
Hypothesis U_closed : forall u u', U u -> R u u' -> U u'.

Lemma liveOn_forEachB (l : list A) (acc : S) :
  (forall x s, x ∈ l -> framedBy R (body x s)) ->
  (forall x s, x ∈ l -> liveOn U (body x s)) ->
  liveOn U (forEachB body l acc).
Proof.
  revert acc. induction l as [|x r IH]; intros acc Hf Hl; cbn [forEachB].
  - now apply liveOn_ret.
  - apply (liveOn_bind R U U_closed); [apply Hl; set_solver | apply Hf; set_solver |].
    intros acc'. apply IH; intros y s Hy; [apply Hf | apply Hl]; set_solver.
Qed.

End Loops.

Lemma extends_preorder : PreOrder extends.
Proof. split; [intros u | intros u1 u2 u3]; unfold extends; set_solver. Qed.

#[global] Existing Instance extends_preorder.

Lemma liveOn_lift {A : Type} (U : Unit -> Prop) (o : Outcome A) :
  o <> Exhausted -> liveOn U (lift o).
Proof. intros Ho u _. unfold lift. destruct o; congruence. Qed.

Lemma liveOn_weaken {A : Type} (U V : Unit -> Prop) (m : Build A) :
  (forall u, V u -> U u) -> liveOn U m -> liveOn V m.
Proof. intros HVU Hm u Hu. apply Hm, HVU, Hu. Qed.

Section Values.

Context {A B : Type}.

Lemma returnsP_ret (P : A -> Prop) (a : A) : P a -> returnsP P (mret a : Build A).
Proof. intros H u x u' [= <- _]. exact H. Qed.

Lemma returnsP_bind (P : B -> Prop) (m : Build A) (k : A -> Build B) :
  (forall a, returnsP P (k a)) -> returnsP P (m ≫= k).
Proof.
  intros Hk u b u' H. rewrite build_bind_unfold in H.
  destruct (m u) as [[a u1]| |]; try discriminate. eapply Hk, H.
Qed.

Lemma returnsP_bind_both (P : A -> Prop) (Q : B -> Prop) (m : Build A) (k : A -> Build B) :
  returnsP P m -> (forall a, P a -> returnsP Q (k a)) -> returnsP Q (m ≫= k).
Proof.
  intros Hm Hk u b u' H. rewrite build_bind_unfold in H.
  destruct (m u) as [[a u1]| |] eqn:Hmu; try discriminate.
  eapply Hk; [eapply Hm, Hmu | exact H].
Qed.

Lemma ensures_bind_r (Q : Unit -> Prop) (m : Build A) (k : A -> Build B) :
  (forall a, ensures Q (k a)) -> ensures Q (m ≫= k).
Proof.
  intros Hk u b u' H. rewrite build_bind_unfold in H.
  destruct (m u) as [[a u1]| |]; try discriminate. eapply Hk, H.
Qed.

Lemma ensures_bind_l (R : Unit -> Unit -> Prop) (Q : Unit -> Prop)
    (m : Build A) (k : A -> Build B) :
  (forall u u', Q u -> R u u' -> Q u') ->
  ensures Q m -> (forall a, framedBy R (k a)) -> ensures Q (m ≫= k).
Proof.
  intros HQ Hm Hk u b u' H. rewrite build_bind_unfold in H.
  destruct (m u) as [[a u1]| |] eqn:Hmu; try discriminate.
  eapply HQ; [eapply Hm, Hmu | eapply Hk, H].
Qed.

End Values.

(** A loop leaves the accumulators in [Q] when the round of one of its
    elements does and the others keep them there. *)
Lemma ensures_forEachB {A S : Type} (R : Unit -> Unit -> Prop) `{!PreOrder R}
    (Q : Unit -> Prop) (body : A -> S -> Build S) (l : list A) (x : A) (acc : S) :
  (forall u u', Q u -> R u u' -> Q u') ->
  In x l ->
  (forall y s, framedBy R (body y s)) ->
  (forall s, ensures Q (body x s)) ->
  ensures Q (forEachB body l acc).
Proof.
  intros HQ Hin Hframed Hx. revert acc.
  induction l as [|y r IH]; intros acc; [destruct Hin|]. cbn [forEachB].
  destruct Hin as [->|Hin].
  - apply (ensures_bind_l R); [exact HQ | apply Hx |].
    intros acc'. apply framedBy_forEachB; [assumption|]. intros; apply Hframed.
  - apply ensures_bind_r. intros acc'. now apply IH.
Qed.

(** *** Computations that never run out, whatever the accumulators *)

Lemma live_ret {A : Type} (a : A) : liveOn (fun _ => True) (mret a : Build A).
Proof. apply liveOn_ret. Qed.

Lemma live_bind {A B : Type} (m : Build A) (k : A -> Build B) :
  liveOn (fun _ => True) m -> (forall a, liveOn (fun _ => True) (k a)) ->
  liveOn (fun _ => True) (m ≫= k).
Proof.
  intros Hm Hk u _. rewrite build_bind_unfold. specialize (Hm u I).
  destruct (m u) as [[a u1]| |]; [now apply Hk | discriminate | congruence].
Qed.

Lemma live_forEachB {A S : Type} (body : A -> S -> Build S) (l : list A) (acc : S) :
  (forall x s, liveOn (fun _ => True) (body x s)) ->
  liveOn (fun _ => True) (forEachB body l acc).
Proof.
  intros Hbody. revert acc. induction l as [|x r IH]; intros acc; cbn [forEachB].
  - apply live_ret.
  - apply live_bind; [apply Hbody | exact IH].
Qed.

(** *** A larger budget changes nothing *)

Lemma refines_refl {A : Type} (m : Build A) : refines m m.
Proof. intros u _. reflexivity. Qed.

Lemma refines_trans {A : Type} (m1 m2 m3 : Build A) :
  refines m1 m2 -> refines m2 m3 -> refines m1 m3.
Proof.
  intros H12 H23 u Hu. rewrite <- (H12 u Hu). apply H23. now rewrite (H12 u Hu).
Qed.

Lemma refines_bind {A B : Type} (m m' : Build A) (k k' : A -> Build B) :
  refines m m' -> (forall a, refines (k a) (k' a)) -> refines (m ≫= k) (m' ≫= k').
Proof.
  intros Hm Hk u Hu. rewrite !build_bind_unfold in *.
  destruct (m u) as [[a u1]| |] eqn:Hmu; [| |congruence].
  - rewrite (Hm u) by congruence. rewrite Hmu. now apply Hk.
  - rewrite (Hm u) by congruence. now rewrite Hmu.
Qed.

Lemma refines_forEachB {A S : Type} (body body' : A -> S -> Build S) (l : list A) (acc : S) :
  (forall x s, refines (body x s) (body' x s)) ->
  refines (forEachB body l acc) (forEachB body' l acc).
Proof.
  intros Hbody. revert acc. induction l as [|x r IH]; intros acc; cbn [forEachB].
  - apply refines_refl.
  - apply refines_bind; [apply Hbody | exact IH].
Qed.

(** ** Resolver and tree builder *)

Lemma lift_unfold {A : Type} (o : Outcome A) (u : Unit) :
  lift o u = match o with
             | Done a => Done (a, u)
             | Rejected e => Rejected e
             | Exhausted => Exhausted
             end.
Proof. reflexivity. Qed.

(** *** A failed read of an example *)

Section ExamplesRejected.

Variable readFile : string -> string -> option string.
Variable codeToHtml : string -> string -> string.
Variable renderType : RenderType.
Variable docTypes : gmap string DocsAll.
Variable dir url : string.

(** When the examples of an entity are rejected, no content is returned
    for the entity: nothing between [normalizeExamples] and the caller of
    [getTypeContent] handles the rejection. *)
Lemma typeContent_examples_rejected
    (resolve : list string -> DocsAll -> Build (list DocsContent))
    (recur : DocsAll -> DocsKind -> nat -> Build (list DocsContent))
    (info : DocsAll) (kind : DocsKind) (depth : nat)
    (examples : list string) (e : Failure) :
  e_examples (mergeAlias docTypes info kind) = Some examples ->
  normalizeExamples readFile codeToHtml renderType examples dir (hTag (depth + 3))
  = Rejected e ->
  (kind = KTypedef -> isString (e_dir info) dir = true) ->
  fails (typeContent readFile codeToHtml renderType docTypes dir
                     resolve recur info kind depth).
Proof.
  intros Hex Hrej Hdir. unfold typeContent. cbv zeta.
  assert (Hgate : isType kind && negb (isString (e_dir (mergeAlias docTypes info kind)) dir)
                  = false).
  { destruct kind; try reflexivity. cbn [mergeAlias isType andb]. now rewrite Hdir. }
  rewrite Hgate.
  do 7 (apply fails_bind_r; intros ?).
  unfold examplesSection. rewrite Hex, Hrej. apply fails_bind_l.
  intros u r. rewrite lift_unfold. discriminate.
Qed.

Lemma getTypeContent_examples_rejected (budget : nat)
    (info : DocsAll) (kind : DocsKind) (depth : nat)
    (examples : list string) (e : Failure) :
  e_examples (mergeAlias docTypes info kind) = Some examples ->
  normalizeExamples readFile codeToHtml renderType examples dir (hTag (depth + 3))
  = Rejected e ->
  (kind = KTypedef -> isString (e_dir info) dir = true) ->
  fails (getTypeContent readFile codeToHtml renderType docTypes dir url
                        budget info kind depth).
Proof.
  intros Hex Hrej Hdir. destruct budget as [|n]; cbn [getTypeContent].
  - intros u r. rewrite lift_unfold. discriminate.
  - now apply (typeContent_examples_rejected _ _ info kind depth examples e).
Qed.

End ExamplesRejected.

(** *** What the pieces of the builder preserve *)

Section Framed.

Variable readFile : string -> string -> option string.
Variable codeToHtml : string -> string -> string.
Variable renderType : RenderType.
Variable docTypes : gmap string DocsAll.
Variable dir url : string.

Variable R : Unit -> Unit -> Prop.
Context `{!PreOrder R}.

Variable resolve : list string -> DocsAll -> Build (list DocsContent).
Variable recur : DocsAll -> DocsKind -> nat -> Build (list DocsContent).
Variable info : DocsAll.
Variable kind : DocsKind.
Variable depth : nat.

Hypothesis resolve_framed : forall type current, framedBy R (resolve type current).
Hypothesis recur_framed :
  isClass kind = true -> forall member k d, framedBy R (recur member k d).

Local Ltac framed :=
  repeat match goal with
         | |- framedBy _ (mret _) => apply framedBy_ret; assumption
         | |- framedBy _ (lift _) => apply framedBy_lift; assumption
         | |- framedBy _ (resolve _ _) => apply resolve_framed
         | |- framedBy _ (_ ≫= _) => apply framedBy_bind; [assumption | | intros ?]
         end.

Lemma typeLine_framed (newInfo : DocsAll) (c : list DocsContent) :
  framedBy R (typeLine resolve info kind newInfo c).
Proof. unfold typeLine. destruct (isType kind); framed. Qed.

Lemma augmentsLine_framed (newInfo : DocsAll) (c : list DocsContent) :
  framedBy R (augmentsLine resolve info newInfo c).
Proof. unfold augmentsLine. destruct (e_augments newInfo); framed. Qed.

Lemma entriesOf_framed (l : list DocsParam) :
  framedBy R (entriesOf renderType resolve info l).
Proof. unfold entriesOf. apply framedBy_forEachB; [assumption|]. intros p s _. framed. Qed.

Lemma listSection_framed (title : string) (level : nat) (l : option (list DocsParam))
    (c : list DocsContent) :
  framedBy R (listSection renderType resolve info title level l c).
Proof.
  unfold listSection. destruct l as [[|p ps]|]; framed. apply entriesOf_framed.
Qed.

Lemma returnSection_framed (title : string) (r : option DocsReturn)
    (c : list DocsContent) :
  framedBy R (returnSection resolve info depth title r c).
Proof. unfold returnSection. destruct r; framed. Qed.

Lemma membersSection_framed (newInfo : DocsAll) (c : list DocsContent) :
  framedBy R (membersSection recur kind depth newInfo c).
Proof.
  unfold membersSection. destruct (e_members newInfo) as [members|]; [|framed].
  destruct (isClass kind) eqn:Hclass; framed.
  apply framedBy_forEachB; [assumption|]. intros member [[c0 b1] b2] _.
  unfold memberRound. framed. now apply recur_framed.
Qed.

Lemma examplesSection_framed (newInfo : DocsAll) (c : list DocsContent) :
  framedBy R (examplesSection readFile codeToHtml renderType dir depth newInfo c).
Proof.
  unfold examplesSection. destruct (e_examples newInfo); framed.
  match goal with a : ExamplesContent |- _ => destruct a as [[|? ?]|?] end; framed.
Qed.

Lemma typeContent_framed :
  framedBy R (typeContent readFile codeToHtml renderType docTypes dir
                          resolve recur info kind depth).
Proof.
  unfold typeContent. cbv zeta.
  destruct (isType kind && negb (isString (e_dir (mergeAlias docTypes info kind)) dir));
    [framed|].
  apply framedBy_bind; [assumption | apply typeLine_framed | intros ?].
  apply framedBy_bind; [assumption | apply augmentsLine_framed | intros ?].
  apply framedBy_bind; [assumption | apply listSection_framed | intros ?].
  apply framedBy_bind; [assumption | apply listSection_framed | intros ?].
  apply framedBy_bind; [assumption | apply returnSection_framed | intros ?].
  apply framedBy_bind; [assumption | apply returnSection_framed | intros ?].
  apply framedBy_bind; [assumption | apply membersSection_framed | intros ?].
  apply examplesSection_framed.
Qed.

End Framed.

Section FramedNames.

Variable docTypes : gmap string DocsAll.
Variable renderType : RenderType.
Variable dir url : string.
Variable R : Unit -> Unit -> Prop.
Context `{!PreOrder R}.
Variable expand : DocsAll -> Build (list DocsContent).
Variable currentDocType : DocsAll.

Hypothesis match_framed :
  forall typeMatches match_ content,
    framedBy R (resolveMatch renderType docTypes dir url expand typeMatches
                             currentDocType match_ content).

Lemma resolveTypeName_framed (typeName : string) (c : list DocsContent) :
  framedBy R (resolveTypeName renderType docTypes dir url expand currentDocType typeName c).
Proof.
  unfold resolveTypeName. destruct (typeMatchesOf typeName) as [|m ms].
  - now apply framedBy_ret.
  - destruct (allMatchesOf typeName) as [|a l]; [now apply framedBy_lift|].
    apply framedBy_bind; [assumption | | intros ?; now apply framedBy_ret].
    apply framedBy_forEachB; [assumption|]. intros x s _. apply match_framed.
Qed.

End FramedNames.

(** *** The used set only grows *)

Lemma usedHas_unfold (name : string) (u : Unit) :
  usedHas name u = Done (bool_decide (name ∈ usedTypes u), u).
Proof. reflexivity. Qed.

Section Extends.

Variable readFile : string -> string -> option string.
Variable codeToHtml : string -> string -> string.
Variable renderType : RenderType.
Variable docTypes : gmap string DocsAll.
Variable dir url : string.

Lemma resolveMatch_extends (expand : DocsAll -> Build (list DocsContent))
    (typeMatches : list string) (currentDocType : DocsAll) (match_ : string)
    (content : list DocsContent) :
  (forall docType, framedBy extends (expand docType)) ->
  framedBy extends (resolveMatch renderType docTypes dir url expand typeMatches
                                 currentDocType match_ content).
Proof.
  intros Hexpand. unfold resolveMatch.
  destruct (negb (includes typeMatches match_)); [apply framedBy_ret, _|].
  destruct (docTypes !! match_) as [docType|]; [|apply framedBy_ret, _].
  destruct (oid docType =? oid currentDocType)%nat; [apply framedBy_ret, _|].
  apply framedBy_bind; [apply _ | intros u a u' [= _ <-]; reflexivity | intros used].
  destruct used; [apply framedBy_ret, _|].
  apply framedBy_bind; [apply _ | | intros _].
  { intros u a u' [= _ <-]. unfold extends. cbn. set_solver. }
  apply framedBy_bind; [apply _ | apply Hexpand | intros expanded].
  apply framedBy_bind; [apply _ | | intros _; apply framedBy_ret, _].
  intros u a u' [= _ <-]. unfold extends. cbn. set_solver.
Qed.

Lemma resolver_extends (budget : nat) :
  (forall type current c,
      framedBy extends (getContent readFile codeToHtml renderType docTypes dir url
                                   budget type current c)) /\
  (forall info kind depth,
      framedBy extends (getTypeContent readFile codeToHtml renderType docTypes dir url
                                       budget info kind depth)).
Proof.
  induction budget as [|n [IHc IHt]]; (split; [intros type current c | intros info kind depth]);
    cbn [getContent getTypeContent]; try (apply framedBy_lift, _).
  - apply framedBy_forEachB; [apply _|]. intros typeName s _.
    apply resolveTypeName_framed; [apply _|]. intros typeMatches match_ content.
    apply resolveMatch_extends. intros docType. apply IHt.
  - apply typeContent_framed; [apply _ | |].
    + intros type current. apply IHc.
    + intros _ member k d. apply IHt.
Qed.

Lemma getContent_extends (budget : nat) (type : list string) (current : DocsAll)
    (c : list DocsContent) :
  framedBy extends (getContent readFile codeToHtml renderType docTypes dir url
                               budget type current c).
Proof. apply resolver_extends. Qed.

Lemma getTypeContent_extends (budget : nat) (info : DocsAll) (kind : DocsKind)
    (depth : nat) :
  framedBy extends (getTypeContent readFile codeToHtml renderType docTypes dir url
                                   budget info kind depth).
Proof. apply resolver_extends. Qed.

End Extends.

(** *** Enough budget: the calls never run out *)

Section Live.

Variable readFile : string -> string -> option string.
Variable codeToHtml : string -> string -> string.
Variable renderType : RenderType.
Variable docTypes : gmap string DocsAll.
Variable dir url : string.

Variable R : Unit -> Unit -> Prop.
Context `{!PreOrder R}.
Variable U : Unit -> Prop.
Hypothesis U_closed : forall u u', U u -> R u u' -> U u'.

Variable resolve : list string -> DocsAll -> Build (list DocsContent).
Variable recur : DocsAll -> DocsKind -> nat -> Build (list DocsContent).
Variable info : DocsAll.
Variable kind : DocsKind.
Variable depth : nat.

Hypothesis resolve_framed : forall type current, framedBy R (resolve type current).
Hypothesis recur_framed :
  isClass kind = true -> forall member k d, framedBy R (recur member k d).
Hypothesis resolve_live : forall type current, liveOn U (resolve type current).
Hypothesis recur_live :
  isClass kind = true ->
  forall member d, liveOn U (recur member KFunction d) /\ liveOn U (recur member KTypedef d).

Local Ltac live :=
  repeat match goal with
         | |- liveOn _ (mret _) => apply liveOn_ret
         | |- liveOn _ (resolve _ _) => apply resolve_live
         | |- framedBy _ (resolve _ _) => apply resolve_framed
         | |- framedBy _ (lift _) => apply framedBy_lift; assumption
         | |- liveOn _ (_ ≫= _) => apply (liveOn_bind R U U_closed); [ | | intros ?]
         end.

Lemma typeLine_live (newInfo : DocsAll) (c : list DocsContent) :
  liveOn U (typeLine resolve info kind newInfo c).
Proof.
  unfold typeLine. destruct (isType kind); live.
  apply liveOn_lift. destruct (e_type newInfo); discriminate.
Qed.

Lemma augmentsLine_live (newInfo : DocsAll) (c : list DocsContent) :
  liveOn U (augmentsLine resolve info newInfo c).
Proof. unfold augmentsLine. destruct (e_augments newInfo); live. Qed.

Lemma entriesOf_live (l : list DocsParam) :
  liveOn U (entriesOf renderType resolve info l).
Proof.
  unfold entriesOf. apply (liveOn_forEachB R _ U U_closed).
  - intros p s _. apply framedBy_bind; [assumption | apply resolve_framed | intros ?].
    now apply framedBy_ret.
  - intros p s _. live.
Qed.

Lemma listSection_live (title : string) (level : nat) (l : option (list DocsParam))
    (c : list DocsContent) :
  liveOn U (listSection renderType resolve info title level l c).
Proof.
  unfold listSection. destruct l as [[|p ps]|]; live.
  - apply entriesOf_live.
  - now apply entriesOf_framed.
Qed.

Lemma returnSection_live (title : string) (r : option DocsReturn)
    (c : list DocsContent) :
  liveOn U (returnSection resolve info depth title r c).
Proof. unfold returnSection. destruct r; live. Qed.

Lemma membersSection_live (newInfo : DocsAll) (c : list DocsContent) :
  liveOn U (membersSection recur kind depth newInfo c).
Proof.
  unfold membersSection. destruct (e_members newInfo) as [members|]; [|live].
  destruct (isClass kind) eqn:Hclass; live.
  - apply (liveOn_forEachB R _ U U_closed).
    + intros member [[c0 b1] b2] _. unfold memberRound.
      apply framedBy_bind; [assumption | now apply recur_framed | intros ?].
      now apply framedBy_ret.
    + intros member [[c0 b1] b2] _. unfold memberRound. live.
      * destruct (recur_live eq_refl member (depth + 2)) as [Hf Ht].
        destruct (e_params member); assumption.
      * now apply recur_framed.
  - apply framedBy_forEachB; [assumption|]. intros member [[c0 b1] b2] _.
    unfold memberRound.
    apply framedBy_bind; [assumption | now apply recur_framed | intros ?].
    now apply framedBy_ret.
Qed.

Lemma examplesSection_live (newInfo : DocsAll) (c : list DocsContent) :
  liveOn U (examplesSection readFile codeToHtml renderType dir depth newInfo c).
Proof.
  unfold examplesSection. destruct (e_examples newInfo); live.
  - apply liveOn_lift, normalizeExamples_settled.
  - match goal with a : ExamplesContent |- _ => destruct a as [[|? ?]|?] end; live.
Qed.

Lemma typeContent_live :
  liveOn U (typeContent readFile codeToHtml renderType docTypes dir
                        resolve recur info kind depth).
Proof.
  unfold typeContent. cbv zeta.
  destruct (isType kind && negb (isString (e_dir (mergeAlias docTypes info kind)) dir));
    [live|].
  apply (liveOn_bind R U U_closed);
    [apply typeLine_live | now apply typeLine_framed | intros ?].
  apply (liveOn_bind R U U_closed);
    [apply augmentsLine_live | now apply augmentsLine_framed | intros ?].
  apply (liveOn_bind R U U_closed);
    [apply listSection_live | now apply listSection_framed | intros ?].
  apply (liveOn_bind R U U_closed);
    [apply listSection_live | now apply listSection_framed | intros ?].
  apply (liveOn_bind R U U_closed);
    [apply returnSection_live | now apply returnSection_framed | intros ?].
  apply (liveOn_bind R U U_closed);
    [apply returnSection_live | now apply returnSection_framed | intros ?].
  apply (liveOn_bind R U U_closed);
    [apply membersSection_live | now apply membersSection_framed | intros ?].
  apply examplesSection_live.
Qed.

End Live.

Lemma typeNames_lookup (docTypes : gmap string DocsAll) (key : string) (docType : DocsAll) :
  docTypes !! key = Some docType -> e_name docType ∈ typeNames docTypes.
Proof.
  intros H. unfold typeNames. apply elem_of_list_to_set, list_elem_of_In.
  apply (in_map (fun kv => e_name (snd kv)) _ (key, docType)).
  now apply list_elem_of_In, elem_of_map_to_list.
Qed.

Lemma unusedNames_extends (docTypes : gmap string DocsAll) (u u' : Unit) :
  extends u u' -> unusedNames docTypes u' <= unusedNames docTypes u.
Proof. unfold extends, unusedNames. intros H. apply subseteq_size. set_solver. Qed.

Lemma unusedNames_use (docTypes : gmap string DocsAll) (name : string) (u : Unit) :
  name ∈ typeNames docTypes -> name ∉ usedTypes u ->
  unusedNames docTypes {| types := types u; usedTypes := {[ name ]} ∪ usedTypes u |}
  < unusedNames docTypes u.
Proof.
  intros Hin Hout. unfold unusedNames. cbn [usedTypes].
  replace (typeNames docTypes ∖ ({[name]} ∪ usedTypes u))
    with ((typeNames docTypes ∖ usedTypes u) ∖ {[name]}) by set_solver.
  rewrite size_difference by set_solver. rewrite size_singleton.
  assert (size (typeNames docTypes ∖ usedTypes u) <> 0); [|lia].
  apply size_non_empty_iff. set_solver.
Qed.

Section ResolverLive.

Variable readFile : string -> string -> option string.
Variable codeToHtml : string -> string -> string.
Variable renderType : RenderType.
Variable docTypes : gmap string DocsAll.
Variable dir url : string.

Lemma atMost_closed (k : nat) (u u' : Unit) : atMost docTypes k u -> extends u u' -> atMost docTypes k u'.
Proof. unfold atMost. intros Hu He. apply (unusedNames_extends docTypes) in He. lia. Qed.

Lemma resolveMatch_live (k : nat) (expand : DocsAll -> Build (list DocsContent))
    (typeMatches : list string) (currentDocType : DocsAll) (match_ : string)
    (content : list DocsContent) :
  (forall docType u, unusedNames docTypes u < k -> expand docType u <> Exhausted) ->
  liveOn (atMost docTypes k) (resolveMatch renderType docTypes dir url expand typeMatches
                                  currentDocType match_ content).
Proof.
  intros Hexpand u Hu. unfold resolveMatch.
  destruct (negb (includes typeMatches match_)); [discriminate|].
  destruct (docTypes !! match_) as [docType|] eqn:Hlookup; [|discriminate].
  destruct (oid docType =? oid currentDocType)%nat; [discriminate|].
  rewrite build_bind_unfold, usedHas_unfold.
  destruct (bool_decide (e_name docType ∈ usedTypes u)) eqn:Hused; [discriminate|].
  apply bool_decide_eq_false in Hused.
  rewrite build_bind_unfold. cbn [useType]. rewrite build_bind_unfold.
  match goal with |- context [expand docType ?u1] =>
    assert (Hu1 : unusedNames docTypes u1 < k) end.
  { pose proof (unusedNames_use docTypes (e_name docType) u
                  (typeNames_lookup _ _ _ Hlookup) Hused) as Hlt.
    unfold atMost in Hu. lia. }
  specialize (Hexpand docType _ Hu1).
  destruct (expand docType _) as [[expanded u2]| |]; [discriminate | discriminate | congruence].
Qed.

Lemma resolveTypeName_live (k : nat) (expand : DocsAll -> Build (list DocsContent))
    (currentDocType : DocsAll) (typeName : string) (c : list DocsContent) :
  (forall docType, framedBy extends (expand docType)) ->
  (forall docType u, unusedNames docTypes u < k -> expand docType u <> Exhausted) ->
  liveOn (atMost docTypes k) (resolveTypeName renderType docTypes dir url expand
                                     currentDocType typeName c).
Proof.
  intros Hframed Hexpand. unfold resolveTypeName.
  destruct (typeMatchesOf typeName) as [|m ms]; [apply liveOn_ret|].
  destruct (allMatchesOf typeName) as [|a l]; [now apply liveOn_lift|].
  apply (liveOn_bind extends (atMost docTypes k) (atMost_closed k)); [| | intros ?; apply liveOn_ret].
  - apply (liveOn_forEachB extends _ (atMost docTypes k) (atMost_closed k)).
    + intros x s _. now apply (resolveMatch_extends readFile codeToHtml).
    + intros x s _. now apply resolveMatch_live.
  - apply framedBy_forEachB; [apply _|]. intros x s _.
    now apply (resolveMatch_extends readFile codeToHtml).
Qed.

(** The budget [getContent] needs when [k] names are unused is [2k + 1];
    [getTypeContent] needs one more, and one more again for a class, whose
    members it calls itself on. *)
Lemma resolver_live (budget : nat) :
  (forall k type current c,
      2 * k + 1 <= budget ->
      liveOn (atMost docTypes k) (getContent readFile codeToHtml renderType docTypes dir url
                                    budget type current c)) /\
  (forall k info kind depth,
      2 * k + 2 + (if isClass kind then 1 else 0) <= budget ->
      liveOn (atMost docTypes k) (getTypeContent readFile codeToHtml renderType docTypes dir url
                                        budget info kind depth)).
Proof.
  induction budget as [|n [IHc IHt]];
    (split; [intros k type current c Hk | intros k info kind depth Hk]); try lia;
    cbn [getContent getTypeContent].
  - apply (liveOn_forEachB extends _ (atMost docTypes k) (atMost_closed k)).
    + intros typeName s _. apply resolveTypeName_framed; [apply _|].
      intros typeMatches match_ content. apply (resolveMatch_extends readFile codeToHtml).
      intros docType. apply getTypeContent_extends.
    + intros typeName s _. apply resolveTypeName_live.
      * intros docType. apply getTypeContent_extends.
      * intros docType u Hu. destruct k as [|j]; [lia|].
        apply (IHt j docType KTypedef 2); [cbn; lia | unfold atMost; lia].
  - apply (typeContent_live _ _ _ _ _ extends (atMost docTypes k) (atMost_closed k)).
    + intros type current. apply getContent_extends.
    + intros _ member k' d. apply getTypeContent_extends.
    + intros type current. apply IHc. destruct (isClass kind); lia.
    + intros Hclass member d. rewrite Hclass in Hk.
      split; apply IHt; cbn; lia.
Qed.

End ResolverLive.

(** *** The budget does not show in what the calls return *)

Section Refines.

Variable readFile : string -> string -> option string.
Variable codeToHtml : string -> string -> string.
Variable renderType : RenderType.
Variable docTypes : gmap string DocsAll.
Variable dir url : string.

Local Ltac refined :=
  repeat match goal with
         | |- refines (mret _) (mret _) => apply refines_refl
         | |- refines (lift _) (lift _) => apply refines_refl
         | |- refines (_ ≫= _) (_ ≫= _) => apply refines_bind; [|intros ?]
         | |- refines (forEachB _ _ _) (forEachB _ _ _) =>
             apply refines_forEachB; intros ? ?
         | |- refines (match ?x with _ => _ end) (match ?x with _ => _ end) => destruct x
         | H : forall a b, refines (?f a b) (?g a b) |- refines (?f _ _) (?g _ _) => apply H
         | H : forall a b c, refines (?f a b c) (?g a b c) |- refines (?f _ _ _) (?g _ _ _) =>
             apply H
         | H : forall a, refines (?f a) (?g a) |- refines (?f _) (?g _) => apply H
         end.

Lemma resolveTypeName_refines (expand expand' : DocsAll -> Build (list DocsContent))
    (currentDocType : DocsAll) (typeName : string) (c : list DocsContent) :
  (forall docType, refines (expand docType) (expand' docType)) ->
  refines (resolveTypeName renderType docTypes dir url expand currentDocType typeName c)
          (resolveTypeName renderType docTypes dir url expand' currentDocType typeName c).
Proof.
  intros Hexpand. unfold resolveTypeName, resolveMatch. refined.
  all: try apply refines_refl.
Qed.

Lemma typeContent_refines
    (resolve resolve' : list string -> DocsAll -> Build (list DocsContent))
    (recur recur' : DocsAll -> DocsKind -> nat -> Build (list DocsContent))
    (info : DocsAll) (kind : DocsKind) (depth : nat) :
  (forall type current, refines (resolve type current) (resolve' type current)) ->
  (forall member k d, refines (recur member k d) (recur' member k d)) ->
  refines (typeContent readFile codeToHtml renderType docTypes dir resolve recur
                       info kind depth)
          (typeContent readFile codeToHtml renderType docTypes dir resolve' recur'
                       info kind depth).
Proof.
  intros Hresolve Hrecur.
  unfold typeContent, typeLine, augmentsLine, listSection, entriesOf, returnSection,
    membersSection, memberRound, examplesSection.
  cbv zeta. refined.
  all: try apply refines_refl.
Qed.

Lemma resolver_refines (budget : nat) :
  (forall type current c,
      refines (getContent readFile codeToHtml renderType docTypes dir url
                          budget type current c)
              (getContent readFile codeToHtml renderType docTypes dir url
                          (S budget) type current c)) /\
  (forall info kind depth,
      refines (getTypeContent readFile codeToHtml renderType docTypes dir url
                              budget info kind depth)
              (getTypeContent readFile codeToHtml renderType docTypes dir url
                              (S budget) info kind depth)).
Proof.
  induction budget as [|n [IHc IHt]]; (split; [intros type current c | intros info kind depth]).
  - intros u Hu. now destruct Hu.
  - intros u Hu. now destruct Hu.
  - change (getContent readFile codeToHtml renderType docTypes dir url (S n) type current c)
      with (forEachB (resolveTypeName renderType docTypes dir url
                        (fun docType => getTypeContent readFile codeToHtml renderType
                                          docTypes dir url n docType KTypedef 2)
                        current) type c).
    change (getContent readFile codeToHtml renderType docTypes dir url (S (S n))
                       type current c)
      with (forEachB (resolveTypeName renderType docTypes dir url
                        (fun docType => getTypeContent readFile codeToHtml renderType
                                          docTypes dir url (S n) docType KTypedef 2)
                        current) type c).
    apply refines_forEachB. intros typeName s. apply resolveTypeName_refines.
    intros docType. apply IHt.
  - change (getTypeContent readFile codeToHtml renderType docTypes dir url (S n)
                           info kind depth)
      with (typeContent readFile codeToHtml renderType docTypes dir
              (fun type current => getContent readFile codeToHtml renderType docTypes
                                     dir url n type current [])
              (getTypeContent readFile codeToHtml renderType docTypes dir url n)
              info kind depth).
    change (getTypeContent readFile codeToHtml renderType docTypes dir url (S (S n))
                           info kind depth)
      with (typeContent readFile codeToHtml renderType docTypes dir
              (fun type current => getContent readFile codeToHtml renderType docTypes
                                     dir url (S n) type current [])
              (getTypeContent readFile codeToHtml renderType docTypes dir url (S n))
              info kind depth).
    apply typeContent_refines.
    + intros type current. apply IHc.
    + intros member k d. apply IHt.
Qed.

Lemma getContent_budget (budget budget' : nat) (type : list string) (current : DocsAll)
    (c : list DocsContent) :
  budget <= budget' ->
  refines (getContent readFile codeToHtml renderType docTypes dir url
                      budget type current c)
          (getContent readFile codeToHtml renderType docTypes dir url
                      budget' type current c).
Proof.
  induction 1 as [|m _ IH]; [apply refines_refl|].
  eapply refines_trans; [exact IH | apply resolver_refines].
Qed.

Lemma getTypeContent_budget (budget budget' : nat) (info : DocsAll) (kind : DocsKind)
    (depth : nat) :
  budget <= budget' ->
  refines (getTypeContent readFile codeToHtml renderType docTypes dir url
                          budget info kind depth)
          (getTypeContent readFile codeToHtml renderType docTypes dir url
                          budget' info kind depth).
Proof.
  induction 1 as [|m _ IH]; [apply refines_refl|].
  eapply refines_trans; [exact IH | apply resolver_refines].
Qed.

End Refines.

(** ** The Types section of a unit *)

Lemma sectionCount_app (name : string) (a b : list DocsContent) :
  sectionCount name (a ++ b) = sectionCount name a + sectionCount name b.
Proof. unfold sectionCount. now rewrite List.filter_app, length_app. Qed.

Lemma sectionCount_nil (name : string) : sectionCount name [] = 0.
Proof. reflexivity. Qed.

Lemma newlyUsed_refl (u : Unit) (name : string) : newlyUsed u u name = false.
Proof. unfold newlyUsed. now destruct (bool_decide (name ∈ usedTypes u)). Qed.

Lemma counted_preorder (docTypes : gmap string DocsAll) (dir : string) :
  PreOrder (counted docTypes dir).
Proof.
  split.
  - intros u. split; [reflexivity|]. intros name. rewrite newlyUsed_refl. cbn. lia.
  - intros u1 u2 u3 [Hs12 Hc12] [Hs23 Hc23]. split; [set_solver|].
    intros name. rewrite Hc23, Hc12. unfold newlyUsed.
    destruct (ownedHere docTypes dir name); rewrite ?andb_false_r; [|lia].
    rewrite !andb_true_r.
    destruct (bool_decide (name ∈ usedTypes u1)) eqn:H1;
      destruct (bool_decide (name ∈ usedTypes u2)) eqn:H2;
      destruct (bool_decide (name ∈ usedTypes u3)) eqn:H3; cbn; try lia;
      repeat match goal with
             | H : bool_decide _ = true |- _ => apply bool_decide_eq_true in H
             | H : bool_decide _ = false |- _ => apply bool_decide_eq_false in H
             end; set_solver.
Qed.

#[global] Existing Instance counted_preorder.

Lemma counted_extends (docTypes : gmap string DocsAll) (dir : string) (u u' : Unit) :
  counted docTypes dir u u' -> extends u u'.
Proof. now intros [H _]. Qed.

(** A consistent Types section stays consistent. *)
Lemma counted_consistent (docTypes : gmap string DocsAll) (dir : string) (u u' : Unit) :
  consistent u -> counted docTypes dir u u' -> consistent u'.
Proof.
  intros Hu [Hs Hc] name. destruct (Hu name) as [Hle Hin]. rewrite Hc. unfold newlyUsed.
  destruct (bool_decide (name ∈ usedTypes u')) eqn:H';
    destruct (bool_decide (name ∈ usedTypes u)) eqn:H0; cbn;
    repeat match goal with
           | H : bool_decide _ = true |- _ => apply bool_decide_eq_true in H
           | H : bool_decide _ = false |- _ => apply bool_decide_eq_false in H
           end.
  - split; [lia | auto].
  - destruct (ownedHere docTypes dir name); split; auto; try lia.
    destruct (sectionCount name (types u)); [lia|]. exfalso. apply H0, Hin. lia.
  - split; [lia|]. intros _. exfalso. apply H'. set_solver.
  - split; [lia|]. intros H. exfalso. apply H0, Hin. lia.
Qed.

Lemma sectionCount_none (name : string) (l : list DocsContent) :
  forallb (fun node => negb (isHeading3 node)) l = true -> sectionCount name l = 0.
Proof.
  unfold sectionCount. induction l as [|node r IH]; [reflexivity|]. cbn [forallb List.filter].
  intros [Hnode Hr]%andb_true_iff. replace (isSection name node) with false; [auto|].
  destruct node as [c [t|] [l|]|c t l]; try reflexivity. cbn in *.
  now destruct (String.eqb t "h3").
Qed.

(** *** What [getTypeContent] returns for a type of the Types section *)

Section Sections.

Variable readFile : string -> string -> option string.
Variable codeToHtml : string -> string -> string.
Variable renderType : RenderType.
Variable docTypes : gmap string DocsAll.
Variable dir url : string.

Variable resolve : list string -> DocsAll -> Build (list DocsContent).
Variable recur : DocsAll -> DocsKind -> nat -> Build (list DocsContent).
Variable info : DocsAll.

(** The sections a content list holds, name by name. *)
Variable f : string -> nat.

Local Ltac plain :=
  repeat match goal with
         | |- returnsP _ (mret _) => apply returnsP_ret
         | |- returnsP _ (_ ≫= _) => apply returnsP_bind; intros ?
         end;
  try (intros name; rewrite sectionCount_app;
       match goal with H : holds _ _ |- _ => rewrite (H name) end;
       rewrite sectionCount_none by (vm_compute; reflexivity); lia);
  try assumption.

Lemma typeLine_sections (newInfo : DocsAll) (c : list DocsContent) :
  holds f c -> returnsP (holds f) (typeLine resolve info KTypedef newInfo c).
Proof. intros Hc. unfold typeLine. cbn [isType]. plain. Qed.

Lemma augmentsLine_sections (newInfo : DocsAll) (c : list DocsContent) :
  holds f c -> returnsP (holds f) (augmentsLine resolve info newInfo c).
Proof. intros Hc. unfold augmentsLine. destruct (e_augments newInfo); plain. Qed.

Lemma listSection_sections (title : string) (l : option (list DocsParam))
    (c : list DocsContent) :
  holds f c -> returnsP (holds f) (listSection renderType resolve info title 4 l c).
Proof. intros Hc. unfold listSection. destruct l as [[|p ps]|]; plain. Qed.

Lemma returnSection_sections (title : string) (r : option DocsReturn)
    (c : list DocsContent) :
  holds f c -> returnsP (holds f) (returnSection resolve info 2 title r c).
Proof. intros Hc. unfold returnSection. destruct r; plain. Qed.

Lemma membersSection_sections (newInfo : DocsAll) (c : list DocsContent) :
  holds f c -> returnsP (holds f) (membersSection recur KTypedef 2 newInfo c).
Proof.
  intros Hc. unfold membersSection. cbn [isClass]. destruct (e_members newInfo); plain.
Qed.

Lemma examplesSection_sections (newInfo : DocsAll) (c : list DocsContent) :
  holds f c ->
  returnsP (holds f) (examplesSection readFile codeToHtml renderType dir 2 newInfo c).
Proof.
  intros Hc. unfold examplesSection. destruct (e_examples newInfo); plain.
  match goal with a : ExamplesContent |- _ => destruct a as [[|? ?]|?] end; plain.
Qed.

End Sections.

Lemma mergeAlias_typedef (docTypes : gmap string DocsAll) (info : DocsAll) :
  mergeAlias docTypes info KTypedef = info.
Proof. reflexivity. Qed.

Lemma headOf_sections (info : DocsAll) (name : string) :
  sectionCount name (headOf KTypedef 2 info)
  = if String.eqb (e_name info) name then 1 else 0.
Proof.
  unfold headOf. cbn [isClass isFunction isType orb andb negb app].
  change (tagged (hTag (2 + 1)) (e_name info) :: ?l)
    with ([tagged (hTag (2 + 1)) (e_name info)] ++ l).
  rewrite sectionCount_app.
  rewrite (sectionCount_none name (if truthy _ then _ else _))
    by (destruct (truthy (e_description info)); reflexivity).
  unfold sectionCount. cbn [List.filter]. change (hTag (2 + 1)) with "h3".
  cbn [isSection tagged]. change (String.eqb "h3" "h3") with true. cbn [andb].
  destruct (String.eqb (e_name info) name); reflexivity.
Qed.

(** The content [getTypeContent] returns for a type of the Types section
    holds the section of the type, once, when the directory of the unit
    owns the type, and no section at all when it does not. *)
Lemma typeContent_sections (readFile : string -> string -> option string)
    (codeToHtml : string -> string -> string) (renderType : RenderType)
    (docTypes : gmap string DocsAll) (dir : string)
    (resolve : list string -> DocsAll -> Build (list DocsContent))
    (recur : DocsAll -> DocsKind -> nat -> Build (list DocsContent))
    (info : DocsAll) :
  returnsP (fun c => forall name,
              sectionCount name c
              = if isString (e_dir info) dir && String.eqb (e_name info) name then 1 else 0)
           (typeContent readFile codeToHtml renderType docTypes dir resolve recur
                        info KTypedef 2).
Proof.
  unfold typeContent. cbv zeta. rewrite mergeAlias_typedef. cbn [isType isClass andb].
  destruct (isString (e_dir info) dir); cbn [negb andb].
  - set (f := fun name => if String.eqb (e_name info) name then 1 else 0).
    eapply returnsP_bind_both;
      [apply (typeLine_sections _ _ f); intros name; apply headOf_sections|].
    intros c1 H1. eapply returnsP_bind_both; [apply (augmentsLine_sections _ _ f), H1|].
    intros c2 H2.
    eapply returnsP_bind_both; [apply (listSection_sections _ _ _ f), H2|].
    intros c3 H3.
    eapply returnsP_bind_both; [apply (listSection_sections _ _ _ f), H3|].
    intros c4 H4.
    eapply returnsP_bind_both; [apply (returnSection_sections _ _ f), H4|].
    intros c5 H5.
    eapply returnsP_bind_both; [apply (returnSection_sections _ _ f), H5|].
    intros c6 H6.
    eapply returnsP_bind_both; [apply (membersSection_sections _ f), H6|].
    intros c7 H7. apply (examplesSection_sections _ _ _ _ f), H7.
  - apply returnsP_ret. reflexivity.
Qed.

(** *** The frame of the resolver on the Types section *)

Section Counted.

Variable readFile : string -> string -> option string.
Variable codeToHtml : string -> string -> string.
Variable renderType : RenderType.
Variable docTypes : gmap string DocsAll.
Variable dir url : string.

Hypothesis keyed : wellKeyed docTypes.

Lemma resolveMatch_counted (expand : DocsAll -> Build (list DocsContent))
    (typeMatches : list string) (currentDocType : DocsAll) (match_ : string)
    (content : list DocsContent) :
  (forall docType, framedBy (counted docTypes dir) (expand docType)) ->
  (forall docType,
      returnsP (fun c => forall name,
                  sectionCount name c
                  = if isString (e_dir docType) dir && String.eqb (e_name docType) name
                    then 1 else 0)
               (expand docType)) ->
  framedBy (counted docTypes dir)
           (resolveMatch renderType docTypes dir url expand typeMatches
                         currentDocType match_ content).
Proof.
  intros Hframe Hvalue. unfold resolveMatch.
  destruct (negb (includes typeMatches match_)); [apply framedBy_ret, _|].
  destruct (docTypes !! match_) as [docType|] eqn:Hlookup; [|apply framedBy_ret, _].
  destruct (oid docType =? oid currentDocType)%nat; [apply framedBy_ret, _|].
  intros u a u'. rewrite build_bind_unfold, usedHas_unfold.
  destruct (bool_decide (e_name docType ∈ usedTypes u)) eqn:Hused.
  { intros [= _ <-]. reflexivity. }
  apply bool_decide_eq_false in Hused.
  rewrite build_bind_unfold. cbn [useType]. rewrite build_bind_unfold.
  destruct (expand docType _) as [[expanded u2]| |] eqn:Hexpand; try discriminate.
  rewrite build_bind_unfold. cbn [pushTypes]. intros [= _ <-].
  pose proof (Hvalue _ _ _ _ Hexpand) as Hsections.
  destruct (Hframe _ _ _ _ Hexpand) as [Hsub Hcount]. cbn [usedTypes types] in Hsub, Hcount.
  assert (Hname : e_name docType = match_) by exact (keyed _ _ Hlookup).
  split; cbn [usedTypes types]; [set_solver|].
  intros name. rewrite sectionCount_app, Hcount, Hsections. unfold newlyUsed, ownedHere.
  cbn [usedTypes].
  destruct (String.eqb (e_name docType) name) eqn:Heq.
  - apply String.eqb_eq in Heq. subst name.
    rewrite (bool_decide_eq_true_2 (e_name docType ∈ {[e_name docType]} ∪ usedTypes u))
      by set_solver.
    rewrite (bool_decide_eq_true_2 (e_name docType ∈ usedTypes u2)) by set_solver.
    rewrite (bool_decide_eq_false_2 (e_name docType ∈ usedTypes u)) by assumption.
    rewrite Hname, Hlookup. cbn [negb andb]. rewrite andb_true_r.
    destruct (isString (e_dir docType) dir); cbn; lia.
  - apply String.eqb_neq in Heq. rewrite andb_false_r.
    replace (bool_decide (name ∈ {[e_name docType]} ∪ usedTypes u))
      with (bool_decide (name ∈ usedTypes u)); [lia|].
    apply bool_decide_ext. set_solver.
Qed.

Lemma resolver_counted (budget : nat) :
  (forall type current c,
      framedBy (counted docTypes dir)
               (getContent readFile codeToHtml renderType docTypes dir url
                           budget type current c)) /\
  (forall info kind depth,
      framedBy (counted docTypes dir)
               (getTypeContent readFile codeToHtml renderType docTypes dir url
                               budget info kind depth)).
Proof.
  induction budget as [|n [IHc IHt]]; (split; [intros type current c | intros info kind depth]);
    cbn [getContent getTypeContent]; try (apply framedBy_lift, _).
  - apply framedBy_forEachB; [apply _|]. intros typeName s _.
    apply resolveTypeName_framed; [apply _|]. intros typeMatches match_ content.
    apply resolveMatch_counted.
    + intros docType. apply IHt.
    + intros docType. destruct n as [|m]; [intros u a u'; discriminate|].
      cbn [getTypeContent]. apply typeContent_sections.
  - apply typeContent_framed; [apply _ | |].
    + intros type current. apply IHc.
    + intros _ member k d. apply IHt.
Qed.

Lemma getContent_counted (budget : nat) (type : list string) (current : DocsAll)
    (c : list DocsContent) :
  framedBy (counted docTypes dir)
           (getContent readFile codeToHtml renderType docTypes dir url
                       budget type current c).
Proof. apply resolver_counted. Qed.

Lemma getTypeContent_counted (budget : nat) (info : DocsAll) (kind : DocsKind)
    (depth : nat) :
  framedBy (counted docTypes dir)
           (getTypeContent readFile codeToHtml renderType docTypes dir url
                           budget info kind depth).
Proof. apply resolver_counted. Qed.

End Counted.

(** *** Referenced names are used *)

Lemma builtins_refused (word : string) :
  forallb (fun b => negb (startsWith word b)) builtins = negb (beginsWithBuiltin word).
Proof.
  unfold beginsWithBuiltin. induction builtins as [|b l IH]; [reflexivity|].
  cbn [forallb existsb]. rewrite IH. now destruct (startsWith word b).
Qed.

Lemma includes_spec (l : list string) (x : string) : includes l x = true <-> In x l.
Proof.
  unfold includes. rewrite existsb_exists. split.
  - intros (y & Hy & Heq). apply String.eqb_eq in Heq. now subst.
  - intros Hin. exists x. split; [exact Hin | apply String.eqb_refl].
Qed.

(** The reference pattern matches the whole words that begin with no
    built-in name. *)
Lemma typeMatches_spec (typeName word : string) :
  In word (typeMatchesOf typeName)
  <-> In word (wordRuns EmptyString typeName) /\ beginsWithBuiltin word = false.
Proof.
  unfold typeMatchesOf. rewrite filter_In, builtins_refused, negb_true_iff. reflexivity.
Qed.

Lemma referenced_matches (name typeName : string) :
  referenced name typeName ->
  includes (typeMatchesOf typeName) name = true /\ In name (allMatchesOf typeName).
Proof.
  intros (Hword & Hbuiltin & Htoken). split; [|exact Htoken].
  apply includes_spec, typeMatches_spec. now split.
Qed.

Section Uses.

Variable readFile : string -> string -> option string.
Variable codeToHtml : string -> string -> string.
Variable renderType : RenderType.
Variable docTypes : gmap string DocsAll.
Variable dir url : string.

Variable name : string.
Variable docType : DocsAll.
Hypothesis registered : docTypes !! name = Some docType.
Hypothesis keyed : wellKeyed docTypes.

Lemma used_closed (u u' : Unit) : isUsed name u -> extends u u' -> isUsed name u'.
Proof. unfold isUsed, extends. set_solver. Qed.

Lemma resolveMatch_uses (expand : DocsAll -> Build (list DocsContent))
    (typeMatches : list string) (currentDocType : DocsAll) (content : list DocsContent) :
  includes typeMatches name = true ->
  oid docType <> oid currentDocType ->
  (forall d, framedBy extends (expand d)) ->
  ensures (isUsed name) (resolveMatch renderType docTypes dir url expand typeMatches
                             currentDocType name content).
Proof.
  intros Hin Hoid Hexpand u a u'. unfold resolveMatch. rewrite Hin, registered. cbn [negb].
  apply Nat.eqb_neq in Hoid. rewrite Hoid.
  rewrite build_bind_unfold, usedHas_unfold.
  assert (Hname : e_name docType = name) by exact (keyed _ _ registered).
  destruct (bool_decide (e_name docType ∈ usedTypes u)) eqn:Hused.
  { intros [= _ <-]. apply bool_decide_eq_true in Hused. unfold isUsed. now rewrite <- Hname. }
  rewrite build_bind_unfold. cbn [useType]. rewrite build_bind_unfold.
  destruct (expand docType _) as [[expanded u2]| |] eqn:Hrun; try discriminate.
  rewrite build_bind_unfold. cbn [pushTypes]. intros [= _ <-].
  apply Hexpand in Hrun. unfold isUsed, extends in *. cbn [usedTypes] in *. set_solver.
Qed.

Lemma resolveTypeName_uses (expand : DocsAll -> Build (list DocsContent))
    (currentDocType : DocsAll) (typeName : string) (c : list DocsContent) :
  referenced name typeName ->
  oid docType <> oid currentDocType ->
  (forall d, framedBy extends (expand d)) ->
  ensures (isUsed name) (resolveTypeName renderType docTypes dir url expand currentDocType
                                typeName c).
Proof.
  intros [Hin Hall]%referenced_matches Hoid Hexpand. unfold resolveTypeName.
  destruct (typeMatchesOf typeName) as [|m ms] eqn:Hmatches; [discriminate|].
  destruct (allMatchesOf typeName) as [|x l] eqn:Hall'; [destruct Hall|].
  apply (ensures_bind_l extends); [apply used_closed | | intros ?; apply framedBy_ret, _].
  apply (ensures_forEachB extends (isUsed name) _ _ name); [apply used_closed | exact Hall | |].
  - intros y s. now apply (resolveMatch_extends readFile codeToHtml).
  - intros s. now apply resolveMatch_uses.
Qed.

(** A name a type expression references is used once [getContent] has
    gone through the expression. *)
Lemma getContent_uses (budget : nat) (type : list string) (currentDocType : DocsAll)
    (typeName : string) (c : list DocsContent) :
  In typeName type ->
  referenced name typeName ->
  oid docType <> oid currentDocType ->
  ensures (isUsed name) (getContent readFile codeToHtml renderType docTypes dir url
                           budget type currentDocType c).
Proof.
  intros Hin Href Hoid. destruct budget as [|n]; [intros u a u'; discriminate|].
  cbn [getContent].
  apply (ensures_forEachB extends (isUsed name) _ _ typeName); [apply used_closed | exact Hin | |].
  - intros y s. apply resolveTypeName_framed; [apply _|]. intros typeMatches match_ content.
    apply (resolveMatch_extends readFile codeToHtml). intros d. apply getTypeContent_extends.
  - intros s. apply resolveTypeName_uses; [assumption | assumption |].
    intros d. apply getTypeContent_extends.
Qed.

End Uses.

(** *** A type that is expanded uses what it references *)

Section Expands.

Variable readFile : string -> string -> option string.
Variable codeToHtml : string -> string -> string.
Variable renderType : RenderType.
Variable docTypes : gmap string DocsAll.
Variable dir url : string.

Variable resolve : list string -> DocsAll -> Build (list DocsContent).
Variable recur : DocsAll -> DocsKind -> nat -> Build (list DocsContent).
Variable info : DocsAll.
Variable depth : nat.

Variable Q : Unit -> Prop.
Hypothesis Q_closed : forall u u', Q u -> extends u u' -> Q u'.
Hypothesis resolve_framed : forall type current, framedBy extends (resolve type current).

(** The type expression that holds the reference. *)
Variable l0 : list string.
Hypothesis resolve_l0 : ensures Q (resolve l0 info).

Lemma typeLine_uses (c : list DocsContent) :
  typeItems (e_type info) = Done l0 ->
  ensures Q (typeLine resolve info KTypedef info c).
Proof.
  intros Hitems u x u'. unfold typeLine. cbn [isType]. rewrite Hitems.
  rewrite build_bind_unfold, lift_unfold.
  apply (ensures_bind_l extends); [exact Q_closed | exact resolve_l0 |].
  intros ?. apply framedBy_ret, _.
Qed.

Lemma augmentsLine_uses (c : list DocsContent) :
  e_augments info = Some l0 ->
  ensures Q (augmentsLine resolve info info c).
Proof.
  intros Haugments. unfold augmentsLine. rewrite Haugments.
  apply (ensures_bind_l extends); [exact Q_closed | exact resolve_l0 |].
  intros ?. apply framedBy_ret, _.
Qed.

Lemma listSection_uses (title : string) (level : nat) (l : option (list DocsParam))
    (c : list DocsContent) :
  In l0 (map p_type (default [] l)) ->
  ensures Q (listSection renderType resolve info title level l c).
Proof.
  intros Hin. unfold listSection. destruct l as [[|p ps]|]; [destruct Hin | | destruct Hin].
  apply in_map_iff in Hin as [p0 [Htype Hin]]. cbn [default] in Hin.
  apply (ensures_bind_l extends); [exact Q_closed | | intros ?; apply framedBy_ret, _].
  unfold entriesOf.
  apply (ensures_forEachB extends Q _ _ p0); [exact Q_closed | exact Hin | |].
  - intros y s. apply framedBy_bind;
      [apply _ | apply resolve_framed | intros ?; apply framedBy_ret, _].
  - intros s. rewrite Htype.
    apply (ensures_bind_l extends); [exact Q_closed | exact resolve_l0 |].
    intros ?. apply framedBy_ret, _.
Qed.

Lemma returnSection_uses (title : string) (r : option DocsReturn) (c : list DocsContent) :
  In l0 (match r with Some ret => [r_type ret] | None => [] end) ->
  ensures Q (returnSection resolve info depth title r c).
Proof.
  intros Hin. unfold returnSection. destruct r as [ret|]; [|destruct Hin].
  destruct Hin as [Htype|[]]. rewrite Htype.
  apply (ensures_bind_l extends); [exact Q_closed | exact resolve_l0 |].
  intros ?. apply framedBy_ret, _.
Qed.

Local Ltac rest :=
  repeat first
    [ apply framedBy_bind; [apply _ | | intros ?]
    | apply typeLine_framed; [apply _ | exact resolve_framed]
    | apply augmentsLine_framed; [apply _ | exact resolve_framed]
    | apply listSection_framed; [apply _ | exact resolve_framed]
    | apply returnSection_framed; [apply _ | exact resolve_framed]
    | apply membersSection_framed; [apply _ | discriminate]
    | apply examplesSection_framed; apply _ ].

Lemma typeContent_uses :
  isString (e_dir info) dir = true ->
  In l0 (typeLists info) ->
  ensures Q (typeContent readFile codeToHtml renderType docTypes dir resolve recur
                         info KTypedef depth).
Proof.
  intros Hdir Hin. unfold typeContent. cbv zeta. rewrite mergeAlias_typedef, Hdir.
  cbn [isType isClass negb andb]. unfold typeLists in Hin.
  apply in_app_or in Hin as [Hin|Hin].
  { apply (ensures_bind_l extends); [exact Q_closed | | intros ?; rest].
    apply typeLine_uses. destruct (e_type info); cbn in *; intuition congruence. }
  apply ensures_bind_r. intros c1.
  apply in_app_or in Hin as [Hin|Hin].
  { apply (ensures_bind_l extends); [exact Q_closed | | intros ?; rest].
    apply augmentsLine_uses. destruct (e_augments info); cbn in *; intuition congruence. }
  apply ensures_bind_r. intros c2.
  apply in_app_or in Hin as [Hin|Hin].
  { apply (ensures_bind_l extends); [exact Q_closed | | intros ?; rest].
    now apply listSection_uses. }
  apply ensures_bind_r. intros c3.
  apply in_app_or in Hin as [Hin|Hin].
  { apply (ensures_bind_l extends); [exact Q_closed | | intros ?; rest].
    now apply listSection_uses. }
  apply ensures_bind_r. intros c4.
  apply in_app_or in Hin as [Hin|Hin].
  { apply (ensures_bind_l extends); [exact Q_closed | | intros ?; rest].
    now apply returnSection_uses. }
  apply ensures_bind_r. intros c5.
  apply (ensures_bind_l extends); [exact Q_closed | | intros ?; rest].
  now apply returnSection_uses.
Qed.

End Expands.

(** *** Once a type is used, what it references is *)

Lemma keeps_preorder (a b : string) : PreOrder (keeps a b).
Proof.
  split.
  - intros u. split; [reflexivity | auto].
  - intros u1 u2 u3 [H12 F12] [H23 F23]. split; [etransitivity; eassumption | auto].
Qed.

#[global] Existing Instance keeps_preorder.

Section Follows.

Variable readFile : string -> string -> option string.
Variable codeToHtml : string -> string -> string.
Variable renderType : RenderType.
Variable docTypes : gmap string DocsAll.
Variable dir url : string.

Variable a b : string.
Variable A B : DocsAll.
Hypothesis keyed : wellKeyed docTypes.
Hypothesis registered_a : docTypes !! a = Some A.
Hypothesis registered_b : docTypes !! b = Some B.
Hypothesis distinct : oid B <> oid A.
Hypothesis owned_a : isString (e_dir A) dir = true.
Hypothesis refers : refersTo A b.

Lemma resolveMatch_keeps (expand : DocsAll -> Build (list DocsContent))
    (typeMatches : list string) (currentDocType : DocsAll) (match_ : string)
    (content : list DocsContent) :
  (forall docType, framedBy (keeps a b) (expand docType)) ->
  ensures (fun u => b ∈ usedTypes u) (expand A) ->
  framedBy (keeps a b)
           (resolveMatch renderType docTypes dir url expand typeMatches
                         currentDocType match_ content).
Proof.
  intros Hframe Hexpands. unfold resolveMatch.
  destruct (negb (includes typeMatches match_)); [apply framedBy_ret, _|].
  destruct (docTypes !! match_) as [docType|] eqn:Hlookup; [|apply framedBy_ret, _].
  destruct (oid docType =? oid currentDocType)%nat; [apply framedBy_ret, _|].
  intros u x u'. rewrite build_bind_unfold, usedHas_unfold.
  destruct (bool_decide (e_name docType ∈ usedTypes u)) eqn:Hused.
  { intros [= _ <-]. reflexivity. }
  rewrite build_bind_unfold. cbn [useType]. rewrite build_bind_unfold.
  destruct (expand docType _) as [[expanded u2]| |] eqn:Hrun; try discriminate.
  rewrite build_bind_unfold. cbn [pushTypes]. intros [= _ <-].
  assert (Hname : e_name docType = match_) by exact (keyed _ _ Hlookup).
  destruct (Hframe _ _ _ _ Hrun) as [Hsub Hkeep].
  unfold keeps, extends, follows in *. cbn [usedTypes] in *.
  split; [set_solver|]. intros Hu.
  destruct (decide (match_ = a)) as [->|Hne].
  - assert (docType = A) as -> by congruence.
    intros _. exact (Hexpands _ _ _ Hrun).
  - apply Hkeep. intros Ha. apply elem_of_union in Ha as [Ha|Ha]; [|set_solver].
    apply elem_of_singleton in Ha. congruence.
Qed.

Lemma resolver_keeps (budget : nat) :
  (forall type current c,
      framedBy (keeps a b)
               (getContent readFile codeToHtml renderType docTypes dir url
                           budget type current c)) /\
  (forall info kind depth,
      framedBy (keeps a b)
               (getTypeContent readFile codeToHtml renderType docTypes dir url
                               budget info kind depth)).
Proof.
  induction budget as [|n [IHc IHt]]; (split; [intros type current c | intros info kind depth]);
    cbn [getContent getTypeContent]; try (apply framedBy_lift, _).
  - apply framedBy_forEachB; [apply _|]. intros typeName s _.
    apply resolveTypeName_framed; [apply _|]. intros typeMatches match_ content.
    apply resolveMatch_keeps.
    + intros docType. apply IHt.
    + destruct n as [|m]; [intros u x u'; discriminate|]. cbn [getTypeContent].
      destruct refers as [l0 [typeName' [Hl0 [Hin Href]]]].
      apply typeContent_uses with (l0 := l0); [| | | exact owned_a | exact Hl0].
      * unfold extends. set_solver.
      * intros type' current'. apply getContent_extends.
      * apply (getContent_uses readFile codeToHtml renderType docTypes dir url b B
                 registered_b keyed m l0 A typeName' []); assumption.
  - apply typeContent_framed; [apply _ | |].
    + intros type current. apply IHc.
    + intros _ member k d. apply IHt.
Qed.

Lemma getContent_keeps (budget : nat) (type : list string) (current : DocsAll)
    (c : list DocsContent) :
  framedBy (keeps a b)
           (getContent readFile codeToHtml renderType docTypes dir url
                       budget type current c).
Proof. apply resolver_keeps. Qed.

End Follows.

(** ** Registries and units to run the resolver on *)

Lemma consistent_empty : consistent emptyUnit.
Proof. intros name. cbn. split; [lia|]. intros H. lia. Qed.

Lemma wellKeyed_themeIn (d : string) : wellKeyed (themeIn d).
Proof. unfold wellKeyed, themeIn. now apply map_Forall_singleton. Qed.

Lemma unusedNames_bound (docTypes : gmap string DocsAll) (u : Unit) :
  unusedNames docTypes u <= size (typeNames docTypes).
Proof. unfold unusedNames. apply subseteq_size. set_solver. Qed.

Lemma wellKeyed_nodeAndEdge (d : string) : wellKeyed (nodeAndEdge d).
Proof.
  unfold wellKeyed, nodeAndEdge. apply map_Forall_insert_2; [reflexivity|].
  now apply map_Forall_singleton.
Qed.

(** ** The target of a reference *)

Lemma append_inj_l (s a b : string) : s +:+ a = s +:+ b -> a = b.
Proof.
  induction s as [|c s IH]; [now rewrite !append_nil_l|].
  rewrite !append_cons. intros [= H]. now apply IH.
Qed.

(** The link to a type of another directory is not the same in the two
    formats. *)
Lemma linkTo_formats_differ (dir url : string) (docType : DocsAll) :
  truthy (e_dir docType) = true ->
  isString (e_dir docType) dir = false ->
  linkTo Markdown dir url docType = linkTo Html dir url docType -> False.
Proof.
  intros Htruthy Hother. unfold linkTo. rewrite Htruthy, Hother. cbn [negb andb].
  intros H. apply append_inj_l in H. rewrite !(append_cons "/"%char) in H.
  injection H as H. rewrite !append_nil_l in H. apply append_inj_l in H.
  vm_compute in H. discriminate.
Qed.

(** ** [getDocs] and the module state *)

(** C9. [getDocs] reads [renderType.ref], which no argument carries and
    which [renderMarkdownDocs] and [renderHtmlDocs] set: on the same
    arguments and the same source files it returns one tree when
    [renderMarkdownDocs] ran last and another when [renderHtmlDocs] did.
    The link to a type of another directory ends in [README.md] and the
    anchor in the first and in the anchor alone in the second, two targets
    that differ for every such type; the examples are a string in the first
    and content nodes in the second. *)
Theorem getDocs_depends_on_render_type :
  (forall dir url docType,
      truthy (e_dir docType) = true ->
      isString (e_dir docType) dir = false ->
      linkTo Markdown dir url docType <> linkTo Html dir url docType) /\
  exists docsMarkdown docsHtml,
    getDocs noFile plainCode noIndex byCodeUnits asciiUpper
            (ref (renderMarkdownDocs initialModule))
            plainArgs themeAndButton = Done docsMarkdown /\
    getDocs noFile plainCode noIndex byCodeUnits asciiUpper
            (ref (renderHtmlDocs (renderMarkdownDocs initialModule)))
            plainArgs themeAndButton = Done docsHtml /\
    docsMarkdown <> docsHtml /\
    flat_map linksOf (pageOf "src/button" docsMarkdown) = ["/src/theme/README.md#theme"] /\
    flat_map linksOf (pageOf "src/button" docsHtml) = ["/src/theme/#theme"] /\
    under "Examples" (pageOf "src/button" docsMarkdown)
    = Some (text (newline +:+ newline +:+ "```ts" +:+ newline +:+ "setTheme(dark)"
                    +:+ newline +:+ "```")) /\
    under "Examples" (pageOf "src/button" docsHtml)
    = Some (ArrNode [text "setTheme(dark)"] None None).
Proof.
  split; [intros dir url docType; exact (linkTo_formats_differ dir url docType)|].
  eexists. eexists. split; [vm_compute; reflexivity|]. split; [vm_compute; reflexivity|].
  split; [discriminate|]. repeat split; vm_compute; reflexivity.
Qed.

(** *** The bound on the depth of the calls is enough *)

Section Enough.

Variable readFile : string -> string -> option string.
Variable codeToHtml : string -> string -> string.
Variable explain : string -> list DocsJsDocItem.
Variable localeCompare : string -> string -> Z.
Variable toUpperCase : string -> string.
Variable renderType : RenderType.

Local Ltac live :=
  repeat match goal with
         | |- liveOn _ (mret _) => apply live_ret
         | |- liveOn _ (_ ≫= _) => apply live_bind; [|intros ?]
         | |- liveOn _ (if ?b then _ else _) => destruct b
         end.

Lemma getTypeContent_enough (g : Registry) (dir url : string) (info : DocsAll)
    (kind : DocsKind) (depth : nat) :
  liveOn (fun _ => True)
         (getTypeContent readFile codeToHtml renderType (g_types g) dir url
                         (depthBound g) info kind depth).
Proof.
  intros u _.
  apply (proj2 (resolver_live readFile codeToHtml renderType (g_types g) dir url
                  (depthBound g)) (size (typeNames (g_types g))) info kind depth).
  - unfold depthBound. destruct (isClass kind); lia.
  - apply unusedNames_bound.
Qed.

Lemma itemRound_enough (g : Registry) (dir url : string) (single isIndex : bool)
    (item : DocsJsDocItem) (e : Entries) :
  liveOn (fun _ => True)
         (itemRound readFile codeToHtml renderType g (depthBound g) dir url single isIndex
                    item e).
Proof.
  unfold itemRound. destruct (skipped item); [apply live_ret|]. cbv zeta.
  apply live_bind.
  { destruct (String.eqb (i_kind item) "file"); [|apply live_ret].
    unfold fileItem. destruct (i_description item); [|now apply liveOn_lift].
    destruct (labelled "title:" _) as [title desc].
    destruct (i_examples item); live.
    apply liveOn_lift, normalizeExamples_settled. }
  intros e1. apply live_bind.
  { destruct (String.eqb (i_kind item) "typedef"); [|apply live_ret].
    unfold typedefItem. destruct (g_types g !! i_name item); live.
    - intros u _. discriminate.
    - intros u _. discriminate.
    - apply getTypeContent_enough.
    - intros u _. discriminate. }
  intros _.
  assert (Hentity : forall registry used kind keep name e0,
             liveOn (fun _ => True)
                    (entityItem readFile codeToHtml renderType g (depthBound g) dir url
                                single registry used kind keep name e0)).
  { intros registry used kind keep name e0. unfold entityItem.
    destruct (registry !! name); live. apply getTypeContent_enough. }
  live; apply Hentity.
Qed.

Lemma page_enough (args : DocsArgs) (g : Registry) (exportCounts : gmap string nat)
    (pages : Pages) (source : string * list DocsJsDocItem) :
  page readFile codeToHtml localeCompare toUpperCase renderType args g exportCounts pages source
  <> Exhausted.
Proof.
  unfold page. destruct source as [dir dirDocItems].
  match goal with
  | |- context [forEachB ?body ?l ?acc ?u] =>
      pose proof (live_forEachB body l acc (fun x s => itemRound_enough _ _ _ _ _ x s) u I)
        as Hlive;
      destruct (forEachB body l acc u) as [[e u']| |]
  end; [|discriminate | congruence].
  cbn. destruct (_ && _); discriminate.
Qed.

Lemma forEachPage_enough (args : DocsArgs) (g : Registry)
    (exportCounts : gmap string nat) (l : list (string * list DocsJsDocItem))
    (pages : Pages) :
  forEachPage readFile codeToHtml localeCompare toUpperCase renderType args g exportCounts l pages
  <> Exhausted.
Proof.
  revert pages. induction l as [|source r IH]; intros pages; [discriminate|].
  cbn [forEachPage].
  pose proof (page_enough args g exportCounts pages source) as Hpage.
  destruct (page _ _ _ _ _ _ _ _ _ _) as [p1| |]; [apply IH | discriminate | congruence].
Qed.

(** [getDocs] settles: the bound it gives the resolver is never reached. *)
Lemma getDocs_settles (args : DocsArgs) (sourceFiles : list SourceFile) :
  getDocs readFile codeToHtml explain localeCompare toUpperCase renderType args sourceFiles
  <> Exhausted.
Proof.
  unfold getDocs. cbv zeta.
  match goal with
  | |- context [forEachPage _ _ _ _ _ ?a ?g ?x ?l ?p] =>
      pose proof (forEachPage_enough a g x l p) as H;
      destruct (forEachPage readFile codeToHtml localeCompare toUpperCase renderType a g x l p)
  end; [discriminate | discriminate | congruence].
Qed.

End Enough.

(** ** The registries and the units of [getDocs] *)

Lemma sound_empty : sound emptyRegistry.
Proof.
  unfold sound, map_Forall, emptyRegistry. cbn.
  split; [|split; [|split]]; intros k; intros; rewrite lookup_empty in *; discriminate.
Qed.

(** Identities given out stay given out. *)
Lemma sound_next (g : Registry) (vars functions : gmap string DocsAll) (n : nat) :
  sound g -> g_next g <= n ->
  sound {| g_next := n; g_types := g_types g; g_vars := vars;
           g_functions := functions; g_classes := g_classes g |}.
Proof.
  intros (Ht & Hc & Htc & Hcc) Hn. unfold sound, map_Forall. cbn.
  split; [|split; [|split]]; try assumption.
  - intros k t Hk. destruct (Ht k t Hk). split; [assumption | lia].
  - intros k c Hk. destruct (Hc k c Hk). split; [assumption | lia].
Qed.

(** A new type, under its name. *)
Lemma sound_type (g : Registry) (name : string) (t : DocsAll) :
  sound g -> e_name t = name -> oid t = g_next g ->
  sound {| g_next := S (g_next g); g_types := <[name := t]> (g_types g);
           g_vars := g_vars g; g_functions := g_functions g;
           g_classes := g_classes g |}.
Proof.
  intros (Ht & Hc & Htc & Hcc) Hname Hoid. unfold sound. cbn. split; [|split; [|split]].
  - apply map_Forall_insert_2; [split; [assumption | lia]|].
    intros k x Hk. destruct (Ht k x Hk). split; [assumption | lia].
  - intros k c Hk. destruct (Hc k c Hk). split; [assumption | lia].
  - intros k k' x c Hx Hk' Heq. apply lookup_insert_Some in Hx as [[<- <-]|[Hne Hx]].
    + destruct (Hc k' c Hk'). lia.
    + eapply Htc; eassumption.
  - assumption.
Qed.

(** A class met through one of its members. *)
Lemma sound_stub (g : Registry) (memberof : string) :
  sound g ->
  sound {| g_next := S (g_next g); g_types := g_types g; g_vars := g_vars g;
           g_functions := g_functions g;
           g_classes := <[memberof := classStub (g_next g) memberof]> (g_classes g) |}.
Proof.
  intros (Ht & Hc & Htc & Hcc). unfold sound. cbn. split; [|split; [|split]].
  - intros k x Hk. destruct (Ht k x Hk). split; [assumption | lia].
  - apply map_Forall_insert_2; [split; [reflexivity | cbn; lia]|].
    intros k x Hk. destruct (Hc k x Hk). split; [assumption | lia].
  - intros k k' x c Hx Hk' Heq. apply lookup_insert_Some in Hk' as [[<- <-]|[Hne Hk']].
    + destruct (Ht k x Hx). cbn in Heq. lia.
    + eapply Htc; eassumption.
  - intros k k' c c' Hk Hk' Heq.
    apply lookup_insert_Some in Hk as [[<- <-]|[Hne Hk]];
      apply lookup_insert_Some in Hk' as [[<- <-]|[Hne' Hk']]; try reflexivity.
    + destruct (Hc k' c' Hk'). cbn in Heq. lia.
    + destruct (Hc k c Hk). cbn in Heq. lia.
    + eapply Hcc; eassumption.
Qed.

(** A class, set in both maps under its name. *)
Lemma sound_class (g : Registry) (name : string) (newInfo : DocsAll) (n : nat) :
  sound g -> e_name newInfo = name -> g_next g <= oid newInfo -> oid newInfo < n ->
  sound {| g_next := n; g_types := <[name := newInfo]> (g_types g);
           g_vars := g_vars g; g_functions := g_functions g;
           g_classes := <[name := newInfo]> (g_classes g) |}.
Proof.
  intros (Ht & Hc & Htc & Hcc) Hname Hlo Hhi. unfold sound. cbn. split; [|split; [|split]].
  - apply map_Forall_insert_2; [split; assumption|].
    intros k x Hk. destruct (Ht k x Hk). split; [assumption | lia].
  - apply map_Forall_insert_2; [split; assumption|].
    intros k x Hk. destruct (Hc k x Hk). split; [assumption | lia].
  - intros k k' x c Hx Hk' Heq.
    apply lookup_insert_Some in Hx as [[<- <-]|[Hne Hx]];
      apply lookup_insert_Some in Hk' as [[<- <-]|[Hne' Hk']]; try reflexivity.
    + destruct (Hc k' c Hk'). lia.
    + destruct (Ht k x Hx). lia.
    + eapply Htc; eassumption.
  - intros k k' c c' Hk Hk' Heq.
    apply lookup_insert_Some in Hk as [[<- <-]|[Hne Hk]];
      apply lookup_insert_Some in Hk' as [[<- <-]|[Hne' Hk']]; try reflexivity.
    + destruct (Hc k' c' Hk'). lia.
    + destruct (Hc k c Hk). lia.
    + eapply Hcc; eassumption.
Qed.

(** A member pushed on its class: every holder of the class sees it, and
    stays where it stands. *)
Lemma sound_pushMember (g : Registry) (memberof : string) (info : DocsAll) :
  sound g -> sound (pushMember memberof info g).
Proof.
  intros Hg. unfold pushMember.
  destruct (g_classes g !! memberof) as [cls|] eqn:Hcls; [|exact Hg].
  destruct Hg as (Ht & Hc & Htc & Hcc). destruct (Hc _ _ Hcls) as [Hname Hbound].
  set (update := fun entry : DocsAll =>
                   if (oid entry =? oid cls)%nat then pushed cls info else entry).
  assert (Hoid : forall x, oid (update x) = oid x).
  { intros x. unfold update. destruct (oid x =? oid cls)%nat eqn:Heq; [|reflexivity].
    apply Nat.eqb_eq in Heq. now rewrite Heq. }
  unfold sound. cbn. split; [|split; [|split]].
  - intros k y Hy. apply lookup_fmap_Some in Hy as [x [<- Hx]].
    destruct (Ht k x Hx) as [Hx1 Hx2]. rewrite Hoid. split; [|assumption].
    unfold update. destruct (oid x =? oid cls)%nat eqn:Heq; [|assumption].
    apply Nat.eqb_eq in Heq. cbn. rewrite Hname. symmetry. eapply Htc; eassumption.
  - intros k y Hy. apply lookup_fmap_Some in Hy as [x [<- Hx]].
    destruct (Hc k x Hx) as [Hx1 Hx2]. rewrite Hoid. split; [|assumption].
    unfold update. destruct (oid x =? oid cls)%nat eqn:Heq; [|assumption].
    apply Nat.eqb_eq in Heq. cbn. rewrite Hname. symmetry. eapply Hcc; eassumption.
  - intros k k' y z Hy Hz Heq.
    apply lookup_fmap_Some in Hy as [x [<- Hx]]. apply lookup_fmap_Some in Hz as [c [<- Hk']].
    rewrite !Hoid in Heq. eapply Htc; eassumption.
  - intros k k' y z Hy Hz Heq.
    apply lookup_fmap_Some in Hy as [x [<- Hx]]. apply lookup_fmap_Some in Hz as [c [<- Hk']].
    rewrite !Hoid in Heq. eapply Hcc; eassumption.
Qed.

Lemma getInfo_name (n : nat) (item : DocsJsDocItem) (kind : DocsKind) :
  e_name (getInfo n item kind) = i_name item /\ oid (getInfo n item kind) = n.
Proof. unfold getInfo. destruct kind, (i_type item); split; reflexivity. Qed.

Lemma mergeClass_name (n : nat) (classInfo : DocsAll) (jsDocClass : option DocsAll)
    (name : string) :
  e_name classInfo = name ->
  (forall known, jsDocClass = Some known -> e_name known = name) ->
  e_name (mergeClass n classInfo jsDocClass) = name /\
  oid (mergeClass n classInfo jsDocClass) = n.
Proof.
  intros Hinfo Hknown. unfold mergeClass. split; [|reflexivity]. cbn.
  destruct jsDocClass as [known|]; [|assumption]. cbn. now apply Hknown.
Qed.

(** One round of [jsdocItems.forEach] keeps the registries sound. *)
Lemma register_sound (g : Registry) (item : DocsJsDocItem) :
  sound g -> sound (register g item).
Proof.
  intros Hg. unfold register. destruct (skipped item); [exact Hg|]. cbv zeta.
  match goal with
  | |- context [if ?b then ?stub else g] =>
      set (g1 := if b then stub else g);
      assert (Hg1 : sound g1) by (subst g1; destruct b; [now apply sound_stub | exact Hg])
  end.
  clearbody g1. clear Hg g.
  destruct (getInfo_name (g_next g1) item KTypedef) as [Hn1 Ho1].
  destruct (getInfo_name (g_next g1) item KFunction) as [Hn2 Ho2].
  destruct (String.eqb (i_kind item) "typedef").
  { destruct (i_type item) eqn:Htype; [|exact Hg1]. now apply sound_type. }
  destruct (String.eqb (i_kind item) "class").
  { destruct (mergeClass_name (S (g_next g1)) (getInfo (g_next g1) item KClass)
                (g_classes g1 !! i_name item) (i_name item)) as [Hname Hoid].
    - apply getInfo_name.
    - intros known Hknown. destruct Hg1 as (_ & Hc & _). now destruct (Hc _ _ Hknown).
    - apply sound_class; [exact Hg1 | exact Hname | rewrite Hoid; lia | rewrite Hoid; lia]. }
  destruct (String.eqb (i_kind item) "constant").
  { apply (sound_next g1); [exact Hg1 | cbn; lia]. }
  destruct (String.eqb (i_kind item) "member").
  { destruct (truthy (i_memberof item)).
    - apply sound_pushMember. apply (sound_next g1); [exact Hg1 | cbn; lia].
    - apply (sound_next g1); [exact Hg1 | cbn; lia]. }
  destruct (String.eqb (i_kind item) "function").
  { destruct (truthy (i_memberof item)).
    - apply sound_pushMember. apply (sound_next g1); [exact Hg1 | cbn; lia].
    - apply (sound_next g1); [exact Hg1 | cbn; lia]. }
  exact Hg1.
Qed.

(** The registry of types [getDocs] builds holds every type under its
    name. *)
Lemma registry_wellKeyed (items : list DocsJsDocItem) :
  wellKeyed (g_types (fold_left register items emptyRegistry)).
Proof.
  assert (H : forall g, sound g -> sound (fold_left register items g)).
  { induction items as [|item r IH]; intros g Hg; [exact Hg|].
    cbn [fold_left]. apply IH. now apply register_sound. }
  destruct (H emptyRegistry sound_empty) as (Ht & _).
  unfold wellKeyed, map_Forall. intros k t Hk. now destruct (Ht k t Hk).
Qed.

(** *** The Types section of a unit of [getDocs] *)

Section Units.

Variable readFile : string -> string -> option string.
Variable codeToHtml : string -> string -> string.
Variable renderType : RenderType.
Variable g : Registry.
Variable budget : nat.
Variable dir url : string.
Variable single isIndex : bool.

Hypothesis keyed : wellKeyed (g_types g).

Lemma typedefItem_counted (name : string) :
  framedBy (counted (g_types g) dir)
           (typedefItem readFile codeToHtml renderType g budget dir url name).
Proof.
  unfold typedefItem.
  destruct (g_types g !! name) as [info|] eqn:Hlookup; [|apply framedBy_ret, _].
  intros u x u'. rewrite build_bind_unfold, usedHas_unfold.
  destruct (bool_decide (name ∈ usedTypes u)) eqn:Hused.
  { intros [= _ <-]. reflexivity. }
  apply bool_decide_eq_false in Hused.
  rewrite build_bind_unfold. cbn [useType]. rewrite build_bind_unfold.
  destruct (getTypeContent _ _ _ _ _ _ _ _ _ _ _) as [[content u2]| |] eqn:Hrun;
    try discriminate.
  cbn [pushTypes]. intros [= _ <-].
  assert (Hname : e_name info = name) by exact (keyed _ _ Hlookup).
  assert (Hsections : forall n,
             sectionCount n content
             = if isString (e_dir info) dir && String.eqb (e_name info) n then 1 else 0).
  { destruct budget as [|m]; [discriminate|]. cbn [getTypeContent] in Hrun.
    exact (typeContent_sections _ _ _ _ _ _ _ _ _ _ _ Hrun). }
  destruct (getTypeContent_counted readFile codeToHtml renderType (g_types g) dir url
              keyed _ _ _ _ _ _ _ Hrun) as [Hsub Hcount].
  cbn [usedTypes types] in Hsub, Hcount.
  split; cbn [usedTypes types]; [set_solver|].
  intros n. rewrite sectionCount_app, Hcount, Hsections. unfold newlyUsed, ownedHere.
  cbn [usedTypes]. rewrite Hname.
  destruct (String.eqb name n) eqn:Heq.
  - apply String.eqb_eq in Heq. subst n.
    rewrite (bool_decide_eq_true_2 (name ∈ {[name]} ∪ usedTypes u)) by set_solver.
    rewrite (bool_decide_eq_true_2 (name ∈ usedTypes u2)) by set_solver.
    rewrite (bool_decide_eq_false_2 (name ∈ usedTypes u)) by assumption.
    rewrite Hlookup. cbn [negb andb]. rewrite andb_true_r.
    destruct (isString (e_dir info) dir); cbn; lia.
  - apply String.eqb_neq in Heq. rewrite andb_false_r.
    replace (bool_decide (n ∈ {[name]} ∪ usedTypes u))
      with (bool_decide (n ∈ usedTypes u)); [lia|].
    apply bool_decide_ext. set_solver.
Qed.

Lemma itemRound_counted (item : DocsJsDocItem) (e : Entries) :
  framedBy (counted (g_types g) dir)
           (itemRound readFile codeToHtml renderType g budget dir url single isIndex
                      item e).
Proof.
  assert (Hentity : forall registry used kind keep name e0,
             framedBy (counted (g_types g) dir)
                      (entityItem readFile codeToHtml renderType g budget dir url
                                  single registry used kind keep name e0)).
  { intros registry used kind keep name e0. unfold entityItem.
    destruct (registry !! name); [|apply framedBy_ret, _].
    destruct (bool_decide _); [apply framedBy_ret, _|].
    apply framedBy_bind; [apply _ | now apply getTypeContent_counted |].
    intros ?. apply framedBy_ret, _. }
  unfold itemRound. destruct (skipped item); [apply framedBy_ret, _|]. cbv zeta.
  apply framedBy_bind; [apply _ | | intros e1].
  { destruct (String.eqb (i_kind item) "file"); [|apply framedBy_ret, _].
    unfold fileItem. destruct (i_description item); [|apply framedBy_lift, _].
    destruct (labelled "title:" _) as [title desc].
    destruct (i_examples item); [|apply framedBy_ret, _].
    apply framedBy_bind; [apply _ | apply framedBy_lift, _ |].
    intros ?. apply framedBy_ret, _. }
  apply framedBy_bind; [apply _ | | intros _].
  { destruct (String.eqb (i_kind item) "typedef");
      [apply typedefItem_counted | apply framedBy_ret, _]. }
  apply framedBy_bind; [apply _ | | intros e2].
  { destruct (_ || _); [apply Hentity | apply framedBy_ret, _]. }
  apply framedBy_bind; [apply _ | | intros e3].
  { destruct (String.eqb (i_kind item) "function");
      [apply Hentity | apply framedBy_ret, _]. }
  destruct (String.eqb (i_kind item) "class"); [apply Hentity | apply framedBy_ret, _].
Qed.

End Units.

(** In every unit [getDocs] builds, no section stands twice in the Types
    section, and every type whose section stands there is used. *)
Lemma unit_types_consistent
    (readFile : string -> string -> option string)
    (codeToHtml : string -> string -> string) (renderType : RenderType)
    (items : list DocsJsDocItem) (budget : nat) (dir url : string) (single isIndex : bool)
    (dirDocItems : list DocsJsDocItem) (e : Entries) (u : Unit) :
  forEachB (itemRound readFile codeToHtml renderType (fold_left register items emptyRegistry)
                      budget dir url single isIndex)
           dirDocItems noEntries emptyUnit = Done (e, u) ->
  consistent u.
Proof.
  intros Hrun. apply (counted_consistent
                        (g_types (fold_left register items emptyRegistry)) dir emptyUnit).
  - intros name. cbn. split; [lia|]. intros H. lia.
  - revert Hrun. apply framedBy_forEachB; [apply _|]. intros item s _.
    apply itemRound_counted, registry_wellKeyed.
Qed.

(** ** Further properties: text helpers *)

Lemma entity_no_markup (c : ascii) : avoids markup (entity c) = true.
Proof. destruct c as [[] [] [] [] [] [] [] []]; vm_compute; reflexivity. Qed.

Lemma escape_step (c : ascii) (r : string) : escape (String c r) = entity c +:+ escape r.
Proof. reflexivity. Qed.

(** [escape] leaves none of ['<'], ['>'], the double quote, the single
    quote and ['*'] in its result. *)
Theorem escape_leaves_no_markup (value : string) :
  avoids markup (escape value) = true.
Proof.
  unfold avoids. induction value as [|c r IH]; [reflexivity|].
  rewrite escape_step, allString_app, IH, andb_true_r. apply entity_no_markup.
Qed.

Lemma entity_plain (c : ascii) :
  existsb (Ascii.eqb c) escaped = false -> entity c = String c EmptyString.
Proof. destruct c as [[] [] [] [] [] [] [] []]; vm_compute; congruence. Qed.

Lemma escape_app (a b : string) : escape (a +:+ b) = escape a +:+ escape b.
Proof.
  induction a as [|c a IH]; [reflexivity|].
  rewrite append_cons, !escape_step, IH. now rewrite append_assoc.
Qed.

Lemma escape_plain (s : string) : avoids escaped s = true -> escape s = s.
Proof.
  unfold avoids. induction s as [|c s IH]; [reflexivity|].
  cbn [allString]. intros [Hc Hs]%andb_prop. apply negb_true_iff in Hc.
  rewrite escape_step, (entity_plain c Hc), IH by exact Hs. reflexivity.
Qed.

(** [escape] works character by character: the escape of a concatenation
    is the concatenation of the escapes, and a text that holds none of the
    six characters comes back as it is. *)
Theorem escape_concatenation_and_plain_text :
  (forall a b, escape (a +:+ b) = escape a +:+ escape b) /\
  (forall s, avoids escaped s = true -> escape s = s).
Proof. split; [exact escape_app | exact escape_plain]. Qed.

(** *** [getId] *)

Lemma toLowerCase_step (c : ascii) (r : string) :
  toLowerCase (String c r) = String (toLowerChar c) (toLowerCase r).
Proof. reflexivity. Qed.

Lemma slugChar_kept (c : ascii) :
  keptInId c = true -> isSpace c = false -> isSlugChar (toLowerChar c) = true.
Proof. destruct c as [[] [] [] [] [] [] [] []]; vm_compute; congruence. Qed.

Lemma hyphenateFrom_slug (inRun : bool) (s : string) :
  allString keptInId s = true ->
  allString isSlugChar (toLowerCase (hyphenateFrom inRun s)) = true.
Proof.
  revert inRun. induction s as [|c s IH]; intros inRun; [reflexivity|].
  cbn [allString hyphenateFrom]. intros [Hc Hs]%andb_prop.
  destruct (isSpace c) eqn:Hspace.
  - destruct inRun; [now apply IH|].
    rewrite toLowerCase_step. cbn [allString]. rewrite IH by exact Hs. reflexivity.
  - rewrite toLowerCase_step. cbn [allString].
    rewrite (slugChar_kept c Hc Hspace), IH by exact Hs. reflexivity.
Qed.

Lemma filterString_all (p : ascii -> bool) (s : string) :
  allString p (filterString p s) = true.
Proof.
  induction s as [|c s IH]; [reflexivity|]. cbn [filterString].
  destruct (p c) eqn:Hc; [|exact IH]. cbn [allString]. now rewrite Hc, IH.
Qed.

(** Whatever the name, its id is made of lowercase letters, digits and
    hyphens only. *)
Theorem getId_slug_alphabet (name : string) :
  allString isSlugChar (getId name) = true.
Proof. unfold getId, hyphenate. apply hyphenateFrom_slug, filterString_all. Qed.

(** *** [normalizeTypes] *)

Lemma startsWith_avoids (chars : list ascii) (s p : string) :
  startsWith s p = true -> avoids chars s = true -> avoids chars p = true.
Proof.
  unfold avoids. revert s. induction p as [|b p IH]; intros s; [reflexivity|].
  destruct s as [|a s]; [discriminate|]. cbn [startsWith allString].
  intros [Hab Hs]%andb_prop [Ha Has]%andb_prop. apply Ascii.eqb_eq in Hab. subst b.
  rewrite Ha. now apply (IH s).
Qed.

Lemma replaceArray_no_generic (s : string) :
  avoids ["<"%char] s = true -> replaceArray s = s.
Proof.
  induction s as [|c s IH]; [reflexivity|]. intros H. rewrite replaceArray_step.
  destruct (startsWith (String c s) "Array.<") eqn:Hstart.
  - now apply (startsWith_avoids ["<"%char] _ _ Hstart) in H.
  - unfold avoids in *. cbn [allString] in H. apply andb_prop in H as [_ H].
    now rewrite IH.
Qed.

Lemma replaceDotLt_no_generic (s : string) :
  avoids ["<"%char] s = true -> replaceDotLt s = s.
Proof.
  unfold avoids. induction s as [|c s IH]; [reflexivity|].
  cbn [allString]. intros [Hc Hs]%andb_prop. destruct s as [|d s']; [reflexivity|].
  rewrite replaceDotLt_step.
  assert (Hd : Ascii.eqb d "<" = false).
  { cbn [allString existsb] in Hs. apply andb_prop in Hs as [Hd _].
    apply negb_true_iff in Hd. now apply orb_false_iff in Hd as [Hd _]. }
  rewrite Hd, andb_false_r. f_equal. now apply IH.
Qed.

(** Type names that hold no ['<'], the names reference matching works
    with, come out of [normalizeTypes] as they went in. *)
Theorem normalizeTypes_keeps_names_without_generics (types : list string) :
  Forall (fun name => avoids ["<"%char] name = true) types ->
  normalizeTypes types = types.
Proof.
  unfold normalizeTypes, normalizeType. induction 1 as [|name r Hname _ IH]; [reflexivity|].
  cbn [map]. rewrite IH, (replaceArray_no_generic name Hname).
  now rewrite (replaceDotLt_no_generic name Hname).
Qed.

Lemma normalizeTypes_keeps_names_without_generics_witness :
  normalizeTypes ["string"; "DocsArgs"; "Object.prototype"; "string[]"]
  = ["string"; "DocsArgs"; "Object.prototype"; "string[]"].
Proof.
  apply (normalizeTypes_keeps_names_without_generics
           ["string"; "DocsArgs"; "Object.prototype"; "string[]"]).
  repeat constructor.
Defined.

(** *** [titleCase] *)

Lemma spaceWords_step (a b : ascii) (r : string) :
  spaceWords (String a (String b r))
  = if isLower a && isUpper b
    then String a (String " " (spaceWords (String b r)))
    else String a (spaceWords (String b r)).
Proof. reflexivity. Qed.

Lemma spaceWords_head (b : ascii) (r : string) :
  exists r', spaceWords (String b r) = String b r'.
Proof.
  destruct r as [|c r]; [now exists EmptyString|]. rewrite spaceWords_step.
  destruct (isLower b && isUpper c); eexists; reflexivity.
Qed.

Lemma noCamel_step (a b : ascii) (r : string) :
  noCamel (String a (String b r)) = negb (isLower a && isUpper b) && noCamel (String b r).
Proof. reflexivity. Qed.

Lemma spaceWords_noCamel (s : string) : noCamel (spaceWords s) = true.
Proof.
  induction s as [|a s IH]; [reflexivity|]. destruct s as [|b r]; [reflexivity|].
  rewrite spaceWords_step. destruct (spaceWords_head b r) as [r' Hr']. rewrite Hr' in *.
  destruct (isLower a && isUpper b) eqn:Hab.
  - rewrite noCamel_step.
    replace (isUpper " ") with false by reflexivity. rewrite andb_false_r. cbn [negb andb].
    rewrite noCamel_step. replace (isLower " ") with false by reflexivity. exact IH.
  - rewrite noCamel_step, Hab. exact IH.
Qed.

Lemma spaceWords_fixed (s : string) : noCamel s = true -> spaceWords s = s.
Proof.
  induction s as [|a s IH]; [reflexivity|]. destruct s as [|b r]; [reflexivity|].
  rewrite noCamel_step, spaceWords_step. intros [Hab Hr]%andb_prop.
  apply negb_true_iff in Hab. rewrite Hab. f_equal. now apply IH.
Qed.

Lemma noCamel_upper (s r : string) :
  allString (fun x => negb (isLower x)) s = true ->
  noCamel r = true ->
  noCamel (s +:+ r) = true.
Proof.
  intros Hs Hr. induction s as [|a s IH]; [exact Hr|].
  cbn [allString] in Hs. apply andb_prop in Hs as [Ha Hs]. apply negb_true_iff in Ha.
  specialize (IH Hs). rewrite append_cons.
  destruct (s +:+ r) as [|b t] eqn:Hrest; [reflexivity|].
  rewrite noCamel_step, Ha. exact IH.
Qed.

Lemma noCamel_tail (c : ascii) (r : string) : noCamel (String c r) = true -> noCamel r = true.
Proof.
  destruct r as [|b r']; [reflexivity|]. rewrite noCamel_step.
  now intros [_ H]%andb_prop.
Qed.

Lemma asciiUpper_uppercases : uppercases asciiUpper.
Proof.
  intros c. exists (asciiUpperChar c), EmptyString.
  split; [reflexivity|].
  destruct c as [[] [] [] [] [] [] [] []]; vm_compute; split; reflexivity.
Qed.

(** [titleCase] is idempotent, a title it made is left as it is, for an
    uppercasing that gives a text without lowercase letters [a] to [z] and
    leaves the first character of what it gives as it is. *)
Theorem titleCase_idempotent (toUpperCase : string -> string) (value : string) :
  uppercases toUpperCase ->
  titleCase toUpperCase (titleCase toUpperCase value) = titleCase toUpperCase value.
Proof.
  intros Hupper. unfold titleCase. pose proof (spaceWords_noCamel value) as Hcamel.
  destruct (spaceWords value) as [|c r]; [reflexivity|].
  destruct (isLineTerminator c) eqn:Hc.
  - cbv beta iota. rewrite (spaceWords_fixed _ Hcamel). cbv beta iota. now rewrite Hc.
  - destruct (Hupper c) as (d & rest & Hup & Hlow & Hfix). cbv beta iota. rewrite Hup.
    assert (Hcap : noCamel (String d rest +:+ r) = true).
    { apply noCamel_upper; [exact Hlow | exact (noCamel_tail c r Hcamel)]. }
    rewrite (spaceWords_fixed _ Hcap). rewrite append_cons. cbv beta iota.
    destruct (isLineTerminator d); [reflexivity|]. now rewrite Hfix.
Qed.

(** The title of the directory [docsArgs]. *)
Lemma titleCase_idempotent_witness :
  uppercases asciiUpper /\
  titleCase asciiUpper (titleCase asciiUpper "docsArgs") = titleCase asciiUpper "docsArgs".
Proof.
  split; [exact asciiUpper_uppercases|].
  exact (titleCase_idempotent asciiUpper "docsArgs" asciiUpper_uppercases).
Defined.

(** ** Further properties: [markdownToHtml] *)

Lemma avoids_incl (chars chars' : list ascii) (s : string) :
  incl chars' chars -> avoids chars s = true -> avoids chars' s = true.
Proof.
  intros Hincl. unfold avoids. apply allString_impl. intros c Hc.
  apply negb_true_iff in Hc. apply negb_true_iff.
  destruct (existsb (Ascii.eqb c) chars') eqn:H; [|reflexivity].
  apply existsb_exists in H as [x [Hx Hcx]].
  assert (existsb (Ascii.eqb c) chars = true); [|congruence].
  apply existsb_exists. exists x. split; [now apply Hincl | exact Hcx].
Qed.

Lemma avoids_app (chars : list ascii) (a b : string) :
  avoids chars (a +:+ b) = avoids chars a && avoids chars b.
Proof. apply allString_app. Qed.

Lemma avoids_cons (chars : list ascii) (c : ascii) (s : string) :
  avoids chars (String c s) = true ->
  existsb (Ascii.eqb c) chars = false /\ avoids chars s = true.
Proof.
  unfold avoids. cbn [allString]. intros [Hc Hs]%andb_prop.
  now apply negb_true_iff in Hc.
Qed.

Lemma avoids_one (x c : ascii) (s : string) :
  avoids [x] (String c s) = true -> Ascii.eqb c x = false /\ avoids [x] s = true.
Proof.
  intros [Hc Hs]%avoids_cons. cbn [existsb] in Hc. now apply orb_false_iff in Hc as [Hc _].
Qed.

Lemma replaceAll_step (pat : string -> option (string * string)) (c : ascii) (r : string) :
  replaceAll pat 0 (String c r)
  = match pat (String c r) with
    | Some (repl, rest) =>
        repl +:+ replaceAll pat (String.length (String c r) - String.length rest - 1) r
    | None => String c (replaceAll pat 0 r)
    end.
Proof. reflexivity. Qed.

(** A pattern that needs a character of [chars] to start matches nowhere
    in a text that holds none, and the replacement changes nothing. *)
Lemma replaceAll_none (chars : list ascii) (pat : string -> option (string * string))
    (s : string) :
  (forall c r, existsb (Ascii.eqb c) chars = false -> pat (String c r) = None) ->
  avoids chars s = true -> replaceAll pat 0 s = s.
Proof.
  intros Hpat. induction s as [|c s IH]; [reflexivity|].
  intros [Hc Hs]%avoids_cons. rewrite replaceAll_step, (Hpat c s Hc). f_equal. now apply IH.
Qed.

Lemma replaceAll_skip (pat : string -> option (string * string)) (r : string) (k : nat) :
  String.length r <= k -> replaceAll pat k r = "".
Proof.
  revert k. induction r as [|c r IH]; intros k Hk; [reflexivity|].
  cbn [String.length] in Hk. destruct k as [|k]; [lia|]. cbn [replaceAll]. apply IH. lia.
Qed.

(** A match that takes the whole text leaves its replacement. *)
Lemma replaceAll_whole (pat : string -> option (string * string)) (c : ascii)
    (r repl : string) :
  pat (String c r) = Some (repl, "") -> replaceAll pat 0 (String c r) = repl.
Proof.
  intros H. rewrite replaceAll_step, H, replaceAll_skip, append_nil_r; [reflexivity|].
  cbn [String.length]. lia.
Qed.

Lemma boldPat_other (c : ascii) (r : string) :
  existsb (Ascii.eqb c) ["*"%char] = false -> boldPat (String c r) = None.
Proof.
  cbn [existsb]. intros [Hc _]%orb_false_iff. unfold boldPat, delimited.
  cbn [startsWith]. now rewrite Hc.
Qed.

Lemma italicPat_other (c : ascii) (r : string) :
  existsb (Ascii.eqb c) ["*"%char] = false -> italicPat (String c r) = None.
Proof.
  cbn [existsb]. intros [Hc _]%orb_false_iff. unfold italicPat, delimited.
  cbn [startsWith]. now rewrite Hc.
Qed.

Lemma codePat_other (c : ascii) (r : string) :
  existsb (Ascii.eqb c) ["`"%char] = false -> codePat (String c r) = None.
Proof. destruct c as [[] [] [] [] [] [] [] []]; cbn; intros H; congruence. Qed.

Lemma linkPat_other (c : ascii) (r : string) :
  existsb (Ascii.eqb c) ["["%char] = false -> linkPat (String c r) = None.
Proof. destruct c as [[] [] [] [] [] [] [] []]; cbn; intros H; congruence. Qed.

Lemma markdownToHtml_unfold (value : string) :
  markdownToHtml value
  = replaceAll linkPat 0 (replaceAll codePat 0 (replaceAll italicPat 0
                                                   (replaceAll boldPat 0 value))).
Proof. reflexivity. Qed.

(** A text that holds no ['*'], no backtick and no ['['] is left as it is:
    nothing in it is read as markup. *)
Theorem markdownToHtml_keeps_plain_text (value : string) :
  avoids markdownOpeners value = true -> markdownToHtml value = value.
Proof.
  intros H. rewrite markdownToHtml_unfold.
  assert (Hstar : avoids ["*"%char] value = true)
    by (apply (avoids_incl markdownOpeners); [intros x [<-|[]]; cbn; tauto | exact H]).
  assert (Htick : avoids ["`"%char] value = true)
    by (apply (avoids_incl markdownOpeners); [intros x [<-|[]]; cbn; tauto | exact H]).
  assert (Hopen : avoids ["["%char] value = true)
    by (apply (avoids_incl markdownOpeners); [intros x [<-|[]]; cbn; tauto | exact H]).
  rewrite (replaceAll_none ["*"%char] boldPat value boldPat_other Hstar).
  rewrite (replaceAll_none ["*"%char] italicPat value italicPat_other Hstar).
  rewrite (replaceAll_none ["`"%char] codePat value codePat_other Htick).
  now rewrite (replaceAll_none ["["%char] linkPat value linkPat_other Hopen).
Qed.

Lemma markdownToHtml_keeps_plain_text_witness :
  markdownToHtml "Rich text objects (nodes) from source code." =
  "Rich text objects (nodes) from source code.".
Proof.
  apply (markdownToHtml_keeps_plain_text "Rich text objects (nodes) from source code.").
  reflexivity.
Defined.

(** *** Inline markup *)

Lemma startsWith_app (p rest : string) : startsWith (p +:+ rest) p = true.
Proof.
  induction p as [|c p IH]; [reflexivity|]. rewrite append_cons. cbn [startsWith].
  now rewrite Ascii.eqb_refl, IH.
Qed.

Lemma dropString_app (p rest : string) : dropString (String.length p) (p +:+ rest) = rest.
Proof. induction p as [|c p IH]; [reflexivity|]. rewrite append_cons. exact IH. Qed.

Lemma lazyUntil_unfold (close s : string) :
  lazyUntil close s
  = if startsWith s close then Some (EmptyString, dropString (String.length close) s)
    else
      match s with
      | EmptyString => None
      | String c r =>
          if isLineTerminator c then None
          else
            match lazyUntil close r with
            | Some (g, rest) => Some (String c g, rest)
            | None => None
            end
      end.
Proof. destruct s; reflexivity. Qed.

(** The lazy group stops at the first closing delimiter. *)
Lemma lazyUntil_closing (x : ascii) (cl rest t : string) :
  avoids [x] t = true ->
  allString (fun c => negb (isLineTerminator c)) t = true ->
  lazyUntil (String x cl) (t +:+ String x cl +:+ rest) = Some (t, rest).
Proof.
  induction t as [|c t IH]; intros Hx Hline.
  - rewrite append_nil_l, lazyUntil_unfold, startsWith_app.
    now rewrite (dropString_app (String x cl) rest).
  - apply avoids_one in Hx as [Hc Hx]. cbn [allString] in Hline.
    apply andb_prop in Hline as [Hl Hline]. apply negb_true_iff in Hl.
    rewrite append_cons, lazyUntil_unfold. cbn [startsWith]. rewrite Hc. cbn [andb].
    now rewrite Hl, IH.
Qed.

(** [([^x]+)x] takes the text up to the first [x]. *)
Lemma untilChar_closing (x : ascii) (rest t : string) :
  t <> "" -> avoids [x] t = true ->
  untilChar x (t +:+ String x rest) = Some (t, rest).
Proof.
  induction t as [|c t IH]; intros Hne Hx; [congruence|].
  apply avoids_one in Hx as [Hc Hx]. rewrite append_cons.
  destruct t as [|d t'].
  - rewrite append_nil_l. cbn [untilChar]. now rewrite Hc, Ascii.eqb_refl.
  - specialize (IH ltac:(discriminate) Hx). destruct (avoids_one _ _ _ Hx) as [Hd _].
    rewrite append_cons in *. cbn [untilChar] in *. rewrite Hc, Hd. cbn [untilChar] in IH.
    rewrite Hd in IH. now rewrite IH.
Qed.

Lemma inlineText_facts (t : string) :
  inlineText t = true ->
  t <> "" /\ avoids markdownChars t = true /\
  allString (fun c => negb (isLineTerminator c)) t = true /\
  forall x, In x markdownChars -> avoids [x] t = true.
Proof.
  unfold inlineText. intros [[Hne Hav]%andb_prop Hline]%andb_prop.
  apply negb_true_iff, String.eqb_neq in Hne. repeat split; try assumption.
  intros x Hx. apply (avoids_incl markdownChars); [|exact Hav].
  intros y [<-|[]]. exact Hx.
Qed.

Local Ltac literal := try reflexivity; cbn; tauto.

(** The bold pass alone leaves a text between single stars as it is. *)
Lemma replaceAll_bold_single (t : string) :
  t <> "" -> avoids ["*"%char] t = true ->
  replaceAll boldPat 0 ("*" +:+ t +:+ "*") = "*" +:+ t +:+ "*".
Proof.
  intros Hne Hstar.
  assert (Htail : replaceAll boldPat 0 (t +:+ "*") = t +:+ "*").
  { clear Hne. induction t as [|c t IH]; [reflexivity|].
    apply avoids_cons in Hstar as [Hc Hs].
    rewrite append_cons, replaceAll_step, (boldPat_other c _ Hc). f_equal. now apply IH. }
  destruct t as [|c t]; [congruence|]. apply avoids_one in Hstar as [Hc _].
  rewrite (append_cons "*"%char). rewrite append_nil_l, replaceAll_step.
  replace (boldPat (String "*" (String c t +:+ "*"))) with (@None (string * string)).
  - now rewrite Htail.
  - unfold boldPat, delimited. rewrite append_cons. cbn [startsWith].
    rewrite Hc. now rewrite andb_false_r.
Qed.

(** Inline markup around a text is turned into the element that holds the
    text: bold, italic, inline code and a link. *)
Theorem markdownToHtml_inline_markup (t url : string) :
  inlineText t = true -> inlineText url = true ->
  markdownToHtml ("**" +:+ t +:+ "**") = "<strong>" +:+ t +:+ "</strong>" /\
  markdownToHtml ("*" +:+ t +:+ "*") = "<em>" +:+ t +:+ "</em>" /\
  markdownToHtml ("`" +:+ t +:+ "`") = "<code>" +:+ t +:+ "</code>" /\
  markdownToHtml ("[" +:+ t +:+ "](" +:+ url +:+ ")")
  = "<a href=" +:+ quote +:+ url +:+ quote +:+ ">" +:+ t +:+ "</a>".
Proof.
  intros Ht Hurl.
  destruct (inlineText_facts t Ht) as (Hne & _ & Hline & Hav).
  destruct (inlineText_facts url Hurl) as (Hune & _ & _ & Huav).
  assert (Hstar := Hav "*"%char ltac:(literal)).
  assert (Htick := Hav "`"%char ltac:(literal)).
  assert (Hopen := Hav "["%char ltac:(literal)).
  assert (Hclose := Hav "]"%char ltac:(literal)).
  assert (Hustar := Huav "*"%char ltac:(literal)).
  assert (Hutick := Huav "`"%char ltac:(literal)).
  assert (Huopen := Huav "["%char ltac:(literal)).
  assert (Hupar := Huav ")"%char ltac:(literal)).
  assert (Hkeep : forall pat x s,
             (forall c r, existsb (Ascii.eqb c) [x] = false -> pat (String c r) = None) ->
             avoids [x] s = true -> replaceAll pat 0 s = s)
    by (intros pat x s; apply replaceAll_none).
  rewrite !markdownToHtml_unfold. repeat split.
  - change ("**" +:+ t +:+ "**") with (String "*" (String "*" (t +:+ "**"))).
    rewrite (replaceAll_whole boldPat _ _ ("<strong>" +:+ t +:+ "</strong>")).
    + rewrite (Hkeep italicPat "*"%char), (Hkeep codePat "`"%char), (Hkeep linkPat "["%char);
        auto using italicPat_other, codePat_other, linkPat_other;
        rewrite !avoids_app; rewrite ?Hstar, ?Htick, ?Hopen; reflexivity.
    + unfold boldPat, delimited.
      change (startsWith (String "*" (String "*" (t +:+ "**"))) "**") with true.
      change (dropString (String.length "**") (String "*" (String "*" (t +:+ "**"))))
        with (t +:+ "**").
      rewrite <- (append_nil_r (t +:+ "**")), append_assoc.
      now rewrite (lazyUntil_closing "*"%char "*" "" t Hstar Hline).
  - rewrite (replaceAll_bold_single t Hne Hstar).
    change ("*" +:+ t +:+ "*") with (String "*" (t +:+ "*")).
    rewrite (replaceAll_whole italicPat _ _ ("<em>" +:+ t +:+ "</em>")).
    + rewrite (Hkeep codePat "`"%char), (Hkeep linkPat "["%char);
        auto using codePat_other, linkPat_other;
        rewrite !avoids_app; rewrite ?Htick, ?Hopen; reflexivity.
    + unfold italicPat, delimited.
      change (startsWith (String "*" (t +:+ "*")) "*") with true.
      change (dropString (String.length "*") (String "*" (t +:+ "*"))) with (t +:+ "*").
      rewrite <- (append_nil_r (t +:+ "*")), append_assoc.
      now rewrite (lazyUntil_closing "*"%char "" "" t Hstar Hline).
  - rewrite (Hkeep boldPat "*"%char), (Hkeep italicPat "*"%char);
      auto using boldPat_other, italicPat_other;
      try (rewrite !avoids_app; rewrite ?Hstar; reflexivity).
    change ("`" +:+ t +:+ "`") with (String "`" (t +:+ "`")).
    rewrite (replaceAll_whole codePat _ _ ("<code>" +:+ t +:+ "</code>")).
    + rewrite (Hkeep linkPat "["%char); auto using linkPat_other.
      rewrite !avoids_app. rewrite ?Hopen. reflexivity.
    + cbn [codePat]. now rewrite (untilChar_closing "`"%char "" t Hne Htick).
  - rewrite (Hkeep boldPat "*"%char), (Hkeep italicPat "*"%char), (Hkeep codePat "`"%char);
      auto using boldPat_other, italicPat_other, codePat_other;
      try (rewrite !avoids_app; rewrite ?Hstar, ?Hustar, ?Htick, ?Hutick; reflexivity).
    change ("[" +:+ t +:+ "](" +:+ url +:+ ")")
      with (String "[" (t +:+ String "]" (String "(" (url +:+ ")")))).
    apply replaceAll_whole. cbn [linkPat].
    rewrite (untilChar_closing "]"%char _ t Hne Hclose).
    now rewrite (untilChar_closing ")"%char "" url Hune Hupar).
Qed.

Lemma markdownToHtml_inline_markup_witness :
  markdownToHtml ("**" +:+ "required" +:+ "**") = "<strong>" +:+ "required" +:+ "</strong>" /\
  markdownToHtml ("*" +:+ "required" +:+ "*") = "<em>" +:+ "required" +:+ "</em>" /\
  markdownToHtml ("`" +:+ "required" +:+ "`") = "<code>" +:+ "required" +:+ "</code>" /\
  markdownToHtml ("[" +:+ "required" +:+ "](" +:+ "https://shiki.style/" +:+ ")")
  = "<a href=" +:+ quote +:+ "https://shiki.style/" +:+ quote +:+ ">" +:+ "required"
      +:+ "</a>".
Proof.
  apply (markdownToHtml_inline_markup "required" "https://shiki.style/"); reflexivity.
Defined.

(** ** Further properties: the HTML walker *)

Section Prepend.

Context {Hook : Type}.
Variable filterAttr : Attr -> DocsContent -> string -> Hook -> Attr * Hook.

Implicit Types st : HtmlState Hook.

Lemma emit_prepend (pre s : string) st :
  emit s (prepend pre st) = prepend pre (emit s st).
Proof. unfold emit, prepend. cbn. now rewrite append_assoc. Qed.

(** The walk never reads what was written: with a text before the
    output it does the same, after that text. *)
Lemma getHtmlStr_prepend
    (permalink : DocsContent -> string -> HtmlState Hook -> HtmlState Hook)
    (content : string) (tag link : option string) (outerTag pre : string) st :
  (forall d o s, permalink d o (prepend pre s) = prepend pre (permalink d o s)) ->
  getHtmlStr filterAttr permalink content tag link outerTag (prepend pre st)
  = prepend pre (getHtmlStr filterAttr permalink content tag link outerTag st).
Proof.
  intros Hp. unfold getHtmlStr. destruct (String.eqb content ""); [reflexivity|].
  destruct tag as [t|];
    [unfold isHeadingTag; destruct (headingInfo t) as [[|[|level]]|]|];
    cbv zeta; cbn [hook ids title headings output prepend registerHeading];
    match goal with |- context [filterAttr ?a ?d ?o ?h] =>
      destruct (filterAttr a d o h) as [attr h'] end;
    match goal with |- context [tagsOf ?a ?b ?c] =>
      destruct (tagsOf a b c) as [opening closing] end;
    match goal with
    | |- emit _ (permalink _ _ (emit _ (emit _ ?L)))
         = prepend _ (emit _ (permalink _ _ (emit _ (emit _ ?R)))) =>
        change L with (prepend pre R); rewrite !emit_prepend, Hp, emit_prepend
    | |- emit _ (emit _ (emit _ ?L)) = prepend _ (emit _ (emit _ (emit _ ?R))) =>
        change L with (prepend pre R); rewrite !emit_prepend
    end; reflexivity.
Qed.

Lemma getHtml_prepend (data : DocsContent) (outerTag pre : string) st :
  getHtml filterAttr data outerTag (prepend pre st)
  = prepend pre (getHtml filterAttr data outerTag st).
Proof.
  revert outerTag st.
  induction data as [content tag link | content tag link IH] using DocsContent_induction;
    intros outerTag st; cbn [getHtml].
  - apply getHtmlStr_prepend. intros [c t l | c t l] o s; cbn [getHtmlPermalink];
      [|reflexivity].
    apply getHtmlStr_prepend. reflexivity.
  - destruct content as [|x r]; [reflexivity|]. cbv zeta.
    change (hook (prepend pre st)) with (hook st).
    match goal with |- context [filterAttr ?a ?d ?o ?h] =>
      destruct (filterAttr a d o h) as [attr h'] end.
    destruct (tagsOf tag link attr) as [opening closing].
    rewrite <- emit_prepend. f_equal.
    match goal with
    | |- fold_left ?f ?l (emit opening ?s) = prepend pre (fold_left ?f ?l (emit opening ?s'))
      => change s with (prepend pre s'); rewrite emit_prepend;
         generalize (emit opening s')
    end.
    induction IH as [|y l Hy Hl IHl]; intros s; cbn [fold_left]; [reflexivity|].
    now rewrite Hy, IHl.
Qed.

End Prepend.

Lemma prepend_unwritten {Hook : Type} (st : HtmlState Hook) :
  prepend (output st) (unwritten st) = st.
Proof. destruct st. unfold prepend, unwritten. cbn. now rewrite append_nil_r. Qed.

(** [getHtml] only appends to the output, and what it appends, and what it
    does to the title, the index, the taken ids and the state of the
    filter, does not depend on what was written before. *)
Theorem getHtml_appends_to_output {Hook : Type}
    (filterAttr : Attr -> DocsContent -> string -> Hook -> Attr * Hook)
    (data : DocsContent) (outerTag : string) (st : HtmlState Hook) :
  getHtml filterAttr data outerTag st
  = prepend (output st) (getHtml filterAttr data outerTag (unwritten st)).
Proof. now rewrite <- getHtml_prepend, prepend_unwritten. Qed.

(** A heading below [h1] takes an id that was free: the slug of its text,
    or the slug with the first suffix [-1], [-2], ... that is free. *)
Theorem heading_takes_first_free_id {Hook : Type}
    (filterAttr : Attr -> DocsContent -> string -> Hook -> Attr * Hook)
    (content tag : string) (link : option string) (outerTag : string) (level : nat)
    (st : HtmlState Hook) :
  headingInfo tag = Some level -> 2 <= level -> content <> "" ->
  exists id,
    ids (getHtml filterAttr (StrNode content (Some tag) link) outerTag st) = {[ id ]} ∪ ids st /\
    (id ∉ ids st) /\
    (getId content ∉ ids st -> id = getId content) /\
    (getId content ∈ ids st ->
     exists k, 1 <= k /\ id = suffixed (getId content) k /\
               forall j, (1 <= j < k) -> suffixed (getId content) j ∈ ids st).
Proof.
  intros Hinfo Hlevel Hne. exists (uniqueId (ids st) content).
  pose proof (getHtml_heading filterAttr content tag link outerTag level st Hinfo Hne) as H.
  cbv zeta in H. destruct level as [|[|level]]; [lia | lia |]. cbn [Nat.eqb] in H.
  destruct H as (Hids & _ & _).
  destruct (uniqueId_spec (ids st) content) as [Hfree Htaken].
  repeat split; [exact Hids | apply uniqueId_fresh | exact Hfree |].
  intros Hin. destruct (Htaken Hin) as (k & Hk & Heq & _ & Hbefore). eauto.
Qed.

(** The second heading ["Parameters"] of a page. *)
Lemma heading_takes_first_free_id_witness :
  exists id,
    ids (getHtml defaultFilterAttr (StrNode "Parameters" (Some "h4") None) ""
                 (getHtml defaultFilterAttr (StrNode "Parameters" (Some "h3") None) ""
                          (initialHtml tt)))
    = {[ id ]} ∪ ids (getHtml defaultFilterAttr (StrNode "Parameters" (Some "h3") None) ""
                              (initialHtml tt)) /\
    (id ∉ ids (getHtml defaultFilterAttr (StrNode "Parameters" (Some "h3") None) ""
                       (initialHtml tt))) /\
    (getId "Parameters" ∉ ids (getHtml defaultFilterAttr
                                       (StrNode "Parameters" (Some "h3") None) ""
                                       (initialHtml tt)) ->
     id = getId "Parameters") /\
    (getId "Parameters" ∈ ids (getHtml defaultFilterAttr
                                       (StrNode "Parameters" (Some "h3") None) ""
                                       (initialHtml tt)) ->
     exists k, 1 <= k /\ id = suffixed (getId "Parameters") k /\
               forall j, (1 <= j < k) ->
                         suffixed (getId "Parameters") j
                         ∈ ids (getHtml defaultFilterAttr
                                        (StrNode "Parameters" (Some "h3") None) ""
                                        (initialHtml tt))).
Proof.
  apply (heading_takes_first_free_id defaultFilterAttr "Parameters" "h4" None "" 4);
    [reflexivity | lia | discriminate].
Defined.

(** *** The index follows the document *)

Lemma mapLast_order (f : DocsHeading -> DocsHeading) (added : list string)
    (l : list DocsHeading) :
  Forall (fun parent => indexIds (f parent) = indexIds parent ++ added) l ->
  l <> [] ->
  allIndexIds (mapLast f l) = allIndexIds l ++ added.
Proof.
  intros Hall Hne. induction l as [|y r IH]; [congruence|].
  apply Forall_cons in Hall as [Hy Hr]. destruct r as [|z r'].
  - unfold allIndexIds. cbn [mapLast map concat]. now rewrite !app_nil_r.
  - rewrite mapLast_cons2. unfold allIndexIds in *. cbn [map concat] in *.
    rewrite IH by (auto; discriminate). now rewrite app_assoc.
Qed.

(** Wherever the walk down the index stops, the new entry comes last in
    the order that lists parents before children. *)
Lemma attachHeading_order (targetLevel : nat) (hd parent : DocsHeading) :
  indexIds (attachHeading targetLevel hd parent) = indexIds parent ++ indexIds hd.
Proof.
  induction parent as [i t ti | i t ti l IH] using DocsHeading_induction;
    rewrite attachHeading_unfold; cbv zeta.
  - destruct (headingInfo t); cbn [default app]; rewrite indexIds_some;
      unfold allIndexIds; cbn [map concat]; rewrite app_nil_r; reflexivity.
  - assert (Hpush : indexIds (Heading i t ti (Some (l ++ [hd])))
                    = indexIds (Heading i t ti (Some l)) ++ indexIds hd).
    { rewrite !indexIds_some, allIndexIds_app. unfold allIndexIds at 2.
      cbn [map concat]. now rewrite app_nil_r. }
    cbn [default]. destruct (headingInfo t) as [parentLevel|]; [|exact Hpush].
    destruct l as [|c cs]; [exact Hpush|].
    destruct (parentLevel <? targetLevel)%nat; [|exact Hpush].
    rewrite !indexIds_some. unfold attachToLast.
    now rewrite (mapLast_order _ (indexIds hd) (c :: cs) IH).
Qed.

Lemma attachToLast_order (targetLevel : nat) (hd : DocsHeading)
    (headings : list DocsHeading) :
  headings <> [] ->
  allIndexIds (attachToLast targetLevel hd headings) = allIndexIds headings ++ indexIds hd.
Proof.
  intros Hne. apply mapLast_order; [|exact Hne]. apply Forall_forall. intros parent _.
  apply attachHeading_order.
Qed.

Lemma fromFirstH2_snoc (seen : list (string * string)) (tag id : string) :
  fromFirstH2 (seen ++ [(tag, id)])
  = match fromFirstH2 seen with
    | [] => if String.eqb tag "h2" then [(tag, id)] else []
    | found => found ++ [(tag, id)]
    end.
Proof.
  induction seen as [|[t i] r IH]; [reflexivity|]. cbn [app fromFirstH2].
  destruct (String.eqb t "h2"); [reflexivity | exact IH].
Qed.

Lemma fromFirstH2_head (seen : list (string * string)) :
  match fromFirstH2 seen with
  | [] => True
  | (tag, _) :: _ => tag = "h2"
  end.
Proof.
  induction seen as [|[t i] r IH]; [exact I|]. cbn [fromFirstH2].
  destruct (String.eqb_spec t "h2") as [->|]; [reflexivity | exact IH].
Qed.

Lemma indexedIds_nil (seen : list (string * string)) :
  indexedIds seen = [] -> fromFirstH2 seen = [].
Proof.
  unfold indexedIds, sectionIds. pose proof (fromFirstH2_head seen) as Hhead.
  destruct (fromFirstH2 seen) as [|[t i] r]; [reflexivity|]. subst t. discriminate.
Qed.

Lemma allIndexIds_nil (l : list DocsHeading) : allIndexIds l = [] -> l = [].
Proof. destruct l as [|[i t ti c] r]; [reflexivity | discriminate]. Qed.

Lemma indexed_same (st st' : HtmlState (list (string * string))) :
  hook st' = hook st -> headings st' = headings st -> indexed st -> indexed st'.
Proof. unfold indexed. now intros -> ->. Qed.

(** The step of a heading with the tag [t]: what it does to the index is
    what its record does to the recorded ids. *)
Lemma registerHeading_indexed (content t : string) (level : nat) (id : string)
    (st st' : HtmlState (list (string * string))) :
  headingInfo t = Some level ->
  hook st' = hook st ++ [(t, id)] ->
  headings st'
  = (if (level =? 1)%nat then headings st
     else headings (registerHeading id content t level st)) ->
  indexed st -> indexed st'.
Proof.
  intros Hinfo Hhook Hheadings Hst. unfold indexed in *. rewrite Hhook, Hheadings.
  unfold indexedIds in *. rewrite fromFirstH2_snoc.
  apply headingInfo_cases in Hinfo. set_unfold.
  assert (Hpush : allIndexIds (headings st ++ [Heading id t content None])
                  = allIndexIds (headings st) ++ [id]).
  { rewrite allIndexIds_app. unfold allIndexIds at 2. cbn. reflexivity. }
  assert (Hcases :
           (t = "h1" /\ level = 1) \/ (t = "h2" /\ level = 2) \/
           (String.eqb t "h1" = false /\ String.eqb t "h2" = false /\ 3 <= level)).
  { destruct Hinfo as [H|[H|[H|[H|[H|[H|[]]]]]]]; injection H as -> ->;
      [left | right; left | right; right ..]; repeat split; lia. }
  destruct Hcases as [[-> ->]|[[-> ->]|(Hh1 & Hh2 & Hlevel)]].
  - cbn [Nat.eqb]. destruct (fromFirstH2 (hook st)) as [|x r]; cbv beta iota.
    + exact Hst.
    + change (sectionIds ?l) with (sectionIds ((x :: r) ++ [("h1", id)])).
      now rewrite sectionIds_snoc, app_nil_r.
  - cbn [Nat.eqb registerHeading headings Nat.ltb Nat.leb andb]. rewrite Hpush, Hst.
    destruct (fromFirstH2 (hook st)) as [|x r]; cbv beta iota; [reflexivity|].
    change (sectionIds (x :: r ++ ?e)) with (sectionIds ((x :: r) ++ e)).
    now rewrite sectionIds_snoc.
  - destruct level as [|[|[|level]]]; try lia. cbn [Nat.eqb registerHeading headings].
    replace (2 <? S (S (S level)))%nat with true by reflexivity. cbn [andb].
    destruct (headings st) as [|h hs] eqn:Hindex.
    + cbn [length Nat.eqb negb]. cbn in Hst. symmetry in Hst.
      apply indexedIds_nil in Hst. rewrite Hst, Hh2. reflexivity.
    + cbn [length Nat.eqb negb]. rewrite attachToLast_order by discriminate.
      cbn [indexIds]. rewrite Hst.
      destruct (fromFirstH2 (hook st)) as [|x r]; cbv beta iota;
        [now apply allIndexIds_nil in Hst|].
      change (sectionIds (x :: r ++ ?e)) with (sectionIds ((x :: r) ++ e)).
      now rewrite sectionIds_snoc, Hh1.
Qed.

Lemma getHtmlStr_indexed
    (permalink : DocsContent -> string -> HtmlState (list (string * string))
                 -> HtmlState (list (string * string)))
    (content : string) (tag link : option string) (outerTag : string)
    (st : HtmlState (list (string * string))) :
  (forall d o s, indexed s -> indexed (permalink d o s)) ->
  indexed st ->
  indexed (getHtmlStr recordIds permalink content tag link outerTag st).
Proof.
  intros Hp Hst. unfold getHtmlStr.
  destruct (String.eqb content ""); [exact Hst|].
  match goal with |- context [recordIds ?a ?d ?o ?h] =>
    destruct (recordIds a d o h) as [attr h'] eqn:Hrec end.
  destruct (tagsOf tag link attr) as [opening closing].
  match goal with |- indexed (emit closing ?s5) =>
    apply (indexed_same s5); [reflexivity | reflexivity |] end.
  match goal with |- indexed (if ?b then permalink ?d ?o ?s else ?s) =>
    enough (indexed s) by (destruct b; [now apply Hp | assumption]) end.
  match goal with |- indexed (emit _ (emit _ ?s2)) =>
    apply (indexed_same s2); [reflexivity | reflexivity |] end.
  destruct tag as [t|]; cbn [isAnchor] in *.
  - destruct (headingInfo t) as [level|] eqn:Hinfo.
    + assert (Hanchor : String.eqb t "a" = false).
      { destruct (String.eqb_spec t "a") as [->|]; [discriminate Hinfo | reflexivity]. }
      unfold isHeadingTag in *. rewrite Hinfo in *. rewrite Hanchor, andb_false_r in Hrec.
      cbn [andb] in Hrec. unfold recordIds in Hrec.
      apply (registerHeading_indexed content t level (uniqueId (ids st) content) st);
        [exact Hinfo | | | exact Hst].
      * destruct level as [|[|level]]; cbn in Hrec;
          apply pair_equal_spec in Hrec as [_ <-]; reflexivity.
      * destruct level as [|[|level]]; reflexivity.
    + unfold isHeadingTag in *. rewrite Hinfo in *.
      unfold recordIds in Hrec.
      destruct (truthy link && String.eqb t "a"); destruct (headingInfo outerTag);
        cbn in Hrec; apply pair_equal_spec in Hrec as [<- <-]; exact Hst.
  - rewrite andb_false_r in Hrec. cbn in Hrec.
    apply pair_equal_spec in Hrec as [<- <-]. exact Hst.
Qed.

Lemma getHtml_indexed (data : DocsContent) (outerTag : string)
    (st : HtmlState (list (string * string))) :
  indexed st -> indexed (getHtml recordIds data outerTag st).
Proof.
  revert outerTag st.
  induction data as [content tag link | content tag link IH] using DocsContent_induction;
    intros outerTag st Hst; cbn [getHtml].
  - apply getHtmlStr_indexed; [|exact Hst].
    intros [c t l | c t l] o s Hs; cbn [getHtmlPermalink]; [|exact Hs].
    apply getHtmlStr_indexed; [intros ? ? ? H; exact H | exact Hs].
  - destruct content as [|x r]; [exact Hst|].
    match goal with |- context [recordIds ?a ?d ?o ?h] =>
      destruct (recordIds a d o h) as [attr h'] eqn:Hrec end.
    assert (h' = hook st) as ->.
    { unfold recordIds in Hrec. destruct (truthy link && isAnchor tag);
        cbn in Hrec; now apply pair_equal_spec in Hrec as [<- <-]. }
    destruct (tagsOf tag link attr) as [opening closing].
    match goal with |- indexed (emit closing (fold_left _ _ ?s)) => set (s3 := s) end.
    assert (Hs3 : indexed s3)
      by (apply (indexed_same st); [reflexivity | reflexivity | exact Hst]).
    apply (indexed_same (fold_left (fun s item => getHtml recordIds item outerTag s)
                                   (x :: r) s3)); [reflexivity | reflexivity |].
    clearbody s3. clear Hrec. revert s3 Hs3.
    induction IH as [|y l Hy Hl IHl]; intros s Hs; cbn [fold_left]; [exact Hs|].
    apply IHl, Hy, Hs.
Qed.

(** On every page the heading index lists, parents before children, the
    ids of the headings of levels 2 to 6 met from the first [h2] on, in the
    order of the document: no heading is moved, and none but those before
    the first [h2] is left out. *)
Theorem heading_index_follows_document (data : DocsContent) :
  allIndexIds (headings (getHtml recordIds data "" (initialHtml [])))
  = indexedIds (hook (getHtml recordIds data "" (initialHtml []))).
Proof. apply (getHtml_indexed data "" (initialHtml [])). reflexivity. Qed.

(** * [getMarkdown] *)

Lemma joined_app (a b : list string) : joined (a ++ b) = joined a +:+ joined b.
Proof.
  induction a as [|x a IH]; [reflexivity|].
  change (joined ((x :: a) ++ b)) with (x +:+ joined (a ++ b)).
  change (joined (x :: a)) with (x +:+ joined a).
  now rewrite IH, append_assoc.
Qed.

Lemma getMarkdown_prefix (data : DocsContent) :
  forall outerTag out,
    getMarkdown data outerTag out = out +:+ getMarkdown data outerTag "".
Proof.
  induction data as [content tag link | content tag link IH] using DocsContent_induction;
    intros outerTag out; cbn [getMarkdown].
  - now rewrite ?append_nil_l, ?append_assoc.
  - rewrite append_nil_l.
    set (itemTag := if truthy tag then interpolate tag else "").
    set (opening := markdownOpening tag link true outerTag).
    set (closing := snd (markdownSymbols tag link true)).
    assert (Hfold : forall l, Forall (fun item => forall o out,
                getMarkdown item o out = out +:+ getMarkdown item o "") l ->
              forall pre acc,
                fold_left (fun out item => getMarkdown item itemTag out) l (pre +:+ acc)
                = pre +:+ fold_left (fun out item => getMarkdown item itemTag out) l acc).
    { clear. intros l Hl. induction Hl as [|x l Hx _ IHl]; intros pre acc; [reflexivity|].
      cbn [fold_left]. rewrite (Hx itemTag (pre +:+ acc)), (Hx itemTag acc).
      now rewrite <- IHl, ?append_assoc. }
    now rewrite (Hfold content IH out opening), ?append_assoc.
Qed.

Lemma getMarkdown_items (itemTag : string) (l : list DocsContent) :
  forall acc,
    fold_left (fun out item => getMarkdown item itemTag out) l acc
    = acc +:+ joined (map (fun item => getMarkdown item itemTag "") l).
Proof.
  induction l as [|x l IH]; intros acc; cbn [fold_left map joined fold_right].
  - now rewrite append_nil_r.
  - rewrite IH, (getMarkdown_prefix x itemTag acc). now rewrite ?append_assoc.
Qed.

(** [getMarkdown] only adds to the output it is given: what it returns is
    that output followed by what the node gives on an empty output. *)
Theorem getMarkdown_appends_to_output (data : DocsContent) (outerTag out : string) :
  getMarkdown data outerTag out = out +:+ getMarkdown data outerTag "".
Proof. apply getMarkdown_prefix. Qed.

(** The Markdown of a node with an array as content is the opening of the
    node, the Markdown of each item in order, each taken on its own with
    the tag of the node as outer tag, and the closing of the node. For a
    page, a node without a tag, it is the Markdown of its items, one
    after the other. *)
Theorem getMarkdown_group_concatenates (content : list DocsContent)
    (tag link : option string) (outerTag : string) :
  getMarkdown (ArrNode content tag link) outerTag ""
  = markdownOpening tag link true outerTag
    +:+ joined (map (fun item =>
                  getMarkdown item (if truthy tag then interpolate tag else "") "")
                content)
    +:+ snd (markdownSymbols tag link true)
  /\ getMarkdown (ArrNode content None None) "" ""
     = joined (map (fun item => getMarkdown item "" "") content).
Proof.
  split; cbn [getMarkdown]; rewrite getMarkdown_items, append_nil_l.
  - now rewrite ?append_assoc.
  - change (markdownOpening None None true "") with "".
    change (snd (markdownSymbols None None true)) with "".
    now rewrite ?append_nil_l, append_nil_r.
Qed.

(** * The resolver: further properties *)

(** ** The accumulators are only added to *)

Lemma appended_preorder : PreOrder appended.
Proof.
  split.
  - intros u. split; [exists []; now rewrite app_nil_r | reflexivity].
  - intros u1 u2 u3 [[a Ha] Hu] [[b Hb] Hv]. split.
    + exists (a ++ b). now rewrite Hb, Ha, app_assoc.
    + set_solver.
Qed.

#[global] Existing Instance appended_preorder.

Section Appended.

Variable readFile : string -> string -> option string.
Variable codeToHtml : string -> string -> string.
Variable renderType : RenderType.
Variable docTypes : gmap string DocsAll.
Variable dir url : string.

Lemma resolveMatch_appended (expand : DocsAll -> Build (list DocsContent))
    (typeMatches : list string) (currentDocType : DocsAll) (match_ : string)
    (content : list DocsContent) :
  (forall docType, framedBy appended (expand docType)) ->
  framedBy appended (resolveMatch renderType docTypes dir url expand typeMatches
                                  currentDocType match_ content).
Proof.
  intros Hexpand. unfold resolveMatch.
  destruct (negb (includes typeMatches match_)); [apply framedBy_ret, _|].
  destruct (docTypes !! match_) as [docType|]; [|apply framedBy_ret, _].
  destruct (oid docType =? oid currentDocType)%nat; [apply framedBy_ret, _|].
  apply framedBy_bind; [apply _ | intros u a u' [= _ <-]; reflexivity | intros used].
  destruct used; [apply framedBy_ret, _|].
  apply framedBy_bind; [apply _ | | intros _].
  { intros u a u' [= _ <-]. split; cbn; [exists []; now rewrite app_nil_r | set_solver]. }
  apply framedBy_bind; [apply _ | apply Hexpand | intros expanded].
  apply framedBy_bind; [apply _ | | intros _; apply framedBy_ret, _].
  intros u a u' [= _ <-]. split; cbn; [now exists expanded | set_solver].
Qed.

Lemma resolver_appended (budget : nat) :
  (forall type current c,
      framedBy appended (getContent readFile codeToHtml renderType docTypes dir url
                                    budget type current c)) /\
  (forall info kind depth,
      framedBy appended (getTypeContent readFile codeToHtml renderType docTypes dir url
                                        budget info kind depth)).
Proof.
  induction budget as [|n [IHc IHt]]; (split; [intros type current c | intros info kind depth]);
    cbn [getContent getTypeContent]; try (apply framedBy_lift, _).
  - apply framedBy_forEachB; [apply _|]. intros typeName s _.
    apply resolveTypeName_framed; [apply _|]. intros typeMatches match_ content.
    apply resolveMatch_appended. intros docType. apply IHt.
  - apply typeContent_framed; [apply _ | |].
    + intros type current. apply IHc.
    + intros _ member k d. apply IHt.
Qed.

End Appended.

(** Whatever [getContent] and [getTypeContent] are called on, the Types
    section they leave is the one they were given with content added at its
    end, and the used set they leave holds the one they were given: no
    section collected before is removed, moved or changed, and no name is
    forgotten. *)
Theorem resolver_only_appends
    (readFile : string -> string -> option string)
    (codeToHtml : string -> string -> string)
    (renderType : RenderType) (docTypes : gmap string DocsAll) (dir url : string)
    (budget : nat) :
  (forall type current _content u c u',
      getContent readFile codeToHtml renderType docTypes dir url
                 budget type current _content u = Done (c, u') ->
      (exists added, types u' = types u ++ added) /\ usedTypes u ⊆ usedTypes u') /\
  (forall info kind depth u c u',
      getTypeContent readFile codeToHtml renderType docTypes dir url
                     budget info kind depth u = Done (c, u') ->
      (exists added, types u' = types u ++ added) /\ usedTypes u ⊆ usedTypes u').
Proof.
  destruct (resolver_appended readFile codeToHtml renderType docTypes dir url budget)
    as [Hc Ht].
  split.
  - intros type current c0 u c u' Hrun. exact (Hc type current c0 u c u' Hrun).
  - intros info kind depth u c u' Hrun. exact (Ht info kind depth u c u' Hrun).
Qed.

(** ** What [getContent] returns *)

Lemma returnsP_forEachB_fold {A S : Type} (body : A -> S -> Build S) (f : S -> A -> S)
    (l : list A) (acc : S) :
  (forall x s, returnsP (fun s' => s' = f s x) (body x s)) ->
  returnsP (fun s' => s' = fold_left f l acc) (forEachB body l acc).
Proof.
  intros Hbody. revert acc. induction l as [|x r IH]; intros acc; cbn [forEachB fold_left].
  - now apply returnsP_ret.
  - apply returnsP_bind_both with (P := fun s' => s' = f acc x); [apply Hbody|].
    intros a ->. apply IH.
Qed.

Lemma fold_left_snoc_map {A B : Type} (g : A -> B) (l : list A) (acc : list B) :
  fold_left (fun c x => c ++ [g x]) l acc = acc ++ map g l.
Proof.
  revert acc. induction l as [|x r IH]; intros acc; cbn [fold_left map].
  - now rewrite app_nil_r.
  - now rewrite IH, <- app_assoc.
Qed.

Lemma includes_In (l : list string) (x : string) : includes l x = true -> In x l.
Proof.
  unfold includes. intros (y & Hy & Heq)%existsb_exists.
  apply String.eqb_eq in Heq. now subst.
Qed.

Section Content.

Variable readFile : string -> string -> option string.
Variable codeToHtml : string -> string -> string.
Variable renderType : RenderType.
Variable docTypes : gmap string DocsAll.
Variable dir url : string.

Lemma resolveMatch_value (expand : DocsAll -> Build (list DocsContent))
    (typeMatches : list string) (current : DocsAll) (match_ : string)
    (content : list DocsContent) :
  returnsP (fun c => c = content ++ [tokenNode renderType docTypes dir url typeMatches match_])
           (resolveMatch renderType docTypes dir url expand typeMatches current
                         match_ content).
Proof.
  unfold resolveMatch, tokenNode.
  destruct (includes typeMatches match_); cbn [negb]; [|now apply returnsP_ret].
  destruct (docTypes !! match_) as [docType|]; [|now apply returnsP_ret].
  destruct (oid docType =? oid current)%nat; [now apply returnsP_ret|].
  apply returnsP_bind. intros [|]; [now apply returnsP_ret|].
  apply returnsP_bind. intros _. apply returnsP_bind. intros expanded.
  apply returnsP_bind. intros _. now apply returnsP_ret.
Qed.

Lemma resolveTypeName_value (expand : DocsAll -> Build (list DocsContent))
    (current : DocsAll) (typeName : string) (c : list DocsContent) :
  returnsP (fun c' => c' = separate c ++ [nameContent renderType docTypes dir url typeName])
           (resolveTypeName renderType docTypes dir url expand current typeName c).
Proof.
  unfold resolveTypeName, nameContent.
  destruct (typeMatchesOf typeName) as [|m ms]; [now apply returnsP_ret|].
  destruct (allMatchesOf typeName) as [|a l].
  { intros u x u' H. discriminate H. }
  apply returnsP_bind_both
    with (P := fun content =>
                 content = map (tokenNode renderType docTypes dir url (m :: ms)) (a :: l)).
  - intros u x u' H.
    apply (returnsP_forEachB_fold _
             (fun s t => s ++ [tokenNode renderType docTypes dir url (m :: ms) t])) in H;
      [|intros; apply resolveMatch_value].
    now rewrite fold_left_snoc_map in H.
  - intros content ->. now apply returnsP_ret.
Qed.

Lemma getContent_value (budget : nat) (type : list string) (current : DocsAll)
    (c0 : list DocsContent) :
  returnsP (fun c => c = linkedContent renderType docTypes dir url type c0)
           (getContent readFile codeToHtml renderType docTypes dir url
                       budget type current c0).
Proof.
  destruct budget as [|n]; cbn [getContent]; [intros u x u' H; discriminate H|].
  apply returnsP_forEachB_fold. intros typeName s. apply resolveTypeName_value.
Qed.

(** *** Expressions that need no new section *)

Lemma resolveMatch_settled (expand : DocsAll -> Build (list DocsContent))
    (typeMatches : list string) (current : DocsAll) (match_ : string)
    (content : list DocsContent) (u : Unit) :
  (forall docType,
      In match_ typeMatches -> docTypes !! match_ = Some docType ->
      oid docType = oid current \/ e_name docType ∈ usedTypes u) ->
  resolveMatch renderType docTypes dir url expand typeMatches current match_ content u
  = Done (content ++ [tokenNode renderType docTypes dir url typeMatches match_], u).
Proof.
  intros Hknown. unfold resolveMatch, tokenNode.
  destruct (includes typeMatches match_) eqn:Hin; cbn [negb]; [|reflexivity].
  destruct (docTypes !! match_) as [docType|] eqn:Hget; [|reflexivity].
  destruct (oid docType =? oid current)%nat eqn:Hoid; [reflexivity|].
  destruct (Hknown docType (includes_In _ _ Hin) eq_refl) as [Heq|Hused].
  - apply Nat.eqb_neq in Hoid. contradiction.
  - rewrite build_bind_unfold, usedHas_unfold, bool_decide_eq_true_2 by exact Hused.
    reflexivity.
Qed.

Lemma forEachMatch_settled (expand : DocsAll -> Build (list DocsContent))
    (typeMatches : list string) (current : DocsAll) (u : Unit) (l : list string) :
  (forall name docType,
      In name typeMatches -> docTypes !! name = Some docType ->
      oid docType = oid current \/ e_name docType ∈ usedTypes u) ->
  forall content,
    forEachB (resolveMatch renderType docTypes dir url expand typeMatches current) l content u
    = Done (content ++ map (tokenNode renderType docTypes dir url typeMatches) l, u).
Proof.
  intros Hknown. induction l as [|x r IH]; intros content; cbn [forEachB map].
  - now rewrite app_nil_r.
  - rewrite build_bind_unfold, resolveMatch_settled by (intros; eapply Hknown; eauto).
    now rewrite IH, <- app_assoc.
Qed.

Lemma resolveTypeName_settled (expand : DocsAll -> Build (list DocsContent))
    (current : DocsAll) (typeName : string) (c : list DocsContent) (u : Unit) :
  settled docTypes current u typeName ->
  resolveTypeName renderType docTypes dir url expand current typeName c u
  = Done (separate c ++ [nameContent renderType docTypes dir url typeName], u).
Proof.
  intros [Htokens Hknown]. unfold resolveTypeName, nameContent.
  destruct (typeMatchesOf typeName) as [|m ms]; [reflexivity|].
  destruct (allMatchesOf typeName) as [|a l].
  { destruct Htokens as [?|?]; [discriminate | contradiction]. }
  rewrite build_bind_unfold, forEachMatch_settled by exact Hknown. reflexivity.
Qed.

Lemma getContent_settled (budget : nat) (type : list string) (current : DocsAll)
    (u : Unit) :
  Forall (settled docTypes current u) type ->
  forall c0,
    getContent readFile codeToHtml renderType docTypes dir url (S budget) type current c0 u
    = Done (linkedContent renderType docTypes dir url type c0, u).
Proof.
  cbn [getContent]. unfold linkedContent.
  induction 1 as [|typeName r Hx _ IH]; intros c0; cbn [forEachB fold_left]; [reflexivity|].
  rewrite build_bind_unfold, resolveTypeName_settled by exact Hx. apply IH.
Qed.

End Content.

(** The nodes [getContent] returns are those of the type expressions it
    was given, whatever was used before: one node for each expression,
    [' | '] between them. An expression in which the reference pattern
    finds nothing is one escaped text; in any other, a token is a link
    when the reference pattern matches it (a whole word that does not
    begin with the name of a built-in type) and it names a registered
    type, and its escaped text otherwise: a registered type whose name
    begins with [Set], [Map] or another built-in name is never linked.
    What the accumulators hold decides on the Types section, never on the
    returned content. *)
Theorem getContent_returns_linked_content
    (readFile : string -> string -> option string)
    (codeToHtml : string -> string -> string)
    (renderType : RenderType) (docTypes : gmap string DocsAll) (dir url : string)
    (budget : nat) (type : list string) (current : DocsAll)
    (_content c : list DocsContent) (u u' : Unit)
    (Hrun : getContent readFile codeToHtml renderType docTypes dir url
                       budget type current _content u = Done (c, u')) :
  c = linkedContent renderType docTypes dir url type _content.
Proof. exact (getContent_value _ _ _ _ _ _ _ _ _ _ _ _ _ Hrun). Qed.

(** With the registered type [Theme], the expression [Theme[]] gives a
    link and two escaped tokens. *)
Lemma getContent_returns_linked_content_witness :
  exists c u',
    getContent noFile plainCode Markdown (themeIn "src/theme") "src/theme" "" 5
               ["Theme[]"; "string"] setTheme [] emptyUnit = Done (c, u') /\
    c = linkedContent Markdown (themeIn "src/theme") "src/theme" ""
                      ["Theme[]"; "string"] [].
Proof.
  destruct (getContent noFile plainCode Markdown (themeIn "src/theme") "src/theme" "" 5
                       ["Theme[]"; "string"] setTheme [] emptyUnit)
    as [[c u']| |] eqn:Hrun; [|vm_compute in Hrun; discriminate ..].
  exists c, u'. split; [reflexivity|].
  exact (getContent_returns_linked_content noFile plainCode Markdown
           (themeIn "src/theme") "src/theme" "" 5 ["Theme[]"; "string"] setTheme [] c
           emptyUnit u' Hrun).
Defined.

(** Where every registered type the expressions name is the current type
    itself or a type used before, and no expression is made of underscores
    only, [getContent] returns their nodes at once and leaves the Types
    section and the used set as they were: one level of budget is enough,
    nothing is expanded. *)
Theorem getContent_known_names_leave_unit
    (readFile : string -> string -> option string)
    (codeToHtml : string -> string -> string)
    (renderType : RenderType) (docTypes : gmap string DocsAll) (dir url : string)
    (budget : nat) (type : list string) (current : DocsAll)
    (_content : list DocsContent) (u : Unit)
    (Hknown : Forall (settled docTypes current u) type) :
  getContent readFile codeToHtml renderType docTypes dir url
             (S budget) type current _content u
  = Done (linkedContent renderType docTypes dir url type _content, u).
Proof. now apply getContent_settled. Qed.

(** Inside the definition of [Theme] itself, [Theme[]] is a link to
    [Theme] and nothing is added to the unit. *)
Lemma getContent_known_names_leave_unit_witness :
  Forall (settled (themeIn "src/theme")
                  (typedefOf 1 "Theme" ["Object"] "src/theme" (Some [propOf "color" ["string"]]))
                  emptyUnit)
         ["Theme[]"; "string"] /\
  getContent noFile plainCode Markdown (themeIn "src/theme") "src/theme" "" 1
             ["Theme[]"; "string"]
             (typedefOf 1 "Theme" ["Object"] "src/theme" (Some [propOf "color" ["string"]]))
             [] emptyUnit
  = Done (linkedContent Markdown (themeIn "src/theme") "src/theme" ""
                        ["Theme[]"; "string"] [], emptyUnit).
Proof.
  assert (Hknown : Forall (settled (themeIn "src/theme")
                    (typedefOf 1 "Theme" ["Object"] "src/theme"
                               (Some [propOf "color" ["string"]]))
                    emptyUnit)
                   ["Theme[]"; "string"]).
  { constructor; [|constructor; [|constructor]]; split.
    - right. vm_compute. discriminate.
    - intros name docType Hin Hget. left.
      vm_compute in Hin. destruct Hin as [<-|[]].
      unfold themeIn in Hget. rewrite lookup_singleton_eq in Hget.
      now injection Hget as <-.
    - left. reflexivity.
    - intros name docType Hin. vm_compute in Hin. destruct Hin. }
  split; [exact Hknown|].
  exact (getContent_known_names_leave_unit noFile plainCode Markdown
           (themeIn "src/theme") "src/theme" "" 0 ["Theme[]"; "string"] _ [] emptyUnit Hknown).
Defined.

(** ** A name of underscores *)

Lemma wordRuns_word (s : string) :
  forall cur, allString isWord s = true ->
    wordRuns cur s = flush (cur +:+ s) [].
Proof.
  induction s as [|c s IH]; intros cur; cbn [wordRuns allString].
  - now rewrite append_nil_r.
  - intros [Hc Hs]%andb_prop. rewrite Hc, IH by exact Hs.
    now rewrite append_assoc.
Qed.

Lemma allMatches_underscores (s : string) :
  allString (Ascii.eqb "_") s = true -> allMatchesFrom None s = [].
Proof.
  induction s as [|c s IH]; cbn [allString allMatchesFrom]; [reflexivity|].
  intros [Hc Hs]%andb_prop. apply Ascii.eqb_eq in Hc. subst c.
  cbn. now apply IH.
Qed.

(** A type name made of underscores only rejects the call, whatever
    stands around it: it counts as a name that may be a type, and the
    pattern that cuts a name into tokens finds none in it. *)
Theorem getContent_rejects_underscore_name
    (readFile : string -> string -> option string)
    (codeToHtml : string -> string -> string)
    (renderType : RenderType) (docTypes : gmap string DocsAll) (dir url : string)
    (budget : nat) (typeName : string) (rest : list string) (current : DocsAll)
    (_content : list DocsContent) (u : Unit)
    (Hname : underscores typeName = true) :
  getContent readFile codeToHtml renderType docTypes dir url
             (S budget) (typeName :: rest) current _content u
  = Rejected TypeFailure.
Proof.
  apply andb_prop in Hname as [Hfull Hunder].
  cbn [getContent forEachB]. rewrite build_bind_unfold.
  assert (Hmatches : typeMatchesOf typeName = [typeName]).
  { unfold typeMatchesOf.
    rewrite wordRuns_word
      by (eapply allString_impl; [|exact Hunder]; intros c <-%Ascii.eqb_eq; reflexivity).
    rewrite append_nil_l. unfold flush.
    destruct typeName as [|c r]; [discriminate Hfull|].
    cbn [allString] in Hunder. apply andb_prop in Hunder as [<-%Ascii.eqb_eq _].
    reflexivity. }
  unfold resolveTypeName. rewrite Hmatches.
  unfold allMatchesOf. now rewrite allMatches_underscores.
Qed.

(** The type [_] rejects. *)
Lemma getContent_rejects_underscore_name_witness :
  underscores "_" = true /\
  getContent noFile plainCode Html ∅ "src" "" 1 ["_"; "string"] setTheme [] emptyUnit
  = Rejected TypeFailure.
Proof.
  split; [reflexivity|].
  exact (getContent_rejects_underscore_name noFile plainCode Html ∅ "src" "" 0
           "_" ["string"] setTheme [] emptyUnit eq_refl).
Defined.

(** ** The text of the returned content *)

Lemma textOf_group (l : list DocsContent) (tag link : option string) :
  textOf (ArrNode l tag link) = textsOf l.
Proof.
  unfold textsOf. cbn [textOf].
  induction l as [|x r IH]; [reflexivity|].
  cbn [map]. change (joined (textOf x :: map textOf r)) with (textOf x +:+ joined (map textOf r)).
  now rewrite <- IH.
Qed.

Lemma textsOf_app (a b : list DocsContent) : textsOf (a ++ b) = textsOf a +:+ textsOf b.
Proof. unfold textsOf. now rewrite map_app, joined_app. Qed.

Lemma isWord_unescaped (c : ascii) :
  isWord c = true -> negb (existsb (Ascii.eqb c) escaped) = true.
Proof.
  unfold isWord, isLetter, isUpper, isLower, isDigit, inRange, code.
  destruct c as [[] [] [] [] [] [] [] []]; vm_compute; congruence.
Qed.

Lemma wordRuns_words (s : string) :
  forall cur w,
    allString isWord cur = true -> In w (wordRuns cur s) -> allString isWord w = true.
Proof.
  induction s as [|c s IH]; intros cur w Hcur; cbn [wordRuns].
  - unfold flush. destruct (String.eqb cur ""); [intros []|].
    intros [<-|[]]. exact Hcur.
  - destruct (isWord c) eqn:Hc.
    + apply IH. rewrite allString_app, Hcur. cbn. now rewrite Hc.
    + intros [Hin|Hin]%in_app_or; [|now apply (IH "" w)].
      unfold flush in Hin. destruct (String.eqb cur ""); [destruct Hin|].
      destruct Hin as [<-|[]]. exact Hcur.
Qed.

Lemma typeMatches_unescaped (typeName w : string) :
  In w (typeMatchesOf typeName) -> escape w = w.
Proof.
  unfold typeMatchesOf. intros [Hin _]%filter_In.
  apply escape_plain. unfold avoids.
  eapply allString_impl; [exact isWord_unescaped|].
  now apply (wordRuns_words typeName "" w).
Qed.

Lemma escape_joined (l : list string) : escape (joined l) = joined (map escape l).
Proof.
  induction l as [|x r IH]; [reflexivity|].
  change (joined (x :: r)) with (x +:+ joined r). rewrite escape_app, IH. reflexivity.
Qed.

Section Text.

Variable renderType : RenderType.
Variable docTypes : gmap string DocsAll.
Variable dir url : string.
Hypothesis Hkeys : wellKeyed docTypes.

Lemma tokenNode_text (typeName token : string) :
  textOf (tokenNode renderType docTypes dir url (typeMatchesOf typeName) token)
  = escape token.
Proof.
  unfold tokenNode.
  destruct (includes (typeMatchesOf typeName) token) eqn:Hin; [|reflexivity].
  destruct (docTypes !! token) as [docType|] eqn:Hget; [|reflexivity].
  cbn [textOf]. rewrite (Hkeys token docType Hget).
  symmetry. eapply typeMatches_unescaped, includes_In, Hin.
Qed.

Lemma nameContent_text (typeName : string) :
  spelledOut typeName = true ->
  textOf (nameContent renderType docTypes dir url typeName) = escape typeName.
Proof.
  intros Hspell%String.eqb_eq. unfold nameContent.
  destruct (typeMatchesOf typeName) as [|m ms] eqn:Hm; [reflexivity|].
  rewrite textOf_group. unfold textsOf. rewrite map_map, <- Hm.
  rewrite (map_ext _ escape) by (intros token; apply tokenNode_text).
  now rewrite <- escape_joined, Hspell.
Qed.

Lemma linkedContent_text (type : list string) :
  Forall (fun typeName => spelledOut typeName = true) type ->
  forall c0,
    textsOf (linkedContent renderType docTypes dir url type c0)
    = match type with
      | [] => textsOf c0
      | _ => textsOf (separate c0) +:+ join " | " (map escape type)
      end.
Proof.
  unfold linkedContent.
  induction 1 as [|typeName r Hx Hr IH]; intros c0; cbn [fold_left]; [reflexivity|].
  rewrite IH. destruct r as [|y r]; cbn [map join].
  - rewrite textsOf_app. unfold textsOf at 2. cbn [map joined fold_right].
    now rewrite nameContent_text, append_nil_r.
  - assert (Hsep : forall c x, separate (c ++ [x]) = (c ++ [x]) ++ [text " | "]).
    { intros [|a c] x; reflexivity. }
    rewrite Hsep, !textsOf_app. unfold textsOf at 2 3. cbn [map joined fold_right textOf text].
    rewrite nameContent_text by exact Hx. now rewrite !append_nil_r, !append_assoc.
Qed.

End Text.

(** Read as text, the content [getContent] returns for type expressions
    is the expressions themselves, escaped and joined by [' | ']: a link
    shows the name it stands for and every other token shows itself. It
    holds for a registry that keeps every type under its own name and for
    expressions in which no underscore stands outside a name. *)
Theorem getContent_spells_type_expressions
    (readFile : string -> string -> option string)
    (codeToHtml : string -> string -> string)
    (renderType : RenderType) (docTypes : gmap string DocsAll) (dir url : string)
    (budget : nat) (type : list string) (current : DocsAll)
    (c : list DocsContent) (u u' : Unit)
    (Hkeys : wellKeyed docTypes)
    (Hspelled : Forall (fun typeName => spelledOut typeName = true) type)
    (Hrun : getContent readFile codeToHtml renderType docTypes dir url
                       budget type current [] u = Done (c, u')) :
  textsOf c = join " | " (map escape type).
Proof.
  rewrite (getContent_value _ _ _ _ _ _ _ _ _ _ _ _ _ Hrun).
  rewrite linkedContent_text by assumption.
  destruct type; [reflexivity|]. cbn [separate]. unfold textsOf at 1. cbn [map joined fold_right].
  now rewrite append_nil_l.
Qed.

(** The parameter types of [setTheme] read [Theme | Theme[]]. *)
Lemma getContent_spells_type_expressions_witness :
  exists c u',
    getContent noFile plainCode Markdown (themeIn "src/theme") "src/theme" "" 5
               ["Theme"; "Array.<Theme>"] setTheme [] emptyUnit = Done (c, u') /\
    textsOf c = join " | " (map escape ["Theme"; "Array.<Theme>"]).
Proof.
  destruct (getContent noFile plainCode Markdown (themeIn "src/theme") "src/theme" "" 5
                       ["Theme"; "Array.<Theme>"] setTheme [] emptyUnit)
    as [[c u']| |] eqn:Hrun; [|vm_compute in Hrun; discriminate ..].
  exists c, u'. split; [reflexivity|].
  refine (getContent_spells_type_expressions noFile plainCode Markdown
            (themeIn "src/theme") "src/theme" "" 5 ["Theme"; "Array.<Theme>"] setTheme c
            emptyUnit u' (wellKeyed_themeIn "src/theme") _ Hrun).
  constructor; [reflexivity|]. constructor; [reflexivity|]. constructor.
Defined.

(** ** The head of a section *)

Lemma mergeAlias_name (docTypes : gmap string DocsAll) (info : DocsAll) (kind : DocsKind) :
  e_name (mergeAlias docTypes info kind) = e_name info.
Proof.
  unfold mergeAlias. destruct kind; try reflexivity.
  destruct (docTypes !! _) as [funcType|]; [|reflexivity].
  destruct (e_type info); reflexivity.
Qed.

Lemma returnsP_forEachB_rel {A S : Type} (Rel : S -> S -> Prop)
    (body : A -> S -> Build S) (l : list A) (acc : S) :
  PreOrder Rel ->
  (forall x s, returnsP (Rel s) (body x s)) ->
  returnsP (Rel acc) (forEachB body l acc).
Proof.
  intros HRel Hbody. revert acc. induction l as [|x r IH]; intros acc; cbn [forEachB].
  - now apply returnsP_ret.
  - apply returnsP_bind_both with (P := Rel acc); [apply Hbody|].
    intros s Hs u a u' H. transitivity s; [exact Hs | exact (IH s u a u' H)].
Qed.

Section Grows.

Variable readFile : string -> string -> option string.
Variable codeToHtml : string -> string -> string.
Variable renderType : RenderType.
Variable docTypes : gmap string DocsAll.
Variable dir url : string.
Variable resolve : list string -> DocsAll -> Build (list DocsContent).
Variable recur : DocsAll -> DocsKind -> nat -> Build (list DocsContent).
Variable info : DocsAll.
Variable kind : DocsKind.
Variable depth : nat.

Local Ltac grown :=
  repeat match goal with
         | |- returnsP _ (mret (?c ++ _)) => apply returnsP_ret; now eexists
         | |- returnsP _ (mret _) => now apply returnsP_ret
         | |- returnsP _ (_ ≫= _) => apply returnsP_bind; intros ?
         end.

Lemma typeLine_keepsContent (newInfo : DocsAll) : keepsContent (typeLine resolve info kind newInfo).
Proof. intros c. unfold typeLine. destruct (isType kind); grown. Qed.

Lemma augmentsLine_keepsContent (newInfo : DocsAll) : keepsContent (augmentsLine resolve info newInfo).
Proof. intros c. unfold augmentsLine. destruct (e_augments newInfo); grown. Qed.

Lemma listSection_keepsContent (title : string) (level : nat) (l : option (list DocsParam)) :
  keepsContent (listSection renderType resolve info title level l).
Proof. intros c. unfold listSection. destruct l as [[|p ps]|]; grown. Qed.

Lemma returnSection_keepsContent (title : string) (r : option DocsReturn) :
  keepsContent (returnSection resolve info depth title r).
Proof. intros c. unfold returnSection. destruct r; grown. Qed.

Lemma membersSection_keepsContent (newInfo : DocsAll) :
  keepsContent (membersSection recur kind depth newInfo).
Proof.
  intros c. unfold membersSection.
  destruct (e_members newInfo) as [members|]; [|grown].
  destruct (isClass kind); [|grown].
  apply returnsP_bind_both
    with (P := fun acc : list DocsContent * bool * bool => c `prefix_of` fst (fst acc)).
  - apply (returnsP_forEachB_rel
             (fun a b : list DocsContent * bool * bool =>
                fst (fst a) `prefix_of` fst (fst b))).
    + split; [intros a; reflexivity | intros a b d Hab Hbd; now transitivity (fst (fst b))].
    + intros member [[c0 b1] b2]. unfold memberRound.
      apply returnsP_bind. intros memberContent. apply returnsP_ret. cbn [fst].
      destruct (negb b1 && _), (negb b2 && _);
        rewrite <- ?app_assoc; now eexists.
  - intros acc Hacc. now apply returnsP_ret.
Qed.

Lemma examplesSection_keepsContent (newInfo : DocsAll) :
  keepsContent (examplesSection readFile codeToHtml renderType dir depth newInfo).
Proof.
  intros c. unfold examplesSection. destruct (e_examples newInfo); grown.
  match goal with a : ExamplesContent |- _ => destruct a as [[|? ?]|?] end; grown.
Qed.

Lemma keepsContent_bind (m : Build (list DocsContent))
    (k : list DocsContent -> Build (list DocsContent)) (c : list DocsContent) :
  returnsP (fun c' => c `prefix_of` c') m -> keepsContent k ->
  returnsP (fun c' => c `prefix_of` c') (m ≫= k).
Proof.
  intros Hm Hk. apply returnsP_bind_both with (P := fun c' => c `prefix_of` c'); [exact Hm|].
  intros c1 Hc1 u a u' H. transitivity c1; [exact Hc1 | exact (Hk c1 u a u' H)].
Qed.

Lemma typeContent_head :
  returnsP (fun c =>
              if isType kind && negb (isString (e_dir info) dir) then c = []
              else exists rest, c = tagged (hTag (depth + 1)) (e_name info) :: rest)
           (typeContent readFile codeToHtml renderType docTypes dir
                        resolve recur info kind depth).
Proof.
  unfold typeContent. cbv zeta.
  assert (Hdir : isType kind && negb (isString (e_dir (mergeAlias docTypes info kind)) dir)
                 = isType kind && negb (isString (e_dir info) dir)).
  { destruct kind; reflexivity. }
  rewrite Hdir.
  destruct (isType kind && negb (isString (e_dir info) dir)); [now apply returnsP_ret|].
  intros u c u' Hrun.
  assert (Hpre : headOf kind depth (mergeAlias docTypes info kind) `prefix_of` c).
  { revert u c u' Hrun.
    change (returnsP (fun c => headOf kind depth (mergeAlias docTypes info kind) `prefix_of` c)
              (c ← typeLine resolve info kind (mergeAlias docTypes info kind)
                     (headOf kind depth (mergeAlias docTypes info kind));
               c ← augmentsLine resolve info (mergeAlias docTypes info kind) c;
               c ← listSection renderType resolve info "Properties" (depth + 2)
                     (e_props (mergeAlias docTypes info kind)) c;
               c ← listSection renderType resolve info "Parameters"
                     (depth + (if isClass kind then 3 else 2))
                     (e_params (mergeAlias docTypes info kind)) c;
               c ← returnSection resolve info depth "Returns"
                     (e_returns (mergeAlias docTypes info kind)) c;
               c ← returnSection resolve info depth "Yields"
                     (e_yields (mergeAlias docTypes info kind)) c;
               c ← membersSection recur kind depth (mergeAlias docTypes info kind) c;
               examplesSection readFile codeToHtml renderType dir depth
                               (mergeAlias docTypes info kind) c)).
    apply keepsContent_bind; [apply typeLine_keepsContent|]. intros c1.
    apply keepsContent_bind; [apply augmentsLine_keepsContent|]. intros c2.
    apply keepsContent_bind; [apply listSection_keepsContent|]. intros c3.
    apply keepsContent_bind; [apply listSection_keepsContent|]. intros c4.
    apply keepsContent_bind; [apply returnSection_keepsContent|]. intros c5.
    apply keepsContent_bind; [apply returnSection_keepsContent|]. intros c6.
    apply keepsContent_bind; [apply membersSection_keepsContent|]. intros c7.
    apply examplesSection_keepsContent. }
  destruct Hpre as [rest ->]. unfold headOf. rewrite mergeAlias_name.
  cbn [app]. now eexists.
Qed.

End Grows.

(** What [getTypeContent] returns for an entity starts with the heading
    of the entity: its own name, also for a function that takes over the
    declarations of a type alias, at one level below the depth it was
    called with. The one exception is a type of another directory, for
    which it returns nothing. *)
Theorem getTypeContent_starts_with_heading
    (readFile : string -> string -> option string)
    (codeToHtml : string -> string -> string)
    (renderType : RenderType) (docTypes : gmap string DocsAll) (dir url : string)
    (budget : nat) (info : DocsAll) (kind : DocsKind) (depth : nat)
    (c : list DocsContent) (u u' : Unit)
    (Hrun : getTypeContent readFile codeToHtml renderType docTypes dir url
                           budget info kind depth u = Done (c, u')) :
  if isType kind && negb (isString (e_dir info) dir) then c = []
  else exists rest, c = tagged (hTag (depth + 1)) (e_name info) :: rest.
Proof.
  destruct budget as [|n]; [discriminate Hrun|]. cbn [getTypeContent] in Hrun.
  exact (typeContent_head _ _ _ _ _ _ _ _ _ _ _ _ _ Hrun).
Qed.

(** The section of [setTheme] starts with the heading [setTheme]. *)
Lemma getTypeContent_starts_with_heading_witness :
  exists c u',
    getTypeContent noFile plainCode Markdown (themeIn "src/theme") "src/theme" "" 5
                   setTheme KFunction 1 emptyUnit = Done (c, u') /\
    exists rest, c = tagged "h2" "setTheme" :: rest.
Proof.
  destruct (getTypeContent noFile plainCode Markdown (themeIn "src/theme") "src/theme" "" 5
                           setTheme KFunction 1 emptyUnit)
    as [[c u']| |] eqn:Hrun; [|vm_compute in Hrun; discriminate ..].
  exists c, u'. split; [reflexivity|].
  exact (getTypeContent_starts_with_heading noFile plainCode Markdown
           (themeIn "src/theme") "src/theme" "" 5 setTheme KFunction 1 c emptyUnit u' Hrun).
Defined.

(** * Examples: further properties *)

(** ** The format of an example *)

Lemma lineRest_line (r rest : string) :
  allString (fun c => negb (isLineTerminator c)) r = true ->
  lineRest (r +:+ newline +:+ rest) = Some (r, rest).
Proof.
  induction r as [|c r IH]; [reflexivity|].
  cbn [allString]. intros [Hc Hr]%andb_prop. apply negb_true_iff in Hc.
  rewrite append_cons. cbn [lineRest]. rewrite Hc.
  assert (Hlf : (code c =? 10)%nat = false).
  { unfold isLineTerminator in Hc. now apply orb_false_elim in Hc. }
  now rewrite Hlf, IH.
Qed.

Lemma spacesThenLine_line (t rest : string) :
  lineText t = true ->
  spacesThenLine (" " +:+ t +:+ newline +:+ rest) = Some (t, rest).
Proof.
  destruct t as [|c r]; [discriminate|]. cbn [lineText allString].
  intros [Hspace [Hc Hr]%andb_prop]%andb_prop.
  apply negb_true_iff in Hspace, Hc.
  assert (Hline : spacesThenLine (String c r +:+ newline +:+ rest) = Some (String c r, rest)).
  { rewrite append_cons. cbn [spacesThenLine]. rewrite Hspace.
    cbn [lineGroup]. now rewrite Hc, lineRest_line. }
  change (" " +:+ String c r +:+ newline +:+ rest)
    with (String " " (String c r +:+ newline +:+ rest)).
  cbn [spacesThenLine]. change (isSpace " ") with true. cbv iota. now rewrite Hline.
Qed.

Lemma labelled_present (label t rest : string) :
  lineText t = true ->
  labelled label ((label +:+ " " +:+ t +:+ newline) +:+ rest) = (Some t, rest).
Proof.
  intros Ht. unfold labelled.
  rewrite !append_assoc, startsWith_app, dropString_app.
  now rewrite (spacesThenLine_line t rest Ht).
Qed.

Lemma labelled_absent (label s : string) :
  startsWith s label = false -> labelled label s = (None, s).
Proof. intros H. unfold labelled. now rewrite H. Qed.

Lemma trimStart_clean (s : string) : startsClean s = true -> trimStart s = s.
Proof.
  destruct s as [|c r]; [reflexivity|]. cbn [startsClean trimStart].
  now intros ->%negb_true_iff.
Qed.

Lemma languageOf_written (lang code : string) :
  In lang languages -> startsClean code = true ->
  languageOf languages (lang +:+ ": " +:+ code) = (Some lang, code).
Proof.
  intros Hlang Hcode.
  assert (Htrim : trimStart (String " " code) = code).
  { cbn [trimStart]. change (isSpace " ") with true. cbv iota. now apply trimStart_clean. }
  unfold languages in Hlang. cbn [In] in Hlang.
  destruct Hlang as [<-|[<-|[<-|[<-|[<-|[<-|[]]]]]]];
    cbv [String.append]; unfold languages; cbn [languageOf];
    cbv [String.append]; cbn [startsWith Ascii.eqb Bool.eqb andb String.length dropString];
    now rewrite Htrim.
Qed.

(** An example written in the format of the doc comments is read back
    into its parts: the title and the description where it has them, the
    language and the code. A title or a description fills one line and
    starts with no white space; the code starts with none either. *)
Theorem parseExample_reads_written_example
    (title desc : option string) (lang code : string)
    (Hlang : In lang languages)
    (Htitle : forall t, title = Some t -> lineText t = true)
    (Hdesc : forall d, desc = Some d -> lineText d = true)
    (Hcode : startsClean code = true) :
  parseExample (writtenExample title desc lang code) = (title, desc, Some lang, code).
Proof.
  unfold parseExample, writtenExample.
  assert (Hnone : forall label,
             In label ["title:"; "desc:"] ->
             startsWith (lang +:+ ": " +:+ code) label = false).
  { intros label Hlabel. unfold languages in Hlang. cbn [In] in Hlang, Hlabel.
    destruct Hlang as [<-|[<-|[<-|[<-|[<-|[<-|[]]]]]]];
      destruct Hlabel as [<-|[<-|[]]]; reflexivity. }
  destruct title as [t|], desc as [d|]; cbn [labelledLine]; rewrite ?append_nil_l.
  - rewrite labelled_present by now apply Htitle. cbv beta iota zeta.
    rewrite labelled_present by now apply Hdesc. cbv beta iota zeta.
    now rewrite languageOf_written.
  - rewrite (labelled_present "title:") by now apply Htitle. cbv beta iota zeta.
    rewrite (labelled_absent "desc:") by (apply Hnone; cbn; auto). cbv beta iota zeta.
    now rewrite languageOf_written.
  - rewrite (labelled_absent "title:") by reflexivity. cbv beta iota zeta.
    rewrite (labelled_present "desc:") by now apply Hdesc. cbv beta iota zeta.
    now rewrite languageOf_written.
  - rewrite (labelled_absent "title:") by (apply Hnone; cbn; auto). cbv beta iota zeta.
    rewrite (labelled_absent "desc:") by (apply Hnone; cbn; auto). cbv beta iota zeta.
    now rewrite languageOf_written.
Qed.

(** An example with a title, a description and TypeScript code. *)
Lemma parseExample_reads_written_example_witness :
  parseExample (writtenExample (Some "Usage") (Some "Renders a button.") "ts"
                               "render(button)")
  = (Some "Usage", Some "Renders a button.", Some "ts", "render(button)").
Proof.
  apply (parseExample_reads_written_example
           (Some "Usage") (Some "Renders a button.") "ts" "render(button)").
  - cbn. auto 10.
  - intros t [= <-]. reflexivity.
  - intros d [= <-]. reflexivity.
  - reflexivity.
Defined.

(** ** Examples that name no file *)

Section Inline.

Variable codeToHtml : string -> string -> string.
Variable renderType : RenderType.
Variable dir tag : string.
Hypothesis Htag : is_Some (tagToSymbol tag).

Lemma normalizeExample_inline (example : string) (acc : list string * list DocsContent) :
  startsWith (exampleCode example) "." = false ->
  exists acc',
    forall readFile,
      normalizeExample readFile codeToHtml renderType dir tag example acc = Done acc'.
Proof.
  destruct Htag as [symbol Hsymbol].
  unfold exampleCode, normalizeExample. destruct acc as [newExamples newContent].
  destruct (parseExample example) as [[[title desc] lang] code0]. cbn [snd].
  intros ->. rewrite Hsymbol. cbn.
  destruct title, desc, lang; cbn;
    repeat match goal with
           | |- context [if ?b then _ else _] => destruct b; cbn
           end; eexists; intros; reflexivity.
Qed.

Lemma normalizeLoop_inline (examples : list string) :
  inlineExamples examples = true ->
  forall acc,
  exists acc',
    forall readFile,
      normalizeLoop readFile codeToHtml renderType dir tag examples acc = Done acc'.
Proof.
  unfold inlineExamples.
  induction examples as [|x rest IH]; cbn [forallb normalizeLoop]; intros Hall acc.
  - now exists acc.
  - apply andb_prop in Hall as [Hx%negb_true_iff Hrest].
    destruct (normalizeExample_inline x acc Hx) as [acc1 H1].
    destruct (IH Hrest acc1) as [acc' H']. exists acc'. intros readFile.
    rewrite H1. cbn. apply H'.
Qed.

End Inline.

(** Where no example names a file and the tag of the titles is a heading
    tag, [normalizeExamples] settles to a value, and to the same value
    whatever the file system holds: it reads no file and rejects
    nothing. *)
Theorem normalizeExamples_inline_reads_nothing
    (codeToHtml : string -> string -> string) (renderType : RenderType)
    (examples : list string) (dir tag : string)
    (Htag : is_Some (tagToSymbol tag))
    (Hinline : inlineExamples examples = true) :
  exists content,
    forall readFile,
      normalizeExamples readFile codeToHtml renderType examples dir tag = Done content.
Proof.
  destruct (normalizeLoop_inline codeToHtml renderType dir tag Htag examples Hinline ([], []))
    as [[newExamples newContent] Hloop].
  unfold normalizeExamples.
  destruct (isHtmlType renderType) eqn:Hhtml; eexists; intros readFile;
    rewrite Hloop; reflexivity.
Qed.

(** Two inline examples under the heading tag [h4]. *)
Lemma normalizeExamples_inline_reads_nothing_witness :
  exists content,
    forall readFile,
      normalizeExamples readFile plainCode Markdown
        ["title: Usage" +:+ newline +:+ "ts: render(button)"; "shell: npm test"]
        "src/button" "h4"
      = Done content.
Proof.
  apply (normalizeExamples_inline_reads_nothing plainCode Markdown
           ["title: Usage" +:+ newline +:+ "ts: render(button)"; "shell: npm test"]
           "src/button" "h4").
  - eexists. reflexivity.
  - reflexivity.
Defined.

(** * [getDocs]: further properties *)

(** ** The directories of the sources *)

Lemma setSource_keys (dir : string) (items : list DocsJsDocItem)
    (l : list (string * list DocsJsDocItem)) :
  forall d, d ∈ map fst (setSource dir items l) -> d = dir \/ d ∈ map fst l.
Proof.
  induction l as [|[k old] r IH]; intros d; cbn [setSource map fst].
  - intros ->%list_elem_of_singleton. now left.
  - destruct (String.eqb k dir) eqn:Hk; cbn [map fst]; [now right|].
    intros [->|Hd]%elem_of_cons; [right; left|].
    destruct (IH d Hd) as [->|Hr]; [now left | right; now right].
Qed.

Lemma setSource_NoDup (dir : string) (items : list DocsJsDocItem)
    (l : list (string * list DocsJsDocItem)) :
  NoDup (map fst l) -> NoDup (map fst (setSource dir items l)).
Proof.
  induction l as [|[k old] r IH]; cbn [setSource map fst].
  - intros _. apply NoDup_singleton.
  - intros [Hk Hr]%NoDup_cons. destruct (String.eqb k dir) eqn:Heq; cbn [map fst].
    + now apply NoDup_cons.
    + apply NoDup_cons. split; [|now apply IH].
      intros [->|Hin]%setSource_keys; [|contradiction].
      now rewrite String.eqb_refl in Heq.
Qed.

Lemma setSource_Forall (Q : list DocsJsDocItem -> Prop) (dir : string)
    (items : list DocsJsDocItem) (l : list (string * list DocsJsDocItem)) :
  Q items -> Forall (fun entry => Q (snd entry)) l ->
  Forall (fun entry => Q (snd entry)) (setSource dir items l).
Proof.
  intros Hitems. induction 1 as [|[k old] r Hx Hr IH]; cbn [setSource].
  - now repeat constructor.
  - destruct (String.eqb k dir); constructor; assumption.
Qed.

Lemma sourceOf_Forall (Q : list DocsJsDocItem -> Prop) (dir : string)
    (l : list (string * list DocsJsDocItem)) :
  Q [] -> Forall (fun entry => Q (snd entry)) l -> Q (default [] (sourceOf dir l)).
Proof.
  intros Hnil. induction 1 as [|[k old] r Hx Hr IH]; cbn [sourceOf]; [exact Hnil|].
  destruct (String.eqb k dir); [exact Hx | exact IH].
Qed.

(** *** Where the directories of the sources come from *)

Section Read.

Variable srcDir : string.
Variable outDir : option string.
Variable sourceFiles : list SourceFile.

Lemma readSource_keys (l : list SourceFile) :
  (forall file, In file l -> In file sourceFiles) ->
  forall s,
    (NoDup (map fst (sources s)) /\
     forall d, d ∈ map fst (sources s) -> resultDir sourceFiles d) ->
    NoDup (map fst (sources (fold_left (readSource srcDir outDir) l s))) /\
    forall d, d ∈ map fst (sources (fold_left (readSource srcDir outDir) l s)) ->
              resultDir sourceFiles d.
Proof.
  induction l as [|file r IH]; intros Hl s Hs; cbn [fold_left]; [exact Hs|].
  apply IH; [intros f Hf; apply Hl; now right|].
  destruct Hs as [Hdup Hfrom]. unfold readSource.
  destruct (f_isResFile file) eqn:Hres; cbn [sources]; [|now split].
  split; [now apply setSource_NoDup|].
  intros d [->|Hd]%setSource_keys; [|now apply Hfrom].
  exists file. split; [apply Hl; now left | now split].
Qed.

Lemma readSource_skipped (l : list SourceFile) :
  Forall (fun file => Forall (fun item => skipped item = true) (f_items file)) l ->
  forall s,
    Forall (fun entry => Forall (fun item => skipped item = true) (snd entry)) (sources s) ->
    Forall (fun entry => Forall (fun item => skipped item = true) (snd entry))
           (sources (fold_left (readSource srcDir outDir) l s)).
Proof.
  induction 1 as [|file r Hfile Hr IH]; intros s Hs; cbn [fold_left]; [exact Hs|].
  apply IH. unfold readSource. destruct (f_isResFile file); cbn [sources]; [|exact Hs].
  apply (setSource_Forall (Forall (fun item => skipped item = true))); [|exact Hs].
  apply Forall_app. split.
  - apply (sourceOf_Forall (Forall (fun item => skipped item = true)));
      [constructor | exact Hs].
  - apply Forall_map. eapply Forall_impl; [exact Hfile|]. intros item Hitem. exact Hitem.
Qed.

End Read.

(** ** Pages *)

Section PagesOf.

Variable readFile : string -> string -> option string.
Variable codeToHtml : string -> string -> string.
Variable explain : string -> list DocsJsDocItem.
Variable localeCompare : string -> string -> Z.
Variable toUpperCase : string -> string.
Variable renderType : RenderType.
Variable args : DocsArgs.
Variable g : Registry.
Variable exportCounts : gmap string nat.

Lemma page_keys (pages pages' : Pages) (source : string * list DocsJsDocItem) :
  page readFile codeToHtml localeCompare toUpperCase renderType args g exportCounts pages source
  = Done pages' ->
  map fst (result pages') = map fst (result pages) \/
  map fst (result pages') = map fst (result pages) ++ [fst source].
Proof.
  unfold page. destruct source as [dir dirDocItems].
  destruct (forEachB _ _ _ _) as [[e u]| |]; cbn; try discriminate.
  destruct (_ && _); intros [= <-]; [now left|].
  right. cbn [result]. now rewrite map_app.
Qed.

Lemma forEachPage_keys (l : list (string * list DocsJsDocItem)) :
  forall pages pages',
    forEachPage readFile codeToHtml localeCompare toUpperCase renderType args g exportCounts l pages
    = Done pages' ->
    exists keys, map fst (result pages') = map fst (result pages) ++ keys /\
                 keys `sublist_of` map fst l.
Proof.
  induction l as [|source r IH]; intros pages pages'; cbn [forEachPage].
  - intros [= <-]. exists []. split; [now rewrite app_nil_r | constructor].
  - destruct (page _ _ _ _ _ _ _ _ _ source) as [p1| |] eqn:Hpage; cbn; try discriminate.
    intros Hrest. destruct (IH p1 pages' Hrest) as (keys & Hkeys & Hsub).
    destruct (page_keys pages p1 source Hpage) as [H1|H1]; rewrite Hkeys, H1.
    + exists keys. split; [reflexivity | now apply sublist_cons].
    + exists (fst source :: keys). split; [now rewrite <- app_assoc|].
      cbn [map]. now apply sublist_skip.
Qed.

Lemma itemRounds_skipped (budget : nat) (dir url : string) (single isIndex : bool)
    (items : list DocsJsDocItem) (e : Entries) (u : Unit) :
  Forall (fun item => skipped item = true) items ->
  forEachB (itemRound readFile codeToHtml renderType g budget dir url single isIndex)
           items e u = Done (e, u).
Proof.
  induction 1 as [|item r Hitem Hr IH]; cbn [forEachB]; [reflexivity|].
  rewrite build_bind_unfold. unfold itemRound at 1. rewrite Hitem. exact IH.
Qed.

Lemma page_skipped (pages : Pages) (dir : string) (items : list DocsJsDocItem) :
  truthy (a_index args) = false ->
  Forall (fun item => skipped item = true) items ->
  page readFile codeToHtml localeCompare toUpperCase renderType args g exportCounts pages (dir, items)
  = Done pages.
Proof.
  intros Hindex Hitems. unfold page.
  rewrite itemRounds_skipped by exact Hitems. cbn.
  now rewrite Hindex, andb_false_r.
Qed.

Lemma forEachPage_skipped (l : list (string * list DocsJsDocItem)) (pages : Pages) :
  truthy (a_index args) = false ->
  Forall (fun entry => Forall (fun item => skipped item = true) (snd entry)) l ->
  forEachPage readFile codeToHtml localeCompare toUpperCase renderType args g exportCounts l pages
  = Done pages.
Proof.
  intros Hindex. induction 1 as [|[dir items] r Hx Hr IH]; cbn [forEachPage]; [reflexivity|].
  rewrite page_skipped by assumption. exact IH.
Qed.

End PagesOf.

(** The pages [getDocs] returns stand under distinct directories, and
    each of them under the directory of a result file among the sources,
    or under the source directory when index comments are given. *)
Theorem getDocs_one_page_per_directory
    (readFile : string -> string -> option string)
    (codeToHtml : string -> string -> string)
    (explain : string -> list DocsJsDocItem) (localeCompare : string -> string -> Z)
    (toUpperCase : string -> string)
    (renderType : RenderType) (args : DocsArgs) (sourceFiles : list SourceFile)
    (docs : DocsResult)
    (Hrun : getDocs readFile codeToHtml explain localeCompare toUpperCase renderType args sourceFiles
            = Done docs) :
  NoDup (map fst docs) /\
  forall dir,
    dir ∈ map fst docs ->
    (exists file, In file sourceFiles /\ f_isResFile file = true /\ f_dir file = dir) \/
    (truthy (a_index args) = true /\ dir = srcDir args).
Proof.
  unfold getDocs in Hrun. cbv zeta in Hrun.
  set (read := fold_left (readSource (srcDir args) (a_outDir args)) sourceFiles
                         {| jsdocItems := []; sources := []; exports := ∅ |}) in *.
  destruct (readSource_keys (srcDir args) (a_outDir args) sourceFiles sourceFiles
              (fun file H => H) {| jsdocItems := []; sources := []; exports := ∅ |})
    as [Hdup Hfrom].
  { split; [constructor | intros d Hd; now apply elem_of_nil in Hd]. }
  fold read in Hdup, Hfrom.
  match type of Hrun with
  | context [forEachPage _ _ _ _ _ _ ?g0 ?x ?all ?p] =>
      set (allSources := all) in *;
      destruct (forEachPage readFile codeToHtml localeCompare toUpperCase renderType args g0 x
                            allSources p) as [pages| |] eqn:Hpages
  end; cbn in Hrun; try discriminate.
  injection Hrun as <-.
  apply forEachPage_keys in Hpages as (keys & Hkeys & Hsub). cbn in Hkeys.
  rewrite Hkeys.
  assert (Hall : NoDup (map fst allSources) /\
                 forall d, d ∈ map fst allSources ->
                   (exists file, In file sourceFiles /\ f_isResFile file = true /\
                                 f_dir file = d) \/
                   (truthy (a_index args) = true /\ d = srcDir args)).
  { subst allSources. destruct (a_index args) as [index|] eqn:Hindex;
      [destruct (String.eqb index "") eqn:Hempty|];
      try (split; [exact Hdup | intros d Hd; left; now apply Hfrom]).
    split; [now apply setSource_NoDup|].
    intros d [->|Hd]%setSource_keys; [right | left; now apply Hfrom].
    split; [cbn; now rewrite Hempty | reflexivity]. }
  destruct Hall as [Hdup' Hfrom']. split.
  - eapply sublist_NoDup; eassumption.
  - intros dir Hdir. apply Hfrom'. eapply elem_of_sublist; eassumption.
Qed.

(** The two directories of [themeAndButton] give two pages. *)
Lemma getDocs_one_page_per_directory_witness :
  exists docs,
    getDocs noFile plainCode noIndex byCodeUnits asciiUpper Markdown plainArgs themeAndButton
    = Done docs /\
    NoDup (map fst docs) /\
    forall dir,
      dir ∈ map fst docs ->
      (exists file, In file themeAndButton /\ f_isResFile file = true /\ f_dir file = dir) \/
      (truthy (a_index plainArgs) = true /\ dir = srcDir plainArgs).
Proof.
  destruct (getDocs noFile plainCode noIndex byCodeUnits asciiUpper Markdown plainArgs themeAndButton)
    as [docs| |] eqn:Hrun; [|vm_compute in Hrun; discriminate ..].
  exists docs. split; [reflexivity|].
  exact (getDocs_one_page_per_directory noFile plainCode noIndex byCodeUnits asciiUpper Markdown
           plainArgs themeAndButton docs Hrun).
Defined.

(** Sources in which every item is private or undocumented give no page
    at all when no index comments are given: a directory with nothing to
    show is left out of the result. *)
Theorem getDocs_leaves_out_undocumented_sources
    (readFile : string -> string -> option string)
    (codeToHtml : string -> string -> string)
    (explain : string -> list DocsJsDocItem) (localeCompare : string -> string -> Z)
    (toUpperCase : string -> string)
    (renderType : RenderType) (args : DocsArgs) (sourceFiles : list SourceFile)
    (Hindex : truthy (a_index args) = false)
    (Hskipped : Forall (fun file => Forall (fun item => skipped item = true) (f_items file))
                       sourceFiles) :
  getDocs readFile codeToHtml explain localeCompare toUpperCase renderType args sourceFiles = Done [].
Proof.
  unfold getDocs. cbv zeta.
  assert (Hall : (match a_index args with
                  | Some index =>
                      if String.eqb index "" then
                        sources (fold_left (readSource (srcDir args) (a_outDir args)) sourceFiles
                                   {| jsdocItems := []; sources := []; exports := ∅ |})
                      else setSource (srcDir args) (explain index)
                             (sources (fold_left (readSource (srcDir args) (a_outDir args))
                                         sourceFiles
                                         {| jsdocItems := []; sources := []; exports := ∅ |}))
                  | None =>
                      sources (fold_left (readSource (srcDir args) (a_outDir args)) sourceFiles
                                 {| jsdocItems := []; sources := []; exports := ∅ |})
                  end)
                 = sources (fold_left (readSource (srcDir args) (a_outDir args)) sourceFiles
                              {| jsdocItems := []; sources := []; exports := ∅ |})).
  { destruct (a_index args) as [index|]; [|reflexivity]. cbn in Hindex.
    apply negb_false_iff in Hindex. now rewrite Hindex. }
  rewrite Hall. rewrite forEachPage_skipped; [reflexivity | exact Hindex |].
  apply readSource_skipped; [|constructor].
  eapply Forall_impl; [exact Hskipped|]. intros file Hfile. exact Hfile.
Qed.

(** Undocumented helpers give no page. *)
Lemma getDocs_leaves_out_undocumented_sources_witness :
  truthy (a_index plainArgs) = false /\
  Forall (fun file => Forall (fun item => skipped item = true) (f_items file)) helpersOnly /\
  getDocs noFile plainCode noIndex byCodeUnits asciiUpper Html plainArgs helpersOnly = Done [].
Proof.
  assert (Hskipped : Forall (fun file => Forall (fun item => skipped item = true)
                                               (f_items file)) helpersOnly).
  { constructor; [|constructor]. constructor; [reflexivity | constructor]. }
  split; [reflexivity|]. split; [exact Hskipped|].
  exact (getDocs_leaves_out_undocumented_sources noFile plainCode noIndex byCodeUnits asciiUpper Html
           plainArgs helpersOnly eq_refl Hskipped).
Defined.

(** ** The ids of the registered types *)

Lemma anchored_empty : anchored emptyRegistry.
Proof.
  unfold anchored, map_Forall, emptyRegistry. cbn.
  split; [|split]; intros k; intros; rewrite lookup_empty in *; discriminate.
Qed.

Lemma anchored_same (g g' : Registry) :
  g_types g' = g_types g -> g_classes g' = g_classes g -> anchored g -> anchored g'.
Proof. unfold anchored. now intros -> ->. Qed.

Lemma anchored_stub (g : Registry) (memberof : string) :
  sound g -> anchored g ->
  anchored {| g_next := S (g_next g); g_types := g_types g; g_vars := g_vars g;
              g_functions := g_functions g;
              g_classes := <[memberof := classStub (g_next g) memberof]> (g_classes g) |}.
Proof.
  intros (Ht & _) (Ha & Hb & Hc). unfold anchored. cbn. split; [|split].
  - exact Ha.
  - apply map_Forall_insert_2; [now left | exact Hb].
  - intros k k' t c Hk Hk' Heq. apply lookup_insert_Some in Hk' as [[<- <-]|[Hne Hk']].
    + destruct (Ht k t Hk). cbn in Heq. lia.
    + eapply Hc; eassumption.
Qed.

Lemma anchored_type (g : Registry) (name : string) (t : DocsAll) :
  sound g -> anchored g -> e_id t = Some (getId name) -> oid t = g_next g ->
  anchored {| g_next := S (g_next g); g_types := <[name := t]> (g_types g);
              g_vars := g_vars g; g_functions := g_functions g;
              g_classes := g_classes g |}.
Proof.
  intros (_ & Hs & _) (Ha & Hb & Hc) Hid Hoid. unfold anchored. cbn. split; [|split].
  - now apply map_Forall_insert_2.
  - exact Hb.
  - intros k k' x c Hk Hk' Heq. apply lookup_insert_Some in Hk as [[<- <-]|[Hne Hk]].
    + destruct (Hs k' c Hk'). lia.
    + eapply Hc; eassumption.
Qed.

Lemma anchored_class (g : Registry) (name : string) (newInfo : DocsAll) (n : nat) :
  sound g -> anchored g -> e_id newInfo = Some (getId name) -> g_next g <= oid newInfo ->
  anchored {| g_next := n; g_types := <[name := newInfo]> (g_types g);
              g_vars := g_vars g; g_functions := g_functions g;
              g_classes := <[name := newInfo]> (g_classes g) |}.
Proof.
  intros (Ht & Hs & _) (Ha & Hb & Hc) Hid Hlo. unfold anchored. cbn. split; [|split].
  - now apply map_Forall_insert_2.
  - apply map_Forall_insert_2; [now right | exact Hb].
  - intros k k' x c Hk Hk' Heq.
    apply lookup_insert_Some in Hk as [[<- <-]|[Hne Hk]];
      apply lookup_insert_Some in Hk' as [[<- <-]|[Hne' Hk']]; try reflexivity.
    + destruct (Hs k' c Hk'). lia.
    + destruct (Ht k x Hk). lia.
    + eapply Hc; eassumption.
Qed.

Lemma anchored_pushMember (g : Registry) (memberof : string) (info : DocsAll) :
  sound g -> anchored g -> anchored (pushMember memberof info g).
Proof.
  intros (Ht & Hs & Htc & Hcc) (Ha & Hb & Hc). unfold pushMember.
  destruct (g_classes g !! memberof) as [cls|] eqn:Hcls; [|now repeat split].
  set (update := fun entry : DocsAll =>
                   if (oid entry =? oid cls)%nat then pushed cls info else entry).
  unfold anchored. cbn. split; [|split].
  - intros k y Hy. apply lookup_fmap_Some in Hy as [x [<- Hx]].
    unfold update. destruct (oid x =? oid cls)%nat eqn:Heq; [|now apply (Ha k)].
    apply Nat.eqb_eq in Heq. cbn. rewrite <- (Hc k memberof x cls Hx Hcls Heq).
    now apply (Ha k).
  - intros k y Hy. apply lookup_fmap_Some in Hy as [x [<- Hx]].
    unfold update. destruct (oid x =? oid cls)%nat eqn:Heq; [|now apply (Hb k)].
    apply Nat.eqb_eq in Heq. cbn.
    rewrite (Hcc k memberof x cls Hx Hcls Heq). now apply (Hb memberof).
  - intros k k' y z Hy Hz Heq.
    apply lookup_fmap_Some in Hy as [x [<- Hx]]. apply lookup_fmap_Some in Hz as [c [<- Hk']].
    assert (Hoid : forall e, oid (update e) = oid e).
    { intros e. unfold update. destruct (oid e =? oid cls)%nat eqn:He; [|reflexivity].
      apply Nat.eqb_eq in He. now rewrite He. }
    rewrite !Hoid in Heq. unfold update. rewrite Heq.
    destruct (oid c =? oid cls)%nat; [reflexivity|]. eapply Hc; eassumption.
Qed.

Lemma register_anchored (g : Registry) (item : DocsJsDocItem) :
  sound g -> anchored g -> anchored (register g item).
Proof.
  intros Hg Ha. unfold register. destruct (skipped item); [exact Ha|]. cbv zeta.
  match goal with
  | |- context [if ?b then ?stub else g] =>
      set (g1 := if b then stub else g);
      assert (Hg1 : sound g1 /\ anchored g1)
        by (subst g1; destruct b;
            [split; [now apply sound_stub | now apply anchored_stub] | now split])
  end.
  clearbody g1. clear Hg Ha g. destruct Hg1 as [Hg1 Ha1].
  destruct (String.eqb (i_kind item) "typedef").
  { destruct (i_type item) eqn:Htype; [|exact Ha1].
    apply anchored_type; [exact Hg1 | exact Ha1 | | ].
    - unfold getInfo. now rewrite Htype.
    - apply getInfo_name. }
  destruct (String.eqb (i_kind item) "class").
  { apply anchored_class; [exact Hg1 | exact Ha1 | | cbn; lia].
    unfold mergeClass. cbn [e_id].
    destruct (g_classes g1 !! i_name item) as [known|] eqn:Hknown.
    - destruct Ha1 as (_ & Hb & _). cbn [spread e_id].
      destruct (Hb _ _ Hknown) as [Hid|Hid]; rewrite Hid; cbn [orField];
        [|reflexivity].
      unfold getInfo. now destruct (i_type item).
    - unfold getInfo. now destruct (i_type item). }
  destruct (String.eqb (i_kind item) "constant").
  { now apply (anchored_same g1). }
  destruct (String.eqb (i_kind item) "member").
  { destruct (truthy (i_memberof item)).
    - apply anchored_pushMember.
      + apply (sound_next g1); [exact Hg1 | cbn; lia].
      + now apply (anchored_same g1).
    - now apply (anchored_same g1). }
  destruct (String.eqb (i_kind item) "function").
  { destruct (truthy (i_memberof item)).
    - apply anchored_pushMember.
      + apply (sound_next g1); [exact Hg1 | cbn; lia].
      + now apply (anchored_same g1).
    - now apply (anchored_same g1). }
  exact Ha1.
Qed.

Lemma registry_anchored (items : list DocsJsDocItem) :
  sound (fold_left register items emptyRegistry) /\
  anchored (fold_left register items emptyRegistry).
Proof.
  assert (H : forall g, sound g /\ anchored g ->
                        sound (fold_left register items g) /\
                        anchored (fold_left register items g)).
  { induction items as [|item r IH]; intros g Hg; [exact Hg|].
    cbn [fold_left]. apply IH. destruct Hg as [Hs Ha].
    split; [now apply register_sound | now apply register_anchored]. }
  apply H. split; [apply sound_empty | apply anchored_empty].
Qed.

(** Every type and class in the registry [getDocs] builds stands under
    its own name and carries the slug of that name as its id, whatever
    members were pushed on it since; a link to it from its own directory
    is ['#'] and that slug. *)
Theorem registered_type_links_to_its_slug
    (items : list DocsJsDocItem) (name : string) (t : DocsAll)
    (renderType : RenderType) (dir url : string)
    (Hget : g_types (fold_left register items emptyRegistry) !! name = Some t) :
  e_name t = name /\
  e_id t = Some (getId name) /\
  (isString (e_dir t) dir = true -> linkTo renderType dir url t = "#" +:+ getId name).
Proof.
  destruct (registry_anchored items) as [(Hs & _) (Ha & _)].
  destruct (Hs name t Hget) as [Hname _]. pose proof (Ha name t Hget) as Hid.
  split; [exact Hname|]. split; [exact Hid|].
  intros Hdir. unfold linkTo. rewrite Hdir, Hid. cbn [negb]. now rewrite andb_false_r.
Qed.

(** The typedef [Theme] is registered under [Theme] with the id [theme]. *)
Lemma registered_type_links_to_its_slug_witness :
  exists t,
    g_types (fold_left register
               [stamp "src/theme" "src" None (itemOf "Theme" "typedef" (Some ["Object"]) None None)]
               emptyRegistry) !! "Theme" = Some t /\
    e_name t = "Theme" /\
    e_id t = Some (getId "Theme") /\
    (isString (e_dir t) "src/theme" = true ->
     linkTo Html "src/theme" "" t = "#" +:+ getId "Theme").
Proof.
  eexists. split; [reflexivity|].
  apply (registered_type_links_to_its_slug
           [stamp "src/theme" "src" None (itemOf "Theme" "typedef" (Some ["Object"]) None None)]
           "Theme" _ Html "src/theme" "").
  reflexivity.
Defined.

(** ** The unit of a directory *)

(** The unit of [src/theme]: the section of [Theme] stands once. *)
Lemma unit_types_consistent_witness :
  exists e u,
    forEachB (itemRound noFile plainCode Markdown
                (fold_left register
                   [stamp "src/theme" "src" None
                          (itemOf "Theme" "typedef" (Some ["Object"]) None None)]
                   emptyRegistry)
                5 "src/theme" "" true false)
             [stamp "src/theme" "src" None
                    (itemOf "Theme" "typedef" (Some ["Object"]) None None)]
             noEntries emptyUnit = Done (e, u) /\
    consistent u.
Proof.
  destruct (forEachB (itemRound noFile plainCode Markdown
                (fold_left register
                   [stamp "src/theme" "src" None
                          (itemOf "Theme" "typedef" (Some ["Object"]) None None)]
                   emptyRegistry)
                5 "src/theme" "" true false)
             [stamp "src/theme" "src" None
                    (itemOf "Theme" "typedef" (Some ["Object"]) None None)]
             noEntries emptyUnit)
    as [[e u]| |] eqn:Hrun; [|vm_compute in Hrun; discriminate ..].
  exists e, u. split; [reflexivity|].
  exact (unit_types_consistent noFile plainCode Markdown _ 5 "src/theme" "" true false
           _ e u Hrun).
Defined.

(** * The claims on the resolver *)

(** ** The Types section, section by section *)

Lemma In_map_unique {A B : Type} (f : A -> B) (l : list A) (x y : A) :
  NoDup (map f l) -> In x l -> In y l -> f x = f y -> x = y.
Proof.
  induction l as [|a l IH]; [intros _ []|]. cbn [map].
  intros [Ha Hl]%NoDup_cons [<-|Hx] [<-|Hy] Heq; try reflexivity.
  - exfalso. apply Ha. rewrite Heq. apply list_elem_of_In, in_map, Hy.
  - exfalso. apply Ha. rewrite <- Heq. apply list_elem_of_In, in_map, Hx.
  - now apply IH.
Qed.

Section BySections.

Variable readFile : string -> string -> option string.
Variable codeToHtml : string -> string -> string.
Variable renderType : RenderType.
Variable docTypes : gmap string DocsAll.
Variable dir url : string.

Lemma bySections_preorder : PreOrder (bySections readFile codeToHtml renderType docTypes dir url).
Proof.
  split.
  - intros u. exists []. unfold addsSections. cbn.
    split; [now rewrite app_nil_r|]. split; [set_solver|]. split; constructor.
  - intros u1 u2 u3 (b1 & Ht1 & Hu1 & Hd1 & Hf1) (b2 & Ht2 & Hu2 & Hd2 & Hf2).
    exists (b1 ++ b2). unfold addsSections.
    assert (Hfresh : forall name, name ∈ map (fun block : DocsAll * list DocsContent => e_name (fst block)) b2 -> name ∉ usedTypes u2).
    { intros name (block & -> & Hin)%list_elem_of_fmap.
      rewrite Forall_forall in Hf2. now destruct (Hf2 block Hin). }
    split; [|split; [|split]].
    + now rewrite Ht2, Ht1, map_app, concat_app, app_assoc.
    + rewrite Hu2, Hu1, map_app, list_to_set_app_L. set_solver.
    + rewrite map_app. apply NoDup_app. split; [exact Hd1|]. split; [|exact Hd2].
      intros name Hin1 Hin2. apply (Hfresh name Hin2). rewrite Hu1. set_solver.
    + apply Forall_app. split; [exact Hf1|].
      eapply Forall_impl; [exact Hf2|]. intros block (Hnew & Hreg & Hsec).
      split; [|now split]. intros Hold. apply Hnew. rewrite Hu1. set_solver.
Qed.

#[local] Existing Instance bySections_preorder.

Lemma resolveMatch_sections (n : nat) (typeMatches : list string)
    (currentDocType : DocsAll) (match_ : string) (content : list DocsContent) :
  (forall docType,
      framedBy (bySections readFile codeToHtml renderType docTypes dir url) (getTypeContent readFile codeToHtml renderType docTypes dir url
                                     n docType KTypedef 2)) ->
  framedBy (bySections readFile codeToHtml renderType docTypes dir url)
           (resolveMatch renderType docTypes dir url
                         (fun docType =>
                            getTypeContent readFile codeToHtml renderType docTypes dir url
                                           n docType KTypedef 2)
                         typeMatches currentDocType match_ content).
Proof.
  intros Hframe. unfold resolveMatch.
  destruct (negb (includes typeMatches match_)); [apply framedBy_ret, _|].
  destruct (docTypes !! match_) as [docType|] eqn:Hlookup; [|apply framedBy_ret, _].
  destruct (oid docType =? oid currentDocType)%nat; [apply framedBy_ret, _|].
  intros u a u'. rewrite build_bind_unfold, usedHas_unfold.
  destruct (bool_decide (e_name docType ∈ usedTypes u)) eqn:Hused.
  { intros [= _ <-]. reflexivity. }
  apply bool_decide_eq_false in Hused.
  rewrite build_bind_unfold. cbn [useType]. rewrite build_bind_unfold.
  destruct (getTypeContent _ _ _ _ _ _ n docType KTypedef 2 _)
    as [[expanded u2]| |] eqn:Hexpand; try discriminate.
  rewrite build_bind_unfold. cbn [pushTypes]. intros [= _ <-].
  destruct (Hframe _ _ _ _ Hexpand) as (blocks & Ht & Hu & Hd & Hf).
  cbn [types usedTypes] in Ht, Hu, Hf.
  assert (Hfresh : forall name, name ∈ map (fun block : DocsAll * list DocsContent => e_name (fst block)) blocks ->
                     name ∉ {[e_name docType]} ∪ usedTypes u).
  { intros name (block & -> & Hin)%list_elem_of_fmap.
    rewrite Forall_forall in Hf. now destruct (Hf block Hin). }
  exists (blocks ++ [(docType, expanded)]). unfold addsSections. cbn [types usedTypes].
  split; [|split; [|split]].
  - rewrite Ht, map_app, concat_app. cbn. now rewrite app_nil_r, app_assoc.
  - rewrite Hu, map_app, list_to_set_app_L. cbn. set_solver.
  - rewrite map_app. apply NoDup_app. split; [exact Hd|]. split; [|apply NoDup_singleton].
    intros name Hin Hlast. apply list_elem_of_singleton in Hlast. cbn in Hlast. subst name.
    apply (Hfresh _ Hin). set_solver.
  - apply Forall_app. split.
    + eapply Forall_impl; [exact Hf|]. intros block (Hnew & Hreg & Hsec).
      split; [|now split]. intros Hold. apply Hnew. set_solver.
    + constructor; [|constructor]. cbn [fst snd].
      split; [exact Hused|]. split; [now exists match_|].
      eexists n, _, u2. exact Hexpand.
Qed.

Lemma resolver_sections (budget : nat) :
  (forall type current c,
      framedBy (bySections readFile codeToHtml renderType docTypes dir url) (getContent readFile codeToHtml renderType docTypes dir url
                                 budget type current c)) /\
  (forall info kind depth,
      framedBy (bySections readFile codeToHtml renderType docTypes dir url) (getTypeContent readFile codeToHtml renderType docTypes dir url
                                     budget info kind depth)).
Proof.
  induction budget as [|n [IHc IHt]]; (split; [intros type current c | intros info kind depth]);
    cbn [getContent getTypeContent]; try (apply framedBy_lift, _).
  - apply framedBy_forEachB; [apply _|]. intros typeName s _.
    apply resolveTypeName_framed; [apply _|]. intros typeMatches match_ content.
    apply resolveMatch_sections. intros docType. apply IHt.
  - apply typeContent_framed; [apply _ | |].
    + intros type current. apply IHc.
    + intros _ member k d. apply IHt.
Qed.

(** The section of a type: a heading with its name and the body where
    the directory owns the type, nothing where it does not. *)
Lemma sectionOf_shape (docType : DocsAll) (section : list DocsContent) :
  sectionOf readFile codeToHtml renderType docTypes dir url docType section ->
  if isString (e_dir docType) dir
  then exists body, section = tagged "h3" (e_name docType) :: body
  else section = [].
Proof.
  intros (budget & u0 & u1 & Hrun). destruct budget as [|n]; [discriminate Hrun|].
  cbn [getTypeContent] in Hrun.
  pose proof (typeContent_head _ _ _ _ _ _ _ _ _ _ _ _ _ Hrun) as Hhead.
  cbn [isType andb] in Hhead. destruct (isString (e_dir docType) dir); exact Hhead.
Qed.

Hypothesis keyed : wellKeyed docTypes.

(** What the sections added say of one registered type. *)
Lemma addsSections_type (blocks : list (DocsAll * list DocsContent)) (u u' : Unit)
    (name : string) (docType : DocsAll) :
  (addsSections readFile codeToHtml renderType docTypes dir url) blocks u u' ->
  docTypes !! name = Some docType ->
  (name ∈ usedTypes u -> forall section, ~ In (docType, section) blocks) /\
  (name ∉ usedTypes u -> name ∈ usedTypes u' ->
   exists section,
     In (docType, section) blocks /\
     sectionOf readFile codeToHtml renderType docTypes dir url docType section /\
     forall d s, In (d, s) blocks -> e_name d = name -> (d, s) = (docType, section)).
Proof.
  intros (Ht & Hu & Hd & Hf) Hlookup.
  assert (Hname : e_name docType = name) by exact (keyed _ _ Hlookup).
  rewrite List.Forall_forall in Hf. split.
  - intros Hold section Hin. destruct (Hf _ Hin) as [Hnew _]. cbn in Hnew.
    apply Hnew. now rewrite Hname.
  - intros Hnew Hused. rewrite Hu in Hused.
    apply elem_of_union in Hused as [Hused|Hused]; [contradiction|].
    apply elem_of_list_to_set, list_elem_of_fmap in Hused as ([d s] & Hds & Hin).
    cbn in Hds. apply list_elem_of_In in Hin.
    destruct (Hf _ Hin) as (_ & [key Hkey] & Hsec). cbn [fst snd] in Hkey, Hsec.
    assert (key = name) by (rewrite <- (keyed _ _ Hkey); congruence). subst key.
    assert (d = docType) by congruence. subst d.
    exists s. split; [exact Hin|]. split; [exact Hsec|].
    intros d' s' Hin' Hname'.
    apply (In_map_unique (fun block : DocsAll * list DocsContent => e_name (fst block)) blocks (d', s') (docType, s) Hd Hin' Hin).
    cbn. congruence.
Qed.

End BySections.

(** ** The nodes of a reference *)

Section Nodes.

Variable renderType : RenderType.
Variable docTypes : gmap string DocsAll.
Variable dir url : string.

Lemma linkedContent_In (typeName : string) (type : list string) :
  In typeName type ->
  forall c0, In (nameContent renderType docTypes dir url typeName)
                (linkedContent renderType docTypes dir url type c0).
Proof.
  unfold linkedContent.
  assert (Hkeep : forall l c0 node,
             In node c0 ->
             In node (fold_left (fun c tn =>
                                   separate c ++ [nameContent renderType docTypes dir url tn])
                                l c0)).
  { induction l as [|x l IH]; intros c0 node Hin; cbn [fold_left]; [exact Hin|].
    apply IH, in_or_app. left. destruct c0; [destruct Hin|].
    cbn [separate]. apply in_or_app. now left. }
  induction type as [|x l IH]; intros Hin c0; [destruct Hin|]. cbn [fold_left].
  destruct Hin as [->|Hin]; [|now apply IH].
  apply Hkeep, in_or_app. right. now left.
Qed.


Lemma nameContent_link (name typeName : string) (docType : DocsAll) :
  referenced name typeName ->
  docTypes !! name = Some docType ->
  exists nodes,
    nameContent renderType docTypes dir url typeName = ArrNode nodes None None /\
    In (linkNode docType (linkTo renderType dir url docType)) nodes.
Proof.
  intros [Hincl Htoken]%referenced_matches Hlookup. unfold nameContent.
  destruct (typeMatchesOf typeName) as [|m ms] eqn:Hm; [discriminate Hincl|].
  eexists. split; [reflexivity|].
  apply in_map_iff. exists name. split; [|exact Htoken].
  unfold tokenNode. now rewrite Hincl, Hlookup.
Qed.



End Nodes.

(** ** What a call of [getContent] does for the types it references *)

Section References.

Variable readFile : string -> string -> option string.
Variable codeToHtml : string -> string -> string.
Variable renderType : RenderType.
Variable docTypes : gmap string DocsAll.
Variable dir url : string.
Hypothesis keyed : wellKeyed docTypes.

Variable budget : nat.
Variable type : list string.
Variable currentDocType : DocsAll.
Variable c0 c : list DocsContent.
Variable u u' : Unit.
Hypothesis run :
  getContent readFile codeToHtml renderType docTypes dir url budget type currentDocType c0 u
  = Done (c, u').

Lemma getContent_link (typeName name : string) (docType : DocsAll) :
  In typeName type -> referenced name typeName -> docTypes !! name = Some docType ->
  exists nodes,
    In (ArrNode nodes None None) c /\
    In (linkNode docType (linkTo renderType dir url docType)) nodes.
Proof.
  intros Hin Href Hlookup.
  rewrite (getContent_value _ _ _ _ _ _ _ _ _ _ _ _ _ run).
  destruct (nameContent_link renderType docTypes dir url name typeName docType Href Hlookup)
    as (nodes & Hnode & Hlink).
  exists nodes. split; [|exact Hlink]. rewrite <- Hnode. now apply linkedContent_In.
Qed.

Lemma getContent_count (name : string) (docType : DocsAll) :
  docTypes !! name = Some docType ->
  (name ∈ usedTypes u -> sectionCount name (types u') = sectionCount name (types u)) /\
  (consistent u -> name ∉ usedTypes u -> name ∈ usedTypes u' ->
   sectionCount name (types u') = if isString (e_dir docType) dir then 1 else 0) /\
  (isString (e_dir docType) dir = false ->
   sectionCount name (types u') = sectionCount name (types u)).
Proof.
  intros Hlookup.
  destruct (getContent_counted readFile codeToHtml renderType docTypes dir url keyed
              _ _ _ _ _ _ _ run) as [Hsub Hcount].
  split; [|split].
  - intros Hold. rewrite Hcount. unfold newlyUsed.
    rewrite (bool_decide_eq_true_2 _ Hold). cbn [negb]. rewrite andb_false_r. cbn. lia.
  - intros Hu Hnew Hused. rewrite Hcount. unfold newlyUsed, ownedHere.
    rewrite Hlookup, (bool_decide_eq_true_2 _ Hused), (bool_decide_eq_false_2 _ Hnew).
    cbn [negb andb]. destruct (Hu name) as [_ Hin0].
    destruct (sectionCount name (types u)); [|exfalso; apply Hnew, Hin0; lia].
    destruct (isString (e_dir docType) dir); reflexivity.
  - intros Hother. rewrite Hcount. unfold ownedHere. rewrite Hlookup, Hother.
    rewrite andb_false_r. lia.
Qed.

(** The sections the call added, and what they hold of a registered
    type. *)
Lemma getContent_sections :
  exists blocks,
    addsSections readFile codeToHtml renderType docTypes dir url blocks u u' /\
    forall name docType,
      docTypes !! name = Some docType ->
      (name ∈ usedTypes u -> forall section, ~ In (docType, section) blocks) /\
      (name ∉ usedTypes u -> name ∈ usedTypes u' ->
       exists section,
         In (docType, section) blocks /\
         (forall d s, In (d, s) blocks -> e_name d = name -> (d, s) = (docType, section)) /\
         sectionOf readFile codeToHtml renderType docTypes dir url docType section /\
         (if isString (e_dir docType) dir
          then exists body, section = tagged "h3" name :: body
          else section = [])).
Proof.
  destruct (proj1 (resolver_sections readFile codeToHtml renderType docTypes dir url budget)
              _ _ _ _ _ _ run) as [blocks Hadds].
  exists blocks. split; [exact Hadds|]. intros name docType Hlookup.
  destruct (addsSections_type readFile codeToHtml renderType docTypes dir url keyed
              blocks u u' name docType Hadds Hlookup) as [Hold Hnew].
  split; [exact Hold|]. intros Hfresh Hused.
  destruct (Hnew Hfresh Hused) as (section & Hin & Hsec & Hone).
  exists section. split; [exact Hin|]. split; [exact Hone|]. split; [exact Hsec|].
  pose proof (sectionOf_shape _ _ _ _ _ _ _ _ Hsec) as Hshape.
  now rewrite (keyed _ _ Hlookup) in Hshape.
Qed.

End References.

(** C1 (as amended). A call of [getContent] that returns, in a unit in
    whose Types section no section stands twice, leaves one in which none
    does, and returns the nodes of the expressions and nothing else. What
    it adds to the Types section are full sections of registered types
    that were not used, one after the other, no type twice. For every
    registered type an expression references, other than the entity whose
    content is built: the reference is a link node; the type is used
    afterwards; if it was used before, no section of it is among those
    added and its headings are as many as before; if it was not, exactly
    one of the added sections is its own, all that [getTypeContent]
    returned for it, which is its heading followed by its body where the
    directory of the unit owns the type, and which is empty where another
    directory does. A reference is a whole word of the expression that
    begins with no built-in name and that the token pattern gives as a
    token. *)
Theorem referenced_type_section_at_most_once
    (readFile : string -> string -> option string)
    (codeToHtml : string -> string -> string) (renderType : RenderType)
    (docTypes : gmap string DocsAll) (dir url : string) (budget : nat)
    (type : list string) (currentDocType : DocsAll) (c0 c : list DocsContent)
    (u u' : Unit) :
  wellKeyed docTypes ->
  consistent u ->
  getContent readFile codeToHtml renderType docTypes dir url budget type currentDocType c0 u
  = Done (c, u') ->
  consistent u' /\
  c = linkedContent renderType docTypes dir url type c0 /\
  exists blocks,
    addsSections readFile codeToHtml renderType docTypes dir url blocks u u' /\
    forall typeName name docType,
      In typeName type ->
      referenced name typeName ->
      docTypes !! name = Some docType ->
      oid docType <> oid currentDocType ->
      (exists nodes,
          In (ArrNode nodes None None) c /\
          In (linkNode docType (linkTo renderType dir url docType)) nodes) /\
      name ∈ usedTypes u' /\
      (name ∈ usedTypes u ->
       (forall section, ~ In (docType, section) blocks) /\
       sectionCount name (types u') = sectionCount name (types u)) /\
      (name ∉ usedTypes u ->
       exists section,
         In (docType, section) blocks /\
         (forall d s, In (d, s) blocks -> e_name d = name -> (d, s) = (docType, section)) /\
         sectionOf readFile codeToHtml renderType docTypes dir url docType section /\
         (if isString (e_dir docType) dir
          then exists body, section = tagged "h3" name :: body
          else section = []) /\
         sectionCount name (types u') = if isString (e_dir docType) dir then 1 else 0).
Proof.
  intros Hkeyed Hu Hrun.
  split.
  { eapply counted_consistent; [exact Hu|].
    exact (getContent_counted readFile codeToHtml renderType docTypes dir url Hkeyed
             _ _ _ _ _ _ _ Hrun). }
  split; [exact (getContent_value _ _ _ _ _ _ _ _ _ _ _ _ _ Hrun)|].
  destruct (getContent_sections readFile codeToHtml renderType docTypes dir url Hkeyed
              budget type currentDocType c0 c u u' Hrun) as (blocks & Hadds & Hblocks).
  exists blocks. split; [exact Hadds|].
  intros typeName name docType Hin Href Hlookup Hoid.
  assert (Hused : name ∈ usedTypes u').
  { eapply (getContent_uses readFile codeToHtml renderType docTypes dir url name docType);
      eassumption. }
  destruct (getContent_count readFile codeToHtml renderType docTypes dir url Hkeyed
              budget type currentDocType c0 c u u' Hrun name docType Hlookup)
    as (Hsame & Hfirst & _).
  destruct (Hblocks name docType Hlookup) as [Hold Hnew].
  split; [exact (getContent_link readFile codeToHtml renderType docTypes dir url
                   budget type currentDocType c0 c u u' Hrun typeName name docType
                   Hin Href Hlookup)|].
  split; [exact Hused|]. split.
  - intros Hwas. split; [now apply Hold | now apply Hsame].
  - intros Hfresh. destruct (Hnew Hfresh Hused) as (section & Hsec & Hone & Hfull & Hshape).
    exists section. repeat (split; [assumption|]). now apply Hfirst.
Qed.

Lemma referenced_word (name typeName : string) :
  In name (wordRuns EmptyString typeName) ->
  beginsWithBuiltin name = false ->
  In name (allMatchesOf typeName) ->
  referenced name typeName.
Proof. intros H1 H2 H3. now repeat split. Qed.

(** The parameters of [setTheme] reference [Theme] twice; in the unit of
    the directory that owns [Theme] both references are links, and the
    section of [Theme], its heading and its body, is added once. *)
Lemma referenced_type_section_at_most_once_witness :
  exists c u' blocks body,
    getContent noFile plainCode Markdown (themeIn "src/theme") "src/theme" "" 5
               ["Theme"; "Theme[]"] setTheme [] emptyUnit = Done (c, u') /\
    consistent u' /\
    c = linkedContent Markdown (themeIn "src/theme") "src/theme" "" ["Theme"; "Theme[]"] [] /\
    addsSections noFile plainCode Markdown (themeIn "src/theme") "src/theme" ""
                 blocks emptyUnit u' /\
    In (typedefOf 1 "Theme" ["Object"] "src/theme" (Some [propOf "color" ["string"]]),
        tagged "h3" "Theme" :: body) blocks /\
    "Theme" ∈ usedTypes u' /\
    sectionCount "Theme" (types u') = 1.
Proof.
  destruct (getContent noFile plainCode Markdown (themeIn "src/theme") "src/theme" "" 5
                       ["Theme"; "Theme[]"] setTheme [] emptyUnit)
    as [[c u']| |] eqn:Hrun; [|vm_compute in Hrun; discriminate ..].
  destruct (referenced_type_section_at_most_once noFile plainCode Markdown
              (themeIn "src/theme") "src/theme" "" 5 ["Theme"; "Theme[]"] setTheme [] c
              emptyUnit u' (wellKeyed_themeIn "src/theme") consistent_empty Hrun)
    as (Hcons & Hc & blocks & Hadds & Hrefs).
  destruct (Hrefs "Theme[]" "Theme"
              (typedefOf 1 "Theme" ["Object"] "src/theme" (Some [propOf "color" ["string"]])))
    as (_ & Hused & _ & Hnew).
  - cbn. auto.
  - apply referenced_word; [vm_compute; auto | reflexivity | vm_compute; auto].
  - reflexivity.
  - cbn. lia.
  - destruct Hnew as (section & Hin & _ & _ & Hshape & Hcount); [set_solver|].
    cbn in Hshape. destruct Hshape as [body ->].
    exists c, u', blocks, body. repeat (split; [assumption || reflexivity|]). exact Hcount.
Defined.

(** C1 as stated fails for a type of another directory: [Theme] is
    referenced twice in the unit of [src/button], both references are
    links, [Theme] is used, and the Types section of the unit stays empty. *)
Lemma foreign_type_referenced_twice_never_appended :
  exists c u',
    getContent noFile plainCode Markdown (themeIn "src/theme") "src/button" "" 5
               ["Theme"; "Theme[]"] setTheme [] emptyUnit = Done (c, u') /\
    c = [ArrNode [StrNode "Theme" (Some "a") (Some "/src/theme/README.md#theme")] None None;
         text " | ";
         ArrNode [StrNode "Theme" (Some "a") (Some "/src/theme/README.md#theme");
                  text "["; text "]"] None None] /\
    referenced "Theme" "Theme" /\ referenced "Theme" "Theme[]" /\
    sectionCount "Theme" (types u') = 0 /\ types u' = [].
Proof.
  eexists. eexists. split; [vm_compute; reflexivity|].
  split; [reflexivity|].
  split; [apply referenced_word; [vm_compute; auto | reflexivity | vm_compute; auto]|].
  split; [apply referenced_word; [vm_compute; auto | reflexivity | vm_compute; auto]|].
  split; reflexivity.
Qed.

(** ** Types that reference each other *)

(** C2 (as amended). The calls [getContent] and [getTypeContent] make of
    each other go no deeper than twice the number of registered types, and
    a few more: with that budget neither runs out, whatever the types
    reference, themselves and each other included, and a larger budget
    changes nothing of what they return. When a type [a] that the
    directory of the unit owns references a type [b] that it owns too,
    which may reference [a] back, a call of [getContent] that references
    [a] in a unit that has used neither adds the full section of each of
    the two, its heading and its body as [getTypeContent] returned them,
    exactly once: one section among those added is that of [a], one is
    that of [b], and each heading stands once in the Types section. A
    referenced type that another directory owns is linked and not
    rendered: the reference is a link node, every section added for the
    type is empty and its headings are as many as before. *)
Theorem resolver_terminates_mutual_types_once
    (readFile : string -> string -> option string)
    (codeToHtml : string -> string -> string) (renderType : RenderType)
    (docTypes : gmap string DocsAll) (dir url : string) :
  (forall budget budget' type currentDocType c0 u,
      2 * size (typeNames docTypes) + 1 <= budget -> budget <= budget' ->
      getContent readFile codeToHtml renderType docTypes dir url budget type
                 currentDocType c0 u <> Exhausted /\
      getContent readFile codeToHtml renderType docTypes dir url budget' type
                 currentDocType c0 u
      = getContent readFile codeToHtml renderType docTypes dir url budget type
                   currentDocType c0 u) /\
  (forall budget budget' info kind depth u,
      2 * size (typeNames docTypes) + 3 <= budget -> budget <= budget' ->
      getTypeContent readFile codeToHtml renderType docTypes dir url budget info kind depth u
      <> Exhausted /\
      getTypeContent readFile codeToHtml renderType docTypes dir url budget' info kind depth u
      = getTypeContent readFile codeToHtml renderType docTypes dir url budget info kind
                       depth u) /\
  (forall a b A B budget type typeName currentDocType c0 c u u',
      wellKeyed docTypes ->
      docTypes !! a = Some A -> docTypes !! b = Some B -> oid B <> oid A ->
      isString (e_dir A) dir = true -> isString (e_dir B) dir = true ->
      refersTo A b ->
      consistent u -> a ∉ usedTypes u -> b ∉ usedTypes u ->
      In typeName type -> referenced a typeName -> oid A <> oid currentDocType ->
      getContent readFile codeToHtml renderType docTypes dir url budget type
                 currentDocType c0 u = Done (c, u') ->
      exists blocks bodyA bodyB,
        addsSections readFile codeToHtml renderType docTypes dir url blocks u u' /\
        In (A, tagged "h3" a :: bodyA) blocks /\
        In (B, tagged "h3" b :: bodyB) blocks /\
        sectionOf readFile codeToHtml renderType docTypes dir url A (tagged "h3" a :: bodyA) /\
        sectionOf readFile codeToHtml renderType docTypes dir url B (tagged "h3" b :: bodyB) /\
        (forall d s, In (d, s) blocks -> e_name d = a -> (d, s) = (A, tagged "h3" a :: bodyA)) /\
        (forall d s, In (d, s) blocks -> e_name d = b -> (d, s) = (B, tagged "h3" b :: bodyB)) /\
        sectionCount a (types u') = 1 /\ sectionCount b (types u') = 1 /\ consistent u') /\
  (forall name docType budget type typeName currentDocType c0 c u u',
      wellKeyed docTypes ->
      docTypes !! name = Some docType ->
      isString (e_dir docType) dir = false ->
      In typeName type -> referenced name typeName ->
      getContent readFile codeToHtml renderType docTypes dir url budget type
                 currentDocType c0 u = Done (c, u') ->
      (exists nodes,
          In (ArrNode nodes None None) c /\
          In (linkNode docType (linkTo renderType dir url docType)) nodes) /\
      sectionCount name (types u') = sectionCount name (types u) /\
      exists blocks,
        addsSections readFile codeToHtml renderType docTypes dir url blocks u u' /\
        forall section, In (docType, section) blocks -> section = []).
Proof.
  split; [|split; [|split]].
  - intros budget budget' type current c0 u Hbudget Hle.
    assert (Hlive : getContent readFile codeToHtml renderType docTypes dir url budget type
                               current c0 u <> Exhausted).
    { apply (proj1 (resolver_live readFile codeToHtml renderType docTypes dir url budget)
               (size (typeNames docTypes)) type current c0 Hbudget).
      apply unusedNames_bound. }
    split; [exact Hlive|].
    now apply (getContent_budget readFile codeToHtml renderType docTypes dir url).
  - intros budget budget' info kind depth u Hbudget Hle.
    assert (Hlive : getTypeContent readFile codeToHtml renderType docTypes dir url budget
                                   info kind depth u <> Exhausted).
    { apply (proj2 (resolver_live readFile codeToHtml renderType docTypes dir url budget)
               (size (typeNames docTypes)) info kind depth).
      - destruct (isClass kind); lia.
      - apply unusedNames_bound. }
    split; [exact Hlive|].
    now apply (getTypeContent_budget readFile codeToHtml renderType docTypes dir url).
  - intros a b A B budget type typeName current c0 c u u'
      Hkeyed Ha Hb Hoid HdirA HdirB Hrefers Hu Hna Hnb Hin Href Hcur Hrun.
    assert (Hused_a : a ∈ usedTypes u').
    { eapply (getContent_uses readFile codeToHtml renderType docTypes dir url a A);
        eassumption. }
    assert (Hused_b : b ∈ usedTypes u').
    { destruct (getContent_keeps readFile codeToHtml renderType docTypes dir url a b A B
                  Hkeyed Ha Hb Hoid HdirA Hrefers _ _ _ _ _ _ _ Hrun) as [_ Hfollows].
      apply Hfollows; [|exact Hused_a]. intros Hold. contradiction. }
    destruct (getContent_sections readFile codeToHtml renderType docTypes dir url Hkeyed
                budget type current c0 c u u' Hrun) as (blocks & Hadds & Hblocks).
    destruct (Hblocks a A Ha) as [_ HnewA].
    destruct (HnewA Hna Hused_a) as (sa & HinA & HoneA & HsecA & HshapeA).
    destruct (Hblocks b B Hb) as [_ HnewB].
    destruct (HnewB Hnb Hused_b) as (sb & HinB & HoneB & HsecB & HshapeB).
    rewrite HdirA in HshapeA. rewrite HdirB in HshapeB.
    destruct HshapeA as [bodyA ->]. destruct HshapeB as [bodyB ->].
    exists blocks, bodyA, bodyB.
    repeat (split; [assumption|]).
    destruct (getContent_count readFile codeToHtml renderType docTypes dir url Hkeyed
                budget type current c0 c u u' Hrun a A Ha) as (_ & HfirstA & _).
    destruct (getContent_count readFile codeToHtml renderType docTypes dir url Hkeyed
                budget type current c0 c u u' Hrun b B Hb) as (_ & HfirstB & _).
    split; [rewrite (HfirstA Hu Hna Hused_a), HdirA; reflexivity|].
    split; [rewrite (HfirstB Hu Hnb Hused_b), HdirB; reflexivity|].
    eapply counted_consistent; [exact Hu|].
    exact (getContent_counted readFile codeToHtml renderType docTypes dir url Hkeyed
             _ _ _ _ _ _ _ Hrun).
  - intros name docType budget type typeName current c0 c u u'
      Hkeyed Hlookup Hother Hin Href Hrun.
    split; [exact (getContent_link readFile codeToHtml renderType docTypes dir url
                     budget type current c0 c u u' Hrun typeName name docType
                     Hin Href Hlookup)|].
    destruct (getContent_count readFile codeToHtml renderType docTypes dir url Hkeyed
                budget type current c0 c u u' Hrun name docType Hlookup) as (_ & _ & Hsame).
    split; [now apply Hsame|].
    destruct (proj1 (resolver_sections readFile codeToHtml renderType docTypes dir url budget)
                _ _ _ _ _ _ Hrun) as [blocks Hadds].
    exists blocks. split; [exact Hadds|]. intros section Hsec.
    destruct Hadds as (_ & _ & _ & Hf). rewrite List.Forall_forall in Hf.
    destruct (Hf _ Hsec) as (_ & _ & Hfull). cbn [fst snd] in Hfull.
    apply sectionOf_shape in Hfull. now rewrite Hother in Hfull.
Qed.

(** [Node] and [Edge] reference each other; in the unit of the directory
    that owns both, a reference to [Node] is resolved within the budget and
    adds the section of each, heading and body, once. *)
Lemma resolver_terminates_mutual_types_once_witness :
  exists c u' blocks bodyNode bodyEdge,
    getContent noFile plainCode Html (nodeAndEdge "src/graph") "src/graph" "" 5
               ["Node"] visit [] emptyUnit = Done (c, u') /\
    refersTo (typedefOf 1 "Node" ["Object"] "src/graph" (Some [propOf "edges" ["Edge[]"]]))
             "Edge" /\
    refersTo (typedefOf 2 "Edge" ["Object"] "src/graph"
                        (Some [propOf "from" ["Node"]; propOf "to" ["Node"]]))
             "Node" /\
    addsSections noFile plainCode Html (nodeAndEdge "src/graph") "src/graph" ""
                 blocks emptyUnit u' /\
    In (typedefOf 1 "Node" ["Object"] "src/graph" (Some [propOf "edges" ["Edge[]"]]),
        tagged "h3" "Node" :: bodyNode) blocks /\
    In (typedefOf 2 "Edge" ["Object"] "src/graph"
                  (Some [propOf "from" ["Node"]; propOf "to" ["Node"]]),
        tagged "h3" "Edge" :: bodyEdge) blocks /\
    sectionCount "Node" (types u') = 1 /\ sectionCount "Edge" (types u') = 1 /\
    consistent u'.
Proof.
  destruct (getContent noFile plainCode Html (nodeAndEdge "src/graph") "src/graph" "" 5
                       ["Node"] visit [] emptyUnit)
    as [[c u']| |] eqn:Hrun; [|vm_compute in Hrun; discriminate ..].
  assert (Hedge : refersTo (typedefOf 1 "Node" ["Object"] "src/graph"
                                       (Some [propOf "edges" ["Edge[]"]])) "Edge").
  { exists ["Edge[]"], "Edge[]". cbn. split; [auto|]. split; [auto|].
    apply referenced_word; [vm_compute; auto | reflexivity | vm_compute; auto]. }
  assert (Hnode : refersTo (typedefOf 2 "Edge" ["Object"] "src/graph"
                                       (Some [propOf "from" ["Node"]; propOf "to" ["Node"]]))
                           "Node").
  { exists ["Node"], "Node". cbn. split; [auto|]. split; [auto|].
    apply referenced_word; [vm_compute; auto | reflexivity | vm_compute; auto]. }
  assert (HA : nodeAndEdge "src/graph" !! "Node"
               = Some (typedefOf 1 "Node" ["Object"] "src/graph"
                                 (Some [propOf "edges" ["Edge[]"]]))) by reflexivity.
  assert (HB : nodeAndEdge "src/graph" !! "Edge"
               = Some (typedefOf 2 "Edge" ["Object"] "src/graph"
                                 (Some [propOf "from" ["Node"]; propOf "to" ["Node"]])))
    by reflexivity.
  assert (Hna : "Node" ∉ usedTypes emptyUnit) by set_solver.
  assert (Hnb : "Edge" ∉ usedTypes emptyUnit) by set_solver.
  assert (Href : referenced "Node" "Node")
    by (apply referenced_word; [vm_compute; auto | reflexivity | vm_compute; auto]).
  destruct (proj1 (proj2 (proj2 (resolver_terminates_mutual_types_once noFile plainCode Html
                                   (nodeAndEdge "src/graph") "src/graph" "")))
              "Node" "Edge" _ _ 5 ["Node"] "Node" visit [] c emptyUnit u'
              (wellKeyed_nodeAndEdge "src/graph") HA HB
              ltac:(cbn; lia) eq_refl eq_refl Hedge consistent_empty Hna Hnb
              ltac:(cbn; auto) Href ltac:(cbn; lia) Hrun)
    as (blocks & bodyNode & bodyEdge & Hadds & HinN & HinE & _ & _ & _ & _ & HcN & HcE & Hcons).
  exists c, u', blocks, bodyNode, bodyEdge.
  repeat (split; [assumption || reflexivity|]). exact Hcons.
Defined.

(** C2 as stated fails for types of another directory: in the unit of
    [src/walk] the reference to [Node], owned by [src/graph], is resolved
    to a link, and neither [Node] nor [Edge] is rendered. *)
Lemma foreign_mutual_types_not_rendered :
  exists c u',
    getContent noFile plainCode Html (nodeAndEdge "src/graph") "src/walk" "" 5
               ["Node"] visit [] emptyUnit = Done (c, u') /\
    c = [ArrNode [StrNode "Node" (Some "a") (Some "/src/graph/#node")] None None] /\
    sectionCount "Node" (types u') = 0 /\ sectionCount "Edge" (types u') = 0 /\
    types u' = [].
Proof.
  eexists. eexists. split; [vm_compute; reflexivity|].
  repeat split; reflexivity.
Qed.

(** ** The target of a reference *)




(** ** A failed read of an example, up to [getDocs] *)

Section Rejects.

Variable readFile : string -> string -> option string.
Variable codeToHtml : string -> string -> string.
Variable explain : string -> list DocsJsDocItem.
Variable localeCompare : string -> string -> Z.
Variable toUpperCase : string -> string.
Variable renderType : RenderType.

Lemma entityItem_done (g : Registry) (budget : nat) (dir url : string) (single : bool)
    (registry : gmap string DocsAll) (used : gset string) (kind : DocsKind)
    (keep : string -> list DocsContent -> Entries -> Entries)
    (name : string) (e e1 : Entries) (u u1 : Unit) :
  entityItem readFile codeToHtml renderType g budget dir url single
             registry used kind keep name e u = Done (e1, u1) ->
  e1 = e \/
  exists info content,
    registry !! name = Some info /\
    getTypeContent readFile codeToHtml renderType (g_types g) dir url budget info kind
                   (entityDepth single) u = Done (content, u1) /\
    e1 = keep name content e.
Proof.
  unfold entityItem. destruct (registry !! name) as [info|]; [|intros [= <- _]; now left].
  destruct (bool_decide _); [intros [= <- _]; now left|].
  rewrite build_bind_unfold.
  destruct (getTypeContent _ _ _ _ _ _ _ _ _ _ u) as [[content u0]| |] eqn:Hrun;
    try discriminate.
  intros [= <- <-]. right. now exists info, content.
Qed.

Section Round.

Variable g : Registry.
Variable budget : nat.
Variable dir url : string.
Variable single isIndex : bool.
(** The entity whose examples cannot be read. *)
Variable kind : DocsKind.
Variable name : string.
Variable info : DocsAll.
Hypothesis registered : registryFor g kind !! name = Some info.
Hypothesis rejected :
  fails (getTypeContent readFile codeToHtml renderType (g_types g) dir url budget info kind
                        (entityDepth single)).

Local Ltac kept H :=
  apply entityItem_done in H as [->|(inf & content & Hl & Hrun & ->)]; [easy|];
  intros Hfree; destruct kind; cbn [usedOf withVar withFunction withClass
                                     u_usedVars u_usedFunctions u_usedClasses] in *;
  try exact Hfree;
  intros [->%elem_of_singleton|Hin]%elem_of_union; [|now apply Hfree];
  cbn [registryFor] in registered; rewrite registered in Hl; injection Hl as <-;
  now apply rejected in Hrun.

Lemma vars_keep (item : string) (e e1 : Entries) (u u1 : Unit) :
  entityItem readFile codeToHtml renderType g budget dir url single
             (g_vars g) (u_usedVars e) KTypedef withVar item e u = Done (e1, u1) ->
  name ∉ usedOf kind e -> name ∉ usedOf kind e1.
Proof. intros H. kept H. Qed.

Lemma functions_keep (item : string) (e e1 : Entries) (u u1 : Unit) :
  entityItem readFile codeToHtml renderType g budget dir url single
             (g_functions g) (u_usedFunctions e) KFunction withFunction item e u
  = Done (e1, u1) ->
  name ∉ usedOf kind e -> name ∉ usedOf kind e1.
Proof. intros H. kept H. Qed.

Lemma classes_keep (item : string) (e e1 : Entries) (u u1 : Unit) :
  entityItem readFile codeToHtml renderType g budget dir url single
             (g_classes g) (u_usedClasses e) KClass withClass item e u = Done (e1, u1) ->
  name ∉ usedOf kind e -> name ∉ usedOf kind e1.
Proof. intros H. kept H. Qed.

Lemma fileItem_keeps (item : DocsJsDocItem) (e e1 : Entries) (u u1 : Unit) :
  fileItem readFile codeToHtml renderType dir item e u = Done (e1, u1) ->
  usedOf kind e1 = usedOf kind e.
Proof.
  unfold fileItem. destruct (i_description item) as [description|]; [|discriminate].
  destruct (labelled "title:" description) as [title desc].
  destruct (i_examples item) as [examples|].
  - rewrite build_bind_unfold, lift_unfold.
    destruct (normalizeExamples _ _ _ _ _ _); try discriminate.
    intros [= <- _]. now destruct kind.
  - intros [= <- _]. now destruct kind.
Qed.

(** A round that returns leaves the entity out of the used set of its
    kind. *)
Lemma itemRound_keeps (item : DocsJsDocItem) (e e1 : Entries) (u u1 : Unit) :
  itemRound readFile codeToHtml renderType g budget dir url single isIndex item e u
  = Done (e1, u1) ->
  name ∉ usedOf kind e -> name ∉ usedOf kind e1.
Proof.
  unfold itemRound. destruct (skipped item); [now intros [= <- _]|]. cbv zeta.
  match goal with
  | |- context [if ?b then withIndex e else e] =>
      set (e0 := if b then withIndex e else e);
      assert (He0 : usedOf kind e0 = usedOf kind e)
        by (subst e0; destruct b; [now destruct kind | reflexivity])
  end.
  rewrite build_bind_unfold.
  match goal with
  | |- match ?m with _ => _ end = _ -> _ =>
      destruct m as [[ea ua]| |] eqn:Ha; try discriminate
  end.
  assert (Hea : usedOf kind ea = usedOf kind e).
  { destruct (String.eqb (i_kind item) "file").
    - apply fileItem_keeps in Ha. congruence.
    - injection Ha as <- _. exact He0. }
  rewrite build_bind_unfold.
  match goal with
  | |- match ?m with _ => _ end = _ -> _ =>
      destruct m as [[[] ub]| |] eqn:Hb; try discriminate
  end.
  rewrite build_bind_unfold.
  match goal with
  | |- match ?m with _ => _ end = _ -> _ =>
      destruct m as [[ec uc]| |] eqn:Hc; try discriminate
  end.
  rewrite build_bind_unfold.
  match goal with
  | |- match ?m with _ => _ end = _ -> _ =>
      destruct m as [[ed ud]| |] eqn:Hd; try discriminate
  end.
  intros He Hfree. rewrite <- Hea in Hfree.
  assert (Hfc : name ∉ usedOf kind ec).
  { destruct (_ || _); [now apply (vars_keep _ _ _ _ _ Hc) | now injection Hc as <- _]. }
  assert (Hfd : name ∉ usedOf kind ed).
  { destruct (String.eqb (i_kind item) "function");
      [now apply (functions_keep _ _ _ _ _ Hd) | now injection Hd as <- _]. }
  destruct (String.eqb (i_kind item) "class");
    [now apply (classes_keep _ _ _ _ _ He) | now injection He as <- _].
Qed.

(** The round of the entity does not return. *)
Lemma itemRound_rejected (item : DocsJsDocItem) (e : Entries) :
  skipped item = false -> i_name item = name -> entityOf g item = Some (kind, info) ->
  name ∉ usedOf kind e ->
  fails (itemRound readFile codeToHtml renderType g budget dir url single isIndex item e).
Proof.
  intros Hskip Hname Hentity Hfree. unfold itemRound. rewrite Hskip. cbv zeta.
  assert (Hlast : forall e0,
             name ∉ usedOf kind e0 ->
             fails (entityItem readFile codeToHtml renderType g budget dir url single
                               (registryFor g kind) (usedOf kind e0) kind
                               match kind with
                               | KFunction => withFunction
                               | KClass => withClass
                               | KTypedef => withVar
                               end name e0)).
  { intros e0 He0. unfold entityItem. rewrite registered.
    rewrite bool_decide_eq_false_2 by exact He0. now apply fails_bind_l. }
  assert (Hret : forall (A B : Type) (a : A) (k : A -> Build B),
             fails (k a) -> fails (mret a ≫= k)).
  { intros A B a k Hk u r. rewrite build_bind_unfold. apply Hk. }
  assert (Hindex : forall b : bool, name ∉ usedOf kind (if b then withIndex e else e)).
  { intros []; [destruct kind|]; exact Hfree. }
  unfold entityOf in Hentity. rewrite Hname in *.
  destruct (String.eqb (i_kind item) "function") eqn:Hf.
  { apply String.eqb_eq in Hf. rewrite Hf in *. cbn [String.eqb Ascii.eqb Bool.eqb orb].
    destruct (g_functions g !! name) as [i0|] eqn:Hl; [|discriminate].
    injection Hentity as <- <-. cbn [registryFor usedOf] in Hlast.
    do 3 apply Hret. apply fails_bind_l, Hlast, Hindex. }
  destruct (String.eqb (i_kind item) "class") eqn:Hc.
  { apply String.eqb_eq in Hc. rewrite Hc in *. cbn [String.eqb Ascii.eqb Bool.eqb orb].
    destruct (g_classes g !! name) as [i0|] eqn:Hl; [|discriminate].
    injection Hentity as <- <-. cbn [registryFor usedOf] in Hlast.
    do 4 apply Hret. apply Hlast, Hindex. }
  destruct (String.eqb (i_kind item) "member" || String.eqb (i_kind item) "constant")
    eqn:Hv; [|discriminate].
  destruct (g_vars g !! name) as [i0|] eqn:Hl; [|discriminate].
  injection Hentity as <- <-. cbn [registryFor usedOf] in Hlast.
  assert (Hfile : String.eqb (i_kind item) "file" = false).
  { apply orb_true_iff in Hv as [Hv|Hv]; apply String.eqb_eq in Hv; now rewrite Hv. }
  assert (Htypedef : String.eqb (i_kind item) "typedef" = false).
  { apply orb_true_iff in Hv as [Hv|Hv]; apply String.eqb_eq in Hv; now rewrite Hv. }
  rewrite Hfile, Htypedef.
  do 2 apply Hret. apply fails_bind_l, Hlast, Hindex.
Qed.

(** Neither does the loop on items among which the entity stands. *)
Lemma items_rejected (items : list DocsJsDocItem) (item : DocsJsDocItem) (e : Entries) :
  In item items ->
  skipped item = false -> i_name item = name -> entityOf g item = Some (kind, info) ->
  name ∉ usedOf kind e ->
  fails (forEachB (itemRound readFile codeToHtml renderType g budget dir url single isIndex)
                  items e).
Proof.
  intros Hin Hskip Hname Hentity. revert e Hin.
  induction items as [|x rest IH]; intros e Hin Hfree u r; [destruct Hin|].
  cbn [forEachB]. rewrite build_bind_unfold.
  destruct (itemRound _ _ _ _ _ _ _ _ _ x e u) as [[e1 u1]| |] eqn:Hx; try discriminate.
  destruct Hin as [->|Hin].
  - now destruct (itemRound_rejected item e Hskip Hname Hentity Hfree u (e1, u1)).
  - apply (IH e1 Hin). now apply (itemRound_keeps x e e1 u u1).
Qed.

End Round.

(** *** From the examples to [getDocs] *)

Lemma getTypeContent_unreadable (docTypes : gmap string DocsAll) (dir url : string)
    (budget : nat) (info : DocsAll) (kind : DocsKind) (depth : nat)
    (examples : list string) :
  e_examples (mergeAlias docTypes info kind) = Some examples ->
  (kind = KTypedef -> isString (e_dir info) dir = true) ->
  unreadable readFile dir examples ->
  fails (getTypeContent readFile codeToHtml renderType docTypes dir url budget info kind depth).
Proof.
  intros Hex Hdir Hbad.
  destruct (normalizeExamples_unreadable readFile codeToHtml renderType dir
              (hTag (depth + 3)) examples Hbad) as [e He].
  now apply (getTypeContent_examples_rejected _ _ _ _ _ _ budget info kind depth examples e).
Qed.

Lemma getTypeContent_unreadable_rejected (docTypes : gmap string DocsAll) (dir url : string)
    (budget : nat) (info : DocsAll) (kind : DocsKind) (depth : nat)
    (examples : list string) (u : Unit) :
  e_examples (mergeAlias docTypes info kind) = Some examples ->
  (kind = KTypedef -> isString (e_dir info) dir = true) ->
  unreadable readFile dir examples ->
  2 * size (typeNames docTypes) + 3 <= budget ->
  exists e, getTypeContent readFile codeToHtml renderType docTypes dir url budget info kind
                           depth u = Rejected e.
Proof.
  intros Hex Hdir Hbad Hbudget.
  pose proof (getTypeContent_unreadable docTypes dir url budget info kind depth examples
                Hex Hdir Hbad u) as Hfails.
  pose proof (proj2 (resolver_live readFile codeToHtml renderType docTypes dir url budget)
                (size (typeNames docTypes)) info kind depth
                ltac:(destruct (isClass kind); lia) u (unusedNames_bound docTypes u))
    as Hlive.
  destruct (getTypeContent _ _ _ _ _ _ _ _ _ _ u) as [r|e|];
    [now destruct (Hfails r) | now exists e | now destruct Hlive].
Qed.

Lemma entityOf_registered (g : Registry) (item : DocsJsDocItem) (kind : DocsKind)
    (info : DocsAll) :
  entityOf g item = Some (kind, info) -> registryFor g kind !! i_name item = Some info.
Proof.
  unfold entityOf.
  repeat match goal with
         | |- context [if ?b then _ else _] => destruct b
         end; try discriminate;
    match goal with
    | |- context [?m !! i_name item] =>
        destruct (m !! i_name item) eqn:Hl; [|discriminate]
    end; cbn; intros [= <- <-]; exact Hl.
Qed.

Lemma page_rejected (args : DocsArgs) (g : Registry) (exportCounts : gmap string nat)
    (pages : Pages) (dir : string) (items : list DocsJsDocItem) (item : DocsJsDocItem)
    (kind : DocsKind) (info : DocsAll) (examples : list string) (p : Pages) :
  In item items -> skipped item = false ->
  entityOf g item = Some (kind, info) ->
  e_examples (mergeAlias (g_types g) info kind) = Some examples ->
  (kind = KTypedef -> isString (e_dir info) dir = true) ->
  unreadable readFile dir examples ->
  page readFile codeToHtml localeCompare toUpperCase renderType args g exportCounts pages
       (dir, items) <> Done p.
Proof.
  intros Hin Hskip Hentity Hex Hdir Hbad. unfold page.
  match goal with
  | |- context [forEachB ?body items noEntries emptyUnit] =>
      pose proof (items_rejected g (depthBound g) dir (url args)
                    (bool_decide (exportCounts !! dir = Some 1))
                    (String.eqb dir (srcDir args) && truthy (a_index args))
                    kind (i_name item) info (entityOf_registered g item kind info Hentity)
                    (getTypeContent_unreadable _ _ _ _ _ _ _ examples Hex Hdir Hbad)
                    items item noEntries Hin Hskip eq_refl Hentity
                    ltac:(destruct kind; cbn; set_solver) emptyUnit) as Hloop;
      destruct (forEachB body items noEntries emptyUnit) as [r| |]
  end; [now destruct (Hloop r) | discriminate | discriminate].
Qed.

Lemma forEachPage_rejected (args : DocsArgs) (g : Registry)
    (exportCounts : gmap string nat) (l : list (string * list DocsJsDocItem))
    (pages : Pages) (dir : string) (items : list DocsJsDocItem) (item : DocsJsDocItem)
    (kind : DocsKind) (info : DocsAll) (examples : list string) (p : Pages) :
  In (dir, items) l -> In item items -> skipped item = false ->
  entityOf g item = Some (kind, info) ->
  e_examples (mergeAlias (g_types g) info kind) = Some examples ->
  (kind = KTypedef -> isString (e_dir info) dir = true) ->
  unreadable readFile dir examples ->
  forEachPage readFile codeToHtml localeCompare toUpperCase renderType args g exportCounts
              l pages <> Done p.
Proof.
  intros Hl Hin Hskip Hentity Hex Hdir Hbad. revert pages Hl.
  induction l as [|source rest IH]; intros pages Hl; [destruct Hl|].
  cbn [forEachPage].
  destruct (page _ _ _ _ _ _ _ _ _ source) as [p1| |] eqn:Hpage;
    [|discriminate | discriminate].
  destruct Hl as [->|Hl].
  - now destruct (page_rejected args g exportCounts pages dir items item kind info examples
                    p1 Hin Hskip Hentity Hex Hdir Hbad).
  - cbn. now apply IH.
Qed.

Lemma getDocs_unfold (args : DocsArgs) (sourceFiles : list SourceFile) :
  getDocs readFile codeToHtml explain localeCompare toUpperCase renderType args sourceFiles
  = (pages ← forEachPage readFile codeToHtml localeCompare toUpperCase renderType args
                         (registryOf args sourceFiles) (exports (readOf args sourceFiles))
                         (sourcesOf explain args sourceFiles)
                         {| indexMap := ∅; result := [] |};
     Done (result pages)).
Proof. reflexivity. Qed.

Lemma getDocs_rejected (args : DocsArgs) (sourceFiles : list SourceFile)
    (dir : string) (items : list DocsJsDocItem) (item : DocsJsDocItem)
    (kind : DocsKind) (info : DocsAll) (examples : list string) :
  In (dir, items) (sourcesOf explain args sourceFiles) -> In item items ->
  skipped item = false ->
  entityOf (registryOf args sourceFiles) item = Some (kind, info) ->
  e_examples (mergeAlias (g_types (registryOf args sourceFiles)) info kind) = Some examples ->
  (kind = KTypedef -> isString (e_dir info) dir = true) ->
  unreadable readFile dir examples ->
  exists e, getDocs readFile codeToHtml explain localeCompare toUpperCase renderType
                    args sourceFiles = Rejected e.
Proof.
  intros Hl Hin Hskip Hentity Hex Hdir Hbad.
  pose proof (getDocs_settles readFile codeToHtml explain localeCompare toUpperCase
                renderType args sourceFiles) as Hlive.
  rewrite getDocs_unfold in *.
  match goal with
  | |- context [forEachPage _ _ _ _ _ ?a ?g ?x ?l ?p] =>
      pose proof (fun q => forEachPage_rejected a g x l p dir items item kind info examples q
                             Hl Hin Hskip Hentity Hex Hdir Hbad) as Hpages;
      destruct (forEachPage readFile codeToHtml localeCompare toUpperCase renderType
                            a g x l p) as [q|e|]
  end; [now destruct (Hpages q) | now exists e | now destruct Hlive].
Qed.

End Rejects.

(** C6 (as amended). Let an entity that [getDocs] renders on the page of a
    directory (the function, the class or the variable the registries hold
    under the name of an item of the directory that is neither private nor
    undocumented; a variable being one of that directory) carry examples,
    one of which has a code that starts with ['.'] and names a file that
    cannot be read from the directory. Then the failure is not local to
    the example: [normalizeExamples] on these examples is rejected;
    [getTypeContent] on the entity is rejected, with the budget [getDocs]
    gives it or a larger one, whatever the unit built so far; [getDocs]
    itself is rejected, whichever render type is set, and returns the page
    of no directory; and [renderMarkdownDocs], which awaits [getDocs]
    before it writes, writes no file. *)
Theorem unreadable_example_rejects_entity
    (readFile : string -> string -> option string)
    (codeToHtml : string -> string -> string) (explain : string -> list DocsJsDocItem)
    (localeCompare : string -> string -> Z) (toUpperCase : string -> string)
    (args : DocsArgs) (sourceFiles : list SourceFile)
    (dir : string) (items : list DocsJsDocItem) (item : DocsJsDocItem)
    (kind : DocsKind) (info : DocsAll) (examples : list string) :
  In (dir, items) (sourcesOf explain args sourceFiles) -> In item items ->
  skipped item = false ->
  entityOf (registryOf args sourceFiles) item = Some (kind, info) ->
  e_examples (mergeAlias (g_types (registryOf args sourceFiles)) info kind) = Some examples ->
  (kind = KTypedef -> isString (e_dir info) dir = true) ->
  unreadable readFile dir examples ->
  (forall renderType tag, exists e,
      normalizeExamples readFile codeToHtml renderType examples dir tag = Rejected e) /\
  (forall renderType url budget depth u,
      depthBound (registryOf args sourceFiles) <= budget ->
      exists e,
        getTypeContent readFile codeToHtml renderType (g_types (registryOf args sourceFiles))
                       dir url budget info kind depth u = Rejected e) /\
  (forall renderType, exists e,
      getDocs readFile codeToHtml explain localeCompare toUpperCase renderType args sourceFiles
      = Rejected e) /\
  (exists e,
      markdownFiles readFile codeToHtml explain localeCompare toUpperCase args sourceFiles
      = Rejected e).
Proof.
  intros Hl Hin Hskip Hentity Hex Hdir Hbad.
  assert (Hdocs : forall renderType, exists e,
             getDocs readFile codeToHtml explain localeCompare toUpperCase renderType
                     args sourceFiles = Rejected e).
  { intros renderType.
    now apply (getDocs_rejected readFile codeToHtml explain localeCompare toUpperCase
                 renderType args sourceFiles dir items item kind info examples). }
  split; [|split; [|split]].
  - intros renderType tag. now apply normalizeExamples_unreadable.
  - intros renderType url0 budget depth u Hbudget.
    now apply (getTypeContent_unreadable_rejected readFile codeToHtml renderType _ dir url0
                 budget info kind depth examples u).
  - exact Hdocs.
  - destruct (Hdocs Markdown) as [e He]. exists e. unfold markdownFiles. now rewrite He.
Qed.

Lemma unreadable_example_rejects_entity_witness :
  exists info,
    entityOf (registryOf plainArgs withFileExample) renderItem = Some (KFunction, info) /\
    unreadable noFile "src/button" ["ts: ./render.example.ts"] /\
    (forall renderType tag, exists e,
        normalizeExamples noFile plainCode renderType ["ts: ./render.example.ts"]
                          "src/button" tag = Rejected e) /\
    (forall renderType url budget depth u,
        depthBound (registryOf plainArgs withFileExample) <= budget ->
        exists e,
          getTypeContent noFile plainCode renderType
                         (g_types (registryOf plainArgs withFileExample))
                         "src/button" url budget info KFunction depth u = Rejected e) /\
    (forall renderType, exists e,
        getDocs noFile plainCode noIndex byCodeUnits asciiUpper renderType plainArgs
                withFileExample = Rejected e) /\
    (exists e,
        markdownFiles noFile plainCode noIndex byCodeUnits asciiUpper plainArgs withFileExample
        = Rejected e).
Proof.
  eexists. split; [vm_compute; reflexivity|].
  assert (Hbad : unreadable noFile "src/button" ["ts: ./render.example.ts"]).
  { exists "ts: ./render.example.ts". split; [set_solver | split; reflexivity]. }
  split; [exact Hbad|].
  eapply (unreadable_example_rejects_entity noFile plainCode noIndex byCodeUnits asciiUpper
            plainArgs withFileExample "src/button" _ _ KFunction _
            ["ts: ./render.example.ts"]).
  - vm_compute. left. reflexivity.
  - left. reflexivity.
  - reflexivity.
  - vm_compute. reflexivity.
  - vm_compute. reflexivity.
  - discriminate.
  - exact Hbad.
Defined.

(** C6 as stated fails: the failed read is not local to the example. The
    examples are rejected, not empty; the function that carries them is
    not rendered; and [getDocs] returns no page at all, of this directory
    or another, whichever renderer called it, so that [renderMarkdownDocs]
    writes no file. *)
Lemma unreadable_example_not_local :
  normalizeExamples noFile plainCode Markdown ["ts: ./getDocs.txt"] "src" "h4"
  = Rejected (ReadFailure "src" "./getDocs.txt") /\
  getTypeContent noFile plainCode Markdown ∅ "src" "" 3 withMissingExample KFunction 1 emptyUnit
  = Rejected (ReadFailure "src" "./getDocs.txt") /\
  getDocs noFile plainCode noIndex byCodeUnits asciiUpper Markdown plainArgs
          (themeAndButton ++ withFileExample)
  = Rejected (ReadFailure "src/button" "./render.example.ts") /\
  getDocs noFile plainCode noIndex byCodeUnits asciiUpper Html plainArgs
          (themeAndButton ++ withFileExample)
  = Rejected (ReadFailure "src/button" "./render.example.ts") /\
  markdownFiles noFile plainCode noIndex byCodeUnits asciiUpper plainArgs
                (themeAndButton ++ withFileExample)
  = Rejected (ReadFailure "src/button" "./render.example.ts").
Proof. repeat split; vm_compute; reflexivity. Qed.
